(* ===== verification/_CoqProject ===== *)
-Q . S2P
Prelude.v
KString.v
Kernel.v
Filesystems.v
Links.v
Inode.v
InodeInv.v
Dcache.v
DcacheInv.v
DcacheOps.v
Prune.v
Walk.v
Shrink.v
VfsCheck.v
Super.v
Mount.v
SuperSpec.v
Libfs.v
LibfsSpec.v
Groups.v
Namei.v
Attr.v
Path.v
Vfs.v
LookupSpec.v
Aufs.v
Open.v
Stat.v
Calls.v
PermSpec.v
StatSpec.v
AufsSpec.v
AufsCreate.v
AufsTree.v
FillSuper.v
KernMount.v
PathCount.v
PathNames.v
PathSpec.v
VfsSpec.v
RenameSpec.v
Typed.v
Unmount.v
TreeCheck.v
AufsInit.v
Unload.v
AufsFile.v
OpenSpec.v
CallSpec.v
AttrSpec.v
CwdSpec.v
Process.v
Boot.v
Witnesses.v
UserMachine.v
CallMachine.v
