(* ===== verification/Prelude.v ===== *)
(** * A verification of the aufs module and of the kernel below it

    ** The program

    [src/aufs] is a small in-memory file system in the form of a Linux module.
    Loading it registers a file-system type, mounts it inside the kernel and
    creates two directories of three files each; all files show one switch that
    a write sets and a read prints.  The module is a thin layer: nearly all it
    does happens in the virtual file system below it, for which the repository
    vendors the sources of Linux 2.6.14 (written L/ here, for
    [src/3rd/linux-2.6.14/linux-2.6.14/]).  The development models the module
    completely and, of the vendored kernel, the functions the module reaches and
    their neighbours in the same files.

    The parts and their interplay: [aufs_init] (aufs.c) calls
    [register_filesystem] (L/fs/filesystems.c) and an in-kernel mount
    (L/fs/super.c, L/fs/namespace.c), which makes a superblock and lets
    [aufs_fill_super] (supper.h) fill it through [simple_fill_super]
    (L/fs/libfs.c); then [aufs_create_dir] and [aufs_create_file] (file.h) go
    through [aufs_create_by_name] (dentry.h), which looks the name up with
    [lookup_one_len] (L/fs/namei.c) in the dentry cache (L/fs/dcache.c) and
    makes an inode (node.h, L/fs/inode.c).  [aufs_exit] unmounts.  User programs
    reach the tree by paths (L/fs/namei.c), through the calls that make, remove
    and rename entries, through the calls on attributes and working directories
    (L/fs/stat.c, L/fs/open.c), and through open files (L/fs/open.c,
    L/fs/file_table.c, L/fs/read_write.c), whose read and write methods are those
    of file.h.

    ** The files

    - Prelude: record update, machine integers, the state-and-fault monad, its
      total-correctness logic [wp], the loop combinator, tactics, hint databases.
    - KString: L/lib/string.c over byte lists.
    - Kernel: the C structures as records, the state [kstate] of the kernel (the
      heap, one map from addresses per structure type, and the global variables
      of the modelled files), accesses, allocation, user memory.
    - Filesystems: L/fs/filesystems.c with its slots, and its theorems.
    - Links: intrusive lists, as an agreement between heads and nodes.
    - Inode, InodeInv: L/fs/inode.c; the invariant [inode_inv] and its proofs.
    - Dcache, DcacheInv, DcacheOps: L/fs/dcache.c and L/include/linux/dcache.h;
      the invariant [dcache_inv], [vfs_inv] of both caches; release; allocation,
      hashing and lookup.
    - Prune: the reclaiming of unused dentries.
    - Walk: the forest of dentries below a root, and the walk of [d_genocide].
    - Shrink: [shrink_dcache_parent], [shrink_dcache_anon] and the killing of a
      whole tree.
    - VfsCheck: a boolean checker of [vfs_inv] and its soundness.
    - Super, Mount: L/fs/super.c, L/fs/namespace.c.
    - SuperSpec: device numbers, the superblock that [sget] makes, a new mount.
    - Libfs, LibfsSpec: L/fs/libfs.c; reads from buffers, readdir.
    - Groups: the group sets of L/kernel/sys.c.
    - Namei, LookupSpec: permissions and the lookup of one name, L/fs/namei.c.
    - Attr: L/fs/attr.c, with vmtruncate of L/mm/memory.c, the times of
      L/kernel/time.c and the dirty lists of L/fs/fs-writeback.c.
    - Path, Vfs: the walks of paths, and the operations on names up to the system
      calls, L/fs/namei.c.
    - Aufs: the five files of the module, one section each.
    - Open: open files, L/fs/file_table.c, the second half of L/fs/open.c and
      L/fs/read_write.c.
    - Stat: L/fs/stat.c with the structures of user space and the encodings of
      device numbers; StatSpec: the space accounting of an inode.
    - PermSpec: whom the permission check lets pass.
    - Calls: the first half of L/fs/open.c (statfs, truncate, utime, access,
      chdir, chroot, chmod, chown), set_fs_pwd and set_fs_root of
      L/fs/namespace.c and getcwd of L/fs/dcache.c.
    - AufsSpec, AufsCreate: the branches of node.h and dentry.h.
    - AufsTree: the abstract tree, its representation [tree_rep] relative to what
      is required of the inodes of directories ([tree_inv]: the task may search
      them; [tree_shape]: nothing), and that the creating functions refine the
      insertion of an entry.
    - FillSuper: the root that [aufs_fill_super] makes.
    - KernMount: the interface that the module mounts itself through, made of the
      vendored mount path; the class [KernMount] states what the module relies
      on, and the vendored path is its instance.
    - PathCount: states that differ in the reference counts of dentries and
      mounts ([adj], [madj], [settled]), which is what a walk changes.
    - PathNames: the components of a path.
    - PathSpec: [walkable], a mounted tree, whatever rights the task has, and that
      walks of paths refine walks in the abstract tree by a task that may search
      some of its directories ([search]).
    - VfsSpec, RenameSpec: the calls on names on such a tree.
    - Typed: heaps whose pointers lead to structures of their type.
    - OpenSpec: open, read, write and close of its files, and the files that
      cannot be reached.
    - CallSpec: stat, chdir and access on paths that lie in user memory.
    - AttrSpec: chmod, chown, lchown and utime.
    - CwdSpec: the spelling of the working directory.
    - Process: user programs as a step relation, whose steps are these calls and
      what happens between them.
    - Unmount: the release of such a mount.
    - TreeCheck: boolean checkers of [tree_inv] and [walkable], and their
      soundness.
    - AufsInit, Unload, AufsFile: loading the module; what unloading leaves; the
      switch.
    - Boot: a booted machine on which the whole program is evaluated.
    - Witnesses: theorems with hypotheses applied on that machine.
    - UserMachine: the loaded module with a user program whose root is the root
      of aufs, and the theorems about paths and files applied there.
    - CallMachine: the same machine with names and buffers in user memory, and
      the theorems about the other calls.

    ** State, effects and faults

    A C function is a computation of type [KM A := kstate → outcome]: it returns
    a value and a state, or faults.  The faults are an access through an address
    where no such object lives ([BadPtr], which covers NULL, error pointers and
    use after free, since addresses are never reused), a failed BUG_ON ([Bug]),
    waiting for something no other task will do ([Deadlock]) and a loop that ran
    out of its bound ([OutOfFuel]).  [wp m Q s] says that [m] returns from [s]
    without a fault and that [Q] holds of result and final state, so every
    theorem in terms of [wp] includes absence of faults and termination.  Memory
    runs out as the list [slab_fail] of the state says, call by call, and an
    inode from the slab holds what [slab_inode] says, which is arbitrary.
    Integers are [Z], cut to their width ([u16], [u32], [s32]) where C does so.

    ** What the theorems show

    - The invariants: every node of the inode and dentry caches is on the lists
      and hash chains it claims to be on, once; each dentry is in the bucket that
      its parent and name hash to; counts are the references of children and
      dentries plus those that callers hold (the ghost functions [iext], [dext]);
      the numbers of inodes, of dentries and of unused dentries are right (the
      number of unused inodes is not part of the invariant).  [iput], [dput],
      [new_inode], [d_alloc], lookup, hashing, pruning, mounting and the functions
      of aufs keep them.  [dput] ends whatever chain of parents it frees; neither
      it nor pruning frees a dentry that somebody holds.
    - Functional behaviour on every branch of the table of file systems, of
      lookup, of inode and entry creation, of the loading of the module and of
      reads, with the errors as they are returned.
    - Refinement: creation and lookup implement an abstract tree; the eight
      creations of [aufs_init] build the tree the module means to build.
    - Paths: a walk of a path, through slashes, dots and names, returns the object
      that the abstract tree has under it with one reference to dentry and mount,
      or the error of the first component that fails, be it that there is no such
      entry, no directory or no right to search it, with no reference left.
    - What user programs can do: no call on names changes the tree or leaks a
      reference, since the directories of aufs have no method but lookup;
      opening a file grants what its permissions grant, and opening and closing it
      is a round trip; a session that writes and reads sees the switch; stat
      reports what the abstract tree says; chdir and chmod refine their abstract
      counterparts; the text of getcwd is spelled by the chain of the working
      directory and leads back to it; owner, group, mode and given times change
      for nobody but the owner and tasks with the capability to act as one; access
      asks with the real ids and restores the credentials.
    - Programs: by induction over the steps of the machine, every state that user
      programs reach is typed (every pointer of the caches leads to a structure of
      its type that points back), shows the tree it started with up to the modes
      of files, and lets every further call end without a fault.
    - Composition: loading is proved over any mount with the promise of
      [KernMount] and, since the vendored path keeps it, for the whole program
      from every machine in order.
    - Killing a tree: of a tree pinned by one reference per dentry nothing is
      left, of the module's tree, which has two per dentry, everything.
    - Round trips and equivalences: register and unregister, mount and unmount,
      rehash and lookup, drop and lookup, open and close, getcwd and walk, write
      and read, adding and subtracting space, the incremental and the whole name
      hash, Shell sort and sortedness, binary search and membership.
    - What goes wrong: the error pointer that is not tested, the mount failure
      that is reported as success, the references that are never given up, the
      directories that only their owner can search, the group search that misses
      a member.

    ** Bounds and fuel

    Structural recursion follows the C loops over lists.  The [goto] loops of
    [dput], of the walks over the dentry tree, of pruning, of paths, mount points
    and locks on two directories, and of the table of file systems use [loop]
    with a bound computed from the state (the number of dentries, of mounts, of
    table entries) or from the path (its length).  [OutOfFuel] is a fault, so the
    theorems about [dput], the shrinking functions, the walks over the dentry tree
    and of paths, the calls on names and the table show that the bound is enough.
    [read_all] has the length of the buffer plus one as its fuel, which is the
    number of reads of one byte.

    ** Not modelled

    - Concurrency: every function runs to its end, so locks, RCU and atomic
      operations are sequential.  A wait for another task is [Deadlock].
    - Write-back, block devices, the page cache, quotas, security modules,
      notification, symbolic links and namespaces: a file system in memory
      reaches none of them.  No inode of a modelled file system has a
      [follow_link] method.  [fsync_super] has nothing to write.  L/lib/idr.c
      enters as the smallest free number it documents.
    - Of the system calls, the allocation of descriptors, getdents (the directory
      reader below it is modelled with any consumer of entries), POSIX locks,
      asynchronous and vectored transfers, stat for old programs and utimes.
      Methods of devices and sockets, which an open of a special file installs,
      are parameters.
    - The newer interface the module was written against ([mount_single],
      [kern_mount] of a type with a [mount] method, [kern_unmount],
      [current_fsuid], [current_fsgid]) is not in the repository: parameters,
      instantiated in KernMount by the vendored mount path.
    - The other vendored projects (ceph, glusterfs, rocksdb, phxpaxos, libfuse,
      sshfs, fuse-ext2, fast-fs) and the rest of the kernel: the module neither
      builds nor calls them. *)

From stdpp Require Export base gmap list strings sets fin_maps.
From Stdlib Require Export ZArith Lia.

(** ** Prelude

    Shared vocabulary of the development: record update, machine integers,
    the state-and-fault monad in which every C function is written, its
    postcondition logic, the fuelled loop combinator for [goto] loops, and
    the list lemmas the components share. *)

#[export] Set Default Goal Selector "!".
#[export] Set Warnings "-clear-no-such-hyp".
Open Scope Z_scope.

Declare Scope kernel_scope.
Delimit Scope kernel_scope with K.

(** ** Record update

    [r <| f := v |>] replaces the field [f] of [r].  The class [Eta] names the
    eta expansion of a record type; a field's setter is obtained from it by
    abstracting the field. *)

Class Eta (R : Type) := eta_expand : R → R.
Class Upd {R T : Type} (proj : R → T) := upd : (T → T) → R → R.
Arguments upd {R T} proj {_} _ _.

Ltac derive_upd proj :=
  let f := fresh "f" in
  let r := fresh "r" in
  unfold Upd; intros f r;
  let t := eval hnf in (eta_expand r) in
  let p := eval pattern (proj r) in t in
  lazymatch p with
  | ?body _ => let u := eval cbv beta in (body (f (proj r))) in exact u
  end.

#[export] Hint Extern 0 (Upd ?proj) => derive_upd proj : typeclass_instances.

Notation "r <| f ::= g |>" := (upd f g r)
  (at level 1, left associativity, f at level 9, g at level 200).
Notation "r <| f := v |>" := (upd f (λ _, v) r)
  (at level 1, left associativity, f at level 9, v at level 200).

(** ** Machine integers

    The kernel is compiled for a 32-bit machine: [unsigned long] and pointers
    are integers modulo 2^32, [int] and [long] are their signed views. *)

Definition two32 : Z := 4294967296.
Definition u32 (z : Z) : Z := z mod two32.
Definition s32 (z : Z) : Z := (z + 2147483648) mod two32 - 2147483648.

Lemma u32_range z : 0 ≤ u32 z < two32.
Proof. apply Z.mod_pos_bound. unfold two32. lia. Qed.

Lemma u32_small z : 0 ≤ z < two32 → u32 z = z.
Proof. apply Z.mod_small. Qed.

Lemma u32_neg e : 0 < e ≤ two32 → u32 (- e) = two32 - e.
Proof. intros. unfold u32. rewrite <-(Z.mod_add _ 1), Z.mod_small; unfold two32 in *; lia. Qed.

Lemma u32_idemp z : u32 (u32 z) = u32 z.
Proof. apply u32_small, u32_range. Qed.

Lemma s32_small z : -2147483648 ≤ z < 2147483648 → s32 z = z.
Proof. unfold s32, two32. intros. rewrite Z.mod_small; lia. Qed.

Lemma s32_u32 z : s32 (u32 z) = s32 z.
Proof. unfold s32, u32. by rewrite Zplus_mod_idemp_l. Qed.

Lemma u32_add_mod_l a b : u32 (u32 a + b) = u32 (a + b).
Proof. unfold u32. by rewrite Zplus_mod_idemp_l. Qed.

Lemma u32_add_mod_r a b : u32 (a + u32 b) = u32 (a + b).
Proof. unfold u32. by rewrite Zplus_mod_idemp_r. Qed.

Lemma u32_mul_mod_l a b : u32 (u32 a * b) = u32 (a * b).
Proof. unfold u32. by rewrite Zmult_mod_idemp_l. Qed.

(** Flag words: a bit test, as C's [x & flag]. *)
Definition has_flag (x flag : Z) : bool := negb (Z.land x flag =? 0).
Definition set_flag (x flag : Z) : Z := Z.lor x flag.
Definition clear_flag (x flag : Z) : Z := Z.ldiff x flag.

Lemma has_flag_set x f : f ≠ 0 → has_flag (set_flag x f) f = true.
Proof.
  intros Hf. unfold has_flag, set_flag. apply negb_true_iff, Z.eqb_neq.
  assert (Z.land (Z.lor x f) f = f) as ->; [|done].
  Z.bitwise. by destruct (Z.testbit x m), (Z.testbit f m).
Qed.

Lemma has_flag_clear x f : has_flag (clear_flag x f) f = false.
Proof.
  unfold has_flag, clear_flag. apply negb_false_iff, Z.eqb_eq.
  Z.bitwise. by destruct (Z.testbit x m), (Z.testbit f m).
Qed.

Lemma has_flag_set_other x f g :
  Z.land f g = 0 → has_flag (set_flag x f) g = has_flag x g.
Proof.
  intros H. unfold has_flag, set_flag. by rewrite Z.land_lor_distr_l, H, Z.lor_0_r.
Qed.

Lemma has_flag_clear_other x f g :
  Z.land f g = 0 → has_flag (clear_flag x f) g = has_flag x g.
Proof.
  intros H. unfold has_flag, clear_flag. do 2 f_equal. apply Z.bits_inj'. intros n Hn.
  assert (Z.testbit (Z.land f g) n = false) as Hb by (by rewrite H, Z.bits_0).
  rewrite Z.land_spec in Hb. rewrite !Z.land_spec, Z.ldiff_spec.
  destruct (Z.testbit f n), (Z.testbit g n), (Z.testbit x n); done.
Qed.

(** ** The monad of C functions

    A function that runs to completion returns a value and the new state; one
    that would crash or hang the machine is a fault, which is a value of the
    model and not an absence of result. *)

Inductive fault : Type :=
  | BadPtr (p : Z)      (** access through NULL, an error pointer or freed memory *)
  | Bug                 (** [BUG()] or [BUG_ON()] fired *)
  | Deadlock            (** a semaphore taken twice by the same thread *)
  | OutOfFuel.          (** the bound given to a loop was too small *)

#[export] Instance fault_eq_dec : EqDecision fault.
Proof. solve_decision. Defined.

Inductive outcome (S A : Type) : Type :=
  | Ok (a : A) (s : S)
  | Fault (f : fault).
Arguments Ok {S A} _ _.
Arguments Fault {S A} _.

Definition M (S A : Type) : Type := S → outcome S A.

#[export] Instance M_ret {S} : MRet (M S) := λ A a s, Ok a s.
#[export] Instance M_bind {S} : MBind (M S) := λ A B k m s,
  match m s with
  | Ok a s' => k a s'
  | Fault f => Fault f
  end.

Definition raise {S A} (f : fault) : M S A := λ _, Fault f.
Definition gets {S A} (f : S → A) : M S A := λ s, Ok (f s) s.
Definition modify {S} (f : S → S) : M S unit := λ s, Ok tt (f s).
Definition bug_on {S} (b : bool) : M S unit := if b then raise Bug else mret tt.
Definition mwhen {S} (b : bool) (m : M S unit) : M S unit := if b then m else mret tt.

(** [for] loops over a list whose spine the body does not change. *)
Fixpoint mfor {S A} (l : list A) (f : A → M S unit) : M S unit :=
  match l with
  | [] => mret tt
  | x :: l' => f x ;; mfor l' f
  end.

(** Loops written with [goto], [while] or [for (;;)]: the body either asks for
    another round ([inl]) or leaves ([inr]). *)
Fixpoint loop {S A B} (fuel : nat) (body : A → M S (A + B)) (a : A) : M S B :=
  match fuel with
  | O => raise OutOfFuel
  | Datatypes.S n =>
      r ← body a;
      match r with
      | inl a' => loop n body a'
      | inr b => mret b
      end
  end.

(** ** Postconditions

    [wp m Q s]: started in [s], [m] does not fault and ends in a result and a
    state that satisfy [Q] -- total correctness. *)

Definition wp {S A} (m : M S A) (Q : A → S → Prop) (s : S) : Prop :=
  match m s with
  | Ok a s' => Q a s'
  | Fault _ => False
  end.

Section wp.
Context {S : Type}.
Implicit Types s : S.

Lemma wp_ret {A} (a : A) (Q : A → S → Prop) s : Q a s → wp (mret a) Q s.
Proof. done. Qed.

Lemma wp_bind {A B} (m : M S A) (k : A → M S B) Q s :
  wp m (λ a s', wp (k a) Q s') s → wp (m ≫= k) Q s.
Proof. unfold wp, mbind, M_bind. by destruct (m s). Qed.

Lemma wp_bind_inv {A B} (m : M S A) (k : A → M S B) Q s :
  wp (m ≫= k) Q s → wp m (λ a s', wp (k a) Q s') s.
Proof. unfold wp, mbind, M_bind. by destruct (m s). Qed.

Lemma wp_mono {A} (m : M S A) (P Q : A → S → Prop) s :
  wp m P s → (∀ a s', P a s' → Q a s') → wp m Q s.
Proof. unfold wp. destruct (m s); eauto. Qed.

Lemma wp_conj {A} (m : M S A) (P Q : A → S → Prop) s :
  wp m P s → wp m Q s → wp m (λ a s', P a s' ∧ Q a s') s.
Proof. unfold wp. by destruct (m s). Qed.

Lemma wp_gets {A} (f : S → A) Q s : Q (f s) s → wp (gets f) Q s.
Proof. done. Qed.

Lemma wp_modify (f : S → S) Q s : Q tt (f s) → wp (modify f) Q s.
Proof. done. Qed.

Lemma wp_bug_on b (Q : unit → S → Prop) s : b = false → Q tt s → wp (bug_on b) Q s.
Proof. by intros ->. Qed.

Lemma wp_mwhen b (m : M S unit) Q s :
  (b = true → wp m Q s) → (b = false → Q tt s) → wp (mwhen b m) Q s.
Proof. destruct b; intros H1 H2; [by apply H1|by apply H2]. Qed.

Lemma wp_run {A} (m : M S A) Q s :
  wp m Q s ↔ ∃ a s', m s = Ok a s' ∧ Q a s'.
Proof.
  unfold wp. destruct (m s) as [a s'|f]; split.
  - eauto.
  - intros (a' & s'' & [= -> ->] & ?). done.
  - done.
  - by intros (? & ? & ? & _).
Qed.

Lemma wp_eq {A} (m : M S A) (Q : A → S → Prop) s a s' :
  m s = Ok a s' → Q a s' → wp m Q s.
Proof. unfold wp. by intros ->. Qed.

Lemma wp_start {A} (m : M S A) Q s s' : s = s' → wp m Q s' → wp m Q s.
Proof. by intros ->. Qed.

(** What runs before a fault, and the fault. *)
Lemma fault_after {A B} (m : M S A) (k : A → M S B) f s :
  wp m (λ a s', k a s' = Fault f) s → (m ≫= k) s = Fault f.
Proof. unfold wp, mbind, M_bind. by destruct (m s). Qed.

(** A loop whose measure decreases at every further round ends. *)
Lemma wp_loop {A B} (I : A → S → Prop) (mu : A → S → nat)
    fuel (body : A → M S (A + B)) a s (Q : B → S → Prop) :
  (∀ a s, I a s →
     wp (body a) (λ r s', match r with
                          | inl a' => I a' s' ∧ (mu a' s' < mu a s)%nat
                          | inr b => Q b s'
                          end) s) →
  I a s → (mu a s < fuel)%nat →
  wp (loop fuel body a) Q s.
Proof.
  intros Hbody. revert a s. induction fuel as [|n IH]; intros a s HI Hmu; [lia|].
  simpl. apply wp_bind. eapply wp_mono; [by apply Hbody|].
  intros [a'|b] s' H'; simpl in *; [|done]. apply IH; [tauto|lia].
Qed.

Lemma wp_mfor {A} (I : list A → S → Prop) (l : list A) (f : A → M S unit) s Q :
  I l s →
  (∀ x l' s', I (x :: l') s' → wp (f x) (λ _ s'', I l' s'') s') →
  (∀ s', I [] s' → Q tt s') →
  wp (mfor l f) Q s.
Proof.
  intros HI Hf HQ. revert s HI. induction l as [|x l IH]; intros s HI; simpl.
  - apply wp_ret. auto.
  - apply wp_bind. eapply wp_mono; [by apply Hf|]. auto.
Qed.
End wp.

(** [wp_step] runs one instruction of a straight-line function; lemmas about
    the primitives and the callees are in the hint database [wp]. *)
Create HintDb wp discriminated.
#[export] Hint Constants Opaque : wp.
#[export] Hint Resolve wp_ret wp_gets wp_modify wp_bug_on : wp.

(** ** Lists *)

(** Unlinking a node of an intrusive list. *)
Definition list_del (x : Z) (l : list Z) : list Z := filter (λ y, y ≠ x) l.

Lemma elem_of_list_del x y l : y ∈ list_del x l ↔ y ≠ x ∧ y ∈ l.
Proof. unfold list_del. by rewrite list_elem_of_filter. Qed.

Lemma NoDup_list_del x l : NoDup l → NoDup (list_del x l).
Proof. apply NoDup_filter. Qed.

Lemma list_del_notin x l : x ∉ l → list_del x l = l.
Proof.
  induction l as [|y l IH]; [done|]. rewrite not_elem_of_cons. intros [? ?].
  unfold list_del in *. rewrite filter_cons_True by done. by rewrite IH.
Qed.

Lemma list_del_cons_eq x l : x ∉ l → list_del x (x :: l) = l.
Proof.
  intros. unfold list_del. rewrite filter_cons_False by (by intros []).
  by apply list_del_notin.
Qed.

Lemma length_list_del x l : NoDup l → x ∈ l → length l = S (length (list_del x l)).
Proof.
  induction 1 as [|y l Hy Hl IH]; [by intros ?%not_elem_of_nil|].
  destruct (decide (x = y)) as [->|Hne].
  - intros _. by rewrite list_del_cons_eq.
  - rewrite elem_of_cons. intros [?|Hx]; [done|].
    unfold list_del in *. rewrite filter_cons_True by done. simpl. by rewrite <-IH.
Qed.

(** Where the last node of a list is found. *)
Lemma snoc_split (x : Z) l l1 l2 :
  NoDup (l ++ [x]) → l ++ [x] = l1 ++ x :: l2 → l1 = l ∧ l2 = [].
Proof.
  intros Hnd Heq. destruct (decide (l2 = [])) as [->|Hne].
  - apply app_inj_tail in Heq as [-> _]. done.
  - exfalso. destruct (exists_last Hne) as (l' & y & ->).
    rewrite (app_comm_cons l' [y] x), app_assoc in Heq. apply app_inj_tail in Heq as [-> ->].
    apply NoDup_app in Hnd. set_solver.
Qed.

(** The nodes that follow [x] on a list: C's walk from [x->next]. *)
Fixpoint list_after (x : Z) (l : list Z) : list Z :=
  match l with
  | [] => []
  | y :: l' => if y =? x then l' else list_after x l'
  end.

Lemma list_after_app x l1 l2 : x ∉ l1 → list_after x (l1 ++ x :: l2) = l2.
Proof.
  induction l1 as [|y l1 IH]; simpl.
  - by rewrite Z.eqb_refl.
  - rewrite not_elem_of_cons. intros [? ?].
    rewrite (proj2 (Z.eqb_neq y x)) by done. auto.
Qed.

Lemma list_fmap_ext_elem {A B} (f g : A → B) (l : list A) :
  (∀ x, x ∈ l → f x = g x) → f <$> l = g <$> l.
Proof. intros H. apply list_fmap_ext. intros i x Hi. eapply H, list_elem_of_lookup_2, Hi. Qed.

(** ** Tactics *)

(** Turn boolean tests of the code into propositions. *)
Ltac bool_to_prop :=
  repeat match goal with
  | H : (_ =? _) = true |- _ => apply Z.eqb_eq in H
  | H : (_ =? _) = false |- _ => apply Z.eqb_neq in H
  | H : negb _ = true |- _ => apply negb_true_iff in H
  | H : negb _ = false |- _ => apply negb_false_iff in H
  | H : (_ <? _) = true |- _ => apply Z.ltb_lt in H
  | H : (_ <? _) = false |- _ => apply Z.ltb_ge in H
  | H : (_ <=? _) = true |- _ => apply Z.leb_le in H
  | H : (_ <=? _) = false |- _ => apply Z.leb_gt in H
  | H : (_ >? _) = _ |- _ => rewrite Z.gtb_ltb in H
  | H : (_ >=? _) = _ |- _ => rewrite Z.geb_leb in H
  | H : (_ && _) = true |- _ => apply andb_true_iff in H as [? ?]
  | H : (_ || _) = false |- _ => apply orb_false_iff in H as [? ?]
  | H : bool_decide _ = true |- _ => apply bool_decide_eq_true in H
  | H : bool_decide _ = false |- _ => apply bool_decide_eq_false in H
  end.
