(* ===== verification/KString.v ===== *)
(** * C strings (lib/string.c)

    A [const char *] is the list of its bytes, each in 0..255, without the
    terminating NUL: reading one past the last byte gives NUL.  The functions
    below are the generic versions of lib/string.c that the file-system code
    calls; each C loop is a structural recursion over the bytes it reads. *)

From S2P Require Import Prelude.
From Stdlib Require Ascii String.

Definition bytes := list Z.

(** String literals of the C code; an escaped newline is written as byte 10. *)
Fixpoint cstr (s : string) : list Z :=
  match s with
  | String.EmptyString => []
  | String.String c s' => Z.of_N (Ascii.N_of_ascii c) :: cstr s'
  end.

Definition is_byte (c : Z) : Prop := 0 ≤ c < 256.

(** A proper C string: bytes, none of them NUL. *)
Definition cstring (s : list Z) : Prop := Forall (λ c, 1 ≤ c < 256) s.

(** [*s] and [s + 1] on a NUL-terminated buffer. *)
Definition head_byte (s : list Z) : Z := match s with [] => 0 | c :: _ => c end.
Definition tail_bytes (s : list Z) : list Z := match s with [] => [] | _ :: s' => s' end.

(** [char] is signed on the machine modelled; [s8] truncates an [int] to it. *)
Definition s8 (z : Z) : Z := (z + 128) mod 256 - 128.

Fixpoint strlen (s : list Z) : Z :=
  match s with
  | [] => 0
  | c :: s' => if c =? 0 then 0 else 1 + strlen s'
  end.

Fixpoint strcmp (cs ct : list Z) : Z :=
  match cs with
  | [] => s8 (0 - s8 (head_byte ct))
  | c :: cs' =>
      let res := s8 (s8 c - s8 (head_byte ct)) in
      if negb (res =? 0) || (c =? 0) then res else strcmp cs' (tail_bytes ct)
  end.

Fixpoint memcmp (cs ct : list Z) (count : nat) : Z :=
  match count with
  | O => 0
  | S n =>
      let res := head_byte cs - head_byte ct in
      if negb (res =? 0) then res else memcmp (tail_bytes cs) (tail_bytes ct) n
  end.

(** [strlcpy (dest, src, size)]: the value returned and the string left in
    [dest] (meaningful when [size] is not zero). *)
Definition strlcpy (src : list Z) (size : Z) : Z * option (list Z) :=
  let ret := strlen src in
  if size =? 0 then (ret, None)
  else
    let len := if ret >=? size then size - 1 else ret in
    (ret, Some (take (Z.to_nat len) src)).

(** The [%o] of printk. *)
Fixpoint octal_digits (fuel : nat) (z : Z) (acc : list Z) : list Z :=
  match fuel with
  | O => acc
  | S n =>
      let acc := 48 + z mod 8 :: acc in
      if z / 8 =? 0 then acc else octal_digits n (z / 8) acc
  end.

(** A 32-bit number has at most eleven octal digits. *)
Definition fmt_o (z : Z) : list Z := octal_digits 11 z [].

(** ** Facts *)

Lemma strlen_nonneg s : 0 ≤ strlen s.
Proof. induction s as [|c s IH]; simpl; [done|]. destruct (c =? 0); lia. Qed.

Lemma strlen_cstring s : cstring s → strlen s = Z.of_nat (length s).
Proof.
  induction 1 as [|c s Hc Hs IH]; [done|]. simpl strlen.
  rewrite (proj2 (Z.eqb_neq c 0)) by lia. simpl length. lia.
Qed.

Lemma s8_byte_diff a b : is_byte a → is_byte b → s8 (s8 a - s8 b) = 0 ↔ a = b.
Proof.
  unfold is_byte, s8. intros Ha Hb. split; [|intros ->].
  - intros H.
    pose proof (Z.div_mod (a + 128) 256). pose proof (Z.mod_pos_bound (a + 128) 256).
    pose proof (Z.div_mod (b + 128) 256). pose proof (Z.mod_pos_bound (b + 128) 256).
    set (d := (a + 128) mod 256 - 128 - ((b + 128) mod 256 - 128)) in *.
    pose proof (Z.div_mod (d + 128) 256). lia.
  - by rewrite Z.sub_diag.
Qed.

Lemma cstring_head s : cstring s → is_byte (head_byte s).
Proof. destruct 1; simpl; unfold is_byte; lia. Qed.

Lemma cstring_tail s : cstring s → cstring (tail_bytes s).
Proof. destruct 1; [constructor|assumption]. Qed.

(** [strcmp] returns zero exactly on equal strings, although its result is
    truncated to a [signed char]. *)
Lemma strcmp_eq cs ct : cstring cs → cstring ct → strcmp cs ct = 0 ↔ cs = ct.
Proof.
  intros Hcs. revert ct. induction Hcs as [|c cs Hc Hcs IH]; intros ct Hct; simpl.
  - pose proof (s8_byte_diff 0 (head_byte ct)) as H0. change (s8 0) with 0 in H0.
    rewrite H0; [|unfold is_byte; lia|by apply cstring_head].
    split; [|by intros <-]. destruct Hct as [|b ct Hb _]; simpl; [done|lia].
  - pose proof (s8_byte_diff c (head_byte ct)) as H0.
    rewrite (proj2 (Z.eqb_neq c 0)) by lia. rewrite orb_false_r.
    destruct (s8 (s8 c - s8 (head_byte ct)) =? 0) eqn:E; simpl.
    + apply Z.eqb_eq in E. rewrite H0 in E; [|unfold is_byte; lia|by apply cstring_head].
      rewrite IH by (by apply cstring_tail). subst c. destruct ct as [|b ct]; simpl.
      { simpl in Hc. lia. }
      split; congruence.
    + apply Z.eqb_neq in E. split; [done|]. intros <-. simpl in E. exfalso. apply E.
      by rewrite Z.sub_diag.
Qed.

Lemma memcmp_eq cs ct : length cs = length ct → memcmp cs ct (length cs) = 0 ↔ cs = ct.
Proof.
  revert ct. induction cs as [|c cs IH]; intros [|b ct]; simpl; try done.
  intros [= Hlen]. destruct (c - b =? 0) eqn:E; simpl; bool_to_prop.
  - rewrite IH by done. assert (c = b) as -> by lia. split; congruence.
  - split; [lia|]. intros [= -> ->]. lia.
Qed.

Lemma memcmp_refl s n : memcmp s s n = 0.
Proof. revert s. induction n as [|n IH]; intros s; simpl; [done|]. rewrite Z.sub_diag. apply IH. Qed.
