(* ===== verification/Kernel.v ===== *)
(** * The kernel heap and its primitives

    The C structures the file-system code reads and writes
    (include/linux/fs.h, dcache.h, mount.h of the vendored kernel), the global
    variables of the modelled files, and the primitive accesses to them: field
    reads and writes through a pointer, allocation, reference to user memory,
    error pointers.

    Pointers are 32-bit integers; NULL is 0.  An object lives in the map of its
    type under its address, and an access at any other address is the fault
    [BadPtr].  A freed object leaves its map and addresses are not reused, so
    that every use after free is a fault of the model.  Intrusive list nodes
    are kept on both sides: the list head holds the addresses in order, the
    node holds the head it is linked to.  Spinlocks, RCU and preemption are
    not modelled (one thread runs); the rw-semaphore [s_umount] is. *)

From S2P Require Import Prelude KString.

Abbreviation ptr := Z (only parsing).
Definition NULL : Z := 0.

(** ** include/linux/err.h *)

Definition ERR_PTR (error : Z) : Z := u32 error.
Definition PTR_ERR (p : Z) : Z := s32 p.
Definition IS_ERR_VALUE (x : Z) : bool := x >? u32 (-1000).
Definition IS_ERR (p : Z) : bool := IS_ERR_VALUE p.

(** ** Error numbers (asm-generic/errno-base.h, errno.h) *)

Definition EPERM : Z := 1.
Definition ENOENT : Z := 2.
Definition ENXIO : Z := 6.
Definition EBADF : Z := 9.
Definition EAGAIN : Z := 11.
Definition ENOMEM : Z := 12.
Definition EACCES : Z := 13.
Definition EFAULT : Z := 14.
Definition EBUSY : Z := 16.
Definition EEXIST : Z := 17.
Definition EXDEV : Z := 18.
Definition ENODEV : Z := 19.
Definition ENOTDIR : Z := 20.
Definition EISDIR : Z := 21.
Definition EINVAL : Z := 22.
Definition ENFILE : Z := 23.
Definition EMFILE : Z := 24.
Definition ETXTBSY : Z := 26.
Definition EFBIG : Z := 27.
Definition ESPIPE : Z := 29.
Definition EROFS : Z := 30.
Definition EMLINK : Z := 31.
Definition ENAMETOOLONG : Z := 36.
Definition ENOTEMPTY : Z := 39.
Definition ELOOP : Z := 40.
Definition ERANGE : Z := 34.
Definition ENOSYS : Z := 38.
Definition EOVERFLOW : Z := 75.
Definition ESTALE : Z := 116.

(** ** File modes (include/linux/stat.h) *)

Definition S_IFMT : Z := 61440.    (* 0170000 *)
Definition S_IFSOCK : Z := 49152.  (* 0140000 *)
Definition S_IFLNK : Z := 40960.   (* 0120000 *)
Definition S_IFREG : Z := 32768.   (* 0100000 *)
Definition S_IFBLK : Z := 24576.   (* 0060000 *)
Definition S_IFDIR : Z := 16384.   (* 0040000 *)
Definition S_IFCHR : Z := 8192.    (* 0020000 *)
Definition S_IFIFO : Z := 4096.    (* 0010000 *)
Definition S_ISUID : Z := 2048.    (* 0004000 *)
Definition S_ISGID : Z := 1024.    (* 0002000 *)
Definition S_ISVTX : Z := 512.     (* 0001000 *)
Definition S_IRWXU : Z := 448.     (* 00700 *)
Definition S_IRUSR : Z := 256.
Definition S_IWUSR : Z := 128.
Definition S_IRWXG : Z := 56.
Definition S_IXGRP : Z := 8.
Definition S_IRWXUGO : Z := 511.   (* 00777 *)
Definition S_IALLUGO : Z := 4095.  (* 07777 *)
Definition S_IRUGO : Z := 292.     (* 00444 *)
Definition S_IXUGO : Z := 73.      (* 00111 *)
Definition S_ISLNK (m : Z) : bool := Z.land m S_IFMT =? S_IFLNK.
Definition S_ISREG (m : Z) : bool := Z.land m S_IFMT =? S_IFREG.
Definition S_ISDIR (m : Z) : bool := Z.land m S_IFMT =? S_IFDIR.
Definition S_ISCHR (m : Z) : bool := Z.land m S_IFMT =? S_IFCHR.
Definition S_ISBLK (m : Z) : bool := Z.land m S_IFMT =? S_IFBLK.
Definition S_ISFIFO (m : Z) : bool := Z.land m S_IFMT =? S_IFIFO.
Definition S_ISSOCK (m : Z) : bool := Z.land m S_IFMT =? S_IFSOCK.

(** [umode_t] is a 16-bit integer. *)
Definition u16 (z : Z) : Z := z mod 65536.

(** ** Flags (include/linux/fs.h, dcache.h) *)

Definition MS_RDONLY : Z := 1.
Definition MS_VERBOSE : Z := 32768.
Definition MS_POSIXACL : Z := 65536.
Definition MS_ACTIVE : Z := 1073741824.
Definition MS_NOUSER : Z := 2147483648.
(** MS_RDONLY | MS_SYNCHRONOUS | MS_MANDLOCK | MS_NOATIME | MS_NODIRATIME *)
Definition MS_RMT_MASK : Z := 1 + 16 + 64 + 1024 + 2048.
Definition FS_REQUIRES_DEV : Z := 1.
Definition S_BIAS : Z := 1073741824.
Definition MAX_NON_LFS : Z := 2147483647.
Definition S_APPEND : Z := 4.
Definition S_IMMUTABLE : Z := 8.
Definition S_DEAD : Z := 16.
Definition S_SWAPFILE : Z := 256.
Definition I_DIRTY_SYNC : Z := 1.
Definition I_DIRTY_DATASYNC : Z := 2.
Definition I_DIRTY : Z := 7.
Definition I_LOCK : Z := 8.
Definition I_FREEING : Z := 16.
Definition I_CLEAR : Z := 32.
Definition I_NEW : Z := 64.
Definition I_WILL_FREE : Z := 128.
Definition MAY_EXEC : Z := 1.
Definition MAY_WRITE : Z := 2.
Definition MAY_READ : Z := 4.
Definition MAY_APPEND : Z := 8.
Definition DCACHE_NFSFS_RENAMED : Z := 2.
Definition DCACHE_DISCONNECTED : Z := 4.
Definition DCACHE_REFERENCED : Z := 8.
Definition DCACHE_UNHASHED : Z := 16.
Definition NAME_MAX : Z := 255.
Definition PAGE_CACHE_SHIFT : Z := 12.
Definition PAGE_CACHE_SIZE : Z := 4096.
(** [struct dentry] has no padding after [d_iname] on the machine modelled, so
    DNAME_INLINE_LEN is DNAME_INLINE_LEN_MIN. *)
Definition DNAME_INLINE_LEN : Z := 36.
Definition L1_CACHE_BYTES : Z := 32.
Definition GOLDEN_RATIO_PRIME : Z := 2654404609. (* 0x9e370001 *)

(** ** Device numbers (include/linux/kdev_t.h) *)

Definition MINORBITS : Z := 20.
Definition MINORMASK : Z := 1048575.
Definition MAJOR (dev : Z) : Z := Z.shiftr dev MINORBITS.
Definition MINOR (dev : Z) : Z := Z.land dev MINORMASK.
Definition MKDEV (ma mi : Z) : Z := Z.lor (Z.shiftl ma MINORBITS) mi.

(** ** Method tables

    The tables of function pointers are static objects of the sources, so each
    is a constructor; a method slot is the accessor below it.  [nofn] is the
    type of the slots that no table of the modelled sources fills: the branch
    of the code that calls such a method is there and is never taken. *)

Inductive nofn : Set := .

Inductive dentry_operations : Set := simple_dentry_operations.
Inductive d_delete_fn : Set := simple_delete_dentry_fn.
Definition dop_delete (t : dentry_operations) : option d_delete_fn :=
  match t with simple_dentry_operations => Some simple_delete_dentry_fn end.
Definition dop_revalidate (t : dentry_operations) : option nofn := None.
Definition dop_hash (t : dentry_operations) : option nofn := None.
Definition dop_compare (t : dentry_operations) : option nofn := None.
Definition dop_release (t : dentry_operations) : option nofn := None.
Definition dop_iput (t : dentry_operations) : option nofn := None.

(** [default_op] of alloc_super, [s_ops] of simple_fill_super, [default_ops] of
    get_sb_pseudo. *)
Inductive super_operations : Set := default_op | simple_s_ops | pseudo_default_ops.
Inductive statfs_fn : Set := simple_statfs_fn.
Definition so_statfs (t : super_operations) : option statfs_fn :=
  match t with default_op => None | _ => Some simple_statfs_fn end.
Definition so_alloc_inode (t : super_operations) : option nofn := None.
Definition so_destroy_inode (t : super_operations) : option nofn := None.
Definition so_put_inode (t : super_operations) : option nofn := None.
Definition so_drop_inode (t : super_operations) : option nofn := None.
Definition so_delete_inode (t : super_operations) : option nofn := None.
Definition so_put_super (t : super_operations) : option nofn := None.
Definition so_write_super (t : super_operations) : option nofn := None.
Definition so_remount_fs (t : super_operations) : option nofn := None.
Definition so_clear_inode (t : super_operations) : option nofn := None.
Definition so_dirty_inode (t : super_operations) : option nofn := None.

Inductive inode_operations : Set := empty_iops | simple_dir_inode_operations.
Inductive lookup_fn : Set := simple_lookup_fn.
Definition iop_lookup (t : inode_operations) : option lookup_fn :=
  match t with
  | simple_dir_inode_operations => Some simple_lookup_fn
  | empty_iops => None
  end.
Definition iop_permission (t : inode_operations) : option nofn := None.
Definition iop_follow_link (t : inode_operations) : option nofn := None.
Definition iop_setattr (t : inode_operations) : option nofn := None.
Definition iop_truncate (t : inode_operations) : option nofn := None.

Inductive file_operations : Set :=
  | empty_fops | simple_dir_operations | aufs_file_operations
  | def_chr_fops | def_blk_fops | def_fifo_fops | bad_sock_fops.

Inductive kill_sb_fn : Set := kill_anon_super_fn | kill_litter_super_fn.
(** The [get_sb] (2.6.14) or [mount] (later kernels) method of a file system. *)
Inductive get_sb_fn : Set := aufs_get_sb_fn.

#[export] Instance file_operations_eq_dec : EqDecision file_operations.
Proof. solve_decision. Defined.
#[export] Instance inode_operations_eq_dec : EqDecision inode_operations.
Proof. solve_decision. Defined.

(** ** Structures *)

(** The hash chain a dentry or an inode is on: none, a bucket of the hash
    table, or the [s_anon] list of a superblock. *)
Inductive hnode : Set := Unlinked | InBucket (b : Z) | InAnon (sb : ptr).

(** The list the [i_list] node of an inode is on; [OnDirty] is the [s_dirty] of
    its superblock, whose order no modelled code reads. *)
Inductive inode_list : Set := OnNone | OnInUse | OnUnused | OnDirty | OnDispose.

Record inode := mkInode {
  i_hash : hnode;
  i_list : inode_list;
  i_sb_list : ptr;           (* the superblock whose s_inodes holds it *)
  i_dentry : list ptr;
  i_ino : Z;
  i_count : Z;
  i_mode : Z;
  i_nlink : Z;
  i_uid : Z;
  i_gid : Z;
  i_rdev : Z;
  i_size : Z;
  i_atime : Z;
  i_mtime : Z;
  i_ctime : Z;
  i_blkbits : Z;
  i_blksize : Z;
  i_blocks : Z;
  i_bytes : Z;
  i_op : inode_operations;
  i_fop : file_operations;
  i_sb : ptr;
  i_nrpages : Z;             (* i_data.nrpages *)
  i_bdev : ptr;
  i_cdev : ptr;
  i_generation : Z;
  i_state : Z;
  i_flags : Z;
  i_writecount : Z;
  i_private : Z              (* u.generic_ip in 2.6.14 *)
}.

#[export] Instance eta_inode : Eta inode := λ i,
  mkInode (i_hash i) (i_list i) (i_sb_list i) (i_dentry i) (i_ino i) (i_count i)
    (i_mode i) (i_nlink i) (i_uid i) (i_gid i) (i_rdev i) (i_size i) (i_atime i)
    (i_mtime i) (i_ctime i) (i_blkbits i) (i_blksize i) (i_blocks i) (i_bytes i)
    (i_op i) (i_fop i) (i_sb i) (i_nrpages i) (i_bdev i) (i_cdev i)
    (i_generation i) (i_state i) (i_flags i) (i_writecount i) (i_private i).

(** A quick string: the name with its hash and its length. *)
Record qstr := mkQstr { q_hash : Z; q_len : Z; q_name : list Z }.

(** [d_name.name] points to [d_iname] or to storage of its own ([d_extname]). *)
Record dentry := mkDentry {
  d_count : Z;
  d_flags : Z;
  d_inode : ptr;
  d_hash_node : hnode;
  d_parent : ptr;
  d_name_hash : Z;
  d_name_len : Z;
  d_lru : bool;              (* on dentry_unused *)
  d_child : ptr;             (* the dentry whose d_subdirs holds it, or NULL *)
  d_subdirs : list ptr;
  d_alias : ptr;             (* the inode whose i_dentry holds it, or NULL *)
  d_op : option dentry_operations;
  d_sb : ptr;
  d_fsdata : Z;
  d_mounted : Z;
  d_iname : list Z;
  d_extname : option (list Z)
}.

#[export] Instance eta_dentry : Eta dentry := λ d,
  mkDentry (d_count d) (d_flags d) (d_inode d) (d_hash_node d) (d_parent d)
    (d_name_hash d) (d_name_len d) (d_lru d) (d_child d) (d_subdirs d) (d_alias d)
    (d_op d) (d_sb d) (d_fsdata d) (d_mounted d) (d_iname d) (d_extname d).

(** The bytes [d_name.name] points to, and include/linux/dcache.h:194. *)
Definition d_name (d : dentry) : list Z := default (d_iname d) (d_extname d).
Definition dname_external (d : dentry) : bool := bool_decide (is_Some (d_extname d)).

Record super_block := mkSuper {
  s_list : bool;             (* on super_blocks *)
  s_dev : Z;
  s_blocksize : Z;
  s_blocksize_bits : Z;
  s_dirt : bool;
  s_maxbytes : Z;
  s_type : ptr;
  s_op : super_operations;
  s_flags : Z;
  s_magic : Z;
  s_root : ptr;
  s_umount : Z;              (* 0 free, -1 held by a writer, n > 0 readers *)
  s_count : Z;
  s_active : Z;
  s_inodes : list ptr;
  s_anon : list ptr;
  s_files : list ptr;
  s_bdev : ptr;
  s_instances : ptr;         (* the type whose fs_supers holds it, or NULL *)
  s_id : list Z;
  s_time_gran : Z
}.

#[export] Instance eta_super : Eta super_block := λ s,
  mkSuper (s_list s) (s_dev s) (s_blocksize s) (s_blocksize_bits s) (s_dirt s)
    (s_maxbytes s) (s_type s) (s_op s) (s_flags s) (s_magic s) (s_root s)
    (s_umount s) (s_count s) (s_active s) (s_inodes s) (s_anon s) (s_files s)
    (s_bdev s) (s_instances s) (s_id s) (s_time_gran s).

Record vfsmount := mkMount {
  mnt_parent : ptr;
  mnt_mountpoint : ptr;
  mnt_root : ptr;
  mnt_sb : ptr;
  mnt_count : Z;
  mnt_flags : Z;
  mnt_expiry_mark : Z;
  mnt_devname : option (list Z);
  mnt_hash : option Z;       (* the bucket of mount_hashtable it is on *)
  mnt_mounts : list ptr;
  mnt_child : ptr            (* the mount whose mnt_mounts holds it, or NULL *)
}.

#[export] Instance eta_mount : Eta vfsmount := λ m,
  mkMount (mnt_parent m) (mnt_mountpoint m) (mnt_root m) (mnt_sb m) (mnt_count m)
    (mnt_flags m) (mnt_expiry_mark m) (mnt_devname m) (mnt_hash m) (mnt_mounts m)
    (mnt_child m).

Record file_system_type := mkFsType {
  fs_name : list Z;
  fs_flags : Z;
  fs_get_sb : get_sb_fn;
  fs_kill_sb : kill_sb_fn;
  fs_owner : ptr;
  fs_next : ptr;
  fs_supers : list ptr
}.

#[export] Instance eta_fstype : Eta file_system_type := λ f,
  mkFsType (fs_name f) (fs_flags f) (fs_get_sb f) (fs_kill_sb f) (fs_owner f)
    (fs_next f) (fs_supers f).

Record file := mkFile {
  f_list : ptr;              (* the superblock whose s_files holds it, or NULL *)
  f_dentry : ptr;
  f_vfsmnt : ptr;
  f_op : option file_operations;
  f_count : Z;
  f_flags : Z;
  f_mode : Z;
  f_pos : Z;
  f_uid : Z;
  f_gid : Z;
  f_version : Z;
  f_private_data : Z
}.

#[export] Instance eta_file : Eta file := λ f,
  mkFile (f_list f) (f_dentry f) (f_vfsmnt f) (f_op f) (f_count f) (f_flags f) (f_mode f)
    (f_pos f) (f_uid f) (f_gid f) (f_version f) (f_private_data f).

(** The counters of open files, with the [old_max] of get_empty_filp. *)
Record files_stat_struct := mkFilesStat { nr_files : Z; max_files : Z; old_max : Z }.

#[export] Instance eta_files_stat : Eta files_stat_struct := λ f,
  mkFilesStat (nr_files f) (max_files f) (old_max f).

(** struct module: its reference count and [module_is_live]. *)
Record module_t := mkModule { mod_refcnt : Z; mod_live : bool }.

#[export] Instance eta_module : Eta module_t := λ m,
  mkModule (mod_refcnt m) (mod_live m).

(** Where a task starts its path walks, and the mode bits it never grants. *)
Record fs_struct := mkFs {
  fs_umask : Z;
  fs_root : ptr;
  fs_rootmnt : ptr;
  fs_pwd : ptr;
  fs_pwdmnt : ptr;
  fs_altroot : ptr;
  fs_altrootmnt : ptr
}.

#[export] Instance eta_fs : Eta fs_struct := λ f,
  mkFs (fs_umask f) (fs_root f) (fs_rootmnt f) (fs_pwd f) (fs_pwdmnt f) (fs_altroot f) (fs_altrootmnt f).

(** A set of capabilities, as far as the code asks for them. *)
Record capset := mkCaps {
  c_dac_override : bool;
  c_dac_read_search : bool;
  c_fowner : bool;
  c_chown : bool;
  c_fsetid : bool;
  c_mknod : bool;
  c_sys_admin : bool;
  c_sys_chroot : bool
}.

(** What the code asks of [current]; the single capabilities are those of
    [cap_effective]. *)
Record task := mkTask {
  uid : Z;
  gid : Z;
  cap_permitted : capset;
  fsuid : Z;
  fsgid : Z;
  groups : list Z;
  cap_dac_override : bool;
  cap_dac_read_search : bool;
  cap_fowner : bool;
  cap_chown : bool;
  cap_fsetid : bool;
  cap_mknod : bool;
  cap_sys_admin : bool;
  cap_sys_chroot : bool;
  rlim_fsize : option Z;     (* None for RLIM_INFINITY *)
  rchar : Z;
  wchar : Z;
  syscr : Z;
  syscw : Z;
  task_fds : list ptr;       (* the descriptor table *)
  task_fs : fs_struct
}.

#[export] Instance eta_task : Eta task := λ t,
  mkTask (uid t) (gid t) (cap_permitted t) (fsuid t) (fsgid t) (groups t) (cap_dac_override t) (cap_dac_read_search t)
    (cap_fowner t) (cap_chown t) (cap_fsetid t) (cap_mknod t) (cap_sys_admin t)
    (cap_sys_chroot t) (rlim_fsize t) (rchar t) (wchar t) (syscr t) (syscw t) (task_fds t) (task_fs t).

(** ** The state of the kernel

    The heap, one map per structure; the allocator, as the next free address,
    the schedule of its failures and what an object taken from a slab cache
    still holds; the global variables of the modelled files; the current task,
    the clock, the scheduler's answers to [need_resched], and the log. *)
Record kstate := mkK {
  inodes : gmap Z inode;
  dentries : gmap Z dentry;
  supers : gmap Z super_block;
  mounts : gmap Z vfsmount;
  fstypes : gmap Z file_system_type;
  files : gmap Z file;
  modules : gmap Z module_t;
  user_mem : gmap Z Z;
  slab_next : Z;
  slab_fail : list bool;
  slab_inode : inode;
  slab_iname : list Z;
  file_systems : ptr;
  dentry_hashtable : gmap Z (list ptr);
  d_hash_shift : Z;
  d_hash_mask : Z;
  dentry_unused : list ptr;
  nr_dentry : Z;
  nr_unused_dentry : Z;
  inode_in_use : list ptr;
  inode_unused : list ptr;
  inode_hashtable : gmap Z (list ptr);
  i_hash_shift : Z;
  i_hash_mask : Z;
  nr_inodes : Z;
  nr_unused_inode : Z;
  last_ino : Z;
  iunique_counter : Z;
  mount_hashtable : gmap Z (list ptr);
  mnt_hash_bits : Z;
  mnt_hash_mask : Z;
  super_blocks : list ptr;
  unnamed_dev_idr : gset Z;
  current : task;
  current_time : Z;
  resched : list bool;
  klog : list (list Z);
  aufs_mount : ptr;
  enabled : Z;
  files_stat : files_stat_struct
}.

#[export] Instance eta_kstate : Eta kstate := λ k,
  mkK (inodes k) (dentries k) (supers k) (mounts k) (fstypes k) (files k)
    (modules k) (user_mem k) (slab_next k) (slab_fail k) (slab_inode k)
    (slab_iname k) (file_systems k) (dentry_hashtable k) (d_hash_shift k)
    (d_hash_mask k) (dentry_unused k) (nr_dentry k) (nr_unused_dentry k)
    (inode_in_use k) (inode_unused k) (inode_hashtable k) (i_hash_shift k)
    (i_hash_mask k) (nr_inodes k) (nr_unused_inode k) (last_ino k)
    (iunique_counter k) (mount_hashtable k) (mnt_hash_bits k) (mnt_hash_mask k)
    (super_blocks k) (unnamed_dev_idr k) (current k)
    (current_time k) (resched k) (klog k) (aufs_mount k) (enabled k)
    (files_stat k).

(** Two states are equal when they agree on every component. *)
Lemma kstate_ext (k1 k2 : kstate) :
  inodes k1 = inodes k2 →
  dentries k1 = dentries k2 →
  supers k1 = supers k2 →
  mounts k1 = mounts k2 →
  fstypes k1 = fstypes k2 →
  files k1 = files k2 →
  modules k1 = modules k2 →
  user_mem k1 = user_mem k2 →
  slab_next k1 = slab_next k2 →
  slab_fail k1 = slab_fail k2 →
  slab_inode k1 = slab_inode k2 →
  slab_iname k1 = slab_iname k2 →
  file_systems k1 = file_systems k2 →
  dentry_hashtable k1 = dentry_hashtable k2 →
  d_hash_shift k1 = d_hash_shift k2 →
  d_hash_mask k1 = d_hash_mask k2 →
  dentry_unused k1 = dentry_unused k2 →
  nr_dentry k1 = nr_dentry k2 →
  nr_unused_dentry k1 = nr_unused_dentry k2 →
  inode_in_use k1 = inode_in_use k2 →
  inode_unused k1 = inode_unused k2 →
  inode_hashtable k1 = inode_hashtable k2 →
  i_hash_shift k1 = i_hash_shift k2 →
  i_hash_mask k1 = i_hash_mask k2 →
  nr_inodes k1 = nr_inodes k2 →
  nr_unused_inode k1 = nr_unused_inode k2 →
  last_ino k1 = last_ino k2 →
  iunique_counter k1 = iunique_counter k2 →
  mount_hashtable k1 = mount_hashtable k2 →
  mnt_hash_bits k1 = mnt_hash_bits k2 →
  mnt_hash_mask k1 = mnt_hash_mask k2 →
  super_blocks k1 = super_blocks k2 →
  unnamed_dev_idr k1 = unnamed_dev_idr k2 →
  current k1 = current k2 →
  current_time k1 = current_time k2 →
  resched k1 = resched k2 →
  klog k1 = klog k2 →
  aufs_mount k1 = aufs_mount k2 →
  enabled k1 = enabled k2 →
  files_stat k1 = files_stat k2 →
  k1 = k2.
Proof. destruct k1, k2. simpl. intros; subst. reflexivity. Qed.

Ltac kstate_eq :=
  apply kstate_ext; cbn -[lookup insert delete alter fmap list_del app Z.add]; try reflexivity.

Abbreviation KM := (M kstate).

(** ** Access through pointers *)

Definition deref {A} (h : kstate → gmap Z A) (p : ptr) : KM A := λ s,
  match h s !! p with
  | Some x => Ok x s
  | None => Fault (BadPtr p)
  end.

Definition get_inode : ptr → KM inode := deref inodes.
Definition get_dentry : ptr → KM dentry := deref dentries.
Definition get_super : ptr → KM super_block := deref supers.
Definition get_mount : ptr → KM vfsmount := deref mounts.
Definition get_fstype : ptr → KM file_system_type := deref fstypes.
Definition get_file : ptr → KM file := deref files.

Definition mod_inode (p : ptr) (f : inode → inode) : KM unit :=
  i ← get_inode p; modify (λ s, s <| inodes ::= <[p := f i]> |>).
Definition mod_dentry (p : ptr) (f : dentry → dentry) : KM unit :=
  d ← get_dentry p; modify (λ s, s <| dentries ::= <[p := f d]> |>).
Definition mod_super (p : ptr) (f : super_block → super_block) : KM unit :=
  b ← get_super p; modify (λ s, s <| supers ::= <[p := f b]> |>).
Definition mod_mount (p : ptr) (f : vfsmount → vfsmount) : KM unit :=
  m ← get_mount p; modify (λ s, s <| mounts ::= <[p := f m]> |>).
Definition mod_fstype (p : ptr) (f : file_system_type → file_system_type) : KM unit :=
  t ← get_fstype p; modify (λ s, s <| fstypes ::= <[p := f t]> |>).
Definition mod_file (p : ptr) (f : file → file) : KM unit :=
  t ← get_file p; modify (λ s, s <| files ::= <[p := f t]> |>).

(** ** Allocation

    kmalloc and kmem_cache_alloc: the schedule says whether the request fails;
    the address is fresh. *)
Definition SLAB_STEP : Z := 256.

Definition alloc_fails (s : kstate) : bool := default false (head (slab_fail s)).

Definition kmem_alloc : KM ptr := λ s,
  if alloc_fails s then Ok NULL (s <| slab_fail ::= tail |>)
  else Ok (slab_next s) (s <| slab_fail ::= tail |> <| slab_next ::= Z.add SLAB_STEP |>).

(** ** Environment of the code *)

Definition printk (msg : list Z) : KM unit := modify (λ s, s <| klog ::= (.++ [msg]) |>).
Definition CURRENT_TIME : KM Z := gets current_time.

Definition need_resched : KM bool := λ s,
  match resched s with
  | [] => Ok false s
  | b :: l => Ok b (s <| resched := l |>)
  end.

(** copy_to_user and copy_from_user stop at the first address that is not
    mapped and return the number of bytes they did not copy. *)
Fixpoint copy_out (m : gmap Z Z) (to : Z) (src : list Z) : gmap Z Z * Z :=
  match src with
  | [] => (m, 0)
  | b :: src' =>
      match m !! to with
      | Some _ => copy_out (<[to := b]> m) (to + 1) src'
      | None => (m, Z.of_nat (length src))
      end
  end.

Definition copy_to_user (to : Z) (src : list Z) : KM Z := λ s,
  let '(m, rest) := copy_out (user_mem s) to src in
  Ok rest (s <| user_mem := m |>).

(** A direct load from a user address: an unmapped page is an oops. *)
Definition load_user (p : Z) : KM Z := deref user_mem p.

(** ** Module reference counts (include/linux/module.h) *)

Definition mod_module (p : ptr) (f : module_t → module_t) : KM unit :=
  m ← deref modules p; modify (λ s, s <| modules ::= <[p := f m]> |>).

Definition try_module_get (m : ptr) : KM bool :=
  if m =? NULL then mret true
  else
    md ← deref modules m;
    if mod_live md
    then mod_module m (λ md, md <| mod_refcnt ::= Z.add 1 |>) ;; mret true
    else mret false.

Definition module_put (m : ptr) : KM unit :=
  if m =? NULL then mret tt
  else mod_module m (λ md, md <| mod_refcnt ::= λ c, c - 1 |>).

Definition __module_get (m : ptr) : KM unit :=
  if m =? NULL then mret tt
  else
    md ← deref modules m;
    bug_on (mod_refcnt md =? 0) ;;
    mod_module m (λ md, md <| mod_refcnt ::= Z.add 1 |>).

(** ** The semaphore [s_umount] *)

Definition down_write (sb : ptr) : KM unit :=
  b ← get_super sb;
  if s_umount b =? 0 then mod_super sb (λ b, b <| s_umount := -1 |>) else raise Deadlock.
Definition up_write (sb : ptr) : KM unit :=
  b ← get_super sb;
  bug_on (negb (s_umount b =? -1)) ;;
  mod_super sb (λ b, b <| s_umount := 0 |>).

(** ** Rules of the primitives *)

Lemma wp_deref {A} (h : kstate → gmap Z A) p x Q s :
  h s !! p = Some x → Q x s → wp (deref h p) Q s.
Proof. unfold wp, deref. by intros ->. Qed.

Section mod_rules.
Implicit Types (s : kstate) (Q : unit → kstate → Prop).

Lemma wp_mod_inode p f x Q s :
  inodes s !! p = Some x → Q tt (s <| inodes ::= <[p := f x]> |>) → wp (mod_inode p f) Q s.
Proof. intros. apply wp_bind. by eapply wp_deref. Qed.

Lemma wp_mod_dentry p f x Q s :
  dentries s !! p = Some x → Q tt (s <| dentries ::= <[p := f x]> |>) → wp (mod_dentry p f) Q s.
Proof. intros. apply wp_bind. by eapply wp_deref. Qed.

Lemma wp_mod_super p f x Q s :
  supers s !! p = Some x → Q tt (s <| supers ::= <[p := f x]> |>) → wp (mod_super p f) Q s.
Proof. intros. apply wp_bind. by eapply wp_deref. Qed.

Lemma wp_mod_mount p f x Q s :
  mounts s !! p = Some x → Q tt (s <| mounts ::= <[p := f x]> |>) → wp (mod_mount p f) Q s.
Proof. intros. apply wp_bind. by eapply wp_deref. Qed.

Lemma wp_mod_fstype p f x Q s :
  fstypes s !! p = Some x → Q tt (s <| fstypes ::= <[p := f x]> |>) → wp (mod_fstype p f) Q s.
Proof. intros. apply wp_bind. by eapply wp_deref. Qed.

Lemma wp_mod_module p f x Q s :
  modules s !! p = Some x → Q tt (s <| modules ::= <[p := f x]> |>) → wp (mod_module p f) Q s.
Proof. intros. apply wp_bind. by eapply wp_deref. Qed.

Lemma wp_mod_file p f x Q s :
  files s !! p = Some x → Q tt (s <| files ::= <[p := f x]> |>) → wp (mod_file p f) Q s.
Proof. intros. apply wp_bind. by eapply wp_deref. Qed.
End mod_rules.

(** Allocation either fails, changing only the schedule, or returns the next
    address. *)
Lemma wp_kmem_alloc Q s :
  (alloc_fails s = true → Q NULL (s <| slab_fail ::= tail |>)) →
  (alloc_fails s = false →
     Q (slab_next s) (s <| slab_fail ::= tail |> <| slab_next ::= Z.add SLAB_STEP |>)) →
  wp kmem_alloc Q s.
Proof. unfold wp, kmem_alloc. destruct (alloc_fails s); auto. Qed.

(** A slot that no table fills. *)
Lemma wp_nofn {A} (f : option nofn) (m : KM A) Q s :
  wp m Q s → wp (match f with Some f => match f with end | None => m end) Q s.
Proof. by destruct f as [[]|]. Qed.

(** One step of symbolic execution. *)
Ltac wp_step :=
  lazymatch goal with
  | |- wp (mbind _ _) _ _ => apply wp_bind
  | |- wp (mret _) _ _ => apply wp_ret
  | |- wp (gets _) _ _ => apply wp_gets
  | |- wp (modify _) _ _ => apply wp_modify
  | |- wp (printk _) _ _ => apply wp_modify
  | |- wp (get_inode _) _ _ => eapply wp_deref
  | |- wp (get_dentry _) _ _ => eapply wp_deref
  | |- wp (get_super _) _ _ => eapply wp_deref
  | |- wp (get_mount _) _ _ => eapply wp_deref
  | |- wp (get_fstype _) _ _ => eapply wp_deref
  | |- wp (get_file _) _ _ => eapply wp_deref
  | |- wp (deref _ _) _ _ => eapply wp_deref
  | |- wp (mod_inode _ _) _ _ => eapply wp_mod_inode
  | |- wp (mod_dentry _ _) _ _ => eapply wp_mod_dentry
  | |- wp (mod_super _ _) _ _ => eapply wp_mod_super
  | |- wp (mod_mount _ _) _ _ => eapply wp_mod_mount
  | |- wp (mod_fstype _ _) _ _ => eapply wp_mod_fstype
  | |- wp (mod_module _ _) _ _ => eapply wp_mod_module
  | |- wp (mod_file _ _) _ _ => eapply wp_mod_file
  | |- wp (match _ with Some f => match f with end | None => _ end) _ _ => apply wp_nofn
  end.

(** [wp_lookup] closes a lookup in an updated heap; [wp_run] runs the code up
    to the next branch, call or BUG_ON. *)
Ltac wp_lookup :=
  cbn -[lookup insert delete]; rewrite ?lookup_insert_eq; (eassumption || reflexivity).
Ltac wp_run := repeat first [wp_step; [solve [wp_lookup]|] | wp_step; []].
Ltac wp_bug := apply wp_bug_on; [|].
Tactic Notation "wp_if" simple_intropattern(p) := apply wp_mwhen; intros p.
