(* ===== verification/Filesystems.v ===== *)
(** * The table of file systems (fs/filesystems.c, getname of fs/namei.c)

    [file_systems] is a singly linked list threaded through the
    [file_system_type] structures.  The code walks it with a pointer to the
    link it may have to overwrite; such a [struct file_system_type **] is a
    [slot] here. *)

From S2P Require Import Prelude KString Kernel.

Inductive slot : Set := FileSystemsHead | NextOf (fs : ptr).

Definition read_slot (p : slot) : KM ptr :=
  match p with
  | FileSystemsHead => gets file_systems
  | NextOf fs => t ← get_fstype fs; mret (fs_next t)
  end.

Definition write_slot (p : slot) (v : ptr) : KM unit :=
  match p with
  | FileSystemsHead => modify (λ s, s <| file_systems := v |>)
  | NextOf fs => mod_fstype fs (λ t, t <| fs_next := v |>)
  end.

(** Every walk of the table visits each structure at most once. *)
Definition fs_fuel : KM nat := gets (λ s, S (size (fstypes s))).

Definition get_filesystem (fs : ptr) : KM unit :=
  t ← get_fstype fs; __module_get (fs_owner t).

Definition put_filesystem (fs : ptr) : KM unit :=
  t ← get_fstype fs; module_put (fs_owner t).

Definition find_filesystem (name : list Z) : KM slot :=
  n ← fs_fuel;
  loop n (λ p,
    cur ← read_slot p;
    if cur =? NULL then mret (inr p)
    else
      t ← get_fstype cur;
      if strcmp (fs_name t) name =? 0 then mret (inr p) else mret (inl (NextOf cur)))
    FileSystemsHead.

Definition register_filesystem (fs : ptr) : KM Z :=
  if fs =? NULL then mret (- EINVAL)
  else
    t ← get_fstype fs;
    if negb (fs_next t =? NULL) then mret (- EBUSY)
    else
      mod_fstype fs (λ t, t <| fs_supers := [] |>) ;;
      p ← find_filesystem (fs_name t);
      cur ← read_slot p;
      if negb (cur =? NULL) then mret (- EBUSY)
      else write_slot p fs ;; mret 0.

Definition unregister_filesystem (fs : ptr) : KM Z :=
  n ← fs_fuel;
  loop n (λ tmp,
    cur ← read_slot tmp;
    if cur =? NULL then mret (inr (- EINVAL))
    else if fs =? cur then
      t ← get_fstype fs;
      write_slot tmp (fs_next t) ;;
      mod_fstype fs (λ t, t <| fs_next := NULL |>) ;;
      mret (inr 0)
    else mret (inl (NextOf cur)))
    FileSystemsHead.

(** ** getname: a path name from user space *)

Definition PATH_MAX : Z := 4096.
Definition TASK_SIZE : Z := 3221225472. (* 0xC0000000 *)

(** strncpy_from_user: the bytes up to NUL or to [count], or a fault. *)
Fixpoint strncpy_from_user (m : gmap Z Z) (src : Z) (count : nat) : option (list Z) :=
  match count with
  | O => Some []
  | S n =>
      match m !! src with
      | None => None
      | Some c => if c =? 0 then Some [] else cons c <$> strncpy_from_user m (src + 1) n
      end
  end.

(** The task runs with the user address limit, so [segment_eq] is false. *)
Definition do_getname (filename : Z) : KM (Z + list Z) :=
  if filename >=? TASK_SIZE then mret (inl (- EFAULT))
  else
    let len := if TASK_SIZE - filename <? PATH_MAX then TASK_SIZE - filename else PATH_MAX in
    m ← gets user_mem;
    match strncpy_from_user m filename (Z.to_nat len) with
    | None => mret (inl (- EFAULT))
    | Some page =>
        let retval := Z.of_nat (length page) in
        if retval >? 0 then
          if retval <? len then mret (inr page) else mret (inl (- ENAMETOOLONG))
        else mret (inl (- ENOENT))
    end.

Definition getname (filename : Z) : KM (Z + list Z) :=
  tmp ← kmem_alloc;
  if tmp =? NULL then mret (inl (- ENOMEM)) else do_getname filename.

(** ** The system call sysfs *)

Definition fs_index (__name : Z) : KM Z :=
  r ← getname __name;
  match r with
  | inl err => mret err
  | inr name =>
      n ← fs_fuel;
      first ← gets file_systems;
      loop n (λ '(tmp, index),
        if tmp =? NULL then mret (inr (- EINVAL))
        else
          t ← get_fstype tmp;
          if strcmp (fs_name t) name =? 0 then mret (inr index)
          else mret (inl (fs_next t, index + 1)))
        (first, 0)
  end.

(** [index] is unsigned: [index <= 0] holds only at zero, and [index--] wraps. *)
Definition fs_name_sys (index : Z) (buf : Z) : KM Z :=
  n ← fs_fuel;
  first ← gets file_systems;
  tmp ← loop n (λ '(tmp, index),
    if tmp =? NULL then mret (inr NULL)
    else
      t ← get_fstype tmp;
      got ← (if index <=? 0 then try_module_get (fs_owner t) else mret false : KM bool);
      if (got : bool) then mret (inr tmp) else mret (inl (fs_next t, u32 (index - 1))))
    (first, index);
  if tmp =? NULL then mret (- EINVAL)
  else
    t ← get_fstype tmp;
    let len := strlen (fs_name t) + 1 in
    rest ← copy_to_user buf (take (Z.to_nat len) (fs_name t ++ [0]));
    put_filesystem tmp ;;
    mret (if rest =? 0 then 0 else - EFAULT).

Definition fs_maxindex : KM Z :=
  n ← fs_fuel;
  first ← gets file_systems;
  loop n (λ '(tmp, index),
    if tmp =? NULL then mret (inr index)
    else t ← get_fstype tmp; mret (inl (fs_next t, index + 1)))
    (first, 0).

Definition sys_sysfs (option arg1 arg2 : Z) : KM Z :=
  if option =? 1 then fs_index arg1
  else if option =? 2 then fs_name_sys (u32 arg1) arg2
  else if option =? 3 then fs_maxindex
  else mret (- EINVAL).

(** The text of /proc/filesystems; [len] is the length of the result. *)
Definition get_filesystem_list : KM (list Z) :=
  n ← fs_fuel;
  first ← gets file_systems;
  loop n (λ '(tmp, buf),
    if negb (tmp =? NULL) && (Z.of_nat (length buf) <? PAGE_CACHE_SIZE - 80) then
      t ← get_fstype tmp;
      let dev := if has_flag (fs_flags t) FS_REQUIRES_DEV then [] else cstr "nodev" in
      mret (inl (fs_next t, buf ++ dev ++ [9] ++ fs_name t ++ [10]))
    else mret (inr buf))
    (first, []).

Section get_fs_type.
(** The user-mode helper that loads a module: not kernel code. *)
Variable request_module : list Z → KM Z.

Definition try_find_filesystem (name : list Z) : KM ptr :=
  p ← find_filesystem name;
  fs ← read_slot p;
  if fs =? NULL then mret NULL
  else
    t ← get_fstype fs;
    ok ← try_module_get (fs_owner t);
    mret (if (ok : bool) then fs else NULL).

Definition get_fs_type (name : list Z) : KM ptr :=
  fs ← try_find_filesystem name;
  if fs =? NULL then
    r ← request_module name;
    if r =? 0 then try_find_filesystem name else mret fs
  else mret fs.
End get_fs_type.

(** ** The abstract table

    [fs_table s l]: the links of the structures of [s] spell out the list [l];
    no structure occurs twice and no two share a name. *)

Fixpoint fs_seg (m : gmap Z file_system_type) (p : ptr) (l : list ptr) (q : ptr) : Prop :=
  match l with
  | [] => p = q
  | x :: l' => p = x ∧ x ≠ NULL ∧ ∃ t, m !! x = Some t ∧ fs_seg m (fs_next t) l' q
  end.

Definition name_of (m : gmap Z file_system_type) (x : ptr) : list Z :=
  from_option fs_name [] (m !! x).

Record fs_table (s : kstate) (l : list ptr) : Prop := {
  fs_table_seg : fs_seg (fstypes s) (file_systems s) l NULL;
  fs_table_nodup : NoDup l;
  fs_table_names : Forall (λ x, cstring (name_of (fstypes s) x)) l;
  fs_table_unique : NoDup (name_of (fstypes s) <$> l)
}.

(** The slot that follows the structures [l1]. *)
Definition slot_at (l1 : list ptr) : slot :=
  match last l1 with None => FileSystemsHead | Some x => NextOf x end.

Lemma slot_at_snoc l1 x : slot_at (l1 ++ [x]) = NextOf x.
Proof. unfold slot_at. by rewrite last_snoc. Qed.

(** The number of structures still ahead of a slot: the walks decrease it. *)
Definition slot_measure (l : list ptr) (p : slot) : nat :=
  match p with FileSystemsHead => length l | NextOf x => length (list_after x l) end.

Lemma slot_measure_next l1 x l2 :
  NoDup (l1 ++ x :: l2) →
  (slot_measure (l1 ++ x :: l2) (NextOf x) < slot_measure (l1 ++ x :: l2) (slot_at l1))%nat.
Proof.
  intros Hnd. simpl. assert (x ∉ l1) as Hx1 by (apply NoDup_app in Hnd; set_solver).
  rewrite list_after_app by done. unfold slot_at. destruct (last l1) as [y|] eqn:Ey; simpl.
  - apply last_Some in Ey as [l' ->]. rewrite <-app_assoc in *. simpl.
    rewrite list_after_app; [simpl; lia|]. apply NoDup_app in Hnd. set_solver.
  - rewrite length_app. simpl. lia.
Qed.

Section fs_seg.
Implicit Types (m : gmap Z file_system_type) (l : list ptr).

Lemma fs_seg_app m p l1 l2 q :
  fs_seg m p (l1 ++ l2) q ↔ ∃ r, fs_seg m p l1 r ∧ fs_seg m r l2 q.
Proof.
  revert p. induction l1 as [|x l1 IH]; intros p; simpl; [naive_solver|].
  setoid_rewrite IH. naive_solver.
Qed.

Lemma fs_seg_elem m p l q x : fs_seg m p l q → x ∈ l → x ≠ NULL ∧ is_Some (m !! x).
Proof.
  revert p. induction l as [|y l IH]; simpl; [by intros p _ ?%not_elem_of_nil|].
  intros p (-> & Hy & t & Ht & Hseg) [->|?]%elem_of_cons; eauto.
Qed.

Lemma fs_seg_snoc_lookup m p l1 x q t :
  fs_seg m p (l1 ++ [x]) q → m !! x = Some t → fs_next t = q.
Proof.
  rewrite fs_seg_app. intros (r & _ & (-> & _ & t' & Ht' & Hq)) Ht.
  simpl in Hq. congruence.
Qed.

(** Changing structures off the segment, or fields other than the link. *)
Lemma fs_seg_ext m m' p l q :
  fs_seg m p l q →
  (∀ x t, x ∈ l → m !! x = Some t → ∃ t', m' !! x = Some t' ∧ fs_next t' = fs_next t) →
  fs_seg m' p l q.
Proof.
  revert p. induction l as [|x l IH]; intros p; simpl; [done|].
  intros (-> & Hx & t & Ht & Hseg) Hm. split; [done|]. split; [done|].
  destruct (Hm x t) as (t' & Ht' & Hn); [by left|done|].
  exists t'. split; [done|]. rewrite Hn. apply IH; [done|].
  intros y ty Hy. apply Hm. by right.
Qed.

Lemma fs_seg_length m p l q : fs_seg m p l q → NoDup l → (length l ≤ size m)%nat.
Proof.
  intros Hseg Hnd.
  rewrite <-size_dom, <-(size_list_to_set (C := gset Z) l Hnd).
  apply subseteq_size. intros x. rewrite elem_of_list_to_set, elem_of_dom.
  intros Hx. by eapply fs_seg_elem.
Qed.
End fs_seg.

(** Reading the slot that follows [l1] gives the next structure of the table. *)
Lemma wp_read_slot_at s l1 l2 Q :
  fs_seg (fstypes s) (file_systems s) (l1 ++ l2) NULL →
  Q (default NULL (head l2)) s → wp (read_slot (slot_at l1)) Q s.
Proof.
  intros Hseg HQ. assert (∃ r, fs_seg (fstypes s) (file_systems s) l1 r ∧
    r = default NULL (head l2)) as (r & H1 & ->).
  { apply fs_seg_app in Hseg as (r & H1 & H2). exists r. split; [done|].
    destruct l2; simpl in *; tauto. }
  unfold slot_at. destruct (last l1) as [x|] eqn:E.
  - apply last_Some in E as [l' ->]. simpl.
    destruct (fs_seg_elem _ _ _ _ x H1) as [_ [t Ht]]; [set_solver|].
    wp_step. wp_step; [done|]. wp_step. by rewrite (fs_seg_snoc_lookup _ _ _ _ _ _ H1 Ht).
  - apply last_None in E as ->. simpl in *. wp_step. by rewrite H1.
Qed.

(** [find_filesystem] stops at the structure with the name, or at the end. *)
Lemma wp_find_filesystem s l name Q :
  fs_table s l → cstring name →
  (∀ l1 l2, l = l1 ++ l2 → name ∉ (name_of (fstypes s) <$> l1) →
     (∀ x, head l2 = Some x → name_of (fstypes s) x = name) →
     Q (slot_at l1) s) →
  wp (find_filesystem name) Q s.
Proof.
  intros [Hseg Hnd Hnames Huniq] Hname HQ. unfold find_filesystem, fs_fuel.
  wp_step. wp_step.
  pose (I p s' := s' = s ∧ ∃ l1 l2, p = slot_at l1 ∧ l = l1 ++ l2 ∧
                   name ∉ (name_of (fstypes s) <$> l1)).
  pose proof (fs_seg_length _ _ _ _ Hseg Hnd) as Hlen.
  eapply (wp_loop I (λ p _, slot_measure l p));
    [|split; [done|]; exists [], l; set_solver|simpl; lia].
  intros p s' (-> & l1 & l2 & -> & Hl & Hnot). wp_step.
  apply (wp_read_slot_at _ l1 l2); [by rewrite <-Hl|].
  destruct l2 as [|x l2]; simpl.
  { wp_step. apply (HQ l1 []); [done|done|]. by intros ? [=]. }
  destruct (fs_seg_elem _ _ _ _ x Hseg) as [Hx [t Ht]]; [set_solver|].
  rewrite (proj2 (Z.eqb_neq x NULL)) by done. wp_step. wp_step; [done|].
  assert (name_of (fstypes s) x = fs_name t) as Hnx by (unfold name_of; by rewrite Ht).
  assert (cstring (fs_name t)) as Hct.
  { rewrite <-Hnx. rewrite Forall_forall in Hnames. apply Hnames. set_solver. }
  destruct (strcmp (fs_name t) name =? 0) eqn:E; wp_step.
  - apply Z.eqb_eq, strcmp_eq in E; [|done|done].
    apply (HQ l1 (x :: l2)); [done|done|]. intros ? [= <-]. congruence.
  - apply Z.eqb_neq in E. split.
    + split; [done|]. exists (l1 ++ [x]), l2. rewrite slot_at_snoc, <-app_assoc.
      split; [done|]. split; [done|]. rewrite fmap_app, elem_of_app. simpl.
      intros [?|Hin]; [done|]. apply E. apply strcmp_eq; [done..|]. set_solver.
    + subst l. by apply slot_measure_next.
Qed.

(** Nothing but the structures and the head of their list changes. *)
Definition table_frame (s s' : kstate) : Prop :=
  s' = s <| fstypes := fstypes s' |> <| file_systems := file_systems s' |>.

#[export] Instance table_frame_preorder : PreOrder table_frame.
Proof.
  split; [by intros []|]. intros s1 s2 s3 H1 H2. unfold table_frame in *. rewrite H2, H1. done.
Qed.

(** The table depends on the links and the names only. *)
Lemma fs_table_ext s s' l :
  fs_table s l → file_systems s' = file_systems s →
  (∀ x t, x ∈ l → fstypes s !! x = Some t →
     ∃ t', fstypes s' !! x = Some t' ∧ fs_next t' = fs_next t ∧ fs_name t' = fs_name t) →
  fs_table s' l.
Proof.
  intros [Hseg Hnd Hnames Huniq] Hhd Hm.
  assert (∀ x, x ∈ l → name_of (fstypes s') x = name_of (fstypes s) x) as Hname.
  { intros x Hx. destruct (fs_seg_elem _ _ _ _ x Hseg Hx) as [_ [t Ht]].
    destruct (Hm x t Hx Ht) as (t' & Ht' & _ & Hn). unfold name_of. by rewrite Ht, Ht'. }
  split; [|done| |].
  - rewrite Hhd. eapply fs_seg_ext; [done|]. intros x t Hx Ht.
    destruct (Hm x t Hx Ht) as (t' & ? & ? & _). eauto.
  - rewrite Forall_forall in *. intros x Hx. rewrite Hname by done. auto.
  - by rewrite (list_fmap_ext_elem _ (name_of (fstypes s))).
Qed.

(** Linking a new structure behind the last one. *)
Lemma wp_write_slot_end s l fs t (Q : unit → kstate → Prop) :
  fs_table s l → fstypes s !! fs = Some t → fs ≠ NULL → fs ∉ l → fs_next t = NULL →
  cstring (fs_name t) → fs_name t ∉ (name_of (fstypes s) <$> l) →
  (∀ s', fs_table s' (l ++ [fs]) → fstypes s' !! fs = Some t → table_frame s s' → Q tt s') →
  wp (write_slot (slot_at l) fs) Q s.
Proof.
  intros Htab Ht Hfs Hnin Hnext Hcs Hnew HQ. destruct (Htab) as [Hseg Hnd Hnames Huniq].
  unfold slot_at. destruct (last l) as [x|] eqn:El.
  - apply last_Some in El as [l' ->].
    destruct (fs_seg_elem _ _ _ _ x Hseg) as [Hx [tx Htx]]; [set_solver|].
    assert (x ≠ fs) as Hne by set_solver.
    unfold write_slot. eapply wp_mod_fstype; [done|]. apply HQ; simpl.
    2: { by rewrite lookup_insert_ne, Ht. }
    2: { by destruct s. }
    assert (∀ y, name_of (<[x:=tx <| fs_next := fs |>]> (fstypes s)) y = name_of (fstypes s) y)
      as Hname.
    { intros y. unfold name_of. destruct (decide (x = y)) as [->|]; simplify_map_eq; done. }
    split; simpl.
    + rewrite fs_seg_app. exists fs. split.
      * apply fs_seg_app in Hseg as (r & H1 & (-> & _ & _)). rewrite fs_seg_app.
        exists x. split; [|simpl; do 2 (split; [done|]); eexists; by rewrite lookup_insert_eq].
        eapply fs_seg_ext; [done|]. intros y ty Hy Hty.
        assert (x ≠ y) by (apply NoDup_app in Hnd; set_solver).
        exists ty. by rewrite lookup_insert_ne.
      * simpl. split; [done|]. split; [done|]. exists t. by rewrite lookup_insert_ne.
    + apply NoDup_app. split; [done|]. split; [set_solver|apply NoDup_singleton].
    + rewrite Forall_app. split.
      * eapply Forall_impl; [done|]. intros y. simpl. by rewrite Hname.
      * repeat constructor. rewrite Hname. unfold name_of. by rewrite Ht.
    + rewrite (list_fmap_ext_elem _ (name_of (fstypes s))) by (intros; apply Hname).
      rewrite fmap_app, NoDup_app. split; [done|]. split; [|apply NoDup_singleton].
      intros y Hy ?%list_elem_of_singleton. subst y. unfold name_of in Hy at 1. by rewrite Ht in Hy.
  - apply last_None in El as ->. unfold write_slot. wp_step. apply HQ; simpl; [|done|by destruct s].
    split; simpl.
    + naive_solver.
    + apply NoDup_singleton.
    + repeat constructor. unfold name_of. by rewrite Ht.
    + apply NoDup_singleton.
Qed.

Lemma wp_register_filesystem s l fs t Q :
  fs_table s l → fs ≠ NULL → fstypes s !! fs = Some t → fs_next t = NULL →
  cstring (fs_name t) →
  (fs_name t ∈ (name_of (fstypes s) <$> l) → ∀ s', fs_table s' l → table_frame s s' →
     Q (- EBUSY) s') →
  (fs_name t ∉ (name_of (fstypes s) <$> l) → ∀ s', fs_table s' (l ++ [fs]) → table_frame s s' →
     fstypes s' !! fs = Some (t <| fs_supers := [] |>) → Q 0 s') →
  wp (register_filesystem fs) Q s.
Proof.
  intros Htab Hfs Ht Hnext Hcs Hbusy Hok. unfold register_filesystem.
  rewrite (proj2 (Z.eqb_neq fs NULL)) by done. wp_step. wp_step; [done|].
  rewrite Hnext. simpl. wp_step. wp_step; [done|].
  set (s1 := s <| fstypes ::= _ |>).
  assert (∀ x, name_of (fstypes s1) x = name_of (fstypes s) x) as Hname.
  { intros x. unfold name_of. simpl. destruct (decide (fs = x)) as [->|]; simplify_map_eq; done. }
  assert (fs_table s1 l) as Htab1.
  { eapply fs_table_ext; [done|done|]. intros x tx Hx Htx. simpl.
    destruct (decide (fs = x)) as [->|]; simplify_map_eq; eauto. }
  assert (fstypes s1 !! fs = Some (t <| fs_supers := [] |>)) as Ht1 by apply lookup_insert_eq.
  assert (table_frame s s1) as Hfr1 by done.
  wp_step. apply (wp_find_filesystem _ l); [done..|].
  intros l1 l2 -> Hnot Hhead. wp_step.
  apply (wp_read_slot_at _ l1 l2); [apply Htab1|].
  rewrite (list_fmap_ext_elem _ (name_of (fstypes s))) in Hnot by (intros; apply Hname).
  destruct l2 as [|x l2]; simpl.
  - rewrite app_nil_r in *. wp_step.
    assert (fs ∉ l1) as Hnin.
    { intros Hin. apply Hnot, list_elem_of_fmap. exists fs. unfold name_of. by rewrite Ht. }
    eapply wp_write_slot_end; [done|done|done|done|done|done| |].
    + simpl. by rewrite (list_fmap_ext_elem _ (name_of (fstypes s))) by (intros; apply Hname).
    + intros s' Htab' Ht' Hfr. wp_step. apply Hok; [done|done|by etrans|done].
  - destruct (fs_seg_elem _ _ _ _ x (fs_table_seg _ _ Htab1)) as [Hx _]; [set_solver|].
    rewrite (proj2 (Z.eqb_neq x NULL)) by done. simpl. wp_step.
    apply Hbusy; [|done|done]. apply list_elem_of_fmap. exists x. split; [|set_solver].
    rewrite <-Hname. symmetry. by apply Hhead.
Qed.

(** Unlinking a structure from the middle of the table. *)
Lemma wp_unlink_slot s l1 l2 fs t (Q : unit → kstate → Prop) :
  fs_table s (l1 ++ fs :: l2) → fstypes s !! fs = Some t →
  (∀ s', fs_table s' (l1 ++ l2) → fstypes s' !! fs = Some (t <| fs_next := NULL |>) →
     table_frame s s' → Q tt s') →
  wp (write_slot (slot_at l1) (fs_next t) ;; mod_fstype fs (λ t, t <| fs_next := NULL |>)) Q s.
Proof.
  intros [Hseg Hnd Hnames Huniq] Ht HQ.
  assert ((fs ∉ l1) ∧ (fs ∉ l2) ∧ NoDup l1) as (Hfs1 & Hfs2 & Hnd1).
  { apply NoDup_app in Hnd as (? & ? & [? ?]%NoDup_cons). set_solver. }
  pose proof (fs_seg_app (fstypes s) (file_systems s) l1 (fs :: l2) NULL) as [Happ _].
  destruct (Happ Hseg) as (r & H1 & (-> & Hfs & t' & Ht' & H2)). simplify_eq.
  assert (∀ s', (∀ y, name_of (fstypes s') y = name_of (fstypes s) y) →
     fs_seg (fstypes s') (file_systems s') (l1 ++ l2) NULL → fs_table s' (l1 ++ l2)) as Hmk.
  { intros s' Hname Hseg'. split; [done| | |].
    - apply NoDup_app in Hnd as (? & Hd & [? ?]%NoDup_cons). apply NoDup_app.
      split; [done|]. split; [|done]. intros y Hy. specialize (Hd y Hy). set_solver.
    - rewrite Forall_app in *. destruct Hnames as [Hn1 [_ Hn2]%Forall_cons].
      split; eapply Forall_impl; try done; intros y; simpl; by rewrite Hname.
    - rewrite (list_fmap_ext_elem _ (name_of (fstypes s))) by (intros; apply Hname).
      rewrite fmap_app in *. simpl in Huniq. apply NoDup_app in Huniq as (? & Hd & [? ?]%NoDup_cons).
      apply NoDup_app. split; [done|]. split; [|done]. intros y Hy. specialize (Hd y Hy). set_solver. }
  unfold slot_at. destruct (last l1) as [x|] eqn:El; simpl.
  - apply last_Some in El as [l' ->].
    destruct (fs_seg_elem _ _ _ _ x H1) as [Hx [tx Htx]]; [set_solver|].
    assert (x ≠ fs) as Hne by set_solver.
    wp_step. wp_step; [done|]. wp_step; [by simpl; rewrite lookup_insert_ne|].
    apply HQ; [apply Hmk|simpl; by rewrite lookup_insert_eq|by destruct s]; simpl.
    + intros y. unfold name_of.
      destruct (decide (fs = y)) as [->|]; [simplify_map_eq; done|].
      destruct (decide (x = y)) as [->|]; simplify_map_eq; done.
    + rewrite fs_seg_app. exists (fs_next t). split.
      * apply fs_seg_app in H1 as (r & H1 & (-> & _ & _)). rewrite fs_seg_app. exists x. split.
        -- eapply fs_seg_ext; [done|]. intros y ty Hy Hty.
           assert (x ≠ y ∧ fs ≠ y) as [? ?] by (apply NoDup_app in Hnd1; set_solver).
           exists ty. by rewrite !lookup_insert_ne.
        -- simpl. do 2 (split; [done|]). rewrite lookup_insert_ne, lookup_insert_eq by done. eauto.
      * eapply fs_seg_ext; [done|]. intros y ty Hy Hty.
        assert (x ≠ y ∧ fs ≠ y) as [? ?] by (apply NoDup_app in Hnd; set_solver).
        exists ty. by rewrite !lookup_insert_ne.
  - apply last_None in El as ->. simpl in *. wp_step. wp_step. wp_step; [done|].
    apply HQ; [apply Hmk|simpl; by rewrite lookup_insert_eq|by destruct s]; simpl.
    + intros y. unfold name_of. destruct (decide (fs = y)) as [->|]; simplify_map_eq; done.
    + eapply fs_seg_ext; [done|]. intros y ty Hy Hty.
      assert (fs ≠ y) by set_solver. exists ty. by rewrite lookup_insert_ne.
Qed.

Lemma wp_unregister_filesystem s l fs Q :
  fs_table s l →
  (fs ∉ l → Q (- EINVAL) s) →
  (∀ l1 l2 t, l = l1 ++ fs :: l2 → fstypes s !! fs = Some t →
     ∀ s', fs_table s' (l1 ++ l2) → fstypes s' !! fs = Some (t <| fs_next := NULL |>) →
       table_frame s s' → Q 0 s') →
  wp (unregister_filesystem fs) Q s.
Proof.
  intros Htab Hno Hyes. destruct (Htab) as [Hseg Hnd _ _].
  unfold unregister_filesystem, fs_fuel. wp_step. wp_step.
  pose (I p s' := s' = s ∧ ∃ l1 l2, p = slot_at l1 ∧ l = l1 ++ l2 ∧ fs ∉ l1).
  pose proof (fs_seg_length _ _ _ _ Hseg Hnd) as Hlen.
  eapply (wp_loop I (λ p _, slot_measure l p));
    [|split; [done|]; exists [], l; set_solver|simpl; lia].
  intros p s' (-> & l1 & l2 & -> & Hl & Hnot). wp_step.
  apply (wp_read_slot_at _ l1 l2); [by rewrite <-Hl|].
  destruct l2 as [|x l2]; simpl.
  { wp_step. apply Hno. rewrite Hl, app_nil_r. done. }
  destruct (fs_seg_elem _ _ _ _ x Hseg) as [Hx [t Ht]]; [set_solver|].
  rewrite (proj2 (Z.eqb_neq x NULL)) by done. destruct (fs =? x) eqn:E.
  - apply Z.eqb_eq in E as <-. wp_step. wp_step; [done|]. subst l.
    pose proof (wp_unlink_slot s l1 l2 fs t) as Hun.
    apply wp_bind. specialize (Hun (λ _ s', Q 0 s') Htab Ht (Hyes l1 l2 t eq_refl Ht)).
    apply wp_bind_inv in Hun. eapply wp_mono; [exact Hun|]. simpl. intros [] s1 H1.
    wp_step. eapply wp_mono; [exact H1|]. simpl. intros [] s2 H2. by wp_step.
  - apply Z.eqb_neq in E. wp_step. split.
    + split; [done|]. exists (l1 ++ [x]), l2. rewrite slot_at_snoc, <-app_assoc. set_solver.
    + subst l. by apply slot_measure_next.
Qed.

(** ** What the table promises *)

(** C35: registering a file system whose name is not in the table appends it;
    one whose name is taken is refused with -EBUSY and the table keeps its
    members and their order.  Either way the table stays well formed and
    nothing outside it changes. *)
Theorem register_filesystem_spec s l fs t :
  fs_table s l → fs ≠ NULL → fstypes s !! fs = Some t → fs_next t = NULL →
  cstring (fs_name t) →
  wp (register_filesystem fs) (λ r s',
    if bool_decide (fs_name t ∈ (name_of (fstypes s) <$> l))
    then r = - EBUSY ∧ fs_table s' l ∧ table_frame s s'
    else r = 0 ∧ fs_table s' (l ++ [fs]) ∧ table_frame s s') s.
Proof.
  intros. eapply wp_register_filesystem; try done; intros Hin s' Hs' Hfr.
  - by rewrite bool_decide_eq_true_2.
  - by rewrite bool_decide_eq_false_2.
Qed.

(** Unregistering removes exactly the structure given, keeps the order of
    the others, clears its link and changes nothing outside the table; a
    structure that is not in the table is refused with -EINVAL and nothing
    changes. *)
Theorem unregister_filesystem_spec s l fs :
  fs_table s l →
  wp (unregister_filesystem fs) (λ r s',
    if bool_decide (fs ∈ l)
    then r = 0 ∧ fs_table s' (list_del fs l) ∧ fs_next <$> fstypes s' !! fs = Some NULL ∧
         table_frame s s'
    else r = - EINVAL ∧ s' = s) s.
Proof.
  intros Htab. pose proof (fs_table_nodup _ _ Htab) as Hnd.
  apply (wp_unregister_filesystem _ l); [done| |].
  - intros Hnot. by rewrite bool_decide_eq_false_2.
  - intros l1 l2 t -> Ht s' Hs' Hfs Hfr. rewrite bool_decide_eq_true_2 by set_solver.
    assert ((fs ∉ l1) ∧ (fs ∉ l2)) as [H1 H2].
    { apply NoDup_app in Hnd as (_ & ? & [? ?]%NoDup_cons). set_solver. }
    unfold list_del. rewrite filter_app. change (filter _ l1) with (list_del fs l1).
    change (filter _ (fs :: l2)) with (list_del fs (fs :: l2)).
    rewrite list_del_notin, list_del_cons_eq by done. by rewrite Hfs.
Qed.

(** Registering and then unregistering a file system with a new name gives
    back the table, and the structure can be registered again. *)
Lemma register_unregister s l fs t :
  fs_table s l → fs ≠ NULL → fstypes s !! fs = Some t → fs_next t = NULL →
  cstring (fs_name t) → fs_name t ∉ (name_of (fstypes s) <$> l) →
  wp (r1 ← register_filesystem fs; r2 ← unregister_filesystem fs; mret (r1, r2))
     (λ r s', r = (0, 0) ∧ fs_table s' l ∧ fs_next <$> fstypes s' !! fs = Some NULL) s.
Proof.
  intros Htab Hfs Ht Hnext Hcs Hnew. wp_step.
  eapply wp_register_filesystem; try done. intros _ s1 Htab1 _ _. wp_step.
  apply (wp_unregister_filesystem _ (l ++ [fs])); [done|set_solver|].
  intros l1 l2 t1 Heq Ht1 s2 Htab2 Hfs2 _. wp_step. split; [done|].
  pose proof (fs_table_nodup _ _ Htab1) as Hnd.
  destruct (snoc_split _ _ _ _ Hnd Heq) as [-> ->]. rewrite app_nil_r in Htab2. by rewrite Hfs2.
Qed.
