(* ===== verification/Links.v ===== *)
(** * Intrusive lists

    A family of list heads and the nodes on them.  [linked H N] says that the
    two sides agree: the list of head [k] holds a node exactly when the node
    says it is on [k], and it holds it once.  The invariants of the inode and
    dentry caches are made of this relation; here are its update laws, and the
    ghost counts of references held from outside a structure. *)

From S2P Require Import Prelude Kernel.

#[export] Instance hnode_eq_dec : EqDecision hnode.
Proof. solve_decision. Defined.
#[export] Instance inode_list_eq_dec : EqDecision inode_list.
Proof. solve_decision. Defined.

Record linked {K} (H : K → list Z) (N : Z → option K) : Prop := mkLinked {
  linked_nodup k : NoDup (H k);
  linked_iff x k : x ∈ H k ↔ N x = Some k
}.

Section linked.
Context {K : Type} `{EqDecision K}.
Implicit Types (H : K → list Z) (N : Z → option K).

Lemma linked_ext H N H' N' :
  linked H N → (∀ k, H' k = H k) → (∀ x, N' x = N x) → linked H' N'.
Proof.
  intros [Hnd Hiff] HH HN. split.
  - intros k. by rewrite HH.
  - intros x k. by rewrite HH, HN.
Qed.

Lemma linked_notin H N x k : linked H N → N x ≠ Some k → x ∉ H k.
Proof. intros Hl Hx ?%(linked_iff _ _ Hl). done. Qed.

Lemma linked_del_id H N x k : linked H N → N x ≠ Some k → list_del x (H k) = H k.
Proof. intros Hl Hx. by apply list_del_notin, (linked_notin _ _ _ _ Hl). Qed.

(** A node leaves whatever list it is on. *)
Lemma linked_remove H N H' N' x :
  linked H N → (∀ k, H' k = list_del x (H k)) → N' x = None →
  (∀ y, y ≠ x → N' y = N y) → linked H' N'.
Proof.
  intros [Hnd Hiff] HH HN HN'. split.
  - intros k. rewrite HH. by apply NoDup_list_del.
  - intros y k. rewrite HH, elem_of_list_del, Hiff.
    destruct (decide (y = x)) as [->|Hy].
    + rewrite HN. split; [by intros [? _]|done].
    + rewrite HN' by done. tauto.
Qed.

(** A node that was on no list enters that of [k]. *)
Lemma linked_insert H N H' N' x k :
  linked H N → N x = None → H' k ≡ₚ x :: H k → (∀ k', k' ≠ k → H' k' = H k') →
  N' x = Some k → (∀ y, y ≠ x → N' y = N y) → linked H' N'.
Proof.
  intros [Hnd Hiff] Hx HHk HH HN HN'. split.
  - intros k'. destruct (decide (k' = k)) as [->|Hk].
    + rewrite HHk. apply NoDup_cons. split; [|done]. rewrite Hiff. congruence.
    + by rewrite HH.
  - intros y k'. destruct (decide (k' = k)) as [->|Hk].
    + rewrite HHk, elem_of_cons, Hiff.
      destruct (decide (y = x)) as [->|Hy]; [|rewrite HN' by done; naive_solver].
      rewrite HN. naive_solver.
    + rewrite HH, Hiff by done. destruct (decide (y = x)) as [->|Hy].
      * rewrite Hx, HN. split; congruence.
      * by rewrite HN'.
Qed.

(** A node moves to the list of [k]. *)
Lemma linked_move H N H' N' x k :
  linked H N → H' k ≡ₚ x :: list_del x (H k) → (∀ k', k' ≠ k → H' k' = list_del x (H k')) →
  N' x = Some k → (∀ y, y ≠ x → N' y = N y) → linked H' N'.
Proof.
  intros Hl Hk Hk' HN HN'.
  eapply (linked_insert (λ k, list_del x (H k)) (λ y, if decide (y = x) then None else N y));
    [|by rewrite decide_True|done..|].
  - eapply linked_remove; [done|done|by rewrite decide_True|].
    intros y Hy. by rewrite decide_False.
  - intros y Hy. by rewrite decide_False, HN'.
Qed.

(** Reordering a list does not matter to the nodes. *)
Lemma linked_perm H N H' :
  linked H N → (∀ k, H' k ≡ₚ H k) → linked H' N.
Proof.
  intros [Hnd Hiff] HH. split.
  - intros k. by rewrite HH.
  - intros x k. by rewrite HH.
Qed.
End linked.

(** ** References held from outside

    A reference count is the sum of the references the structure itself
    accounts for and those of the rest of the kernel, given by a function. *)

Definition refs : Type := Z → Z.

Definition bump (x n : Z) (e : refs) : refs := λ y, if y =? x then e y + n else e y.

Lemma bump_same x n e : bump x n e x = e x + n.
Proof. unfold bump. by rewrite Z.eqb_refl. Qed.

Lemma bump_other x y n e : y ≠ x → bump x n e y = e y.
Proof. unfold bump. intros. by rewrite (proj2 (Z.eqb_neq y x)). Qed.

Lemma bump_bump x n m e y : bump x n (bump x m e) y = bump x (m + n) e y.
Proof. unfold bump. destruct (y =? x); lia. Qed.

Lemma bump_0 x e y : bump x 0 e y = e y.
Proof. unfold bump. destruct (y =? x); lia. Qed.

(** Lookups in a map after updates. *)
Ltac map_cases :=
  repeat match goal with
  | |- context [<[?i := _]> _ !! ?j] =>
      destruct (decide (i = j)) as [<-|?];
      [rewrite lookup_insert_eq|rewrite lookup_insert_ne by done]
  | |- context [delete ?i _ !! ?j] =>
      destruct (decide (i = j)) as [<-|?];
      [rewrite lookup_delete_eq|rewrite lookup_delete_ne by done]
  end.

Lemma alter_insert_some {V} {f : V → V} (p : Z) (v : V) (A : gmap Z V) :
  A !! p = Some v → alter f p A = <[p := f v]> A.
Proof.
  intros Hp. apply map_eq. intros y. destruct (decide (y = p)) as [->|Hy].
  - by rewrite lookup_alter_eq, Hp, lookup_insert_eq.
  - by rewrite lookup_alter_ne, lookup_insert_ne.
Qed.
