(* ===== verification/Inode.v ===== *)
(** * The inode cache (fs/inode.c)

    Allocation, reference counting and destruction of inodes, the in-use,
    unused and per-superblock lists, and the inode hash table.  Without block
    devices, quotas, security modules or inotify in the configuration, the
    hooks of those subsystems do nothing; an inode has no buffers. *)

From S2P Require Import Prelude KString Kernel.

(** ** Intrusive lists of inodes *)

(** [list_del (&inode->i_list)]; a private dispose list is a value of the
    function that owns it, and of the dirty list only the membership is kept. *)
Definition i_list_del (inode : ptr) : KM unit :=
  i ← get_inode inode;
  match i_list i with
  | OnInUse => modify (λ s, s <| inode_in_use ::= list_del inode |>)
  | OnUnused => modify (λ s, s <| inode_unused ::= list_del inode |>)
  | OnNone | OnDirty | OnDispose => mret tt
  end ;;
  mod_inode inode (λ i, i <| i_list := OnNone |>).

(** [list_add (&inode->i_list, head)] *)
Definition i_list_add (inode : ptr) (l : inode_list) : KM unit :=
  match l with
  | OnInUse => modify (λ s, s <| inode_in_use ::= cons inode |>)
  | OnUnused => modify (λ s, s <| inode_unused ::= cons inode |>)
  | OnNone | OnDirty | OnDispose => mret tt
  end ;;
  mod_inode inode (λ i, i <| i_list := l |>).

Definition i_list_move (inode : ptr) (l : inode_list) : KM unit :=
  i_list_del inode ;; i_list_add inode l.

(** [list_add (&inode->i_sb_list, &sb->s_inodes)] and [list_del_init]. *)
Definition i_sb_list_add (inode sb : ptr) : KM unit :=
  mod_super sb (λ b, b <| s_inodes ::= cons inode |>) ;;
  mod_inode inode (λ i, i <| i_sb_list := sb |>).

Definition i_sb_list_del (inode : ptr) : KM unit :=
  i ← get_inode inode;
  if i_sb_list i =? NULL then mret tt
  else
    mod_super (i_sb_list i) (λ b, b <| s_inodes ::= list_del inode |>) ;;
    mod_inode inode (λ i, i <| i_sb_list := NULL |>).

(** [hlist_add_head (&inode->i_hash, head)], [hlist_del_init], [hlist_unhashed]. *)
Definition i_hash_add (inode : ptr) (head : Z) : KM unit :=
  modify (λ s, s <| inode_hashtable ::= λ h, <[head := inode :: default [] (h !! head)]> h |>) ;;
  mod_inode inode (λ i, i <| i_hash := InBucket head |>).

Definition i_hash_del (inode : ptr) : KM unit :=
  i ← get_inode inode;
  match i_hash i with
  | InBucket b =>
      modify (λ s, s <| inode_hashtable ::= λ h, <[b := list_del inode (default [] (h !! b))]> h |>) ;;
      mod_inode inode (λ i, i <| i_hash := Unlinked |>)
  | _ => mret tt
  end.

Definition i_unhashed (i : inode) : bool := match i_hash i with Unlinked => true | _ => false end.

(** ** Allocation *)

(** The fields the slab constructor sets once and every user leaves so. *)
Definition inode_init_once (i : inode) : inode :=
  i <| i_hash := Unlinked |> <| i_dentry := [] |> <| i_nrpages := 0 |>.

(** The assignments of alloc_inode to the object it got. *)
Definition alloc_inode_init (slab : inode) (sb blkbits : Z) : inode :=
  (inode_init_once slab)
    <| i_sb := sb |>
    <| i_blkbits := blkbits |>
    <| i_flags := 0 |>
    <| i_count := 1 |>
    <| i_op := empty_iops |>
    <| i_fop := empty_fops |>
    <| i_nlink := 1 |>
    <| i_writecount := 0 |>
    <| i_size := 0 |>
    <| i_blocks := 0 |>
    <| i_bytes := 0 |>
    <| i_generation := 0 |>
    <| i_bdev := NULL |>
    <| i_cdev := NULL |>
    <| i_rdev := 0 |>
    <| i_private := NULL |>.

Definition alloc_inode (sb : ptr) : KM ptr :=
  b ← get_super sb;
  inode ← match so_alloc_inode (s_op b) with
          | Some f => match f with end
          | None => kmem_alloc
          end;
  if inode =? NULL then mret NULL
  else
    slab ← gets slab_inode;
    modify (λ s, s <| inodes ::= <[inode := alloc_inode_init slab sb (s_blocksize_bits b)]> |>) ;;
    mret inode.

Definition destroy_inode (inode : ptr) : KM unit :=
  i ← get_inode inode;
  b ← get_super (i_sb i);
  match so_destroy_inode (s_op b) with
  | Some f => match f with end
  | None => modify (λ s, s <| inodes ::= delete inode |>)
  end.

Definition __iget (inode : ptr) : KM unit :=
  i ← get_inode inode;
  if negb (i_count i =? 0) then mod_inode inode (λ i, i <| i_count ::= Z.add 1 |>)
  else
    mod_inode inode (λ i, i <| i_count ::= Z.add 1 |>) ;;
    mwhen (negb (has_flag (i_state i) (Z.lor I_DIRTY I_LOCK))) (i_list_move inode OnInUse) ;;
    modify (λ s, s <| nr_unused_inode ::= λ n, n - 1 |>).

(** The page cache of an inode is the count of its pages. *)
Definition truncate_inode_pages (inode : ptr) : KM unit :=
  mod_inode inode (λ i, i <| i_nrpages := 0 |>).

(** A single thread that waits for the bit I_LOCK waits for itself. *)
Definition wait_on_inode (inode : ptr) : KM unit :=
  i ← get_inode inode;
  if has_flag (i_state i) I_LOCK then raise Deadlock else mret tt.

Definition clear_inode (inode : ptr) : KM unit :=
  i ← get_inode inode;
  bug_on (negb (i_nrpages i =? 0)) ;;
  bug_on (negb (has_flag (i_state i) I_FREEING)) ;;
  bug_on (has_flag (i_state i) I_CLEAR) ;;
  wait_on_inode inode ;;
  mwhen (negb (i_sb i =? NULL))
    (b ← get_super (i_sb i);
     match so_clear_inode (s_op b) with
     | Some f => match f with end
     | None => mret tt
     end) ;;
  mwhen (negb (i_bdev i =? NULL)) (mod_inode inode (λ i, i <| i_bdev := NULL |>)) ;;
  mwhen (negb (i_cdev i =? NULL)) (mod_inode inode (λ i, i <| i_cdev := NULL |>)) ;;
  mod_inode inode (λ i, i <| i_state := I_CLEAR |>).

(** ** Discarding the inodes of a superblock *)

Definition dispose_one (inode : ptr) : KM unit :=
  mod_inode inode (λ i, i <| i_list := OnNone |>) ;;
  i ← get_inode inode;
  mwhen (negb (i_nrpages i =? 0)) (truncate_inode_pages inode) ;;
  clear_inode inode ;;
  i_hash_del inode ;;
  i_sb_list_del inode ;;
  destroy_inode inode.

Definition dispose_list (head : list ptr) : KM unit :=
  mfor head dispose_one ;;
  modify (λ s, s <| nr_inodes ::= λ n, n - Z.of_nat (length head) |>).

(** The busy flag and the inodes moved to the private list, most recent first. *)
Fixpoint invalidate_scan (l : list ptr) (busy : bool) (dispose : list ptr)
    : KM (bool * list ptr) :=
  match l with
  | [] => mret (busy, dispose)
  | inode :: l' =>
      i ← get_inode inode;
      if i_count i =? 0 then
        i_list_move inode OnDispose ;;
        mod_inode inode (λ i, i <| i_state ::= λ st, set_flag st I_FREEING |>) ;;
        invalidate_scan l' busy (inode :: dispose)
      else invalidate_scan l' true dispose
  end.

Definition invalidate_list (head : list ptr) : KM (bool * list ptr) :=
  '(busy, dispose) ← invalidate_scan head false [];
  modify (λ s, s <| nr_unused_inode ::= λ n, n - Z.of_nat (length dispose) |>) ;;
  mret (busy, dispose).

Definition invalidate_inodes (sb : ptr) : KM bool :=
  b ← get_super sb;
  '(busy, throw_away) ← invalidate_list (s_inodes b);
  dispose_list throw_away ;;
  mret busy.

(** ** Lookup in the hash table *)

Definition hash (sb hashval : Z) : KM Z :=
  shift ← gets i_hash_shift;
  mask ← gets i_hash_mask;
  let tmp := Z.lxor (u32 (hashval * sb))
                    (u32 (GOLDEN_RATIO_PRIME + hashval) / L1_CACHE_BYTES) in
  let tmp := Z.lxor tmp (Z.shiftr (Z.lxor tmp GOLDEN_RATIO_PRIME) shift) in
  mret (Z.land tmp mask).

Definition i_bucket (head : Z) : KM (list ptr) :=
  gets (λ s, default [] (inode_hashtable s !! head)).

(** An inode that matches and is being freed makes the caller sleep until the
    freeing thread is done; there is no other thread. *)
Fixpoint find_inode_fast_in (l : list ptr) (sb ino : Z) : KM ptr :=
  match l with
  | [] => mret NULL
  | inode :: l' =>
      i ← get_inode inode;
      if negb (i_ino i =? ino) then find_inode_fast_in l' sb ino
      else if negb (i_sb i =? sb) then find_inode_fast_in l' sb ino
      else if has_flag (i_state i) (Z.lor I_FREEING (Z.lor I_CLEAR I_WILL_FREE)) then raise Deadlock
      else mret inode
  end.

Definition find_inode_fast (sb head ino : Z) : KM ptr :=
  l ← i_bucket head; find_inode_fast_in l sb ino.

Fixpoint find_inode_in (l : list ptr) (sb : ptr) (test : ptr → KM bool) : KM ptr :=
  match l with
  | [] => mret NULL
  | inode :: l' =>
      i ← get_inode inode;
      if negb (i_sb i =? sb) then find_inode_in l' sb test
      else
        ok ← test inode;
        if negb ok then find_inode_in l' sb test
        else if has_flag (i_state i) (Z.lor I_FREEING (Z.lor I_CLEAR I_WILL_FREE))
             then raise Deadlock
             else mret inode
  end.

Definition find_inode (sb head : Z) (test : ptr → KM bool) : KM ptr :=
  l ← i_bucket head; find_inode_in l sb test.

(** ** Obtaining an inode *)

Definition new_inode (sb : ptr) : KM ptr :=
  inode ← alloc_inode sb;
  if inode =? NULL then mret NULL
  else
    modify (λ s, s <| nr_inodes ::= Z.add 1 |>) ;;
    i_list_add inode OnInUse ;;
    i_sb_list_add inode sb ;;
    modify (λ s, s <| last_ino ::= λ n, u32 (n + 1) |>) ;;
    ino ← gets last_ino;
    mod_inode inode (λ i, i <| i_ino := ino |> <| i_state := 0 |>) ;;
    mret inode.

Definition unlock_new_inode (inode : ptr) : KM unit :=
  mod_inode inode (λ i, i <| i_state ::= λ st, clear_flag st (Z.lor I_LOCK I_NEW) |>).

(** The part that get_new_inode and get_new_inode_fast share: the inode enters
    the lists and the hash, locked and new. *)
Definition link_new_inode (inode sb head : Z) : KM unit :=
  modify (λ s, s <| nr_inodes ::= Z.add 1 |>) ;;
  i_list_add inode OnInUse ;;
  i_sb_list_add inode sb ;;
  i_hash_add inode head ;;
  mod_inode inode (λ i, i <| i_state := Z.lor I_LOCK I_NEW |>).

Definition get_new_inode (sb head : Z) (test : ptr → KM bool) (set : ptr → KM Z) : KM ptr :=
  inode ← alloc_inode sb;
  if inode =? NULL then mret NULL
  else
    old ← find_inode sb head test;
    if old =? NULL then
      err ← set inode;
      if negb (err =? 0) then destroy_inode inode ;; mret NULL
      else link_new_inode inode sb head ;; mret inode
    else
      __iget old ;;
      destroy_inode inode ;;
      wait_on_inode old ;;
      mret old.

Definition get_new_inode_fast (sb head ino : Z) : KM ptr :=
  inode ← alloc_inode sb;
  if inode =? NULL then mret NULL
  else
    old ← find_inode_fast sb head ino;
    if old =? NULL then
      mod_inode inode (λ i, i <| i_ino := ino |>) ;;
      link_new_inode inode sb head ;;
      mret inode
    else
      __iget old ;;
      destroy_inode inode ;;
      wait_on_inode old ;;
      mret old.

Definition igrab (inode : ptr) : KM ptr :=
  i ← get_inode inode;
  if negb (has_flag (i_state i) (Z.lor I_FREEING I_WILL_FREE))
  then __iget inode ;; mret inode
  else mret NULL.

Definition ifind (sb head : Z) (test : ptr → KM bool) (wait : bool) : KM ptr :=
  inode ← find_inode sb head test;
  if inode =? NULL then mret NULL
  else
    __iget inode ;;
    mwhen wait (wait_on_inode inode) ;;
    mret inode.

Definition ifind_fast (sb head ino : Z) : KM ptr :=
  inode ← find_inode_fast sb head ino;
  if inode =? NULL then mret NULL
  else __iget inode ;; wait_on_inode inode ;; mret inode.

Definition ilookup5_nowait (sb hashval : Z) (test : ptr → KM bool) : KM ptr :=
  head ← hash sb hashval; ifind sb head test false.

Definition ilookup5 (sb hashval : Z) (test : ptr → KM bool) : KM ptr :=
  head ← hash sb hashval; ifind sb head test true.

Definition ilookup (sb ino : Z) : KM ptr :=
  head ← hash sb ino; ifind_fast sb head ino.

Definition iget5_locked (sb hashval : Z) (test : ptr → KM bool) (set : ptr → KM Z) : KM ptr :=
  head ← hash sb hashval;
  inode ← ifind sb head test true;
  if inode =? NULL then get_new_inode sb head test set else mret inode.

Definition iget_locked (sb ino : Z) : KM ptr :=
  head ← hash sb ino;
  inode ← ifind_fast sb head ino;
  if inode =? NULL then get_new_inode_fast sb head ino else mret inode.

Definition __insert_inode_hash (inode hashval : Z) : KM unit :=
  i ← get_inode inode;
  head ← hash (i_sb i) hashval;
  i_hash_add inode head.

Definition remove_inode_hash (inode : ptr) : KM unit := i_hash_del inode.

(** A number no hashed inode of the superblock has; each round that finds the
    number taken meets another inode of the hash table. *)
Definition iunique (sb max_reserved : Z) : KM Z :=
  n ← gets (λ s, (4 + size (inodes s))%nat);
  loop n (λ _,
    counter ← gets iunique_counter;
    if counter >? max_reserved then
      head ← hash sb counter;
      modify (λ s, s <| iunique_counter := u32 (counter + 1) |>) ;;
      inode ← find_inode_fast sb head counter;
      if inode =? NULL then mret (inr counter) else mret (inl tt)
    else modify (λ s, s <| iunique_counter := u32 (max_reserved + 1) |>) ;; mret (inl tt))
    tt.

(** ** Dropping an inode *)

Definition generic_delete_inode (inode : ptr) : KM unit :=
  i ← get_inode inode;
  b ← get_super (i_sb i);
  i_list_del inode ;;
  i_sb_list_del inode ;;
  mod_inode inode (λ i, i <| i_state ::= λ st, set_flag st I_FREEING |>) ;;
  modify (λ s, s <| nr_inodes ::= λ n, n - 1 |>) ;;
  match so_delete_inode (s_op b) with
  | Some f => match f with end
  | None => truncate_inode_pages inode ;; clear_inode inode
  end ;;
  i_hash_del inode ;;
  i ← get_inode inode;
  bug_on (negb (i_state i =? I_CLEAR)) ;;
  destroy_inode inode.

(** fs/fs-writeback.c is not modelled: writing an inode back leaves it clean. *)
Definition write_inode_now (inode : ptr) : KM unit :=
  mod_inode inode (λ i, i <| i_state ::= λ st, clear_flag st I_DIRTY |>).

(** The end of generic_forget_inode, after the inode left the hash. *)
Definition forget_unhashed_inode (inode : ptr) : KM unit :=
  i_list_del inode ;;
  i_sb_list_del inode ;;
  mod_inode inode (λ i, i <| i_state ::= λ st, set_flag st I_FREEING |>) ;;
  modify (λ s, s <| nr_inodes ::= λ n, n - 1 |>) ;;
  i ← get_inode inode;
  mwhen (negb (i_nrpages i =? 0)) (truncate_inode_pages inode) ;;
  clear_inode inode ;;
  destroy_inode inode.

Definition generic_forget_inode (inode : ptr) : KM unit :=
  i ← get_inode inode;
  if negb (i_unhashed i) then
    mwhen (negb (has_flag (i_state i) (Z.lor I_DIRTY I_LOCK))) (i_list_move inode OnUnused) ;;
    modify (λ s, s <| nr_unused_inode ::= Z.add 1 |>) ;;
    active ← (if i_sb i =? NULL then mret true
              else b ← get_super (i_sb i); mret (has_flag (s_flags b) MS_ACTIVE));
    if (active : bool) then mret tt
    else
      mod_inode inode (λ i, i <| i_state ::= λ st, set_flag st I_WILL_FREE |>) ;;
      write_inode_now inode ;;
      mod_inode inode (λ i, i <| i_state ::= λ st, clear_flag st I_WILL_FREE |>) ;;
      modify (λ s, s <| nr_unused_inode ::= λ n, n - 1 |>) ;;
      i_hash_del inode ;;
      forget_unhashed_inode inode
  else forget_unhashed_inode inode.

Definition generic_drop_inode (inode : ptr) : KM unit :=
  i ← get_inode inode;
  if i_nlink i =? 0 then generic_delete_inode inode else generic_forget_inode inode.

Definition iput_final (inode : ptr) : KM unit :=
  i ← get_inode inode;
  b ← get_super (i_sb i);
  match so_drop_inode (s_op b) with
  | Some f => match f with end
  | None => generic_drop_inode inode
  end.

Definition iput (inode : ptr) : KM unit :=
  if inode =? NULL then mret tt
  else
    i ← get_inode inode;
    b ← get_super (i_sb i);
    bug_on (i_state i =? I_CLEAR) ;;
    match so_put_inode (s_op b) with
    | Some f => match f with end
    | None => mret tt
    end ;;
    mod_inode inode (λ i, i <| i_count ::= λ c, c - 1 |>) ;;
    if i_count i - 1 =? 0 then iput_final inode else mret tt.

(** ** Device inodes *)

Definition init_special_inode (inode mode rdev : Z) : KM unit :=
  let mode := u16 mode in
  mod_inode inode (λ i, i <| i_mode := mode |>) ;;
  if S_ISCHR mode then mod_inode inode (λ i, i <| i_fop := def_chr_fops |> <| i_rdev := rdev |>)
  else if S_ISBLK mode then mod_inode inode (λ i, i <| i_fop := def_blk_fops |> <| i_rdev := rdev |>)
  else if S_ISFIFO mode then mod_inode inode (λ i, i <| i_fop := def_fifo_fops |>)
  else if S_ISSOCK mode then mod_inode inode (λ i, i <| i_fop := bad_sock_fops |>)
  else printk (cstr "<7>init_special_inode: bogus i_mode (" ++ fmt_o mode ++ cstr ")" ++ [10]).
