(* ===== verification/InodeInv.v ===== *)
(** * Correctness of the inode cache

    The invariant of the inode lists, hash table, number of inodes and reference
    counts, and that allocation, reference counting and the final [iput]
    preserve it without faulting. *)

From S2P Require Import Prelude KString Kernel Links Inode.

(** ** The two sides of each list *)

Definition ilist_head (s : kstate) (l : inode_list) : list ptr :=
  match l with OnInUse => inode_in_use s | OnUnused => inode_unused s | _ => [] end.
Definition on_ilist (i : inode) : option inode_list :=
  match i_list i with OnInUse => Some OnInUse | OnUnused => Some OnUnused | _ => None end.
Definition ilist_node (s : kstate) (x : ptr) : option inode_list := inodes s !! x ≫= on_ilist.

Definition sb_inodes (s : kstate) (sb : ptr) : list ptr := from_option s_inodes [] (supers s !! sb).
Definition on_sb_list (i : inode) : option ptr :=
  if i_sb_list i =? NULL then None else Some (i_sb_list i).
Definition sb_node (s : kstate) (x : ptr) : option ptr := inodes s !! x ≫= on_sb_list.

Definition ihash_head (s : kstate) (b : Z) : list ptr := default [] (inode_hashtable s !! b).
Definition on_bucket (i : inode) : option Z :=
  match i_hash i with InBucket b => Some b | _ => None end.
Definition ihash_node (s : kstate) (x : ptr) : option Z := inodes s !! x ≫= on_bucket.

(** The dentries of an inode. *)
Definition aliases (s : kstate) (x : ptr) : list ptr := from_option i_dentry [] (inodes s !! x).

(** ** The invariant *)

(** Locked, or on its way out. *)
Definition I_BUSY : Z := Z.lor I_LOCK (Z.lor I_FREEING (Z.lor I_CLEAR I_WILL_FREE)).

(** An inode at rest: it belongs to a superblock and its count is the number of
    its dentries and of the references held elsewhere. *)
Record inode_ok (iext : refs) (x : ptr) (i : inode) : Prop := mkInodeOk {
  io_sb : i_sb_list i = i_sb i;
  io_sb_nonnull : i_sb i ≠ NULL;
  io_ext : 0 ≤ iext x;
  io_count : i_count i = iext x + Z.of_nat (length (i_dentry i));
  io_state : has_flag (i_state i) I_BUSY = false;
  io_hash : i_hash i = Unlinked ∨ ∃ b, i_hash i = InBucket b
}.

Record inode_inv (iext : refs) (s : kstate) : Prop := mkInodeInv {
  ii_list : linked (ilist_head s) (ilist_node s);
  ii_sb : linked (sb_inodes s) (sb_node s);
  ii_hash : linked (ihash_head s) (ihash_node s);
  ii_ok x i : inodes s !! x = Some i → inode_ok iext x i;
  ii_nr : nr_inodes s = Z.of_nat (size (inodes s));
  ii_addr x : is_Some (inodes s !! x) → 0 < x < slab_next s;
  ii_next : 0 < slab_next s
}.

(** ** What inode operations leave alone

    Everything but the inodes, their lists and statistics: two states agree on
    it when they are equal after those are erased. *)

Definition erase_inodes (k : kstate) : kstate :=
  mkK ∅ (dentries k) ((λ b, b <| s_inodes := [] |>) <$> supers k) (mounts k) (fstypes k)
    (files k) (modules k) (user_mem k) (slab_next k) (slab_fail k) (slab_inode k)
    (slab_iname k) (file_systems k) (dentry_hashtable k) (d_hash_shift k)
    (d_hash_mask k) (dentry_unused k) (nr_dentry k) (nr_unused_dentry k)
    [] [] ∅ (i_hash_shift k) (i_hash_mask k) 0 0 (last_ino k)
    (iunique_counter k) (mount_hashtable k) (mnt_hash_bits k) (mnt_hash_mask k)
    (super_blocks k) (unnamed_dev_idr k) (current k)
    (current_time k) (resched k) (klog k) (aufs_mount k) (enabled k)
    (files_stat k).

Definition iframe (s s' : kstate) : Prop := erase_inodes s' = erase_inodes s.

#[export] Instance iframe_preorder : PreOrder iframe.
Proof. split; [by intros s|]. intros s1 s2 s3 H1 H2. unfold iframe in *. congruence. Qed.

Lemma iframe_super s s' sb b :
  iframe s s' → supers s !! sb = Some b →
  ∃ b', supers s' !! sb = Some b' ∧ b' <| s_inodes := [] |> = b <| s_inodes := [] |>.
Proof.
  intros Hf Hb. apply (f_equal supers) in Hf. simpl in Hf.
  apply (f_equal (lookup sb)) in Hf. rewrite !lookup_fmap, Hb in Hf. simpl in Hf.
  destruct (supers s' !! sb) as [b'|]; [|done]. exists b'. split; [done|]. by apply (inj Some).
Qed.

Lemma erase_super_insert (m : gmap Z super_block) sb b b' :
  m !! sb = Some b → b' <| s_inodes := [] |> = b <| s_inodes := [] |> →
  (λ b, b <| s_inodes := [] |>) <$> <[sb := b']> m = (λ b, b <| s_inodes := [] |>) <$> m.
Proof.
  intros Hb E. rewrite fmap_insert, E. apply insert_id. by rewrite lookup_fmap, Hb.
Qed.

(** ** Updates of the invariant *)

(** The lists of two states agree. *)
Record same_ilists (s s' : kstate) : Prop := mkSame {
  sl_in_use : inode_in_use s' = inode_in_use s;
  sl_unused : inode_unused s' = inode_unused s;
  sl_hash : inode_hashtable s' = inode_hashtable s;
  sl_sb sb : sb_inodes s' sb = sb_inodes s sb;
  sl_nr : nr_inodes s' = nr_inodes s;
  sl_next : slab_next s ≤ slab_next s'
}.

Lemma inode_inv_set iext iext' s s' x i i' :
  inode_inv iext s → inodes s !! x = Some i → inodes s' = <[x := i']> (inodes s) →
  same_ilists s s' →
  i_hash i' = i_hash i → i_list i' = i_list i → i_sb_list i' = i_sb_list i →
  inode_ok iext' x i' → (∀ y, y ≠ x → iext' y = iext y) →
  inode_inv iext' s'.
Proof.
  intros [Hl Hs Hh Hok Hnr Ha Hn] Hx Hx' [] E1 E2 E3 Hok' Hext.
  assert (Hnode : ∀ {T} (f : inode → option T), f i' = f i →
            ∀ y, inodes s' !! y ≫= f = inodes s !! y ≫= f).
  { intros T f Hf y. rewrite Hx'. map_cases; [by rewrite Hx|done]. }
  split.
  - apply (linked_ext _ _ _ _ Hl); [by intros []; simpl|].
    apply Hnode. unfold on_ilist. by rewrite E2.
  - apply (linked_ext _ _ _ _ Hs); [done|]. apply Hnode. unfold on_sb_list. by rewrite E3.
  - apply (linked_ext _ _ _ _ Hh); [unfold ihash_head; by rewrite sl_hash0|].
    apply Hnode. unfold on_bucket. by rewrite E1.
  - intros y j. rewrite Hx'. map_cases; [by intros [= <-]|].
    intros Hy. destruct (Hok _ _ Hy). split; rewrite ?Hext by done; done.
  - rewrite sl_nr0, Hnr, Hx', map_size_insert_Some; [done|by eauto].
  - intros y. rewrite Hx'. intros Hy. enough (0 < y < slab_next s) by lia.
    apply Ha. revert Hy. map_cases; eauto.
  - lia.
Qed.

(** An inode with no dentries leaves every list and is freed. *)
Lemma inode_inv_remove iext iext' s s' x i :
  inode_inv iext s → inodes s !! x = Some i → inodes s' = delete x (inodes s) →
  inode_in_use s' = list_del x (inode_in_use s) →
  inode_unused s' = list_del x (inode_unused s) →
  (∀ b, ihash_head s' b = list_del x (ihash_head s b)) →
  (∀ sb, sb_inodes s' sb = list_del x (sb_inodes s sb)) →
  nr_inodes s' = nr_inodes s - 1 → slab_next s ≤ slab_next s' →
  (∀ y, y ≠ x → iext' y = iext y) →
  inode_inv iext' s'.
Proof.
  intros [Hl Hs Hh Hok Hnr Ha Hn] Hx Hx' E1 E2 E3 E4 E5 E6 Hext.
  assert (Hnode : ∀ {T} (f : inode → option T) y, y ≠ x →
            inodes s' !! y ≫= f = inodes s !! y ≫= f).
  { intros T f y Hy. rewrite Hx', lookup_delete_ne by done. done. }
  assert (Hgone : ∀ {T} (f : inode → option T), inodes s' !! x ≫= f = None).
  { intros T f. by rewrite Hx', lookup_delete_eq. }
  split.
  - apply (linked_remove _ _ _ _ x Hl); [by intros []; simpl|by apply Hgone|by apply Hnode].
  - apply (linked_remove _ _ _ _ x Hs); [done|by apply Hgone|by apply Hnode].
  - apply (linked_remove _ _ _ _ x Hh); [done|by apply Hgone|by apply Hnode].
  - intros y j. rewrite Hx'. map_cases; [done|].
    intros Hy. destruct (Hok _ _ Hy). split; rewrite ?Hext by done; done.
  - rewrite E5, Hnr, Hx', map_size_delete, Hx. simpl.
    assert (size (inodes s) ≠ 0%nat) by (rewrite map_size_ne_0_lookup; eauto). lia.
  - intros y. rewrite Hx'. intros Hy. enough (0 < y < slab_next s) by lia.
    apply Ha. revert Hy. map_cases; [by intros []|done].
  - lia.
Qed.

(** A state that differs in nothing the invariant mentions. *)
Lemma inode_inv_ext iext iext' s s' :
  inode_inv iext s → inodes s' = inodes s → same_ilists s s' →
  (∀ x, iext' x = iext x) → inode_inv iext' s'.
Proof.
  intros [Hl Hs Hh Hok Hnr Ha Hn] E [] Hext.
  assert (Hnode : ∀ {T} (f : inode → option T) y, inodes s' !! y ≫= f = inodes s !! y ≫= f).
  { intros T f y. by rewrite E. }
  split.
  - apply (linked_ext _ _ _ _ Hl); [by intros []; simpl|by apply Hnode].
  - apply (linked_ext _ _ _ _ Hs); [done|by apply Hnode].
  - apply (linked_ext _ _ _ _ Hh); [unfold ihash_head; by rewrite sl_hash0|by apply Hnode].
  - intros y j. rewrite E. intros Hy. destruct (Hok _ _ Hy). split; rewrite ?Hext; done.
  - by rewrite sl_nr0, Hnr, E.
  - intros y. rewrite E. intros Hy%Ha. lia.
  - lia.
Qed.

Lemma inode_addr iext s x i : inode_inv iext s → inodes s !! x = Some i → x ≠ NULL.
Proof. intros Hi Hx. destruct (ii_addr _ _ Hi x); [by eauto|]. unfold NULL. lia. Qed.

Lemma inode_super iext s x i :
  inode_inv iext s → inodes s !! x = Some i →
  ∃ b, supers s !! i_sb i = Some b ∧ x ∈ s_inodes b.
Proof.
  intros Hi Hx. destruct (ii_ok _ _ Hi _ _ Hx) as [E Hn _ _ _].
  assert (x ∈ sb_inodes s (i_sb i)) as Hin.
  { apply (linked_iff _ _ (ii_sb _ _ Hi)). unfold sb_node, on_sb_list.
    rewrite Hx. simpl. by rewrite E, (proj2 (Z.eqb_neq _ _) Hn). }
  unfold sb_inodes in Hin. destruct (supers s !! i_sb i) as [b|] eqn:Eb; simpl in Hin.
  - by exists b.
  - by apply elem_of_nil in Hin.
Qed.

Lemma has_flag_parts x f g :
  has_flag x (Z.lor f g) = false → has_flag x f = false ∧ has_flag x g = false.
Proof.
  unfold has_flag. rewrite !negb_false_iff, !Z.eqb_eq, Z.land_lor_distr_r.
  apply Z.lor_eq_0_iff.
Qed.

Lemma not_busy st :
  has_flag st I_BUSY = false →
  has_flag st I_LOCK = false ∧ has_flag st I_FREEING = false ∧ has_flag st I_CLEAR = false.
Proof.
  intros [? H]%has_flag_parts. apply has_flag_parts in H as [? H].
  by apply has_flag_parts in H as [? _].
Qed.

(** ** Lists *)

Lemma set_inode_twice s x i i' :
  s <| inodes ::= <[x := i]> |> <| inodes ::= <[x := i']> |> = s <| inodes ::= <[x := i']> |>.
Proof. unfold upd. simpl. by rewrite insert_insert_eq. Qed.

Lemma list_del_in_use_id s x :
  list_del x (inode_in_use s) = inode_in_use s → s <| inode_in_use ::= list_del x |> = s.
Proof. intros E. destruct s. unfold upd. simpl in *. by rewrite E. Qed.

Lemma list_del_unused_id s x :
  list_del x (inode_unused s) = inode_unused s → s <| inode_unused ::= list_del x |> = s.
Proof. intros E. destruct s. unfold upd. simpl in *. by rewrite E. Qed.

(** Whatever list the inode is on, it leaves it. *)
Lemma wp_i_list_del x i Q s :
  linked (ilist_head s) (ilist_node s) → inodes s !! x = Some i →
  Q tt (s <| inode_in_use ::= list_del x |> <| inode_unused ::= list_del x |>
          <| inodes ::= <[x := i <| i_list := OnNone |>]> |>) →
  wp (i_list_del x) Q s.
Proof.
  intros Hl Hx HQ.
  assert (∀ l, on_ilist i ≠ Some l → list_del x (ilist_head s l) = ilist_head s l) as Hid.
  { intros l Hne. apply (linked_del_id _ _ _ _ Hl). unfold ilist_node. by rewrite Hx. }
  pose proof (Hid OnInUse) as H1. pose proof (Hid OnUnused) as H2. unfold on_ilist in *.
  simpl in H1, H2. unfold i_list_del. wp_run.
  destruct (i_list i); wp_run; revert HQ;
    rewrite ?list_del_in_use_id by (by apply H1); by rewrite ?list_del_unused_id by (by apply H2).
Qed.

Lemma wp_i_sb_list_del x i sb b Q s :
  inodes s !! x = Some i → i_sb_list i = sb → sb ≠ NULL → supers s !! sb = Some b →
  Q tt (s <| supers ::= <[sb := b <| s_inodes ::= list_del x |>]> |>
          <| inodes ::= <[x := i <| i_sb_list := NULL |>]> |>) →
  wp (i_sb_list_del x) Q s.
Proof.
  intros Hx <- Hn Hb HQ. unfold i_sb_list_del. wp_run.
  rewrite (proj2 (Z.eqb_neq _ _) Hn). by wp_run.
Qed.

Lemma wp_clear_inode x i b Q s :
  inodes s !! x = Some i → supers s !! i_sb i = Some b →
  i_nrpages i = 0 → has_flag (i_state i) I_FREEING = true →
  has_flag (i_state i) I_CLEAR = false → has_flag (i_state i) I_LOCK = false →
  (∀ i', i_sb i' = i_sb i → i_hash i' = i_hash i → i_state i' = I_CLEAR →
     Q tt (s <| inodes ::= <[x := i']> |>)) →
  wp (clear_inode x) Q s.
Proof.
  intros Hx Hb H1 H2 H3 H4 HQ. unfold clear_inode, wait_on_inode.
  wp_run. wp_bug; [by rewrite H1|]. wp_run. wp_bug; [by rewrite H2|].
  wp_run. wp_bug; [done|]. wp_run. rewrite H4. wp_run.
  wp_if _; wp_run; (wp_if _; wp_run; (wp_if _; wp_run)).
  all: rewrite ?set_inode_twice; by apply HQ.
Qed.

Lemma ihash_del_id iext s x i k :
  inode_inv iext s → inodes s !! x = Some i → i_hash i ≠ InBucket k →
  list_del x (ihash_head s k) = ihash_head s k.
Proof.
  intros Hi Hx Hk. apply (linked_del_id _ _ _ _ (ii_hash _ _ Hi)).
  unfold ihash_node, on_bucket. rewrite Hx. simpl. destruct (i_hash i); congruence.
Qed.

(** Leaving the hash keeps the invariant. *)
Lemma wp_i_hash_del iext x i s :
  inode_inv iext s → inodes s !! x = Some i →
  wp (i_hash_del x) (λ _ s', inode_inv iext s' ∧ iframe s s' ∧
    (∀ b, ihash_head s' b = list_del x (ihash_head s b)) ∧
    inodes s' = <[x := i <| i_hash := Unlinked |>]> (inodes s)) s.
Proof.
  intros Hi Hx. destruct (ii_ok _ _ Hi _ _ Hx) as [Esb Hsb He Hc Hst Hh].
  pose proof (λ k, ihash_del_id _ _ _ _ k Hi Hx) as Hid.
  unfold i_hash_del. wp_run.
  destruct (i_hash i) as [|b|sb] eqn:Eh; wp_run.
  - split_and!; [done|done|by intros; rewrite Hid|]. rewrite insert_id; [done|].
    rewrite Hx. f_equal. destruct i; simpl in *. by subst.
  - assert (∀ b', default [] (<[b := list_del x (ihash_head s b)]> (inode_hashtable s) !! b')
                  = list_del x (ihash_head s b')) as Hb.
    { intros b'. map_cases; [done|]. simpl. symmetry. apply Hid. congruence. }
    split; [|done]. destruct Hi as [Hl Hs Hhh Hok Hnr Ha Hn]. split; try done.
    + apply (linked_ext _ _ _ _ Hl); [done|]. intros y. unfold ilist_node. simpl.
      map_cases; [by rewrite Hx|done].
    + apply (linked_ext _ _ _ _ Hs); [done|]. intros y. unfold sb_node. simpl.
      map_cases; [by rewrite Hx|done].
    + apply (linked_remove _ _ _ _ x Hhh); [exact Hb| |]; unfold ihash_node; simpl.
      * by rewrite lookup_insert_eq.
      * intros y Hy. by rewrite lookup_insert_ne.
    + intros y j. simpl. map_cases; [|by apply Hok]. intros [= <-]. split; auto.
    + simpl. rewrite map_size_insert_Some; [done|by eauto].
    + intros y. simpl. map_cases; eauto.
  - destruct Hh as [|[? ?]]; congruence.
Qed.

(** ** Freeing an inode *)

(** What is left of the state when an inode is gone. *)
Definition freed (iext : refs) (x : ptr) (s s' : kstate) : Prop :=
  inode_inv iext s' ∧ iframe s s' ∧ inodes s' = delete x (inodes s).

Lemma freed_final iext s s' x i b :
  inode_inv iext s → inodes s !! x = Some i → supers s !! i_sb i = Some b →
  inodes s' = delete x (inodes s) →
  inode_in_use s' = list_del x (inode_in_use s) →
  inode_unused s' = list_del x (inode_unused s) →
  (∀ k, ihash_head s' k = list_del x (ihash_head s k)) →
  supers s' = <[i_sb i := b <| s_inodes ::= list_del x |>]> (supers s) →
  nr_inodes s' = nr_inodes s - 1 →
  iframe s s' →
  freed iext x s s'.
Proof.
  intros Hi Hx Hb E1 E2 E3 E4 E5 E6 Hf.
  split_and!; [|done|done]. eapply inode_inv_remove; try done.
  - intros sb. unfold sb_inodes. rewrite E5. map_cases; [by rewrite Hb|]. simpl.
    symmetry. apply (linked_del_id _ _ _ _ (ii_sb _ _ Hi)).
    unfold sb_node, on_sb_list. rewrite Hx. simpl.
    rewrite (io_sb _ _ _ (ii_ok _ _ Hi _ _ Hx)). case_match; congruence.
  - apply (f_equal slab_next) in Hf. simpl in Hf. lia.
Qed.

Lemma wp_destroy_inode x i b Q s :
  inodes s !! x = Some i → supers s !! i_sb i = Some b →
  Q tt (s <| inodes ::= delete x |>) → wp (destroy_inode x) Q s.
Proof. intros Hx Hb HQ. unfold destroy_inode. by wp_run. Qed.

(** The facts about the flags of an inode that is put on its way out. *)
Lemma freeing_flags st :
  has_flag st I_BUSY = false →
  let st' := set_flag st I_FREEING in
  has_flag st' I_FREEING = true ∧ has_flag st' I_CLEAR = false ∧ has_flag st' I_LOCK = false.
Proof.
  intros (HL & HF & HC)%not_busy. simpl.
  rewrite has_flag_set by done. by rewrite !has_flag_set_other.
Qed.

(** Close the goals of [freed_final] after a run. *)
Ltac solve_freed :=
  try done; try by (cbn -[insert delete list_del]; rewrite ?insert_insert_eq, ?delete_insert_eq).

Ltac solve_iframe :=
  unfold iframe, erase_inodes; cbn -[fmap insert delete list_del];
  try match goal with
  | Hb : supers ?s !! ?sb = Some ?b |- _ => rewrite (erase_super_insert (supers s) sb b) by done
  end; reflexivity.

Lemma wp_forget_unhashed iext x i s :
  inode_inv iext s → inodes s !! x = Some i → i_hash i = Unlinked →
  wp (forget_unhashed_inode x) (λ _ s', freed iext x s s') s.
Proof.
  intros Hi Hx Hh. destruct (ii_ok _ _ Hi _ _ Hx) as [Esb Hsb He Hc Hst _].
  destruct (inode_super _ _ _ _ Hi Hx) as (b & Hb & _).
  destruct (freeing_flags _ Hst) as (S1 & S2 & S3).
  assert (∀ k, list_del x (ihash_head s k) = ihash_head s k) as Hid.
  { intros k. eapply ihash_del_id; [done..|]. by rewrite Hh. }
  unfold forget_unhashed_inode. wp_run.
  apply (wp_i_list_del x i); [by apply (ii_list _ _ Hi)|done|]. wp_run.
  eapply (wp_i_sb_list_del x _ (i_sb i) b); [wp_lookup|done..|].
  wp_run. wp_if Hp; wp_run; [unfold truncate_inode_pages; wp_run|].
  all: eapply wp_clear_inode;
    [wp_lookup|by simpl; rewrite lookup_insert_eq| |done..|].
  1: done.
  2: { simpl in *. by bool_to_prop. }
  all: intros i' Ei Ei' Est; eapply wp_destroy_inode;
    [wp_lookup|simpl; by simpl; rewrite Ei; simpl; rewrite lookup_insert_eq|].
  all: eapply freed_final; solve_freed.
  all: solve_iframe.
Qed.

Lemma wp_generic_delete_inode iext x i s :
  inode_inv iext s → inodes s !! x = Some i →
  wp (generic_delete_inode x) (λ _ s', freed iext x s s') s.
Proof.
  intros Hi Hx. destruct (ii_ok _ _ Hi _ _ Hx) as [Esb Hsb He Hc Hst Hh].
  destruct (inode_super _ _ _ _ Hi Hx) as (b & Hb & _).
  destruct (freeing_flags _ Hst) as (S1 & S2 & S3).
  unfold generic_delete_inode, truncate_inode_pages. wp_run.
  apply (wp_i_list_del x i); [by apply (ii_list _ _ Hi)|done|]. wp_run.
  eapply (wp_i_sb_list_del x _ (i_sb i) b); [wp_lookup|done..|].
  wp_run.
  eapply wp_clear_inode;
    [wp_lookup|by simpl; rewrite lookup_insert_eq|done..|].
  intros i' Ei Ei' Est. simpl in Ei, Ei'. unfold i_hash_del. wp_run. rewrite Ei'.
  pose proof (λ k, ihash_del_id _ _ _ _ k Hi Hx) as Hid.
  destruct Hh as [Eh|[k Eh]]; rewrite Eh in *; wp_run.
  all: wp_bug; [simpl; by rewrite Est|].
  all: eapply wp_destroy_inode;
    [wp_lookup|by simpl; rewrite Ei; simpl; rewrite lookup_insert_eq|].
  all: eapply freed_final; solve_freed; try solve_iframe.
  - intros k. unfold ihash_head at 1. simpl. symmetry. by apply Hid.
  - intros k'. unfold ihash_head at 1. simpl. map_cases; [done|]. symmetry. apply Hid. congruence.
Qed.

(** Moving to another list keeps the invariant. *)
Lemma inode_inv_relist iext s s' x i l :
  inode_inv iext s → inodes s !! x = Some i →
  inodes s' = <[x := i <| i_list := l |>]> (inodes s) →
  on_ilist (i <| i_list := l |>) = Some l →
  ilist_head s' l ≡ₚ x :: list_del x (ilist_head s l) →
  (∀ l', l' ≠ l → ilist_head s' l' = list_del x (ilist_head s l')) →
  inode_hashtable s' = inode_hashtable s → supers s' = supers s →
  nr_inodes s' = nr_inodes s → slab_next s' = slab_next s →
  inode_inv iext s'.
Proof.
  intros [Hl Hs Hh Hok Hnr Ha Hn] Hx Hx' El E1 E2 E3 E4 E5 E6.
  assert (Hnode : ∀ {T} (f : inode → option T), f (i <| i_list := l |>) = f i →
            ∀ y, inodes s' !! y ≫= f = inodes s !! y ≫= f).
  { intros T f Hf y. rewrite Hx'. map_cases; [by rewrite Hx|done]. }
  split.
  - apply (linked_move _ _ _ _ x l Hl); [done..| |]; unfold ilist_node; rewrite Hx'.
    + by rewrite lookup_insert_eq.
    + intros y Hy. by rewrite lookup_insert_ne.
  - apply (linked_ext _ _ _ _ Hs); [|by apply Hnode]. intros sb. unfold sb_inodes. by rewrite E4.
  - apply (linked_ext _ _ _ _ Hh); [|by apply Hnode]. intros sb. unfold ihash_head. by rewrite E3.
  - intros y j. rewrite Hx'. map_cases; [|by apply Hok]. intros [= <-].
    by destruct (Hok _ _ Hx).
  - rewrite E5, Hnr, Hx', map_size_insert_Some; [done|by eauto].
  - intros y. rewrite Hx', E6. map_cases; eauto.
  - by rewrite E6.
Qed.

Lemma wp_i_list_move iext x i l s :
  inode_inv iext s → inodes s !! x = Some i → l = OnInUse ∨ l = OnUnused →
  wp (i_list_move x l) (λ _ s', inode_inv iext s' ∧ iframe s s' ∧
    inodes s' = <[x := i <| i_list := l |>]> (inodes s) ∧ supers s' = supers s) s.
Proof.
  intros Hi Hx Hl. unfold i_list_move, i_list_add. wp_run.
  apply (wp_i_list_del x i); [by apply (ii_list _ _ Hi)|done|].
  destruct Hl as [-> | ->]; wp_run.
  all: split_and!; try done; try (simpl; by rewrite insert_insert_eq).
  - apply (inode_inv_relist _ s _ x i OnInUse); try done; [|by intros []].
    simpl. by rewrite insert_insert_eq.
  - apply (inode_inv_relist _ s _ x i OnUnused); try done; [|by intros []].
    simpl. by rewrite insert_insert_eq.
Qed.

Lemma insert3 (m : gmap Z inode) x a b c :
  <[x := c]> (<[x := b]> (<[x := a]> m)) = <[x := c]> m.
Proof. by rewrite !insert_insert_eq. Qed.

(** Writing back before the free leaves no trace in the state word. *)
Lemma not_busy_after_writeback st :
  has_flag st I_BUSY = false →
  has_flag (clear_flag (clear_flag (set_flag st I_WILL_FREE) I_DIRTY) I_WILL_FREE) I_BUSY = false.
Proof.
  intros H. unfold has_flag, clear_flag, set_flag in *.
  apply negb_false_iff, Z.eqb_eq. apply negb_false_iff, Z.eqb_eq in H.
  apply Z.bits_inj'. intros n Hn. apply (f_equal (λ z, Z.testbit z n)) in H.
  rewrite Z.land_spec, Z.bits_0 in H. rewrite Z.land_spec, !Z.ldiff_spec, Z.lor_spec, Z.bits_0.
  destruct (Z.testbit I_WILL_FREE n); simpl; [by rewrite !andb_false_r|].
  destruct (Z.testbit st n); simpl in *; [|done]. by rewrite H, andb_false_r.
Qed.

(** Whether the last reference to an inode frees it: it has no link left, no
    lookup can find it, or its superblock is going away. *)
Definition sb_active (s : kstate) (sb : ptr) : bool :=
  from_option (λ b, has_flag (s_flags b) MS_ACTIVE) false (supers s !! sb).
Definition drop_frees (s : kstate) (i : inode) : bool :=
  (i_nlink i =? 0) || i_unhashed i || negb (sb_active s (i_sb i)).

Definition kept_list (i : inode) : inode_list :=
  if has_flag (i_state i) (Z.lor I_DIRTY I_LOCK) then i_list i else OnUnused.

Definition dropped (iext : refs) (x : ptr) (i : inode) (s s' : kstate) : Prop :=
  inode_inv iext s' ∧ iframe s s' ∧
  inodes s' = if drop_frees s i then delete x (inodes s)
              else <[x := i <| i_list := kept_list i |>]> (inodes s).

Lemma wp_move_unused iext x i s :
  inode_inv iext s → inodes s !! x = Some i →
  wp (mwhen (negb (has_flag (i_state i) (Z.lor I_DIRTY I_LOCK))) (i_list_move x OnUnused))
    (λ _ s', inode_inv iext s' ∧ iframe s s' ∧
       inodes s' = <[x := i <| i_list := kept_list i |>]> (inodes s) ∧ supers s' = supers s) s.
Proof.
  intros Hi Hx. unfold kept_list. wp_if E; bool_to_prop; rewrite E.
  - apply wp_i_list_move; auto.
  - split_and!; [done..| |done]. rewrite insert_id; [done|]. rewrite Hx. by destruct i.
Qed.

Lemma wp_generic_forget_inode iext x i s :
  inode_inv iext s → inodes s !! x = Some i → i_nlink i ≠ 0 →
  wp (generic_forget_inode x) (λ _ s', dropped iext x i s s') s.
Proof.
  intros Hi Hx Hn. destruct (inode_super _ _ _ _ Hi Hx) as (b & Hb & _).
  pose proof (ii_ok _ _ Hi _ _ Hx) as Hok. pose proof Hok as [Esb Hsb He Hc Hst Hh].
  unfold generic_forget_inode, dropped, drop_frees, i_unhashed, sb_active.
  rewrite (proj2 (Z.eqb_neq _ _) Hn), Hb. simpl. wp_run.
  destruct Hh as [Eh|[k Eh]]; rewrite Eh; simpl.
  { by eapply wp_forget_unhashed. }
  wp_run. eapply wp_mono; [by apply wp_move_unused|].
  intros _ s1 (Hi1 & Hf1 & Ei1 & Es1). wp_run.
  rewrite (proj2 (Z.eqb_neq _ _) Hsb). rewrite <-Es1 in Hb. wp_run.
  destruct (has_flag (s_flags b) MS_ACTIVE); simpl; wp_run.
  - split_and!; [|exact Hf1|done].
    apply (inode_inv_ext _ _ _ _ Hi1); done.
  - assert (inodes s1 !! x = Some (i <| i_list := kept_list i |>)) as Hx1
      by (by rewrite Ei1, lookup_insert_eq).
    unfold write_inode_now. wp_run.
    set (s2 := s1 <| nr_unused_inode ::= Z.add 1 |> <| inodes ::= _ |> <| inodes ::= _ |>
                 <| inodes ::= _ |> <| nr_unused_inode ::= _ |>).
    assert (inode_inv iext s2) as Hi2.
    { apply (inode_inv_set iext iext s1 s2 x _ _ Hi1 Hx1 (insert3 _ _ _ _ _)); try done.
      split; simpl; eauto using not_busy_after_writeback. }
    eapply wp_mono; [eapply (wp_i_hash_del _ x _ _ Hi2); wp_lookup|].
    intros _ s3 (Hi3 & Hf3 & _ & Ei3). 
    eapply wp_mono; [eapply (wp_forget_unhashed _ x _ _ Hi3); [by rewrite Ei3, lookup_insert_eq|done]|].
    intros _ s4 (Hi4 & Hf4 & Ei4). split_and!; [done| |].
    + etrans; [exact Hf1|]. by etrans.
    + rewrite Ei4, Ei3. simpl. rewrite Ei1. by rewrite !insert_insert_eq, !delete_insert_eq.
Qed.

Lemma wp_generic_drop_inode iext x i s :
  inode_inv iext s → inodes s !! x = Some i →
  wp (generic_drop_inode x) (λ _ s', dropped iext x i s s') s.
Proof.
  intros Hi Hx. unfold generic_drop_inode. wp_run. destruct (i_nlink i =? 0) eqn:E.
  - unfold dropped, drop_frees. rewrite E. by eapply wp_generic_delete_inode.
  - bool_to_prop. by apply wp_generic_forget_inode.
Qed.

(** What [iput] does to the inode map. *)
Definition iput_effect (s : kstate) (x : ptr) (i : inode) : gmap Z inode :=
  let i' := i <| i_count ::= λ c, c - 1 |> in
  if negb (i_count i =? 1) then <[x := i']> (inodes s)
  else if drop_frees s i then delete x (inodes s)
  else <[x := i' <| i_list := kept_list i |>]> (inodes s).

Lemma wp_iput iext x i s :
  inode_inv iext s → inodes s !! x = Some i → 0 < iext x →
  wp (iput x) (λ _ s', inode_inv (bump x (-1) iext) s' ∧ iframe s s' ∧
                       inodes s' = iput_effect s x i) s.
Proof.
  intros Hi Hx Hext. pose proof (ii_ok _ _ Hi _ _ Hx) as [Esb Hsb He Hc Hst Hh].
  destruct (inode_super _ _ _ _ Hi Hx) as (b & Hb & _).
  unfold iput, iput_final. rewrite (proj2 (Z.eqb_neq _ _) (inode_addr _ _ _ _ Hi Hx)).
  wp_run. wp_bug.
  { apply Z.eqb_neq. intros E. rewrite E in Hst. done. }
  wp_run. set (s1 := s <| inodes ::= _ |>).
  assert (inode_inv (bump x (-1) iext) s1) as Hi1.
  { eapply (inode_inv_set _ _ _ s1 x _ _ Hi Hx eq_refl); try done.
    - split; simpl; rewrite ?bump_same; try done; lia.
    - intros y Hy. by rewrite bump_other. }
  assert (inodes s1 !! x = Some (i <| i_count ::= λ c, c - 1 |>)) as Hx1
    by (by simpl; rewrite lookup_insert_eq).
  unfold iput_effect. destruct (i_count i - 1 =? 0) eqn:E; bool_to_prop.
  - replace (i_count i) with 1 by lia. simpl. wp_run.
    eapply wp_mono; [apply (wp_generic_drop_inode _ _ _ _ Hi1 Hx1)|].
    intros _ s2 (Hi2 & Hf2 & E2). split_and!; [done|by etrans|].
    rewrite E2. unfold drop_frees, kept_list. simpl.
    change (i_unhashed i <| i_count ::= λ c, c - 1 |>) with (i_unhashed i).
    case_match; by rewrite ?delete_insert_eq, ?insert_insert_eq.
  - rewrite (proj2 (Z.eqb_neq _ _)) by lia. simpl. wp_run. done.
Qed.

(** ** A new inode *)

(** The first reference to a new object. *)
Definition first_ref (x : ptr) (e : refs) : refs := λ y, if y =? x then 1 else e y.

Lemma inode_inv_add iext s s' x i b :
  inode_inv iext s → inodes s !! x = None → 0 < x < slab_next s' → slab_next s ≤ slab_next s' →
  supers s !! i_sb i = Some b →
  inodes s' = <[x := i]> (inodes s) → i_list i = OnInUse → i_hash i = Unlinked →
  inode_in_use s' = x :: inode_in_use s → inode_unused s' = inode_unused s →
  inode_hashtable s' = inode_hashtable s →
  supers s' = <[i_sb i := b <| s_inodes ::= cons x |>]> (supers s) →
  nr_inodes s' = nr_inodes s + 1 → inode_ok (first_ref x iext) x i →
  inode_inv (first_ref x iext) s'.
Proof.
  intros [Hl Hs Hh Hok Hnr Ha Hn] Hx Hx' Hsl Hb E1 E2 E3 E4 E5 E6 E7 E8 Hi.
  assert (Hold : ∀ {T} (f : inode → option T) y, y ≠ x →
            inodes s' !! y ≫= f = inodes s !! y ≫= f).
  { intros T f y Hy. by rewrite E1, lookup_insert_ne. }
  assert (Hnew : ∀ {T} (f : inode → option T), inodes s' !! x ≫= f = f i).
  { intros T f. by rewrite E1, lookup_insert_eq. }
  assert (Hnone : ∀ {T} (f : inode → option T), inodes s !! x ≫= f = None).
  { intros T f. by rewrite Hx. }
  pose proof Hi as [Esb Hsb _ _ _ _].
  split.
  - apply (linked_insert _ _ _ _ x OnInUse Hl); [by apply Hnone|simpl; by rewrite E4| | |by apply Hold].
    + by intros []; simpl.
    + unfold ilist_node. rewrite Hnew. unfold on_ilist. by rewrite E2.
  - apply (linked_insert _ _ _ _ x (i_sb i) Hs); [by apply Hnone| | | |by apply Hold].
    + unfold sb_inodes. by rewrite E7, lookup_insert_eq, Hb.
    + intros sb Hne. unfold sb_inodes. by rewrite E7, lookup_insert_ne.
    + unfold sb_node. rewrite Hnew. unfold on_sb_list.
      by rewrite Esb, (proj2 (Z.eqb_neq _ _) Hsb).
  - apply (linked_ext _ _ _ _ Hh); [unfold ihash_head; by rewrite E6|].
    intros y. destruct (decide (y = x)) as [->|Hy]; [|by apply Hold].
    unfold ihash_node. rewrite Hnew, Hnone. unfold on_bucket. by rewrite E3.
  - intros y j. rewrite E1. map_cases; [by intros [= <-]|]. intros Hy.
    destruct (Hok _ _ Hy). unfold first_ref.
    split; rewrite ?(proj2 (Z.eqb_neq y x)) by done; done.
  - rewrite E8, Hnr, E1, map_size_insert_None by done. lia.
  - intros y. rewrite E1. map_cases; [done|]. intros Hy%Ha. lia.
  - lia.
Qed.

Lemma insert4 (m : gmap Z inode) x a b c d :
  <[x := d]> (<[x := c]> (<[x := b]> (<[x := a]> m))) = <[x := d]> m.
Proof. by rewrite !insert_insert_eq. Qed.

(** The inode that [new_inode] returns. *)
Definition fresh_inode (s : kstate) (sb : ptr) (b : super_block) : inode :=
  (alloc_inode_init (slab_inode s) sb (s_blocksize_bits b))
    <| i_list := OnInUse |> <| i_sb_list := sb |>
    <| i_ino := u32 (last_ino s + 1) |> <| i_state := 0 |>.

Definition after_alloc (s : kstate) : kstate :=
  s <| slab_fail ::= tail |> <| slab_next ::= Z.add SLAB_STEP |>.

(** The state in which [new_inode] returns. *)
Definition new_inode_state (sb : ptr) (b : super_block) (s : kstate) : kstate :=
  let x := slab_next s in
  (after_alloc s)
    <| inodes ::= <[x := fresh_inode s sb b]> |>
    <| inode_in_use ::= cons x |>
    <| supers ::= <[sb := b <| s_inodes ::= cons x |>]> |>
    <| nr_inodes ::= Z.add 1 |>
    <| last_ino ::= λ n, u32 (n + 1) |>.

Lemma wp_new_inode iext sb b s :
  inode_inv iext s → supers s !! sb = Some b → sb ≠ NULL →
  wp (new_inode sb) (λ x s',
    if alloc_fails s then x = NULL ∧ s' = s <| slab_fail ::= tail |>
    else x = slab_next s ∧ inode_inv (first_ref x iext) s' ∧ s' = new_inode_state sb b s) s.
Proof.
  intros Hi Hb Hsb. unfold new_inode, alloc_inode. pose proof (ii_next _ _ Hi) as Hn.
  wp_run. apply wp_kmem_alloc; intros ->; [by wp_run|].
  assert ((slab_next s =? NULL) = false) as E by (apply Z.eqb_neq; unfold NULL; lia).
  rewrite E. wp_run. rewrite E. unfold i_list_add, i_sb_list_add. wp_run.
  assert (inodes s !! slab_next s = None) as Hnone.
  { apply eq_None_not_Some. intros ?%(ii_addr _ _ Hi). lia. }
  match goal with |- _ ∧ inode_inv _ ?st ∧ _ => assert (st = new_inode_state sb b s) as Est end.
  { unfold new_inode_state. kstate_eq. simpl. by rewrite insert4. }
  rewrite Est. split_and!; [done| |done].
  apply (inode_inv_add iext s _ _ (fresh_inode s sb b) b); try done; simpl;
    unfold SLAB_STEP; try lia.
  unfold first_ref. split; simpl; rewrite ?Z.eqb_refl; auto; lia.
Qed.

(** ** Taking a reference *)

Lemma wp___iget iext x i s :
  inode_inv iext s → inodes s !! x = Some i →
  wp (__iget x) (λ _ s', inode_inv (bump x 1 iext) s' ∧ iframe s s' ∧
    ∃ l, inodes s' = <[x := i <| i_count ::= Z.add 1 |> <| i_list := l |>]> (inodes s)) s.
Proof.
  intros Hi Hx. pose proof (ii_ok _ _ Hi _ _ Hx) as [Esb Hsb He Hc Hst Hh].
  unfold __iget. wp_run. set (s1 := s <| inodes ::= <[x := i <| i_count ::= Z.add 1 |>]> |>).
  assert (inode_inv (bump x 1 iext) s1) as Hi1.
  { eapply (inode_inv_set _ _ _ s1 x _ _ Hi Hx eq_refl); try done.
    - split; simpl; rewrite ?bump_same; try done; lia.
    - intros y Hy. by rewrite bump_other. }
  assert (inodes s1 !! x = Some (i <| i_count ::= Z.add 1 |>)) as Hx1
    by (by simpl; rewrite lookup_insert_eq).
  destruct (negb (i_count i =? 0)); wp_run.
  { split_and!; [done..|]. by exists (i_list i). }
  fold s1. wp_if E.
  - eapply wp_mono; [apply (wp_i_list_move _ _ _ OnInUse _ Hi1 Hx1); auto|].
    intros _ s2 (Hi2 & Hf2 & E2 & _). wp_run. split_and!.
    + by apply (inode_inv_ext _ _ _ _ Hi2).
    + by etrans; [|exact Hf2].
    + exists OnInUse. simpl. rewrite E2. simpl. by rewrite insert_insert_eq.
  - wp_run. split_and!; [by apply (inode_inv_ext _ _ _ _ Hi1)|done|]. by exists (i_list i).
Qed.

(** ** What the inode cache promises *)

(** C26: giving up a reference to an inode never faults and keeps the invariant
    of the inode lists, hash chains, number of inodes and counts with one
    reference less; nothing outside the inode cache changes.  While references remain only
    the count falls; the last one frees the inode when it has no link or its
    superblock is going away, and otherwise leaves it on the unused or the dirty
    list. *)
Theorem iput_correct iext x i s :
  inode_inv iext s → inodes s !! x = Some i → 0 < iext x →
  wp (iput x) (λ _ s', inode_inv (bump x (-1) iext) s' ∧ iframe s s' ∧
    if i_count i =? 1 then
      if drop_frees s i then inodes s' = delete x (inodes s)
      else inodes s' = <[x := i <| i_count ::= λ c, c - 1 |> <| i_list := kept_list i |>]> (inodes s)
    else inodes s' = <[x := i <| i_count ::= λ c, c - 1 |>]> (inodes s)) s.
Proof.
  intros Hi Hx Hext. eapply wp_mono; [by apply wp_iput|]. unfold iput_effect.
  intros _ s' (? & ? & ->). by destruct (i_count i =? 1), (drop_frees s i).
Qed.

(** A new inode is on the in-use list and the list of its superblock, has
    one reference and the next inode number modulo 2^32, and is otherwise what
    the constructor makes of the memory it got; when there is no memory the
    result is NULL and nothing changes. *)
Theorem new_inode_correct iext sb b s :
  inode_inv iext s → supers s !! sb = Some b → sb ≠ NULL →
  wp (new_inode sb) (λ x s',
    if alloc_fails s then x = NULL ∧ s' = s <| slab_fail ::= tail |>
    else x = slab_next s ∧ inode_inv (first_ref x iext) s' ∧
         inodes s' = <[x := fresh_inode s sb b]> (inodes s) ∧
         inode_in_use s' = x :: inode_in_use s ∧ sb_inodes s' sb = x :: s_inodes b ∧
         last_ino s' = u32 (last_ino s + 1) ∧ i_ino (fresh_inode s sb b) = last_ino s') s.
Proof.
  intros Hi Hb Hsb. eapply wp_mono; [by apply (wp_new_inode iext sb b)|]. intros x s' Hx.
  destruct (alloc_fails s); [done|]. destruct Hx as (-> & Hi' & ->).
  split_and!; try done. unfold sb_inodes. simpl. by rewrite lookup_insert_eq.
Qed.
