(* ===== verification/Dcache.v ===== *)
(** * The directory cache (fs/dcache.c, include/linux/dcache.h)

    The tree of dentries, their reference counts, the hash table that lookups
    use and the LRU list of unused dentries.  Walks of the tree are the goto
    loops of the source over a pair of the directory being scanned and the
    rest of its list of children. *)

From S2P Require Import Prelude KString Kernel Inode.

(** ** Hashing names (include/linux/dcache.h) *)

Definition init_name_hash : Z := 0.

Definition partial_name_hash (c prevhash : Z) : Z :=
  u32 ((prevhash + Z.shiftl c 4 + Z.shiftr c 4) * 11).

Definition end_name_hash (hash : Z) : Z := u32 hash.

(** [while (len--) hash = partial_name_hash ( *name++, hash);] *)
Fixpoint name_hash_loop (name : list Z) (len : nat) (hash : Z) : Z :=
  match len with
  | O => hash
  | S n => name_hash_loop (tail_bytes name) n (partial_name_hash (head_byte name) hash)
  end.

Definition full_name_hash (name : list Z) (len : Z) : Z :=
  end_name_hash (name_hash_loop name (Z.to_nat len) init_name_hash).

(** The bucket of a name in a directory. *)
Definition d_hash_val (shift mask parent hash : Z) : Z :=
  let hash := u32 (hash + Z.lxor parent GOLDEN_RATIO_PRIME / L1_CACHE_BYTES) in
  let hash := Z.lxor hash (Z.shiftr (Z.lxor hash GOLDEN_RATIO_PRIME) shift) in
  Z.land hash mask.

Definition d_hash (parent hash : Z) : KM Z :=
  gets (λ s, d_hash_val (d_hash_shift s) (d_hash_mask s) parent hash).

(** ** Intrusive lists of dentries *)

Definition d_lru_add (dentry : ptr) : KM unit :=
  modify (λ s, s <| dentry_unused ::= cons dentry |>) ;;
  mod_dentry dentry (λ d, d <| d_lru := true |>).
Definition d_lru_add_tail (dentry : ptr) : KM unit :=
  modify (λ s, s <| dentry_unused ::= (.++ [dentry]) |>) ;;
  mod_dentry dentry (λ d, d <| d_lru := true |>).
Definition d_lru_del (dentry : ptr) : KM unit :=
  modify (λ s, s <| dentry_unused ::= list_del dentry |>) ;;
  mod_dentry dentry (λ d, d <| d_lru := false |>).

Definition d_child_add (dentry parent : ptr) : KM unit :=
  mod_dentry parent (λ d, d <| d_subdirs ::= cons dentry |>) ;;
  mod_dentry dentry (λ d, d <| d_child := parent |>).
Definition d_child_del (dentry : ptr) : KM unit :=
  d ← get_dentry dentry;
  if d_child d =? NULL then mret tt
  else
    mod_dentry (d_child d) (λ d, d <| d_subdirs ::= list_del dentry |>) ;;
    mod_dentry dentry (λ d, d <| d_child := NULL |>).

Definition d_alias_add (dentry inode : ptr) : KM unit :=
  mod_inode inode (λ i, i <| i_dentry ::= cons dentry |>) ;;
  mod_dentry dentry (λ d, d <| d_alias := inode |>).
Definition d_alias_del (dentry : ptr) : KM unit :=
  d ← get_dentry dentry;
  if d_alias d =? NULL then mret tt
  else
    mod_inode (d_alias d) (λ i, i <| i_dentry ::= list_del dentry |>) ;;
    mod_dentry dentry (λ d, d <| d_alias := NULL |>).

Definition d_hash_add (dentry : ptr) (head : Z) : KM unit :=
  modify (λ s, s <| dentry_hashtable ::= λ h, <[head := dentry :: default [] (h !! head)]> h |>) ;;
  mod_dentry dentry (λ d, d <| d_hash_node := InBucket head |>).
Definition d_hash_del (dentry : ptr) : KM unit :=
  d ← get_dentry dentry;
  match d_hash_node d with
  | InBucket b =>
      modify (λ s, s <| dentry_hashtable ::= λ h, <[b := list_del dentry (default [] (h !! b))]> h |>)
  | InAnon sb => mod_super sb (λ b, b <| s_anon ::= list_del dentry |>)
  | Unlinked => mret tt
  end ;;
  mod_dentry dentry (λ d, d <| d_hash_node := Unlinked |>).

(** ** Inline functions of dcache.h *)

Definition d_unhashed (d : dentry) : bool := has_flag (d_flags d) DCACHE_UNHASHED.
Definition IS_ROOT (p : ptr) (d : dentry) : bool := p =? d_parent d.
Definition d_mountpoint (d : dentry) : bool := negb (d_mounted d =? 0).

Definition __d_drop (dentry : ptr) : KM unit :=
  d ← get_dentry dentry;
  if negb (d_unhashed d) then
    mod_dentry dentry (λ d, d <| d_flags ::= λ f, set_flag f DCACHE_UNHASHED |>) ;;
    d_hash_del dentry
  else mret tt.

Definition d_drop (dentry : ptr) : KM unit := __d_drop dentry.

Definition dget (dentry : ptr) : KM ptr :=
  if dentry =? NULL then mret dentry
  else
    d ← get_dentry dentry;
    bug_on (d_count d =? 0) ;;
    mod_dentry dentry (λ d, d <| d_count ::= Z.add 1 |>) ;;
    mret dentry.

Definition dget_parent (dentry : ptr) : KM ptr :=
  d ← get_dentry dentry; dget (d_parent d).

(** [dentry->d_op && dentry->d_op->method] *)
Definition d_method {A} (d : dentry) (method : dentry_operations → option A) : option A :=
  match d_op d with Some op => method op | None => None end.

(** ** Releasing dentries *)

(** d_callback runs after a grace period; no lookup is in progress here. *)
Definition d_free (dentry : ptr) : KM unit :=
  d ← get_dentry dentry;
  match d_method d dop_release with
  | Some f => match f with end
  | None => mret tt
  end ;;
  modify (λ s, s <| dentries ::= delete dentry |>).

Definition dentry_iput (dentry : ptr) : KM unit :=
  d ← get_dentry dentry;
  let inode := d_inode d in
  if inode =? NULL then mret tt
  else
    mod_dentry dentry (λ d, d <| d_inode := NULL |>) ;;
    d_alias_del dentry ;;
    match d_method d dop_iput with
    | Some f => match f with end
    | None => iput inode
    end.

(** The label kill_it of dput, also the body of prune_one_dentry: the dentry
    leaves its parent's list, gives up its inode and is freed. *)
Definition kill_dentry (dentry : ptr) : KM ptr :=
  d_child_del dentry ;;
  modify (λ s, s <| nr_dentry ::= λ n, n - 1 |>) ;;
  dentry_iput dentry ;;
  d ← get_dentry dentry;
  d_free dentry ;;
  mret (d_parent d).

(** The [d_delete] method of the dentry, when it has one. *)
Definition call_d_delete (d : dentry) : bool :=
  match d_method d dop_delete with
  | Some simple_delete_dentry_fn => true    (* fs/libfs.c:33: return 1 *)
  | None => false
  end.

Definition dput_body (dentry : ptr) : KM (ptr + unit) :=
  mod_dentry dentry (λ d, d <| d_count ::= λ c, c - 1 |>) ;;
  d ← get_dentry dentry;
  if negb (d_count d =? 0) then mret (inr tt)
  else
    let kill :=
      d ← get_dentry dentry;
      mwhen (d_lru d)
        (d_lru_del dentry ;; modify (λ s, s <| nr_unused_dentry ::= λ n, n - 1 |>)) ;;
      parent ← kill_dentry dentry;
      mret (if dentry =? parent then inr tt else inl parent) in
    if call_d_delete d then __d_drop dentry ;; kill
    else if d_unhashed d then kill
    else
      mwhen (negb (d_lru d))
        (mod_dentry dentry (λ d, d <| d_flags ::= λ f, set_flag f DCACHE_REFERENCED |>) ;;
         d_lru_add dentry ;;
         modify (λ s, s <| nr_unused_dentry ::= Z.add 1 |>)) ;;
      mret (inr tt).

(** Every further round of the loop of dput has freed one dentry. *)
Definition dput (dentry : ptr) : KM unit :=
  if dentry =? NULL then mret tt
  else n ← gets (λ s, S (size (dentries s))); loop n dput_body dentry.

Definition __dget_locked (dentry : ptr) : KM ptr :=
  mod_dentry dentry (λ d, d <| d_count ::= Z.add 1 |>) ;;
  d ← get_dentry dentry;
  mwhen (d_lru d)
    (modify (λ s, s <| nr_unused_dentry ::= λ n, n - 1 |>) ;; d_lru_del dentry) ;;
  mret dentry.

Definition dget_locked (dentry : ptr) : KM ptr := __dget_locked dentry.

Definition prune_one_dentry (dentry : ptr) : KM unit :=
  __d_drop dentry ;;
  parent ← kill_dentry dentry;
  if negb (parent =? dentry) then dput parent else mret tt.

Fixpoint prune_dcache (count : nat) : KM unit :=
  match count with
  | O => mret tt
  | S n =>
      l ← gets dentry_unused;
      match last l with
      | None => mret tt
      | Some dentry =>
          d_lru_del dentry ;;
          modify (λ s, s <| nr_unused_dentry ::= λ n, n - 1 |>) ;;
          d ← get_dentry dentry;
          (if negb (d_count d =? 0) then mret tt
           else if has_flag (d_flags d) DCACHE_REFERENCED then
             mod_dentry dentry (λ d, d <| d_flags ::= λ f, clear_flag f DCACHE_REFERENCED |>) ;;
             d_lru_add dentry ;;
             modify (λ s, s <| nr_unused_dentry ::= Z.add 1 |>)
           else prune_one_dentry dentry) ;;
          prune_dcache n
      end
  end.

(** ** Shrinking the cache *)

(** One scan of pass two of shrink_dcache_sb; [true] asks for a rescan. *)
Fixpoint shrink_sb_scan (l : list ptr) (sb : ptr) : KM bool :=
  match l with
  | [] => mret false
  | dentry :: l' =>
      d ← get_dentry dentry;
      if negb (d_sb d =? sb) then shrink_sb_scan l' sb
      else
        modify (λ s, s <| nr_unused_dentry ::= λ n, n - 1 |>) ;;
        d_lru_del dentry ;;
        if negb (d_count d =? 0) then shrink_sb_scan l' sb
        else prune_one_dentry dentry ;; mret true
  end.

Definition shrink_dcache_sb (sb : ptr) : KM unit :=
  l ← gets dentry_unused;
  mfor l (λ dentry,
    d ← get_dentry dentry;
    mwhen (d_sb d =? sb) (d_lru_del dentry ;; d_lru_add dentry)) ;;
  n ← gets (λ s, S (size (dentries s)));
  loop n (λ _,
    l ← gets dentry_unused;
    again ← shrink_sb_scan l sb;
    mret (if (again : bool) then inl tt else inr tt)) tt.

(** A walk is at [(this_parent, next)]: [next] is the rest of the children of
    [this_parent] to visit. *)
Definition walk_pos : Type := ptr * list ptr.

(** [next = this_parent->d_child.next; this_parent = this_parent->d_parent;] *)
Definition walk_ascend (this_parent : ptr) : KM walk_pos :=
  d ← get_dentry this_parent;
  up ← get_dentry (d_child d);
  mret (d_parent d, list_after this_parent (d_subdirs up)).

(** A walk visits each dentry once on the way down and once on the way up. *)
Definition walk_fuel : KM nat := gets (λ s, (2 * size (dentries s) + 2)%nat).

Definition have_submounts (parent : ptr) : KM bool :=
  d ← get_dentry parent;
  if d_mountpoint d then mret true
  else
    n ← walk_fuel;
    loop n (λ '(this_parent, next),
      match next with
      | dentry :: next =>
          d ← get_dentry dentry;
          if d_mountpoint d then mret (inr true)
          else match d_subdirs d with
               | [] => mret (inl (this_parent, next))
               | subdirs => mret (inl (dentry, subdirs))
               end
      | [] =>
          if negb (this_parent =? parent)
          then pos ← walk_ascend this_parent; mret (inl pos)
          else mret (inr false)
      end) (parent, d_subdirs d).

(** An unused dentry moves to the end of the LRU list, where pruning starts; a
    dentry in use leaves the list. *)
Definition select_one (this : ptr) (d : dentry) : KM unit :=
  mwhen (d_lru d)
    (modify (λ s, s <| nr_unused_dentry ::= λ n, n - 1 |>) ;; d_lru_del this) ;;
  mwhen (d_count d =? 0)
    (d_lru_add_tail this ;; modify (λ s, s <| nr_unused_dentry ::= Z.add 1 |>)).

Definition select_parent_body (parent : ptr) (pos : walk_pos * nat) : KM (walk_pos * nat + nat) :=
  let '(this_parent, next, found) := pos in
  match next with
  | dentry :: next =>
      d ← get_dentry dentry;
      select_one dentry d ;;
      let found := if d_count d =? 0 then S found else found in
      out ← (match found with O => mret false | S _ => need_resched end);
      if (out : bool) then mret (inr found)
      else match d_subdirs d with
           | [] => mret (inl (this_parent, next, found))
           | subdirs => mret (inl (dentry, subdirs, found))
           end
  | [] =>
      if negb (this_parent =? parent)
      then pos ← walk_ascend this_parent; mret (inl (pos, found))
      else mret (inr found)
  end.

Definition select_parent (parent : ptr) : KM nat :=
  d ← get_dentry parent;
  n ← walk_fuel;
  loop n (select_parent_body parent) (parent, d_subdirs d, O).

(** In a round each dentry found is freed or loses DCACHE_REFERENCED. *)
Definition shrink_fuel : KM nat := gets (λ s, (4 * size (dentries s) + 4)%nat).

Definition shrink_dcache_parent (parent : ptr) : KM unit :=
  n ← shrink_fuel;
  loop n (λ _,
    found ← select_parent parent;
    match found with
    | O => mret (inr tt)
    | S _ => prune_dcache found ;; mret (inl tt)
    end) tt.

Fixpoint select_anon (l : list ptr) (found : nat) : KM nat :=
  match l with
  | [] => mret found
  | this :: l' =>
      d ← get_dentry this;
      select_one this d ;;
      select_anon l' (if d_count d =? 0 then S found else found)
  end.

Definition shrink_dcache_anon (sb : ptr) : KM unit :=
  n ← shrink_fuel;
  loop n (λ _,
    b ← get_super sb;
    found ← select_anon (s_anon b) O;
    prune_dcache found ;;
    mret (match found with O => inr tt | S _ => inl tt end)) tt.

Definition d_invalidate (dentry : ptr) : KM Z :=
  d ← get_dentry dentry;
  if d_unhashed d then mret 0
  else
    match d_subdirs d with [] => mret tt | _ => shrink_dcache_parent dentry end ;;
    d ← get_dentry dentry;
    busy ← (if (d_count d >? 1) && negb (d_inode d =? NULL)
            then i ← get_inode (d_inode d); mret (S_ISDIR (i_mode i)) else mret false);
    if (busy : bool) then mret (- EBUSY)
    else __d_drop dentry ;; mret 0.

(** ** Aliases of an inode *)

Fixpoint find_alias_in (l : list ptr) (isdir want_discon : bool) (discon_alias : ptr) : KM ptr :=
  match l with
  | [] =>
      if discon_alias =? NULL then mret NULL else __dget_locked discon_alias
  | alias :: l' =>
      d ← get_dentry alias;
      if isdir || negb (d_unhashed d) then
        if has_flag (d_flags d) DCACHE_DISCONNECTED then find_alias_in l' isdir want_discon alias
        else if negb want_discon then __dget_locked alias
        else find_alias_in l' isdir want_discon discon_alias
      else find_alias_in l' isdir want_discon discon_alias
  end.

Definition __d_find_alias (inode : ptr) (want_discon : bool) : KM ptr :=
  i ← get_inode inode;
  find_alias_in (i_dentry i) (S_ISDIR (i_mode i)) want_discon NULL.

Definition d_find_alias (inode : ptr) : KM ptr := __d_find_alias inode false.

(** One scan of the aliases; [true] after an alias was put: start over. *)
Fixpoint prune_aliases_scan (l : list ptr) : KM bool :=
  match l with
  | [] => mret false
  | dentry :: l' =>
      d ← get_dentry dentry;
      if d_count d =? 0 then
        __dget_locked dentry ;; __d_drop dentry ;; dput dentry ;; mret true
      else prune_aliases_scan l'
  end.

Definition d_prune_aliases (inode : ptr) : KM unit :=
  n ← gets (λ s, S (size (dentries s)));
  loop n (λ _,
    i ← get_inode inode;
    again ← prune_aliases_scan (i_dentry i);
    mret (if (again : bool) then inl tt else inr tt)) tt.

(** ** Allocation *)

(** A long name gets storage of its own, which is a second allocation. *)
Definition long_name (name : qstr) : bool := q_len name >? DNAME_INLINE_LEN - 1.

(** The assignments of d_alloc before the parent is looked at; [junk] is what
    [d_iname] holds when the name is stored elsewhere. *)
Definition d_alloc_init (name : qstr) (junk : list Z) : dentry :=
  let str := take (Z.to_nat (q_len name)) (q_name name) in
  {| d_count := 1;
     d_flags := DCACHE_UNHASHED;
     d_inode := NULL;
     d_hash_node := Unlinked;
     d_parent := NULL;
     d_name_hash := q_hash name;
     d_name_len := q_len name;
     d_lru := false;
     d_child := NULL;
     d_subdirs := [];
     d_alias := NULL;
     d_op := None;
     d_sb := NULL;
     d_fsdata := NULL;
     d_mounted := 0;
     d_iname := if long_name name then junk else str;
     d_extname := if long_name name then Some str else None |}.

Definition d_alloc (parent : ptr) (name : qstr) : KM ptr :=
  dentry ← kmem_alloc;
  if dentry =? NULL then mret NULL
  else
    dname ← (if long_name name then kmem_alloc else mret dentry);
    if dname =? NULL then mret NULL
    else
      junk ← gets slab_iname;
      modify (λ s, s <| dentries ::= <[dentry := d_alloc_init name junk]> |>) ;;
      (if parent =? NULL then mret tt
       else
         p ← dget parent;
         pd ← get_dentry parent;
         mod_dentry dentry (λ d, d <| d_parent := p |> <| d_sb := d_sb pd |>) ;;
         d_child_add dentry parent) ;;
      modify (λ s, s <| nr_dentry ::= Z.add 1 |>) ;;
      mret dentry.

Definition d_alloc_name (parent : ptr) (name : list Z) : KM ptr :=
  let len := strlen name in
  d_alloc parent {| q_hash := full_name_hash name len; q_len := len; q_name := name |}.

Definition d_instantiate (entry inode : ptr) : KM unit :=
  e ← get_dentry entry;
  bug_on (negb (d_alias e =? NULL)) ;;
  mwhen (negb (inode =? NULL)) (d_alias_add entry inode) ;;
  mod_dentry entry (λ d, d <| d_inode := inode |>).

(** The alias with the name and parent of [entry], if the inode has one. *)
Fixpoint find_same_alias (l : list ptr) (e : dentry) : KM ptr :=
  match l with
  | [] => mret NULL
  | alias :: l' =>
      a ← get_dentry alias;
      if negb (d_name_hash a =? d_name_hash e) then find_same_alias l' e
      else if negb (d_parent a =? d_parent e) then find_same_alias l' e
      else if negb (d_name_len a =? d_name_len e) then find_same_alias l' e
      else if negb (memcmp (d_name a) (d_name e) (Z.to_nat (d_name_len e)) =? 0)
      then find_same_alias l' e
      else mret alias
  end.

Definition d_instantiate_unique (entry inode : ptr) : KM ptr :=
  e ← get_dentry entry;
  bug_on (negb (d_alias e =? NULL)) ;;
  if inode =? NULL then
    mod_dentry entry (λ d, d <| d_inode := inode |>) ;; mret NULL
  else
    i ← get_inode inode;
    alias ← find_same_alias (i_dentry i) e;
    if negb (alias =? NULL) then
      dget_locked alias ;;
      a ← get_dentry alias;
      bug_on (negb (d_unhashed a)) ;;
      mret alias
    else
      d_alias_add entry inode ;;
      mod_dentry entry (λ d, d <| d_inode := inode |>) ;;
      mret NULL.

Definition d_alloc_root (root_inode : ptr) : KM ptr :=
  if root_inode =? NULL then mret NULL
  else
    res ← d_alloc NULL {| q_hash := 0; q_len := 1; q_name := cstr "/" |};
    if res =? NULL then mret NULL
    else
      i ← get_inode root_inode;
      mod_dentry res (λ d, d <| d_sb := i_sb i |> <| d_parent := res |>) ;;
      d_instantiate res root_inode ;;
      mret res.

Definition d_alloc_anon (inode : ptr) : KM ptr :=
  res ← d_find_alias inode;
  if negb (res =? NULL) then iput inode ;; mret res
  else
    tmp ← d_alloc NULL {| q_hash := 0; q_len := 0; q_name := [] |};
    if tmp =? NULL then mret NULL
    else
      mod_dentry tmp (λ d, d <| d_parent := tmp |>) ;;
      res ← __d_find_alias inode false;
      if res =? NULL then
        i ← get_inode inode;
        mod_dentry tmp (λ d, d
          <| d_sb := i_sb i |>
          <| d_parent := tmp |>
          <| d_inode := inode |>
          <| d_flags ::= λ f, clear_flag (set_flag f DCACHE_DISCONNECTED) DCACHE_UNHASHED |>) ;;
        d_alias_add tmp inode ;;
        mod_super (i_sb i) (λ b, b <| s_anon ::= cons tmp |>) ;;
        mod_dentry tmp (λ d, d <| d_hash_node := InAnon (i_sb i) |>) ;;
        mret tmp
      else iput inode ;; dput tmp ;; mret res.

(** ** The hash table *)

Definition __d_rehash (entry : ptr) (list : Z) : KM unit :=
  mod_dentry entry (λ d, d <| d_flags ::= λ f, clear_flag f DCACHE_UNHASHED |>) ;;
  d_hash_add entry list.

Definition d_rehash (entry : ptr) : KM unit :=
  e ← get_dentry entry;
  list ← d_hash (d_parent e) (d_name_hash e);
  __d_rehash entry list.

Definition d_add (entry inode : ptr) : KM unit :=
  d_instantiate entry inode ;; d_rehash entry.

Definition d_add_unique (entry inode : ptr) : KM ptr :=
  res ← d_instantiate_unique entry inode;
  d_rehash (if negb (res =? NULL) then res else entry) ;;
  mret res.

Fixpoint d_lookup_in (l : list ptr) (parent : ptr) (name : qstr) : KM ptr :=
  match l with
  | [] => mret NULL
  | dentry :: l' =>
      d ← get_dentry dentry;
      if negb (d_name_hash d =? q_hash name) then d_lookup_in l' parent name
      else if negb (d_parent d =? parent) then d_lookup_in l' parent name
      else
        pd ← get_dentry parent;
        differ ← match d_method pd dop_compare with
                 | Some f => match f with end
                 | None =>
                     mret (negb (d_name_len d =? q_len name) ||
                           negb (memcmp (d_name d) (q_name name) (Z.to_nat (q_len name)) =? 0))
                 end;
        if (differ : bool) then d_lookup_in l' parent name
        else if negb (d_unhashed d) then
          mod_dentry dentry (λ d, d <| d_count ::= Z.add 1 |>) ;; mret dentry
        else mret NULL
  end.

Definition d_bucket (head : Z) : KM (list ptr) :=
  gets (λ s, default [] (dentry_hashtable s !! head)).

Definition __d_lookup (parent : ptr) (name : qstr) : KM ptr :=
  head ← d_hash parent (q_hash name);
  l ← d_bucket head;
  d_lookup_in l parent name.

(** No rename runs meanwhile: the sequence count never asks for a retry. *)
Definition d_lookup (parent : ptr) (name : qstr) : KM ptr := __d_lookup parent name.

(** kmem_ptr_validate: the address holds a dentry. *)
Definition d_validate (dentry dparent : ptr) : KM bool :=
  h ← gets dentries;
  match h !! dentry with
  | None => mret false
  | Some d =>
      if negb (d_parent d =? dparent) then mret false
      else
        base ← d_hash dparent (d_name_hash d);
        l ← d_bucket base;
        if bool_decide (dentry ∈ l) then __dget_locked dentry ;; mret true else mret false
  end.

Definition d_delete (dentry : ptr) : KM unit :=
  d ← get_dentry dentry;
  i ← get_inode (d_inode d);
  if d_count d =? 1 then dentry_iput dentry
  else if negb (d_unhashed d) then __d_drop dentry else mret tt.

Definition find_inode_number (dir : ptr) (name : qstr) : KM Z :=
  let name := {| q_hash := full_name_hash (q_name name) (q_len name);
                 q_len := q_len name; q_name := q_name name |} in
  pd ← get_dentry dir;
  match d_method pd dop_hash with
  | Some f => match f with end
  | None =>
      dentry ← d_lookup dir name;
      if dentry =? NULL then mret 0
      else
        d ← get_dentry dentry;
        ino ← (if d_inode d =? NULL then mret 0 else i ← get_inode (d_inode d); mret (i_ino i));
        dput dentry ;;
        mret ino
  end.

(** ** Moving a dentry *)

(** The names change places as far as their storage allows: storage of their
    own is handed over, inline names are copied into [dentry] only. *)
Definition switch_names (dentry target : ptr) : KM unit :=
  d ← get_dentry dentry;
  t ← get_dentry target;
  match d_extname t, d_extname d with
  | Some tn, Some dn =>
      mod_dentry target (λ t, t <| d_extname := Some dn |>) ;;
      mod_dentry dentry (λ d, d <| d_extname := Some tn |>)
  | Some tn, None =>
      mod_dentry dentry (λ d, d <| d_extname := Some tn |>) ;;
      mod_dentry target (λ t, t <| d_extname := None |>)
  | None, Some dn =>
      mod_dentry dentry (λ d, d <| d_iname := d_iname t |>) ;;
      mod_dentry target (λ t, t <| d_extname := Some dn |>) ;;
      mod_dentry dentry (λ d, d <| d_extname := None |>)
  | None, None => mod_dentry dentry (λ d, d <| d_iname := d_iname t |>)
  end.

(** The lengths and the hashes change places. *)
Definition switch_len_hash (dentry target : ptr) : KM unit :=
  d ← get_dentry dentry;
  t ← get_dentry target;
  mod_dentry dentry (λ x, x <| d_name_len := d_name_len t |> <| d_name_hash := d_name_hash t |>) ;;
  mod_dentry target (λ x, x <| d_name_len := d_name_len d |> <| d_name_hash := d_name_hash d |>).

Definition d_move (dentry target : ptr) : KM unit :=
  d ← get_dentry dentry;
  t ← get_dentry target;
  mwhen (d_inode d =? NULL) (printk (cstr "<4>VFS: moving negative dcache entry" ++ [10])) ;;
  mwhen (negb (has_flag (d_flags d) DCACHE_UNHASHED)) (d_hash_del dentry) ;;
  list ← d_hash (d_parent t) (d_name_hash t);
  __d_rehash dentry list ;;
  __d_drop target ;;
  d_child_del dentry ;;
  d_child_del target ;;
  switch_names dentry target ;;
  switch_len_hash dentry target ;;
  d ← get_dentry dentry;
  t ← get_dentry target;
  (if IS_ROOT dentry d then
     mod_dentry dentry (λ d, d <| d_parent := d_parent t |>) ;;
     mod_dentry target (λ t, t <| d_parent := target |> <| d_child := NULL |>)
   else
     mod_dentry dentry (λ x, x <| d_parent := d_parent t |>) ;;
     mod_dentry target (λ x, x <| d_parent := d_parent d |>) ;;
     d_child_add target (d_parent d)) ;;
  d ← get_dentry dentry;
  d_child_add dentry (d_parent d).

Definition d_splice_alias (inode dentry : ptr) : KM ptr :=
  if inode =? NULL then d_add dentry inode ;; mret NULL
  else
    new ← __d_find_alias inode true;
    if negb (new =? NULL) then
      nd ← get_dentry new;
      bug_on (negb (has_flag (d_flags nd) DCACHE_DISCONNECTED)) ;;
      d_rehash dentry ;;
      d_move new dentry ;;
      iput inode ;;
      mret new
    else
      d_alias_add dentry inode ;;
      mod_dentry dentry (λ d, d <| d_inode := inode |>) ;;
      d_rehash dentry ;;
      mret NULL.

(** ** Paths and ancestors *)

(** The path is written backwards from the end of the buffer: [tail] is what
    stands from [end] on (without the NUL), [retval] what the caller would see;
    [buflen] counts the free bytes.  [inl] is -ENAMETOOLONG. *)
Definition __d_path (dentry vfsmnt root rootmnt : ptr) (buflen : Z) : KM (Z + list Z) :=
  d ← get_dentry dentry;
  let deleted := negb (IS_ROOT dentry d) && d_unhashed d in
  let buflen := if deleted then buflen - 1 - 10 else buflen - 1 in
  let tail := if deleted then cstr " (deleted)" else [] in
  if deleted && (buflen <? 0) then mret (inl (- ENAMETOOLONG))
  else if buflen <? 1 then mret (inl (- ENAMETOOLONG))
  else
    n ← gets (λ s, (size (dentries s) + size (mounts s) + 2)%nat);
    loop n (λ '(dentry, vfsmnt, buflen, tail, retval),
      if (dentry =? root) && (vfsmnt =? rootmnt) then mret (inr (inr retval))
      else
        d ← get_dentry dentry;
        m ← get_mount vfsmnt;
        if (dentry =? mnt_root m) || IS_ROOT dentry d then
          if mnt_parent m =? vfsmnt then
            if buflen - d_name_len d <? 0 then mret (inr (inl (- ENAMETOOLONG)))
            else mret (inr (inr (take (Z.to_nat (d_name_len d)) (d_name d) ++ drop 1 retval)))
          else mret (inl (mnt_mountpoint m, mnt_parent m, buflen, tail, retval))
        else
          let buflen := buflen - (d_name_len d + 1) in
          if buflen <? 0 then mret (inr (inl (- ENAMETOOLONG)))
          else
            let tail := 47 :: take (Z.to_nat (d_name_len d)) (d_name d) ++ tail in
            mret (inl (d_parent d, vfsmnt, buflen, tail, tail)))
      (dentry, vfsmnt, buflen, tail, 47 :: tail).

Definition is_subdir (new_dentry old_dentry : ptr) : KM bool :=
  n ← gets (λ s, S (size (dentries s)));
  loop n (λ new_dentry,
    if negb (new_dentry =? old_dentry) then
      d ← get_dentry new_dentry;
      if d_parent d =? new_dentry then mret (inr false) else mret (inl (d_parent d))
    else mret (inr true)) new_dentry.

(** ** Dropping a whole tree *)

Definition d_dec (dentry : ptr) : KM unit :=
  mod_dentry dentry (λ d, d <| d_count ::= λ c, c - 1 |>).

Definition d_genocide_body (root : ptr) (pos : walk_pos) : KM (walk_pos + unit) :=
  let '(this_parent, next) := pos in
  match next with
  | dentry :: next =>
      d ← get_dentry dentry;
      if d_unhashed d || (d_inode d =? NULL) then mret (inl (this_parent, next))
      else match d_subdirs d with
           | [] => d_dec dentry ;; mret (inl (this_parent, next))
           | subdirs => mret (inl (dentry, subdirs))
           end
  | [] =>
      if negb (this_parent =? root) then
        pos ← walk_ascend this_parent;
        d_dec this_parent ;;
        mret (inl pos)
      else mret (inr tt)
  end.

Definition d_genocide (root : ptr) : KM unit :=
  d ← get_dentry root;
  n ← walk_fuel;
  loop n (d_genocide_body root) (root, d_subdirs d).
