(* ===== verification/DcacheInv.v ===== *)
(** * Correctness of the dentry cache

    The invariant of the tree of dentries, its lists, hash chains, statistics
    and reference counts; that the operations on dentries preserve it and do
    not fault; that [dput] ends. *)

From S2P Require Import Prelude KString Kernel Links Inode InodeInv Dcache.

(** ** The two sides of each list *)

Definition subdirs (s : kstate) (p : ptr) : list ptr := from_option d_subdirs [] (dentries s !! p).
Definition on_child (d : dentry) : option ptr := if d_child d =? NULL then None else Some (d_child d).
Definition child_node (s : kstate) (x : ptr) : option ptr := dentries s !! x ≫= on_child.

Definition on_alias (d : dentry) : option ptr := if d_alias d =? NULL then None else Some (d_alias d).
Definition alias_node (s : kstate) (x : ptr) : option ptr := dentries s !! x ≫= on_alias.

Definition chain (s : kstate) (h : hnode) : list ptr :=
  match h with
  | Unlinked => []
  | InBucket b => default [] (dentry_hashtable s !! b)
  | InAnon sb => from_option s_anon [] (supers s !! sb)
  end.
Definition on_chain (d : dentry) : option hnode :=
  match d_hash_node d with Unlinked => None | h => Some h end.
Definition chain_node (s : kstate) (x : ptr) : option hnode := dentries s !! x ≫= on_chain.

Definition lru (s : kstate) (u : unit) : list ptr := dentry_unused s.
Definition on_lru (d : dentry) : option unit := if d_lru d then Some tt else None.
Definition lru_node (s : kstate) (x : ptr) : option unit := dentries s !! x ≫= on_lru.

(** The bucket where a lookup searches for the dentry. *)
Definition home_bucket (s : kstate) (d : dentry) : Z :=
  d_hash_val (d_hash_shift s) (d_hash_mask s) (d_parent d) (d_name_hash d).

(** ** The invariant *)

(** Each child holds a reference to its parent; [dext] counts the others. *)
Record dentry_ok (dext : refs) (s : kstate) (x : ptr) (d : dentry) : Prop := mkDentryOk {
  do_flag : d_unhashed d = bool_decide (d_hash_node d = Unlinked);
  do_home b : d_hash_node d = InBucket b → b = home_bucket s d;
  do_alias : d_alias d = d_inode d;
  do_parent : (d_child d = d_parent d ∧ d_parent d ≠ NULL ∧ d_parent d ≠ x) ∨
              (d_child d = NULL ∧ d_parent d = x);
  do_ext : 0 ≤ dext x;
  do_count : d_count d = dext x + Z.of_nat (length (d_subdirs d))
}.

Record dcache_inv (dext : refs) (s : kstate) : Prop := mkDcacheInv {
  dc_sub : linked (subdirs s) (child_node s);
  dc_alias : linked (aliases s) (alias_node s);
  dc_chain : linked (chain s) (chain_node s);
  dc_lru : linked (lru s) (lru_node s);
  dc_ok x d : dentries s !! x = Some d → dentry_ok dext s x d;
  dc_nr : nr_dentry s = Z.of_nat (size (dentries s));
  dc_nr_unused : nr_unused_dentry s = Z.of_nat (length (dentry_unused s));
  dc_addr x : is_Some (dentries s !! x) → 0 < x < slab_next s
}.

(** ** Updates of the invariant *)

(** What surrounds the dentries and the lists they are on. *)
Record same_dlists (s s' : kstate) : Prop := mkSameD {
  sd_alias x : aliases s' x = aliases s x;
  sd_chain h : chain s' h = chain s h;
  sd_lru : dentry_unused s' = dentry_unused s;
  sd_shift : d_hash_shift s' = d_hash_shift s;
  sd_mask : d_hash_mask s' = d_hash_mask s;
  sd_nr : nr_dentry s' = nr_dentry s;
  sd_nr_unused : nr_unused_dentry s' = nr_unused_dentry s;
  sd_next : slab_next s ≤ slab_next s'
}.

#[export] Instance same_dlists_refl : Reflexive same_dlists.
Proof. by split. Qed.

Lemma dentry_ok_ext dext dext' s s' x d :
  dentry_ok dext s x d → d_hash_shift s' = d_hash_shift s → d_hash_mask s' = d_hash_mask s →
  dext' x = dext x → dentry_ok dext' s' x d.
Proof.
  intros [H1 H2 H3 H4 H5 H6] E1 E2 E3. split; rewrite ?E3; try done.
  intros b Hb. unfold home_bucket. rewrite E1, E2. by apply H2.
Qed.

(** Nothing about the dentries changed. *)
Lemma dcache_inv_ext dext dext' s s' :
  dcache_inv dext s → dentries s' = dentries s → same_dlists s s' →
  (∀ x, dext' x = dext x) → dcache_inv dext' s'.
Proof.
  intros [Hs Ha Hc Hl Hok Hnr Hnu Had] E [] Hext.
  assert (Hnode : ∀ {T} (f : dentry → option T) y, dentries s' !! y ≫= f = dentries s !! y ≫= f).
  { intros T f y. by rewrite E. }
  split.
  - apply (linked_ext _ _ _ _ Hs); [|by apply Hnode]. intros k. unfold subdirs. by rewrite E.
  - apply (linked_ext _ _ _ _ Ha); [done|by apply Hnode].
  - apply (linked_ext _ _ _ _ Hc); [done|by apply Hnode].
  - apply (linked_ext _ _ _ _ Hl); [|by apply Hnode]. intros []. unfold lru. by rewrite sd_lru0.
  - intros y d. rewrite E. intros Hy. by eapply dentry_ok_ext; [apply Hok| | |].
  - by rewrite sd_nr0, Hnr, E.
  - by rewrite sd_nr_unused0, Hnu, sd_lru0.
  - intros y. rewrite E. intros Hy%Had. lia.
Qed.

(** A dentry changes in fields that are not links. *)
Record same_links (d d' : dentry) : Prop := mkSameL {
  sk_child : d_child d' = d_child d;
  sk_alias : d_alias d' = d_alias d;
  sk_hash : d_hash_node d' = d_hash_node d;
  sk_lru : d_lru d' = d_lru d;
  sk_sub : d_subdirs d' = d_subdirs d
}.

Lemma dcache_inv_set dext dext' s s' x d d' :
  dcache_inv dext s → dentries s !! x = Some d → dentries s' = <[x := d']> (dentries s) →
  same_dlists s s' → same_links d d' → dentry_ok dext' s' x d' →
  (∀ y, y ≠ x → dext' y = dext y) → dcache_inv dext' s'.
Proof.
  intros [Hs Ha Hc Hl Hok Hnr Hnu Had] Hx E [] [] Hok' Hext.
  assert (Hnode : ∀ {T} (f : dentry → option T), f d' = f d →
            ∀ y, dentries s' !! y ≫= f = dentries s !! y ≫= f).
  { intros T f Hf y. rewrite E. map_cases; [by rewrite Hx|done]. }
  split.
  - apply (linked_ext _ _ _ _ Hs).
    + intros k. unfold subdirs. rewrite E. map_cases; [by rewrite Hx|done].
    + apply Hnode. unfold on_child. by rewrite sk_child0.
  - apply (linked_ext _ _ _ _ Ha); [done|]. apply Hnode. unfold on_alias. by rewrite sk_alias0.
  - apply (linked_ext _ _ _ _ Hc); [done|]. apply Hnode. unfold on_chain. by rewrite sk_hash0.
  - apply (linked_ext _ _ _ _ Hl); [intros []; unfold lru; by rewrite sd_lru0|].
    apply Hnode. unfold on_lru. by rewrite sk_lru0.
  - intros y j. rewrite E. map_cases; [by intros [= <-]|].
    intros Hy. eapply dentry_ok_ext; [by apply Hok|done|done|by apply Hext].
  - rewrite sd_nr0, Hnr, E, map_size_insert_Some; [done|by eauto].
  - by rewrite sd_nr_unused0, Hnu, sd_lru0.
  - intros y. rewrite E. intros Hy. enough (0 < y < slab_next s) by lia.
    apply Had. revert Hy. map_cases; eauto.
Qed.

Lemma dentry_addr dext s x d : dcache_inv dext s → dentries s !! x = Some d → x ≠ NULL.
Proof. intros Hi Hx. destruct (dc_addr _ _ Hi x); [by eauto|]. unfold NULL. lia. Qed.

(** ** The state both caches share *)

Record vfs_inv (dext iext : refs) (s : kstate) : Prop := mkVfsInv {
  vi_dcache : dcache_inv dext s;
  vi_inode : inode_inv iext s
}.

(** Everything but the two caches and the answers of the scheduler. *)
Definition erase_vfs (k : kstate) : kstate :=
  mkK ∅ ∅ ((λ b, b <| s_inodes := [] |> <| s_anon := [] |>) <$> supers k) (mounts k) (fstypes k)
    (files k) (modules k) (user_mem k) (slab_next k) (slab_fail k) (slab_inode k)
    (slab_iname k) (file_systems k) ∅ (d_hash_shift k)
    (d_hash_mask k) [] 0 0 [] [] ∅ (i_hash_shift k) (i_hash_mask k) 0 0 (last_ino k)
    (iunique_counter k) (mount_hashtable k) (mnt_hash_bits k) (mnt_hash_mask k)
    (super_blocks k) (unnamed_dev_idr k) (current k)
    (current_time k) [] (klog k) (aufs_mount k) (enabled k)
    (files_stat k).

Definition vframe (s s' : kstate) : Prop := erase_vfs s' = erase_vfs s.

#[export] Instance vframe_preorder : PreOrder vframe.
Proof. split; [by intros s|]. intros s1 s2 s3 H1 H2. unfold vframe in *. congruence. Qed.

Lemma iframe_vframe s s' : iframe s s' → vframe s s'.
Proof.
  assert (∀ k, erase_vfs k = erase_vfs (erase_inodes k)) as E.
  { intros k. unfold erase_vfs, erase_inodes. simpl. by rewrite <-map_fmap_compose. }
  unfold iframe, vframe. intros H. by rewrite (E s), (E s'), H.
Qed.

Lemma vframe_super s s' sb b :
  vframe s s' → supers s !! sb = Some b →
  ∃ b', supers s' !! sb = Some b' ∧
    b' <| s_inodes := [] |> <| s_anon := [] |> = b <| s_inodes := [] |> <| s_anon := [] |>.
Proof.
  intros Hf Hb. apply (f_equal supers) in Hf. simpl in Hf.
  apply (f_equal (lookup sb)) in Hf. rewrite !lookup_fmap, Hb in Hf. simpl in Hf.
  destruct (supers s' !! sb) as [b'|]; [|done]. exists b'. split; [done|]. by apply (inj Some).
Qed.

Lemma erase_vfs_super_insert (m : gmap Z super_block) sb b b' :
  m !! sb = Some b →
  b' <| s_inodes := [] |> <| s_anon := [] |> = b <| s_inodes := [] |> <| s_anon := [] |> →
  (λ b, b <| s_inodes := [] |> <| s_anon := [] |>) <$> <[sb := b']> m =
  (λ b, b <| s_inodes := [] |> <| s_anon := [] |>) <$> m.
Proof.
  intros Hb E. rewrite fmap_insert, E. apply insert_id. by rewrite lookup_fmap, Hb.
Qed.

(** ** Changing the links of one dentry *)

Lemma nodes_same {T} (f : dentry → option T) (D : gmap Z dentry) x d d' :
  D !! x = Some d → f d' = f d → ∀ y, <[x := d']> D !! y ≫= f = D !! y ≫= f.
Proof. intros Hx Hf y. map_cases; [by rewrite Hx|done]. Qed.

Lemma nodes_at {T} (f : dentry → option T) (D : gmap Z dentry) x d' :
  <[x := d']> D !! x ≫= f = f d'.
Proof. by rewrite lookup_insert_eq. Qed.

Lemma nodes_off {T} (f : dentry → option T) (D : gmap Z dentry) x d' y :
  y ≠ x → <[x := d']> D !! y ≫= f = D !! y ≫= f.
Proof. intros. by rewrite lookup_insert_ne. Qed.

Lemma dcache_inv_upd dext dext' s s' x d d' :
  dcache_inv dext s → dentries s !! x = Some d → dentries s' = <[x := d']> (dentries s) →
  d_subdirs d' = d_subdirs d → d_child d' = d_child d →
  linked (aliases s') (alias_node s') → linked (chain s') (chain_node s') →
  linked (lru s') (lru_node s') →
  d_hash_shift s' = d_hash_shift s → d_hash_mask s' = d_hash_mask s →
  nr_dentry s' = nr_dentry s → nr_unused_dentry s' = Z.of_nat (length (dentry_unused s')) →
  slab_next s ≤ slab_next s' → dentry_ok dext' s' x d' →
  (∀ y, y ≠ x → dext' y = dext y) → dcache_inv dext' s'.
Proof.
  intros [Hs Ha Hc Hl Hok Hnr Hnu Had] Hx E E1 E2 Ha' Hc' Hl' F1 F2 F3 F4 F5 Hok' Hext.
  split; try done.
  - apply (linked_ext _ _ _ _ Hs).
    + intros k. unfold subdirs. rewrite E. map_cases; [by rewrite Hx|done].
    + intros y. unfold child_node. rewrite E. eapply nodes_same; [done|].
      unfold on_child. by rewrite E2.
  - intros y j. rewrite E. map_cases; [by intros [= <-]|].
    intros Hy. eapply dentry_ok_ext; [by apply Hok|done|done|by apply Hext].
  - rewrite F3, Hnr, E, map_size_insert_Some; [done|by eauto].
  - intros y. rewrite E. intros Hy. enough (0 < y < slab_next s) by lia.
    apply Had. revert Hy. map_cases; eauto.
Qed.

(** The alias and LRU sides do not see a change of the hash chain, and so on. *)
Lemma linked_alias_set s s' x d d' :
  linked (aliases s) (alias_node s) → dentries s !! x = Some d →
  dentries s' = <[x := d']> (dentries s) → d_alias d' = d_alias d →
  (∀ k, aliases s' k = aliases s k) → linked (aliases s') (alias_node s').
Proof.
  intros Hl Hx E Ed Ea. apply (linked_ext _ _ _ _ Hl); [done|].
  intros y. unfold alias_node. rewrite E. eapply nodes_same; [done|]. unfold on_alias. by rewrite Ed.
Qed.

Lemma linked_chain_set s s' x d d' :
  linked (chain s) (chain_node s) → dentries s !! x = Some d →
  dentries s' = <[x := d']> (dentries s) → d_hash_node d' = d_hash_node d →
  (∀ k, chain s' k = chain s k) → linked (chain s') (chain_node s').
Proof.
  intros Hl Hx E Ed Ea. apply (linked_ext _ _ _ _ Hl); [done|].
  intros y. unfold chain_node. rewrite E. eapply nodes_same; [done|]. unfold on_chain. by rewrite Ed.
Qed.

Lemma linked_lru_set s s' x d d' :
  linked (lru s) (lru_node s) → dentries s !! x = Some d →
  dentries s' = <[x := d']> (dentries s) → d_lru d' = d_lru d →
  dentry_unused s' = dentry_unused s → linked (lru s') (lru_node s').
Proof.
  intros Hl Hx E Ed Ea. apply (linked_ext _ _ _ _ Hl); [intros []; done|].
  intros y. unfold lru_node. rewrite E. eapply nodes_same; [done|]. unfold on_lru. by rewrite Ed.
Qed.

(** ** Leaving the hash *)

(** A dentry that no lookup finds any more. *)
Definition unhash (d : dentry) : dentry :=
  d <| d_flags ::= λ f, set_flag f DCACHE_UNHASHED |> <| d_hash_node := Unlinked |>.

Lemma unhash_ok dext s x d : dentry_ok dext s x d → dentry_ok dext s x (unhash d).
Proof.
  intros [H1 H2 H3 H4 H5 H6]. split; try done. apply has_flag_set. done.
Qed.

Lemma vfs_inv_unhash dext iext s s' x d :
  vfs_inv dext iext s → dentries s !! x = Some d →
  dentries s' = <[x := unhash d]> (dentries s) →
  (∀ h, chain s' h = list_del x (chain s h)) → inodes s' = inodes s →
  same_ilists s s' → dentry_unused s' = dentry_unused s →
  nr_dentry s' = nr_dentry s → nr_unused_dentry s' = nr_unused_dentry s → vframe s s' →
  vfs_inv dext iext s'.
Proof.
  intros [Hd Hi] Hx E Ec Ei Hsame El En Enu Hf.
  pose proof (f_equal d_hash_shift Hf) as E1. pose proof (f_equal d_hash_mask Hf) as E2.
  pose proof (f_equal slab_next Hf) as E3. simpl in *.
  split; [|by apply (inode_inv_ext _ _ _ _ Hi)].
  pose proof Hd as [Hs Ha Hc Hl Hok Hnr Hnu Had].
  apply (dcache_inv_upd dext _ s _ x d (unhash d)); try done.
  - apply (linked_alias_set s _ x d (unhash d)); try done.
    intros k. unfold aliases. by rewrite Ei.
  - apply (linked_remove _ _ _ _ x Hc); [done| |]; unfold chain_node; rewrite E.
    + by rewrite nodes_at.
    + intros y Hy. by rewrite nodes_off.
  - by apply (linked_lru_set s _ x d (unhash d)).
  - by rewrite El, Enu.
  - lia.
  - eapply dentry_ok_ext; [by apply unhash_ok, Hok|done..].
Qed.

Lemma chain_del_id dext s x d h :
  dcache_inv dext s → dentries s !! x = Some d → h ≠ d_hash_node d →
  list_del x (chain s h) = chain s h.
Proof.
  intros Hd Hx Hh. apply (linked_del_id _ _ _ _ (dc_chain _ _ Hd)). unfold chain_node.
  rewrite Hx. simpl. unfold on_chain. destruct (d_hash_node d); congruence.
Qed.

Lemma chain_elem dext s x d :
  dcache_inv dext s → dentries s !! x = Some d → d_hash_node d ≠ Unlinked →
  x ∈ chain s (d_hash_node d).
Proof.
  intros Hd Hx Hh. apply (linked_iff _ _ (dc_chain _ _ Hd)). unfold chain_node.
  rewrite Hx. simpl. unfold on_chain. by destruct (d_hash_node d).
Qed.

(** The outcome of an operation on one dentry that keeps the invariant. *)
Definition dentry_becomes dext iext (x : ptr) (d' : dentry) (s s' : kstate) : Prop :=
  vfs_inv dext iext s' ∧ vframe s s' ∧ inodes s' = inodes s ∧
  dentries s' = <[x := d']> (dentries s).

Lemma wp___d_drop dext iext x d s :
  vfs_inv dext iext s → dentries s !! x = Some d →
  wp (__d_drop x) (λ _ s', dentry_unused s' = dentry_unused s ∧
    dentry_becomes dext iext x (if d_unhashed d then d else unhash d) s s') s.
Proof.
  intros Hv Hx. pose proof Hv as [Hd Hi]. pose proof (dc_ok _ _ Hd _ _ Hx) as [Hfl _ _ _ _ _].
  pose proof (λ h, chain_del_id _ _ _ _ h Hd Hx) as Hid.
  pose proof (chain_elem _ _ _ _ Hd Hx) as Hel.
  unfold __d_drop. wp_run. destruct (d_unhashed d) eqn:Eu; simpl.
  { wp_run. unfold dentry_becomes. split_and!; try done. by rewrite insert_id. }
  symmetry in Hfl. apply bool_decide_eq_false in Hfl. unfold d_hash_del. wp_run. simpl.
  destruct (d_hash_node d) as [|b|sb] eqn:Eh; [done| |].
  - wp_run. split; [done|]. split_and!; try done; [|simpl; by rewrite insert_insert_eq].
    eapply (vfs_inv_unhash dext iext s _ x d Hv Hx); try done.
    + simpl. by rewrite insert_insert_eq.
    + intros [|b'|sb]; simpl; [done| |symmetry; by apply (Hid (InAnon sb))].
      map_cases; [done|]. symmetry. apply (Hid (InBucket b')). congruence.
  - specialize (Hel ltac:(done)). simpl in Hel.
    destruct (supers s !! sb) as [b|] eqn:Eb; [|by apply elem_of_nil in Hel]. wp_run.
    match goal with |- _ ∧ dentry_becomes _ _ _ _ _ ?s1 => assert (vframe s s1) as Hf end.
    { unfold vframe, erase_vfs. cbn -[fmap insert list_del].
      by rewrite (erase_vfs_super_insert _ _ b). }
    split; [done|]. split_and!; [|done|done|simpl; by rewrite insert_insert_eq].
    eapply (vfs_inv_unhash dext iext s _ x d Hv Hx); try done.
    + simpl. by rewrite insert_insert_eq.
    + intros [|b'|sb']; simpl; [done|symmetry; by apply (Hid (InBucket b'))|].
      map_cases; simpl; [by rewrite Eb|]. symmetry. apply (Hid (InAnon sb')). congruence.
    + split; try done. intros sb'. unfold sb_inodes. simpl. map_cases; [by rewrite Eb|done].
Qed.

(** ** The LRU list *)

(** The rest of the caches, for changes of the LRU list. *)
Record same_but_lru (s s' : kstate) : Prop := mkSbl {
  sbl_inodes : inodes s' = inodes s;
  sbl_ilists : same_ilists s s';
  sbl_table : dentry_hashtable s' = dentry_hashtable s;
  sbl_supers : supers s' = supers s;
  sbl_shift : d_hash_shift s' = d_hash_shift s;
  sbl_mask : d_hash_mask s' = d_hash_mask s;
  sbl_nr : nr_dentry s' = nr_dentry s
}.

Lemma vfs_inv_lru dext iext s s' x d d' :
  vfs_inv dext iext s → dentries s !! x = Some d → dentries s' = <[x := d']> (dentries s) →
  d_subdirs d' = d_subdirs d → d_child d' = d_child d → d_alias d' = d_alias d →
  d_hash_node d' = d_hash_node d → dentry_ok dext s x d' → same_but_lru s s' →
  linked (lru s') (lru_node s') →
  nr_unused_dentry s' = Z.of_nat (length (dentry_unused s')) → vfs_inv dext iext s'.
Proof.
  intros [Hd Hi] Hx E E1 E2 E3 E4 Hok' [] Hl' Hnu'. split.
  - pose proof Hd as [Hs Ha Hc Hl Hok Hnr Hnu Had].
    apply (dcache_inv_upd dext _ s _ x d d'); try done.
    + apply (linked_alias_set s _ x d d'); try done. intros k. unfold aliases. by rewrite sbl_inodes0.
    + apply (linked_chain_set s _ x d d'); try done.
      intros []; simpl; rewrite ?sbl_table0, ?sbl_supers0; done.
    + apply sbl_ilists0.
    + by eapply dentry_ok_ext.
  - by apply (inode_inv_ext _ _ _ _ Hi).
Qed.

Lemma vfs_inv_lru_del dext iext s s' x d :
  vfs_inv dext iext s → dentries s !! x = Some d → d_lru d = true →
  dentries s' = <[x := d <| d_lru := false |>]> (dentries s) → same_but_lru s s' →
  dentry_unused s' = list_del x (dentry_unused s) →
  nr_unused_dentry s' = nr_unused_dentry s - 1 → vfs_inv dext iext s'.
Proof.
  intros Hv Hx El E Hsame Eu Enu. pose proof (vi_dcache _ _ _ Hv) as Hd.
  pose proof (dc_lru _ _ Hd) as Hl.
  assert (x ∈ dentry_unused s) as Hin.
  { apply (linked_iff _ _ Hl x tt). unfold lru_node. rewrite Hx. simpl. unfold on_lru. by rewrite El. }
  eapply (vfs_inv_lru dext iext s s' x d); try done.
  - by destruct (dc_ok _ _ Hd _ _ Hx).
  - apply (linked_remove _ _ _ _ x Hl); [done| |]; unfold lru_node; rewrite E.
    + by rewrite nodes_at.
    + intros y Hy. by rewrite nodes_off.
  - rewrite Enu, Eu, (dc_nr_unused _ _ Hd).
    rewrite (length_list_del x (dentry_unused s)) by (done || apply (linked_nodup _ _ Hl tt)). lia.
Qed.

Lemma vfs_inv_lru_add dext iext s s' x d d' :
  vfs_inv dext iext s → dentries s !! x = Some d → d_lru d = false →
  dentries s' = <[x := d']> (dentries s) → d_lru d' = true →
  same_links d (d' <| d_lru := false |>) → dentry_ok dext s x d' → same_but_lru s s' →
  dentry_unused s' ≡ₚ x :: dentry_unused s →
  nr_unused_dentry s' = nr_unused_dentry s + 1 → vfs_inv dext iext s'.
Proof.
  intros Hv Hx El E El' [L1 L2 L3 L4 L5] Hok Hsame Eu Enu. pose proof (vi_dcache _ _ _ Hv) as Hd.
  pose proof (dc_lru _ _ Hd) as Hl.
  eapply (vfs_inv_lru dext iext s s' x d); try done.
  - apply (linked_insert _ _ _ _ x tt Hl); [|done|by intros []| |]; unfold lru_node.
    + rewrite Hx. simpl. unfold on_lru. by rewrite El.
    + rewrite E, nodes_at. unfold on_lru. by rewrite El'.
    + intros y Hy. rewrite E. by rewrite nodes_off.
  - rewrite Enu, Eu, (dc_nr_unused _ _ Hd). simpl. lia.
Qed.

Lemma wp_lru_del dext iext x d s :
  vfs_inv dext iext s → dentries s !! x = Some d →
  wp (mwhen (d_lru d) (d_lru_del x ;; modify (λ s, s <| nr_unused_dentry ::= λ n, n - 1 |>)))
    (λ _ s', dentry_becomes dext iext x (d <| d_lru := false |>) s s') s.
Proof.
  intros Hv Hx. wp_if El.
  - unfold d_lru_del. wp_run. split_and!; try done. by apply (vfs_inv_lru_del dext iext s _ x d).
  - split_and!; try done. rewrite insert_id; [done|]. rewrite Hx. destruct d. simpl in *. by subst.
Qed.

(** ** Freeing a dentry *)

Lemma size_alter {A} (f : A → A) i (m : gmap Z A) : size (alter f i m) = size m.
Proof. by rewrite <-!size_dom, dom_alter_L. Qed.

(** The map when a dentry without children is gone from it and its parent. *)
Definition pruned (x p : ptr) (D : gmap Z dentry) : gmap Z dentry :=
  delete x (alter (λ d, d <| d_subdirs ::= list_del x |>) p D).

Lemma pruned_other x p D y :
  y ≠ x → pruned x p D !! y =
    if decide (p = y) then (λ d, d <| d_subdirs ::= list_del x |>) <$> D !! y else D !! y.
Proof.
  intros Hy. unfold pruned. rewrite lookup_delete_ne by done.
  case_decide as Hp; [subst; by rewrite lookup_alter_eq|by rewrite lookup_alter_ne].
Qed.

Lemma pruned_nodes {T} (f : dentry → option T) x p D y :
  (∀ d l, f (d <| d_subdirs := l |>) = f d) → y ≠ x → pruned x p D !! y ≫= f = D !! y ≫= f.
Proof.
  intros Hf Hy. rewrite pruned_other by done. case_decide; [|done].
  destruct (D !! y) as [d|]; [|done]. simpl. apply (Hf d (list_del x (d_subdirs d))).
Qed.

Lemma pruned_gone {T} (f : dentry → option T) x p D : pruned x p D !! x ≫= f = None.
Proof. unfold pruned. by rewrite lookup_delete_eq. Qed.

Definition inherit (x p : ptr) (e : refs) : refs := if decide (p = x) then e else bump p 1 e.

(** The reference the dentry held to its parent is left to the caller. *)
Lemma dcache_inv_remove dext s s' x d :
  dcache_inv dext s → dentries s !! x = Some d → d_subdirs d = [] →
  d_hash_node d = Unlinked → d_lru d = false →
  dentries s' = pruned x (d_parent d) (dentries s) →
  (∀ k, aliases s' k = list_del x (aliases s k)) → (∀ h, chain s' h = chain s h) →
  dentry_unused s' = dentry_unused s → d_hash_shift s' = d_hash_shift s →
  d_hash_mask s' = d_hash_mask s → nr_dentry s' = nr_dentry s - 1 →
  nr_unused_dentry s' = nr_unused_dentry s → slab_next s ≤ slab_next s' →
  dcache_inv (inherit x (d_parent d) dext) s'.
Proof.
  intros Hd Hx Hsub Hun Hlru E Ea Ec El F1 F2 Fn Fu Fs.
  pose proof Hd as [Hs Ha Hc Hl Hok Hnr Hnu Had].
  pose proof (Hok _ _ Hx) as [_ _ _ Hpar _ _].
  set (p := d_parent d) in *.
  assert (∀ k, k ≠ p → list_del x (subdirs s k) = subdirs s k) as Hid.
  { intros k Hk. apply (linked_del_id _ _ _ _ Hs). unfold child_node, on_child. rewrite Hx. simpl.
    destruct Hpar as [(-> & ? & ?)|(-> & ?)]; [|done]. case_match; congruence. }
  split.
  - apply (linked_remove _ _ _ _ x Hs); unfold child_node; rewrite ?E.
    + intros k. unfold subdirs at 1. rewrite E. destruct (decide (k = x)) as [->|Hk].
      * unfold pruned. rewrite lookup_delete_eq. unfold subdirs. rewrite Hx. simpl. by rewrite Hsub.
      * rewrite pruned_other by done. case_decide as Hp.
        -- subst k. unfold subdirs. by destruct (dentries s !! p).
        -- symmetry. by apply Hid.
    + apply pruned_gone.
    + intros y Hy. by apply pruned_nodes.
  - apply (linked_remove _ _ _ _ x Ha); [done|unfold alias_node; rewrite E; apply pruned_gone|].
    intros y Hy. unfold alias_node. rewrite E. by apply pruned_nodes.
  - apply (linked_ext _ _ _ _ Hc); [done|]. intros y. unfold chain_node. rewrite E.
    destruct (decide (y = x)) as [->|Hy]; [|by apply pruned_nodes].
    rewrite pruned_gone, Hx. simpl. unfold on_chain. by rewrite Hun.
  - apply (linked_ext _ _ _ _ Hl); [by intros []|]. intros y. unfold lru_node. rewrite E.
    destruct (decide (y = x)) as [->|Hy]; [|by apply pruned_nodes].
    rewrite pruned_gone, Hx. simpl. unfold on_lru. by rewrite Hlru.
  - intros y j. rewrite E. destruct (decide (y = x)) as [->|Hy].
    { unfold pruned. by rewrite lookup_delete_eq. }
    rewrite pruned_other by done. unfold inherit. case_decide as Hp.
    + subst y. rewrite decide_False by done.
      destruct (dentries s !! p) as [pd|] eqn:Ep; [|done]. simpl. intros [= <-].
      destruct (Hok _ _ Ep) as [H1 H2 H3 H4 H5 H6].
      assert (x ∈ d_subdirs pd) as Hin.
      { destruct Hpar as [(Hp1 & Hp2 & _)|[? ?]]; [|congruence].
        enough (x ∈ subdirs s p) as Hin by (unfold subdirs in Hin; by rewrite Ep in Hin).
        apply (linked_iff _ _ Hs). unfold child_node, on_child. rewrite Hx. simpl.
        by rewrite Hp1, (proj2 (Z.eqb_neq _ _) Hp2). }
      assert (NoDup (d_subdirs pd)) as Hnd.
      { pose proof (linked_nodup _ _ Hs p) as Hnd. unfold subdirs in Hnd. by rewrite Ep in Hnd. }
      pose proof (length_list_del _ _ Hnd Hin) as Hlen.
      split; simpl; rewrite ?bump_same; try done; try lia.
      intros b Hb. unfold home_bucket. rewrite F1, F2. by apply H2.
    + intros Hj. eapply dentry_ok_ext; [by apply Hok|done|done|].
      case_decide; [done|]. by apply bump_other.
  - rewrite Fn, Hnr, E. unfold pruned.
    rewrite map_size_delete, size_alter.
    assert (is_Some (alter (λ d, d <| d_subdirs ::= list_del x |>) p (dentries s) !! x)) as [? Hxx].
    { apply lookup_alter_is_Some. eauto. }
    rewrite Hxx. simpl.
    assert (size (dentries s) ≠ 0%nat) by (rewrite map_size_ne_0_lookup; eauto). lia.
  - by rewrite Fu, El.
  - intros y Hy. enough (0 < y < slab_next s) by lia. apply Had. revert Hy. rewrite E.
    unfold pruned. rewrite lookup_delete_is_Some, lookup_alter_is_Some. tauto.
Qed.

(** The last reference to an inode is given up only when it has no dentry. *)
Lemma iput_effect_aliases iext s s' x i :
  inode_inv iext s → inodes s !! x = Some i → 0 < iext x → inodes s' = iput_effect s x i →
  ∀ k, aliases s' k = aliases s k.
Proof.
  intros Hi Hx Hext E k. pose proof (ii_ok _ _ Hi _ _ Hx) as [_ _ _ Hc _ _].
  unfold aliases. rewrite E. unfold iput_effect.
  destruct (i_count i =? 1) eqn:Ec; simpl; [|map_cases; [by rewrite Hx|done]].
  bool_to_prop. destruct (drop_frees s i); (map_cases; [|done]); rewrite Hx; simpl; [|done].
  destruct (i_dentry i); [done|]. simpl in Hc. lia.
Qed.

Lemma inode_inv_unalias iext s s' x i a :
  inode_inv iext s → inodes s !! i = Some x → a ∈ i_dentry x → NoDup (i_dentry x) →
  inodes s' = <[i := x <| i_dentry ::= list_del a |>]> (inodes s) → same_ilists s s' →
  inode_inv (bump i 1 iext) s'.
Proof.
  intros Hi Hx Ha Hnd E Hsame. pose proof (ii_ok _ _ Hi _ _ Hx) as [H1 H2 H3 H4 H5 H6].
  pose proof (length_list_del _ _ Hnd Ha).
  apply (inode_inv_set iext _ s _ i x _ Hi Hx E); try done.
  - split; simpl; rewrite ?bump_same; try done; lia.
  - intros y Hy. by rewrite bump_other.
Qed.

Lemma alias_elem dext s x d :
  dcache_inv dext s → dentries s !! x = Some d → d_alias d ≠ NULL →
  ∃ i, inodes s !! d_alias d = Some i ∧ x ∈ i_dentry i ∧ NoDup (i_dentry i).
Proof.
  intros Hd Hx Hn.
  assert (x ∈ aliases s (d_alias d)) as Hin.
  { apply (linked_iff _ _ (dc_alias _ _ Hd)). unfold alias_node, on_alias. rewrite Hx. simpl.
    by rewrite (proj2 (Z.eqb_neq _ _) Hn). }
  pose proof (linked_nodup _ _ (dc_alias _ _ Hd) (d_alias d)) as Hnd. unfold aliases in *.
  destruct (inodes s !! d_alias d) as [i|]; [by exists i|]. by apply elem_of_nil in Hin.
Qed.

Lemma iframe_anon s s' sb : iframe s s' → chain s' (InAnon sb) = chain s (InAnon sb).
Proof.
  intros Hf. apply (f_equal supers) in Hf. simpl in Hf.
  apply (f_equal (lookup sb)) in Hf. rewrite !lookup_fmap in Hf. simpl.
  destruct (supers s' !! sb) as [b'|], (supers s !! sb) as [b|]; try done. simpl in *.
  apply (inj Some), (f_equal s_anon) in Hf. done.
Qed.

(** The inodes after the dentry [x] let go of its inode [k]. *)
Definition let_go (x k : ptr) (s : kstate) : gmap Z inode :=
  match inodes s !! k with
  | Some i =>
      let i' := i <| i_dentry ::= list_del x |> in
      iput_effect (s <| inodes ::= <[k := i']> |>) k i'
  | None => inodes s
  end.

(** [dentry_iput] on a dentry that is not linked to anything else any more. *)
Lemma wp_dentry_iput dext iext x d s s0 :
  dcache_inv dext s0 → inode_inv iext s0 → dentries s0 !! x = Some d →
  inodes s = inodes s0 → same_ilists s0 s →
  dentries s !! x = Some (d <| d_child := NULL |>) →
  wp (dentry_iput x) (λ _ s', inode_inv iext s' ∧ vframe s s' ∧
    dentries s' = <[x := d <| d_child := NULL |> <| d_inode := NULL |> <| d_alias := NULL |>]> (dentries s) ∧
    dentry_hashtable s' = dentry_hashtable s ∧ dentry_unused s' = dentry_unused s ∧
    nr_dentry s' = nr_dentry s ∧ nr_unused_dentry s' = nr_unused_dentry s ∧
    (∀ sb, chain s' (InAnon sb) = chain s (InAnon sb)) ∧
    (∀ k, aliases s' k = list_del x (aliases s k)) ∧ inodes s' = let_go x (d_inode d) s) s.
Proof.
  intros Hd Hi Hx Ei Hsame Hxs. pose proof (dc_ok _ _ Hd _ _ Hx) as [_ _ Hal _ _ _].
  assert (inode_inv iext s) as His by (by apply (inode_inv_ext _ _ _ _ Hi)).
  unfold dentry_iput. wp_run. simpl. destruct (d_inode d =? NULL) eqn:En; bool_to_prop; wp_run.
  { split_and!; try done.
    - rewrite insert_id; [done|]. rewrite Hxs. destruct d; simpl in *. by subst.
    - intros k. unfold aliases. rewrite Ei. symmetry.
      apply (linked_del_id _ _ _ _ (dc_alias _ _ Hd)). unfold alias_node, on_alias.
      rewrite Hx. simpl. by rewrite Hal, En.
    - unfold let_go. destruct (inodes s !! d_inode d) eqn:E0; [|done].
      rewrite En in E0. by destruct (inode_addr _ _ _ _ His E0). }
  unfold d_alias_del. wp_run. simpl. rewrite Hal, (proj2 (Z.eqb_neq _ _) En).
  destruct (alias_elem _ _ _ _ Hd Hx) as (i & Hii & Hin & Hnd); [congruence|].
  rewrite Hal in Hii. rewrite <-Ei in Hii. wp_run.
  set (s2 := s <| dentries ::= _ |> <| inodes ::= _ |> <| dentries ::= _ |>).
  assert (inode_inv (bump (d_inode d) 1 iext) s2) as Hi2.
  { by apply (inode_inv_unalias iext s s2 i (d_inode d) x). }
  assert (0 < bump (d_inode d) 1 iext (d_inode d)) as Hpos.
  { rewrite bump_same. pose proof (io_ext _ _ _ (ii_ok _ _ His _ _ Hii)). lia. }
  assert (inodes s2 !! d_inode d = Some (i <| i_dentry ::= list_del x |>)) as Hii2
    by (by simpl; rewrite lookup_insert_eq).
  eapply wp_mono; [by apply (wp_iput _ _ _ _ Hi2 Hii2 Hpos)|].
  intros _ s3 (Hi3 & Hf3 & E3).
  assert (∀ {A} (f : kstate → A), f (erase_inodes s3) = f (erase_inodes s2)) as Hproj
    by (intros A f; by rewrite Hf3).
  pose proof (Hproj _ dentries) as P1. pose proof (Hproj _ dentry_hashtable) as P2.
  pose proof (Hproj _ dentry_unused) as P3. pose proof (Hproj _ nr_dentry) as P4.
  pose proof (Hproj _ nr_unused_dentry) as P5. simpl in P1, P2, P3, P4, P5. clear Hproj.
  split_and!; try done.
  - apply (inode_inv_ext _ _ _ _ Hi3); [done|done|]. intros y. rewrite bump_bump. by rewrite bump_0.
  - by apply (iframe_vframe s2 s3) in Hf3.
  - rewrite P1. by rewrite insert_insert_eq.
  - intros sb. by apply (iframe_anon s2 s3).
  - intros k. rewrite (iput_effect_aliases _ _ _ _ _ Hi2 Hii2 Hpos E3).
    unfold aliases. simpl. map_cases; [by rewrite Hii|].
    rewrite Ei. symmetry. apply (linked_del_id _ _ _ _ (dc_alias _ _ Hd)).
    unfold alias_node, on_alias. rewrite Hx. simpl. case_match; congruence.
  - rewrite E3. unfold let_go. by rewrite Hii.
Qed.

Lemma parent_elem dext s x d :
  dcache_inv dext s → dentries s !! x = Some d → d_child d ≠ NULL →
  ∃ pd, dentries s !! d_child d = Some pd ∧ x ∈ d_subdirs pd.
Proof.
  intros Hd Hx Hn.
  assert (x ∈ subdirs s (d_child d)) as Hin.
  { apply (linked_iff _ _ (dc_sub _ _ Hd)). unfold child_node, on_child. rewrite Hx. simpl.
    by rewrite (proj2 (Z.eqb_neq _ _) Hn). }
  unfold subdirs in Hin.
  destruct (dentries s !! d_child d) as [pd|]; [by exists pd|]. by apply elem_of_nil in Hin.
Qed.

(** Unlinking from the parent: the map, and that nothing else changed. *)
Lemma wp_d_child_del dext x d Q s :
  dcache_inv dext s → dentries s !! x = Some d →
  (∀ s', dentries s' = <[x := d <| d_child := NULL |>]>
           (alter (λ p, p <| d_subdirs ::= list_del x |>) (d_parent d) (dentries s)) ∨
         (d_parent d = x ∧ dentries s' = dentries s ∧ d_child d = NULL) →
     (∃ D, s' = s <| dentries := D |>) → Q tt s') →
  wp (d_child_del x) Q s.
Proof.
  intros Hd Hx HQ. pose proof (dc_ok _ _ Hd _ _ Hx) as [_ _ _ Hpar _ _].
  unfold d_child_del. wp_run. destruct (d_child d =? NULL) eqn:En; bool_to_prop.
  { wp_run. apply HQ.
    - right. destruct Hpar as [(E & ? & _)|[? ?]]; [congruence|done].
    - exists (dentries s). by destruct s. }
  destruct (parent_elem _ _ _ _ Hd Hx En) as (pd & Hp & _).
  destruct Hpar as [(E & ? & Hne)|[? ?]]; [|done]. rewrite E in *. wp_run.
  wp_step; [simpl; by rewrite lookup_insert_ne|].
  apply HQ.
  - left. simpl. f_equal. apply map_eq. intros y. map_cases.
    + by rewrite lookup_alter_eq, Hp.
    + by rewrite lookup_alter_ne.
  - by eexists.
Qed.

Lemma delete_alter_eq {A} (f : A → A) x (m : gmap Z A) : delete x (alter f x m) = delete x m.
Proof.
  apply map_eq. intros y. destruct (decide (x = y)) as [<-|Hy].
  - by rewrite !lookup_delete_eq.
  - by rewrite !lookup_delete_ne, lookup_alter_ne.
Qed.

Lemma wp_kill_dentry dext iext x d s :
  vfs_inv dext iext s → dentries s !! x = Some d → d_subdirs d = [] →
  d_hash_node d = Unlinked → d_lru d = false →
  wp (kill_dentry x) (λ p s', p = d_parent d ∧ vfs_inv (inherit x p dext) iext s' ∧
    vframe s s' ∧ dentries s' = pruned x p (dentries s) ∧ inodes s' = let_go x (d_inode d) s) s.
Proof.
  intros [Hd Hi] Hx Hsub Hun Hl. unfold kill_dentry, d_free. wp_run.
  apply (wp_d_child_del dext x d); [done..|]. intros s1 HD [D ->]. wp_run.
  eapply wp_mono.
  { eapply (wp_dentry_iput dext iext x d _ s Hd Hi Hx); [done|by split|].
    simpl in *. destruct HD as [->|(? & -> & ?)]; [by rewrite lookup_insert_eq|].
    rewrite Hx. destruct d; simpl in *. by subst. }
  intros _ s2 (Hi2 & Hf2 & E1 & E2 & E3 & E4 & E5 & E6 & E7 & E8).
  wp_run. wp_step; [by rewrite E1, lookup_insert_eq|]. wp_run.
  wp_step; [by rewrite E1, lookup_insert_eq|]. wp_run.
  set (s3 := s2 <| dentries ::= delete x |>).
  assert (dentries s3 = pruned x (d_parent d) (dentries s)) as E.
  { simpl. rewrite E1, delete_insert_eq. simpl in *. unfold pruned.
    destruct HD as [->|(-> & -> & _)]; [by rewrite delete_insert_eq|]. by rewrite delete_alter_eq. }
  split_and!; [done| |done|done|exact E8].
  pose proof (f_equal d_hash_shift Hf2) as F1. pose proof (f_equal d_hash_mask Hf2) as F2.
  pose proof (f_equal slab_next Hf2) as F3. simpl in F1, F2, F3.
  split; [|by apply (inode_inv_ext _ _ _ _ Hi2)].
  apply (dcache_inv_remove dext s s3 x d); try done.
  - intros [|b|sb]; simpl; [done|by rewrite E2|apply (E6 sb)].
  - simpl. rewrite F3. done.
Qed.

(** ** dput *)

(** Changing a reference count by an amount the outside accounts for. *)
Lemma vfs_inv_count dext iext s s' x d n :
  vfs_inv dext iext s → dentries s !! x = Some d → 0 ≤ dext x + n →
  s' = s <| dentries ::= <[x := d <| d_count ::= λ c, c + n |>]> |> →
  vfs_inv (bump x n dext) iext s'.
Proof.
  intros [Hd Hi] Hx Hn ->. pose proof (dc_ok _ _ Hd _ _ Hx) as [H1 H2 H3 H4 H5 H6].
  split; [|by apply (inode_inv_ext _ _ _ _ Hi)].
  eapply (dcache_inv_set dext _ s _ x d); [done|done|reflexivity|done|done| |].
  - split; simpl; rewrite ?bump_same; try done; lia.
  - intros y Hy. by rewrite bump_other.
Qed.

(** The end of dput_body: the dentry is not hashed and goes. *)
Lemma wp_kill_it dext iext x d s :
  vfs_inv dext iext s → dentries s !! x = Some d → d_subdirs d = [] → d_unhashed d = true →
  wp (d ← get_dentry x;
      mwhen (d_lru d)
        (d_lru_del x ;; modify (λ s, s <| nr_unused_dentry ::= λ n, n - 1 |>)) ;;
      parent ← kill_dentry x;
      mret (if x =? parent then inr tt else inl parent))
    (λ r s', r = (if x =? d_parent d then inr tt else inl (d_parent d)) ∧
       vfs_inv (inherit x (d_parent d) dext) iext s' ∧ vframe s s' ∧
       dentries s' = pruned x (d_parent d) (dentries s)) s.
Proof.
  intros Hv Hx Hsub Hun. wp_run. eapply wp_mono; [by apply wp_lru_del|].
  intros _ s1 (Hv1 & Hf1 & _ & E1). wp_run.
  pose proof (do_flag _ _ _ _ (dc_ok _ _ (vi_dcache _ _ _ Hv) _ _ Hx)) as Hfl.
  rewrite Hun in Hfl. symmetry in Hfl. apply bool_decide_eq_true in Hfl.
  eapply wp_mono; [apply (wp_kill_dentry dext iext x (d <| d_lru := false |>) s1); try done|].
  { by rewrite E1, lookup_insert_eq. }
  intros p s2 (-> & Hv2 & Hf2 & E2 & _). wp_run. split_and!; [done..|by etrans|].
  rewrite E2, E1. simpl. unfold pruned.
  rewrite <-(insert_id (dentries s) x d) at 2 by done.
  destruct (decide (d_parent d = x)) as [->|Hne].
  - by rewrite !delete_alter_eq, !delete_insert_eq.
  - by rewrite !alter_insert_ne, !delete_insert_eq by done.
Qed.

Lemma pruned_size x p (D : gmap Z dentry) :
  is_Some (D !! x) → (size (pruned x p D) < size D)%nat.
Proof.
  intros Hx. unfold pruned. rewrite map_size_delete, size_alter.
  assert (is_Some (alter (λ d, d <| d_subdirs ::= list_del x |>) p D !! x)) as [? ->].
  { by apply lookup_alter_is_Some. }
  assert (size D ≠ 0%nat); [|simpl; lia]. destruct Hx. rewrite map_size_ne_0_lookup. eauto.
Qed.

Lemma pruned_dom x p (D : gmap Z dentry) : dom (pruned x p D) ⊆ dom D.
Proof. unfold pruned. rewrite dom_delete_L, dom_alter_L. set_solver. Qed.

(** Giving up the last reference frees the dentry, unless it is hashed and its
    methods let it stay. *)
Definition dies (d : dentry) : bool := (d_count d =? 1) && (call_d_delete d || d_unhashed d).

Definition put_effect (x : ptr) (d : dentry) (s s' : kstate) : Prop :=
  if dies d then dentries s' !! x = None
  else ∃ d', dentries s' = <[x := d']> (dentries s) ∧ d_count d' = d_count d - 1.

(** No dentry appears or moves to another parent. *)
Definition kept (s s' : kstate) : Prop :=
  ∀ x d', dentries s' !! x = Some d' →
    ∃ d, dentries s !! x = Some d ∧ d_parent d' = d_parent d ∧ d_sb d' = d_sb d.

#[export] Instance kept_preorder : PreOrder kept.
Proof.
  split; [intros s x d Hx; by exists d|]. intros s1 s2 s3 H1 H2 x d3 Hx.
  destruct (H2 _ _ Hx) as (d2 & Hx2 & ? & ?). destruct (H1 _ _ Hx2) as (d1 & Hx1 & ? & ?).
  exists d1. split_and!; congruence.
Qed.

Lemma kept_dom s s' : kept s s' → dom (dentries s') ⊆ dom (dentries s).
Proof. intros H x. rewrite !elem_of_dom. intros [d Hx]. destruct (H _ _ Hx) as (d' & ? & _). eauto. Qed.

Lemma kept_update s s' x d d' :
  dentries s !! x = Some d → dentries s' = <[x := d']> (dentries s) → d_parent d' = d_parent d →
  d_sb d' = d_sb d → kept s s'.
Proof.
  intros Hx E E1 E2 y dy. rewrite E. map_cases; intros; simplify_eq; eauto.
Qed.

Lemma kept_pruned s s' x p : dentries s' = pruned x p (dentries s) → kept s s'.
Proof.
  intros E y dy. rewrite E. destruct (decide (y = x)) as [->|Hy].
  - unfold pruned. by rewrite lookup_delete_eq.
  - rewrite pruned_other by done. case_decide; [|by eauto].
    intros (d & Hd & ->)%fmap_Some. by exists d.
Qed.

(** A dentry that is referenced from outside is not freed. *)
Definition survive (dext : refs) (s s' : kstate) : Prop :=
  ∀ z, 0 < dext z → is_Some (dentries s !! z) → is_Some (dentries s' !! z).

Lemma survive_dom dext s s' : dom (dentries s) ⊆ dom (dentries s') → survive dext s s'.
Proof. intros H z _. rewrite <-!elem_of_dom. apply H. Qed.

Lemma survive_trans dext s1 s2 s3 : survive dext s1 s2 → survive dext s2 s3 → survive dext s1 s3.
Proof. unfold survive. eauto. Qed.

Lemma survive_pruned dext x p s s' :
  dentries s' = pruned x p (dentries s) → dext x ≤ 0 → survive dext s s'.
Proof.
  intros E Hx z Hz Hs. rewrite E, pruned_other by (intros ->; lia).
  case_decide; [by apply fmap_is_Some|done].
Qed.

(** A measure of what there is to reclaim: a dentry that was used recently gets a
    second chance. *)
Definition dweight (d : dentry) : nat :=
  if has_flag (d_flags d) DCACHE_REFERENCED then 3 else 2.
Definition weight (s : kstate) : nat := map_fold (λ _ d n, (dweight d + n)%nat) 0%nat (dentries s).

Lemma weight_delete (D : gmap Z dentry) x d :
  D !! x = Some d →
  map_fold (λ _ d n, (dweight d + n)%nat) 0%nat D =
  (dweight d + map_fold (λ _ d n, (dweight d + n)%nat) 0%nat (delete x D))%nat.
Proof. intros Hx. apply (map_fold_delete_L (λ _ d n, (dweight d + n)%nat)); [lia|done]. Qed.

Lemma weight_update s s' x d d' :
  dentries s !! x = Some d → dentries s' = <[x := d']> (dentries s) →
  (weight s' + dweight d = weight s + dweight d')%nat.
Proof.
  intros Hx E. unfold weight. rewrite E, (weight_delete (<[x := d']> _) x d') by apply lookup_insert_eq.
  rewrite (weight_delete (dentries s) x d Hx), delete_insert_eq. lia.
Qed.

Lemma weight_same s s' x d d' :
  dentries s !! x = Some d → dentries s' = <[x := d']> (dentries s) → dweight d' = dweight d →
  weight s' = weight s.
Proof. intros Hx E Ew. pose proof (weight_update _ _ _ _ _ Hx E). lia. Qed.

Lemma weight_pruned s s' x p d :
  dentries s !! x = Some d → dentries s' = pruned x p (dentries s) →
  weight s = (dweight d + weight s')%nat.
Proof.
  intros Hx E. unfold weight. rewrite E, (weight_delete _ x d Hx). f_equal. unfold pruned.
  destruct (decide (p = x)) as [->|Hpx]; [by rewrite delete_alter_eq|].
  destruct (dentries s !! p) as [pd|] eqn:Ep.
  - assert (alter (λ d0, d0 <| d_subdirs ::= list_del x |>) p (dentries s) =
      <[p := pd <| d_subdirs ::= list_del x |>]> (dentries s)) as ->.
    { apply map_eq. intros y. map_cases; [by rewrite lookup_alter_eq, Ep|by rewrite lookup_alter_ne]. }
    rewrite delete_insert_ne by done.
    rewrite (weight_delete (<[p := _]> _) p _ (lookup_insert_eq _ _ _)), delete_insert_eq.
    by rewrite (weight_delete (delete x (dentries s)) p pd) by (by rewrite lookup_delete_ne).
  - by rewrite alter_id by (intros ? ?; congruence).
Qed.

Lemma dweight_bounds d : (2 ≤ dweight d ≤ 3)%nat.
Proof. unfold dweight. destruct (has_flag _ _); lia. Qed.

(** What one round leaves: the count fell, or the dentry waits on the LRU list,
    or it is gone and its parent is next. *)
Definition dput_round dext iext (x : ptr) (d : dentry) (s : kstate) (r : ptr + unit)
    (s' : kstate) : Prop :=
  vframe s s' ∧ kept s s' ∧ survive (bump x (-1) dext) s s' ∧
  put_effect x d s s' ∧ (if dies d then True else r = inr tt) ∧
  (weight s' ≤ weight s + match r with inr _ => 1 | inl _ => 0 end)%nat ∧
  match r with
  | inr _ => vfs_inv (bump x (-1) dext) iext s'
  | inl p => vfs_inv (bump p 1 (bump x (-1) dext)) iext s' ∧ is_Some (dentries s' !! p) ∧
             (size (dentries s') < size (dentries s))%nat
  end.

(** From [kill_it] on, seen from the start of the round. *)
Lemma dput_round_kill dext iext x d s1 s r s' :
  vfs_inv dext iext s1 → dentries s1 !! x = Some d → vframe s s1 → dom (dentries s1) = dom (dentries s) →
  weight s1 = weight s → kept s s1 →
  r = (if x =? d_parent d then inr tt else inl (d_parent d)) →
  vfs_inv (inherit x (d_parent d) dext) iext s' → vframe s1 s' →
  dentries s' = pruned x (d_parent d) (dentries s1) →
  ∀ dext0 d0, dext = bump x (-1) dext0 → dext x ≤ 0 → dies d0 = true → dput_round dext0 iext x d0 s r s'.
Proof.
  intros [Hd Hi] Hx Hf1 Hdom Hw Hk -> Hv' Hf' E dext0 d0 -> Hz Hdies.
  assert (is_Some (dentries s1 !! x)) as Hsome by eauto.
  pose proof (pruned_size x (d_parent d) _ Hsome) as Hsz.
  assert (size (dentries s1) = size (dentries s)) as Hsz' by (by rewrite <-!size_dom, Hdom).
  pose proof (weight_pruned _ _ _ _ _ Hx E) as Hw'.
  unfold dput_round, put_effect. rewrite Hdies. split; [by etrans|].
  split; [etrans; [exact Hk|by eapply kept_pruned]|]. split.
  { apply (survive_trans _ _ s1); [apply survive_dom; by rewrite Hdom|by eapply survive_pruned]. }
  rewrite E. split; [apply lookup_delete_eq|]. split; [done|]. split; [destruct (x =? _); lia|].
  unfold inherit in Hv'. destruct (x =? d_parent d) eqn:Ep; bool_to_prop.
  - by rewrite decide_True in Hv'.
  - rewrite decide_False in Hv' by done. split; [done|]. rewrite <-Hsz'. split; [|done].
    rewrite pruned_other, decide_True by done. apply fmap_is_Some.
    destruct (dc_ok _ _ Hd _ _ Hx) as [_ _ _ [(E' & Hn & _)|[_ ?]] _ _]; [|congruence].
    destruct (parent_elem _ _ _ _ Hd Hx) as (pd & Hpd & _); [congruence|]. rewrite <-E'. eauto.
Qed.

Lemma wp_dput_body dext iext x d s :
  vfs_inv dext iext s → dentries s !! x = Some d → 0 < dext x →
  wp (dput_body x) (dput_round dext iext x d s) s.
Proof.
  intros Hv Hx Hext. unfold dput_body. wp_run.
  set (d1 := d <| d_count ::= λ c, c - 1 |>).
  set (s1 := s <| dentries ::= <[x := d1]> |>).
  assert (vfs_inv (bump x (-1) dext) iext s1) as Hv1.
  { by apply (vfs_inv_count dext iext s s1 x d (-1)); [done|done|lia|]. }
  assert (dentries s1 !! x = Some d1) as Hx1 by (by simpl; rewrite lookup_insert_eq).
  assert (dom (dentries s1) = dom (dentries s)) as Hdom1.
  { simpl. rewrite dom_insert_L. apply elem_of_dom_2 in Hx. set_solver. }
  assert (weight s1 = weight s) as Hw1 by (by apply (weight_same _ _ x d d1)).
  assert (∀ s' d', dentries s' = <[x := d']> (dentries s1) → d_parent d' = d_parent d1 → d_sb d' = d_sb d1 →
    kept s s') as Hk.
  { intros s' d' E. simpl in E. rewrite insert_insert_eq in E. by apply (kept_update _ _ x d). }
  pose proof (dc_ok _ _ (vi_dcache _ _ _ Hv1) _ _ Hx1) as Hok1.
  pose proof Hok1 as [Hfl Hhome Hal Hpar He Hc]. rewrite bump_same in He.
  change (d_count d <| d_count ::= λ c, c - 1 |>) with (d_count d1).
  assert (dies d = ((d_count d1 =? 0) && (call_d_delete d1 || d_unhashed d1))) as Edies.
  { unfold dies. f_equal. unfold d1. simpl. apply Bool.eq_true_iff_eq. rewrite !Z.eqb_eq. lia. }
  assert (∀ d', d_count d' = d_count d1 → dies d = false →
    put_effect x d s (s <| dentries ::= <[x := d']> |>)) as Hkeep.
  { intros d' Ed' Ek. unfold put_effect. rewrite Ek. exists d'. split; [done|]. by rewrite Ed'. }
  assert (∀ s', dom (dentries s') = dom (dentries s) → survive (bump x (-1) dext) s s') as Hsurv.
  { intros s' E. apply survive_dom. by rewrite E. }
  destruct (d_count d1 =? 0) eqn:Ec; simpl; bool_to_prop.
  2: { wp_run. split_and!; [done|apply (Hk _ d1); [by rewrite insert_id|done..]|by apply Hsurv|by apply Hkeep|by rewrite Edies|lia|done]. }
  assert (d_subdirs d1 = [] ∧ bump x (-1) dext x ≤ 0) as [Hsub Hzero].
  { rewrite Ec, bump_same in Hc. rewrite bump_same.
    destruct (d_subdirs d1); cbn [length] in Hc; [split; [done|]|]; lia. }
  fold d1 s1. simpl in Edies.
  destruct (call_d_delete d1) eqn:Edel; [|destruct (d_unhashed d1) eqn:Eu]; simpl in Edies.
  - wp_run. eapply wp_mono; [by apply (wp___d_drop _ _ _ _ _ Hv1 Hx1)|].
    intros _ s2 (El2 & Hv2 & Hf2 & _ & E2). set (d2 := if d_unhashed d1 then d1 else unhash d1) in *.
    assert (d_subdirs d2 = [] ∧ d_unhashed d2 = true ∧ d_parent d2 = d_parent d1) as (Q1 & Q2 & Q3).
    { unfold d2. destruct (d_unhashed d1) eqn:Eu; [done|]. split_and!; [done| |done].
      apply has_flag_set. done. }
    assert (dentries s2 !! x = Some d2) as Hx2 by (by rewrite E2, lookup_insert_eq).
    eapply wp_mono; [by apply (wp_kill_it (bump x (-1) dext) iext x d2 s2)|].
    intros r s3 (Hr & Hv3 & Hf3 & E3).
    assert (weight s2 = weight s1) as Hw2.
    { apply (weight_same _ _ x d1 d2); [done|done|]. unfold d2, dweight. destruct (d_unhashed d1); [done|].
      simpl. by rewrite has_flag_set_other. }
    eapply (dput_round_kill _ iext x d2 s2 s r s3); try done; [|congruence|].
    2: { apply (Hk _ d2 E2); unfold d2; by destruct (d_unhashed d1). }
    rewrite E2, dom_insert_L, <-Hdom1. apply elem_of_dom_2 in Hx1. set_solver.
  - eapply wp_mono; [by apply (wp_kill_it (bump x (-1) dext) iext x d1 s1)|].
    intros r s3 (Hr & Hv3 & Hf3 & E3). eapply (dput_round_kill _ iext x d1 s1 s r s3); try done.
    apply (Hk _ d1); [by rewrite insert_id|done..].
  - wp_run. wp_if Hlru.
    + bool_to_prop. unfold d_lru_add. wp_run. unfold dput_round, put_effect. rewrite Edies. split_and!.
      * done.
      * eapply Hk; [simpl; by rewrite !insert_insert_eq|done..].
      * apply Hsurv. simpl. rewrite !dom_insert_L. apply elem_of_dom_2 in Hx. set_solver.
      * eexists. split; [simpl; by rewrite !insert_insert_eq|done].
      * done.
      * match goal with |- (weight ?st ≤ _)%nat => set (s2 := st) end.
        assert (dentries s2 = <[x := d1 <| d_flags ::= λ f, set_flag f DCACHE_REFERENCED |>
          <| d_lru := true |>]> (dentries s1)) as E2 by (simpl; by rewrite !insert_insert_eq).
        pose proof (weight_update _ _ _ _ _ Hx1 E2).
        pose proof (dweight_bounds d1). pose proof (dweight_bounds (d1 <| d_flags ::= λ f, set_flag f DCACHE_REFERENCED |>
          <| d_lru := true |>)). lia.
      * eapply (vfs_inv_lru_add _ iext s1 _ x d1); [done|done|done|..].
        -- simpl. by rewrite insert_insert_eq.
        -- done.
        -- done.
        -- split; try done; [|by rewrite bump_same].
           etrans; [|exact Hfl]. rewrite <-Eu. by apply has_flag_set_other.
        -- by split; try split.
        -- done.
        -- simpl. lia.
    + wp_run. split_and!; [done|apply (Hk _ d1); [by rewrite insert_id|done..]|by apply Hsurv|by apply Hkeep|by rewrite Edies|lia|done].
Qed.

Lemma dcache_inv_refs dext dext' iext s :
  vfs_inv dext iext s → (∀ x, dext' x = dext x) → vfs_inv dext' iext s.
Proof. intros [Hd Hi] E. split; [|done]. by apply (dcache_inv_ext _ _ _ _ Hd). Qed.

Lemma wp_dput dext iext x d s :
  vfs_inv dext iext s → dentries s !! x = Some d → 0 < dext x →
  wp (dput x) (λ _ s', vfs_inv (bump x (-1) dext) iext s' ∧ vframe s s' ∧
                       kept s s' ∧
                       survive (bump x (-1) dext) s s' ∧ put_effect x d s s' ∧
                       (weight s' ≤ weight s + 1)%nat) s.
Proof.
  intros Hv Hx Hext. unfold dput.
  rewrite (proj2 (Z.eqb_neq _ _) (dentry_addr _ _ _ _ (vi_dcache _ _ _ Hv) Hx)). wp_run.
  apply (wp_loop (λ y s1, ∃ e, vfs_inv e iext s1 ∧ is_Some (dentries s1 !! y) ∧ 0 < e y ∧
            (∀ z, bump y (-1) e z = bump x (-1) dext z) ∧ vframe s s1 ∧
            kept s s1 ∧ survive (bump x (-1) dext) s s1 ∧
            (weight s1 ≤ weight s)%nat ∧
            (y = x ∧ s1 = s ∨ dies d = true ∧ dentries s1 !! x = None))
          (λ _ s1, size (dentries s1))); [| |lia].
  - intros y s1 (e & Hv1 & [dy Hy] & He & Eq & Hf1 & Hd1 & Hs1 & Hw1 & Hfirst).
    eapply wp_mono; [by apply (wp_dput_body e iext y dy)|].
    intros r s2 (Hf2 & Hd2 & Hs2 & Hput & Hlast & Hw2 & Hr).
    assert (survive (bump x (-1) dext) s s2) as Hs.
    { apply (survive_trans _ _ s1); [done|]. intros z. rewrite <-Eq. apply Hs2. }
    pose proof (kept_dom _ _ Hd2) as Hdom2.
    assert (∀ z, dentries s1 !! z = None → dentries s2 !! z = None) as Hgone.
    { intros z. rewrite <-!not_elem_of_dom. set_solver. }
    destruct r as [p|[]].
    + destruct Hr as (Hv2 & Hp & Hsz). split; [|done]. exists (bump p 1 (bump y (-1) e)).
      split_and!; [done|done| | |by etrans|by etrans|done|lia|].
      * destruct Hp as [dp Hp]. rewrite bump_same.
        enough (0 ≤ bump y (-1) e p) by lia. unfold bump. destruct (p =? y) eqn:Epy; [bool_to_prop; subst; lia|].
        pose proof (elem_of_dom_2 _ _ _ Hp) as Hin. apply Hdom2, elem_of_dom in Hin as [dp' Hp'].
        apply (do_ext _ _ _ _ (dc_ok _ _ (vi_dcache _ _ _ Hv1) _ _ Hp')).
      * intros z. rewrite bump_bump, <-Eq. apply bump_0.
      * right. destruct Hfirst as [[-> ->]|[? ?]]; [|by auto]. simplify_eq.
        unfold put_effect in Hput. destruct (dies d); [done|]. done.
    + split_and!; [|by etrans|by etrans|done| |lia]; [by apply (dcache_inv_refs _ _ _ _ Hr)|].
      destruct Hfirst as [[-> ->]|[Hdie ?]]; [by simplify_eq|].
      unfold put_effect. rewrite Hdie. auto.
  - exists dext. split_and!; [done|eauto|done|done|done|done|by apply survive_dom|done|by left].
Qed.

(** ** Giving up a reference *)

(** C23: giving up a reference never faults and ends, whatever chain of parents
    it frees on the way: the two caches keep their invariant with one reference
    less, nothing but the caches changes, no dentry appears, no dentry is freed
    that somebody else still has a reference to, and the dentry is freed exactly
    when this was its last reference and it is unhashed or its methods say so;
    otherwise only its count, flags and place on the LRU list change. *)
Theorem dput_correct dext iext x d s :
  vfs_inv dext iext s → dentries s !! x = Some d → 0 < dext x →
  wp (dput x) (λ _ s', vfs_inv (bump x (-1) dext) iext s' ∧ vframe s s' ∧
                       dom (dentries s') ⊆ dom (dentries s) ∧
                       (∀ z, 0 < bump x (-1) dext z → is_Some (dentries s !! z) →
                             is_Some (dentries s' !! z)) ∧
                       if (d_count d =? 1) && (call_d_delete d || d_unhashed d)
                       then dentries s' !! x = None
                       else ∃ d', dentries s' = <[x := d']> (dentries s) ∧
                                  d_count d' = d_count d - 1) s.
Proof.
  intros Hv Hx Hext. eapply wp_mono; [by apply wp_dput|]. intros _ s' (? & ? & ?%kept_dom & ? & ? & _). done.
Qed.
