(* ===== verification/DcacheOps.v ===== *)
(** * Creating and finding dentries

    Allocation, instantiation, hashing and lookup of dentries: what each does
    to the cache, that it keeps the invariant, and that a lookup finds a hashed
    dentry by its name. *)

From S2P Require Import Prelude KString Kernel Links Inode InodeInv Dcache DcacheInv.

(** ** References *)

Lemma count_inc d : d <| d_count ::= Z.add 1 |> = d <| d_count ::= λ c, c + 1 |>.
Proof. destruct d. unfold upd. simpl. f_equal. lia. Qed.

Lemma wp_dget dext iext x d s :
  vfs_inv dext iext s → dentries s !! x = Some d → d_count d ≠ 0 →
  wp (dget x) (λ r s', r = x ∧ s' = s <| dentries ::= <[x := d <| d_count ::= Z.add 1 |>]> |> ∧
                       vfs_inv (bump x 1 dext) iext s') s.
Proof.
  intros Hv Hx Hc. pose proof (dc_ok _ _ (vi_dcache _ _ _ Hv) _ _ Hx) as Hok.
  unfold dget. rewrite (proj2 (Z.eqb_neq _ _) (dentry_addr _ _ _ _ (vi_dcache _ _ _ Hv) Hx)).
  wp_run. wp_bug; [by apply Z.eqb_neq|]. wp_run. split_and!; [done..|].
  apply (vfs_inv_count dext iext s _ x d 1); [done|done|pose proof (do_ext _ _ _ _ Hok); lia|].
  by rewrite count_inc.
Qed.

(** ** Allocation *)

(** The parent's side of a new child. *)
Definition adopt (x : ptr) (pd : dentry) : dentry :=
  pd <| d_count ::= Z.add 1 |> <| d_subdirs ::= cons x |>.

Record new_dentry (x : ptr) (d : dentry) : Prop := mkNewDentry {
  nd_count : d_count d = 1;
  nd_unhashed : d_unhashed d = true;
  nd_hash : d_hash_node d = Unlinked;
  nd_inode : d_inode d = NULL;
  nd_alias : d_alias d = NULL;
  nd_lru : d_lru d = false;
  nd_sub : d_subdirs d = [];
  nd_parent : (d_child d = d_parent d ∧ d_parent d ≠ NULL ∧ d_parent d ≠ x) ∨
              (d_child d = NULL ∧ d_parent d = x)
}.

Lemma adopt_nodes {T} (f : dentry → option T) (D : gmap Z dentry) x d p y :
  (∀ pd c l, f (pd <| d_count := c |> <| d_subdirs := l |>) = f pd) → y ≠ x →
  <[x := d]> (alter (adopt x) p D) !! y ≫= f = D !! y ≫= f.
Proof.
  intros Hf Hy. rewrite lookup_insert_ne by done. destruct (decide (p = y)) as [->|Hp].
  - rewrite lookup_alter_eq. destruct (D !! y) as [pd|]; [|done]. simpl. apply Hf.
  - by rewrite lookup_alter_ne.
Qed.

Lemma dcache_inv_add dext s s' x d :
  dcache_inv dext s → dentries s !! x = None → new_dentry x d →
  (d_parent d ≠ x → is_Some (dentries s !! d_parent d)) →
  dentries s' = <[x := d]> (alter (adopt x) (d_parent d) (dentries s)) →
  (∀ k, aliases s' k = aliases s k) → (∀ h, chain s' h = chain s h) →
  dentry_unused s' = dentry_unused s → d_hash_shift s' = d_hash_shift s →
  d_hash_mask s' = d_hash_mask s → nr_dentry s' = nr_dentry s + 1 →
  nr_unused_dentry s' = nr_unused_dentry s → slab_next s ≤ slab_next s' →
  0 < x < slab_next s' →
  dcache_inv (first_ref x dext) s'.
Proof.
  intros Hd Hx [N1 N2 N3 N4 N5 N6 N7 N8] Hp E Ea Ec El F1 F2 Fn Fu Fs Fx.
  pose proof Hd as [Hs Ha Hc Hl Hok Hnr Hnu Had].
  set (p := d_parent d) in *.
  assert (∀ {T} (f : dentry → option T), dentries s' !! x ≫= f = f d) as Hnew.
  { intros T f. by rewrite E, lookup_insert_eq. }
  assert (∀ {T} (f : dentry → option T), dentries s !! x ≫= f = None) as Hnone.
  { intros T f. by rewrite Hx. }
  assert (∀ k, k ≠ x → k ≠ p → subdirs s' k = subdirs s k) as Hsub.
  { intros k Hk Hk'. unfold subdirs. rewrite E, lookup_insert_ne, lookup_alter_ne by done. done. }
  assert (subdirs s x = []) as Hsx by (unfold subdirs; by rewrite Hx).
  assert (subdirs s' x = []) as Hsx' by (unfold subdirs; by rewrite E, lookup_insert_eq).
  split.
  - destruct N8 as [(Np & Nn & Nx)|[Np Nx]].
    + apply (linked_insert _ _ _ _ x p Hs); unfold child_node.
      * apply Hnone.
      * destruct (Hp Nx) as [pd Hpd]. unfold subdirs.
        by rewrite E, lookup_insert_ne, lookup_alter_eq, Hpd by done.
      * intros k Hk. destruct (decide (k = x)) as [->|]; [by rewrite Hsx, Hsx'|by apply Hsub].
      * rewrite Hnew. unfold on_child. by rewrite Np, (proj2 (Z.eqb_neq _ _) Nn).
      * intros y Hy. rewrite E. by apply adopt_nodes.
    + apply (linked_ext _ _ _ _ Hs).
      * intros k. destruct (decide (k = x)) as [->|]; [by rewrite Hsx, Hsx'|].
        apply Hsub; [done|]. by rewrite Nx.
      * intros y. unfold child_node. destruct (decide (y = x)) as [->|].
        -- rewrite Hnew, Hnone. unfold on_child. by rewrite Np.
        -- rewrite E. by apply adopt_nodes.
  - apply (linked_ext _ _ _ _ Ha); [done|]. intros y. unfold alias_node.
    destruct (decide (y = x)) as [->|]; [|rewrite E; by apply adopt_nodes].
    rewrite Hnew, Hnone. unfold on_alias. by rewrite N5.
  - apply (linked_ext _ _ _ _ Hc); [done|]. intros y. unfold chain_node.
    destruct (decide (y = x)) as [->|]; [|rewrite E; by apply adopt_nodes].
    rewrite Hnew, Hnone. unfold on_chain. by rewrite N3.
  - apply (linked_ext _ _ _ _ Hl); [by intros []|]. intros y. unfold lru_node.
    destruct (decide (y = x)) as [->|]; [|rewrite E; by apply adopt_nodes].
    rewrite Hnew, Hnone. unfold on_lru. by rewrite N6.
  - intros y j. rewrite E. unfold first_ref. map_cases.
    + intros [= <-]. split; rewrite ?Z.eqb_refl, ?N3; try done; try congruence.
      by rewrite N1, N7.
    + destruct (decide (p = y)) as [Epy|Hpy].
      * subst y. rewrite lookup_alter_eq. destruct (dentries s !! p) as [pd|] eqn:Epd; [|done].
        simpl. intros [= <-]. destruct (Hok _ _ Epd) as [H1 H2 H3 H4 H5 H6].
        split; rewrite ?(proj2 (Z.eqb_neq p x)) by done; try done; [|simpl; lia].
        intros b Hb. unfold home_bucket. rewrite F1, F2. by apply H2.
      * rewrite lookup_alter_ne by done. intros Hj.
        eapply dentry_ok_ext; [by apply Hok|done|done|].
        by rewrite (proj2 (Z.eqb_neq y x)).
  - rewrite Fn, Hnr, E, map_size_insert_None, size_alter; [lia|].
    destruct (decide (p = x)) as [->|]; [by rewrite lookup_alter_eq, Hx|by rewrite lookup_alter_ne].
  - by rewrite Fu, El.
  - intros y. rewrite E. map_cases; [done|]. rewrite lookup_alter_is_Some. intros Hy%Had. lia.
Qed.

(** The allocator after d_alloc got what it asked for, and whether it did. *)
Definition d_alloc_slab (name : qstr) (s : kstate) : kstate :=
  if long_name name then after_alloc (after_alloc s) else after_alloc s.
Definition d_alloc_ok (name : qstr) (s : kstate) : bool :=
  negb (alloc_fails s) && (negb (long_name name) || negb (alloc_fails (after_alloc s))).

(** Only the allocator moved. *)
Definition slab_moved (s s' : kstate) : Prop :=
  ∃ l n, 0 ≤ n ∧ s' = s <| slab_fail := l |> <| slab_next ::= Z.add n |>.

Definition child_dentry (name : qstr) (junk : list Z) (parent sb : ptr) : dentry :=
  (d_alloc_init name junk) <| d_parent := parent |> <| d_sb := sb |> <| d_child := parent |>.

Lemma wp_d_alloc_slab name Q s (k : ptr → KM ptr) :
  0 < slab_next s →
  (d_alloc_ok name s = false → ∀ s', slab_moved s s' → Q NULL s') →
  (d_alloc_ok name s = true → wp (k (slab_next s)) Q (d_alloc_slab name s)) →
  wp (dentry ← kmem_alloc;
      if dentry =? NULL then mret NULL
      else
        dname ← (if long_name name then kmem_alloc else mret dentry);
        if dname =? NULL then mret NULL else k dentry) Q s.
Proof.
  intros Hn Hbad Hgood. unfold d_alloc_ok, d_alloc_slab in *. wp_run.
  apply wp_kmem_alloc; intros Hf; rewrite Hf in *; simpl in *.
  { wp_run. apply Hbad; [done|]. exists (tail (slab_fail s)), 0. split; [lia|]. by destruct s. }
  rewrite (proj2 (Z.eqb_neq (slab_next s) NULL)) by (unfold NULL; lia).
  destruct (long_name name); simpl in *; wp_run.
  - apply wp_kmem_alloc; intros Hf'; unfold after_alloc in Hbad, Hgood; rewrite Hf' in *; simpl in *.
    + wp_run. apply Hbad; [done|]. eexists _, SLAB_STEP. split; [done|]. kstate_eq.
    + rewrite (proj2 (Z.eqb_neq _ NULL)) by (unfold NULL, SLAB_STEP; lia). by apply Hgood.
  - rewrite (proj2 (Z.eqb_neq (slab_next s) NULL)) by (unfold NULL; lia). by apply Hgood.
Qed.

Lemma slab_moved_inv dext iext s s' :
  vfs_inv dext iext s → slab_moved s s' → vfs_inv dext iext s'.
Proof.
  intros [Hd Hi] (l & n & Hn & ->). split.
  - apply (dcache_inv_ext _ _ _ _ Hd); try done. split; try done. simpl. lia.
  - apply (inode_inv_ext _ _ _ _ Hi); try done. split; try done. simpl. lia.
Qed.

Lemma slab_fail_moved s : slab_moved s (s <| slab_fail ::= tail |>).
Proof. eexists _, 0. split; [done|]. kstate_eq. Qed.

Lemma d_alloc_slab_moved name s : slab_moved s (d_alloc_slab name s).
Proof.
  unfold d_alloc_slab, after_alloc. destruct (long_name name).
  - eexists _, (SLAB_STEP + SLAB_STEP). split; [done|]. kstate_eq. simpl. unfold SLAB_STEP. lia.
  - by eexists _, SLAB_STEP.
Qed.

Lemma fresh_none dext iext s x :
  vfs_inv dext iext s → slab_next s ≤ x → dentries s !! x = None ∧ inodes s !! x = None.
Proof.
  intros [Hd Hi] Hx. split; apply eq_None_not_Some.
  - intros ?%(dc_addr _ _ Hd). lia.
  - intros ?%(ii_addr _ _ Hi). lia.
Qed.

(** The state after the creation of [x] under [p]. *)
Definition child_added (x p : ptr) (d : dentry) (s : kstate) : kstate :=
  s <| dentries := <[x := d]> (alter (adopt x) p (dentries s)) |> <| nr_dentry ::= Z.add 1 |>.

Lemma slab_next_moved name s : slab_next s < slab_next (d_alloc_slab name s).
Proof. unfold d_alloc_slab, after_alloc. destruct (long_name name); simpl; unfold SLAB_STEP; lia. Qed.

Lemma vfs_inv_add dext iext s x d :
  vfs_inv dext iext s → 0 < x < slab_next s → dentries s !! x = None → new_dentry x d →
  (d_parent d ≠ x → is_Some (dentries s !! d_parent d)) →
  vfs_inv (first_ref x dext) iext (child_added x (d_parent d) d s).
Proof.
  intros [Hd Hi] Hx Hn Hnew Hp. split; [|by apply (inode_inv_ext _ _ _ _ Hi)].
  apply (dcache_inv_add dext s _ x d); try done. simpl. lia.
Qed.

Lemma wp_d_alloc dext iext p pd name s :
  vfs_inv dext iext s → dentries s !! p = Some pd → d_count pd ≠ 0 →
  wp (d_alloc p name) (λ x s',
    if d_alloc_ok name s then
      x = slab_next s ∧ vfs_inv (first_ref x dext) iext s' ∧
      s' = child_added x p (child_dentry name (slab_iname s) p (d_sb pd)) (d_alloc_slab name s)
    else x = NULL ∧ slab_moved s s') s.
Proof.
  intros Hv Hp Hc. pose proof (ii_next _ _ (vi_inode _ _ _ Hv)) as Hn.
  unfold d_alloc. apply wp_d_alloc_slab; [done|by intros ->|]. intros ->.
  set (s1 := d_alloc_slab name s). set (x := slab_next s).
  pose proof (d_alloc_slab_moved name s) as Hm. fold s1 in Hm.
  assert (dentries s1 = dentries s ∧ slab_iname s1 = slab_iname s) as [Ed Ej].
  { destruct Hm as (l & n & _ & ->). done. }
  destruct (fresh_none _ _ _ x Hv) as [Hx _]; [done|].
  assert (p ≠ x) as Hpx by (intros ->; congruence).
  pose proof (dentry_addr _ _ _ _ (vi_dcache _ _ _ Hv) Hp) as Hp0.
  unfold dget, d_child_add. wp_run. rewrite (proj2 (Z.eqb_neq _ _) Hp0). wp_run.
  wp_step; [simpl; rewrite lookup_insert_ne by done; by rewrite Ed|].
  wp_run. wp_bug; [by apply Z.eqb_neq|]. wp_run.
  wp_step; [simpl; rewrite lookup_insert_ne by done; by rewrite Ed|]. wp_run.
  wp_step; [simpl; by rewrite lookup_insert_ne, lookup_insert_eq by done|]. wp_run.
  wp_step; [simpl; by rewrite lookup_insert_ne, lookup_insert_eq by done|].
  wp_step; [simpl; by rewrite lookup_insert_ne, lookup_insert_eq by done|]. wp_run.
  match goal with |- _ ∧ vfs_inv _ _ ?st ∧ _ =>
    assert (st = child_added x p (child_dentry name (slab_iname s) p (d_sb pd)) s1) as Est end.
  { kstate_eq. simpl. rewrite Ed, Ej. apply map_eq. intros y.
    destruct (decide (y = x)) as [->|Hy]; [by rewrite !lookup_insert_eq|].
    rewrite !(lookup_insert_ne _ x y) by done.
    destruct (decide (y = p)) as [->|Hy'].
    - by rewrite lookup_insert_eq, lookup_alter_eq, Hp.
    - by rewrite !lookup_insert_ne, lookup_alter_ne by done. }
  rewrite Est. split_and!; [done| |done].
  apply (vfs_inv_add dext iext s1 x (child_dentry name (slab_iname s) p (d_sb pd))).
  - by apply (slab_moved_inv _ _ s).
  - pose proof (slab_next_moved name s). unfold x, s1. lia.
  - by rewrite Ed.
  - by split; try done; left.
  - intros _. rewrite Ed. eauto.
Qed.

(** ** Instantiation *)

Lemma inode_inv_alias iext s s' i ii x :
  inode_inv iext s → inodes s !! i = Some ii → 0 < iext i →
  inodes s' = <[i := ii <| i_dentry ::= cons x |>]> (inodes s) → same_ilists s s' →
  inode_inv (bump i (-1) iext) s'.
Proof.
  intros Hi Hx Hext E Hsame. pose proof (ii_ok _ _ Hi _ _ Hx) as [H1 H2 H3 H4 H5 H6].
  apply (inode_inv_set iext _ s _ i ii _ Hi Hx E); try done.
  - split; simpl; rewrite ?bump_same; try done; lia.
  - intros y Hy. by rewrite bump_other.
Qed.

(** The dentry takes over a reference to the inode. *)
Definition instantiated (x : ptr) (d : dentry) (i : ptr) (ii : inode) (s : kstate) : kstate :=
  s <| inodes ::= <[i := ii <| i_dentry ::= cons x |>]> |>
    <| dentries ::= <[x := d <| d_alias := i |> <| d_inode := i |>]> |>.

Lemma vfs_inv_instantiate dext iext x d i ii s :
  vfs_inv dext iext s → dentries s !! x = Some d → d_inode d = NULL →
  inodes s !! i = Some ii → 0 < iext i →
  vfs_inv dext (bump i (-1) iext) (instantiated x d i ii s).
Proof.
  intros [Hd Hi] Hx Hn Hii Hext. split; [|by eapply inode_inv_alias].
  pose proof Hd as [Hs Ha Hc Hl Hok Hnr Hnu Had].
  pose proof (Hok _ _ Hx) as [H1 H2 H3 H4 H5 H6].
  pose proof (inode_addr _ _ _ _ Hi Hii) as Hi0.
  set (d' := d <| d_alias := i |> <| d_inode := i |>).
  apply (dcache_inv_upd dext _ s _ x d d'); try done.
  - apply (linked_insert _ _ _ _ x i Ha); unfold alias_node; simpl.
    + rewrite Hx. simpl. unfold on_alias. by rewrite H3, Hn.
    + unfold aliases. simpl. by rewrite lookup_insert_eq, Hii.
    + intros k Hk. unfold aliases. simpl. by rewrite lookup_insert_ne.
    + rewrite lookup_insert_eq. simpl. unfold on_alias. simpl. by rewrite (proj2 (Z.eqb_neq _ _) Hi0).
    + intros y Hy. by rewrite lookup_insert_ne.
  - by apply (linked_chain_set s _ x d d').
  - by apply (linked_lru_set s _ x d d').
Qed.

Lemma wp_d_instantiate dext iext x d i ii s :
  vfs_inv dext iext s → dentries s !! x = Some d → d_inode d = NULL →
  inodes s !! i = Some ii → 0 < iext i →
  wp (d_instantiate x i) (λ _ s', vfs_inv dext (bump i (-1) iext) s' ∧
                                  s' = instantiated x d i ii s) s.
Proof.
  intros Hv Hx Hn Hii Hext. pose proof (vfs_inv_instantiate _ _ _ _ _ _ _ Hv Hx Hn Hii Hext) as Hv'.
  pose proof (do_alias _ _ _ _ (dc_ok _ _ (vi_dcache _ _ _ Hv) _ _ Hx)) as Ha.
  unfold d_instantiate, d_alias_add. wp_run. wp_bug; [by rewrite Ha, Hn|]. wp_run.
  rewrite (proj2 (Z.eqb_neq _ _) (inode_addr _ _ _ _ (vi_inode _ _ _ Hv) Hii)). simpl. wp_run.
  match goal with |- vfs_inv _ _ ?st ∧ _ => assert (st = instantiated x d i ii s) as Est end.
  { unfold instantiated. kstate_eq. simpl. by rewrite insert_insert_eq. }
  by rewrite Est.
Qed.

(** A negative dentry stays as it is. *)
Lemma wp_d_instantiate_null dext iext x d s :
  vfs_inv dext iext s → dentries s !! x = Some d → d_inode d = NULL →
  wp (d_instantiate x NULL) (λ _ s', s' = s) s.
Proof.
  intros Hv Hx Hn. pose proof (do_alias _ _ _ _ (dc_ok _ _ (vi_dcache _ _ _ Hv) _ _ Hx)) as Ha.
  unfold d_instantiate. wp_run. wp_bug; [by rewrite Ha, Hn|]. wp_run. simpl. wp_run.
  kstate_eq. simpl. apply insert_id. rewrite Hx. destruct d. simpl in *. by subst.
Qed.

(** ** Entering the hash *)

Definition hashed (b : Z) (d : dentry) : dentry :=
  d <| d_flags ::= λ f, clear_flag f DCACHE_UNHASHED |> <| d_hash_node := InBucket b |>.

Definition rehashed (x : ptr) (d : dentry) (s : kstate) : kstate :=
  let b := home_bucket s d in
  s <| dentry_hashtable ::= λ h, <[b := x :: default [] (h !! b)]> h |>
    <| dentries ::= <[x := hashed b d]> |>.

Lemma vfs_inv_rehash dext iext x d s :
  vfs_inv dext iext s → dentries s !! x = Some d → d_unhashed d = true →
  vfs_inv dext iext (rehashed x d s).
Proof.
  intros [Hd Hi] Hx Hun. split; [|by apply (inode_inv_ext _ _ _ _ Hi)].
  pose proof Hd as [Hs Ha Hc Hl Hok Hnr Hnu Had].
  pose proof (Hok _ _ Hx) as [H1 H2 H3 H4 H5 H6].
  rewrite Hun in H1. symmetry in H1. apply bool_decide_eq_true in H1.
  set (b := home_bucket s d). set (d' := hashed b d).
  apply (dcache_inv_upd dext _ s _ x d d'); try done.
  - by apply (linked_alias_set s _ x d d').
  - apply (linked_insert _ _ _ _ x (InBucket b) Hc); unfold chain_node; simpl.
    + rewrite Hx. simpl. unfold on_chain. by rewrite H1.
    + fold b. by rewrite lookup_insert_eq.
    + intros [|b'|sb] Hb; simpl; [done| |done]. fold b.
      rewrite lookup_insert_ne; [done|congruence].
    + by rewrite lookup_insert_eq.
    + intros y Hy. by rewrite lookup_insert_ne.
  - by apply (linked_lru_set s _ x d d').
  - split; try done.
    + unfold d_unhashed. simpl. apply has_flag_clear.
    + intros b' [= <-]. done.
Qed.

Lemma wp_d_rehash dext iext x d s :
  vfs_inv dext iext s → dentries s !! x = Some d → d_unhashed d = true →
  wp (d_rehash x) (λ _ s', vfs_inv dext iext s' ∧ s' = rehashed x d s) s.
Proof.
  intros Hv Hx Hun. pose proof (vfs_inv_rehash _ _ _ _ _ Hv Hx Hun) as Hv'.
  unfold d_rehash, __d_rehash, d_hash, d_hash_add. wp_run.
  match goal with |- vfs_inv _ _ ?st ∧ _ => assert (st = rehashed x d s) as Est end.
  { unfold rehashed. kstate_eq. simpl. by rewrite insert_insert_eq. }
  by rewrite Est.
Qed.

(** ** Lookup *)

(** The dentry has the parent and the name that a lookup asks for. *)
Definition named (parent : ptr) (name : qstr) (d : dentry) : bool :=
  (d_name_hash d =? q_hash name) && (d_parent d =? parent) && (d_name_len d =? q_len name) &&
  (memcmp (d_name d) (q_name name) (Z.to_nat (q_len name)) =? 0).

(** The specification of the lookup: a hashed dentry with that name, if any. *)
Definition lookup_spec (s : kstate) (parent : ptr) (name : qstr) (r : ptr) : Prop :=
  if decide (r = NULL)
  then ∀ x d b, dentries s !! x = Some d → d_hash_node d = InBucket b → named parent name d = false
  else ∃ d b, dentries s !! r = Some d ∧ d_hash_node d = InBucket b ∧ named parent name d = true.

Lemma wp_d_lookup_in l parent pd name s Q :
  dentries s !! parent = Some pd →
  (∀ x, x ∈ l → ∃ d, dentries s !! x = Some d ∧ d_unhashed d = false) →
  ((∀ x d, x ∈ l → dentries s !! x = Some d → named parent name d = false) → Q NULL s) →
  (∀ x d, x ∈ l → dentries s !! x = Some d → named parent name d = true →
     Q x (s <| dentries ::= <[x := d <| d_count ::= Z.add 1 |>]> |>)) →
  wp (d_lookup_in l parent name) Q s.
Proof.
  intros Hp. induction l as [|x l IH]; intros Hl Hnone Hsome; simpl.
  { wp_run. apply Hnone. intros x d ?%elem_of_nil. done. }
  destruct (Hl x) as (d & Hx & Hu); [by left|]. wp_run.
  assert (named parent name d = false → wp (d_lookup_in l parent name) Q s) as Hskip.
  { intros Hno. apply IH.
    - intros y Hy. apply Hl. by right.
    - intros Hall. apply Hnone. intros y d' [->|Hy]%elem_of_cons Hy'; [by simplify_eq|eauto].
    - intros y d' Hy. apply Hsome. by right. }
  unfold named in *.
  destruct (d_name_hash d =? q_hash name) eqn:E1; simpl; [|by apply Hskip].
  destruct (d_parent d =? parent) eqn:E2; simpl; [|by apply Hskip]. wp_run.
  destruct (d_name_len d =? q_len name) eqn:E3; simpl; [|by apply Hskip].
  destruct (memcmp (d_name d) (q_name name) (Z.to_nat (q_len name)) =? 0) eqn:E4; simpl;
    [|by apply Hskip].
  rewrite Hu. simpl. wp_run. apply Hsome; [by left|done|]. by rewrite E1, E2, E3, E4.
Qed.

Lemma bucket_dentry dext s b x :
  dcache_inv dext s → x ∈ chain s (InBucket b) →
  ∃ d, dentries s !! x = Some d ∧ d_hash_node d = InBucket b ∧ d_unhashed d = false.
Proof.
  intros Hd Hin. apply (linked_iff _ _ (dc_chain _ _ Hd)) in Hin. unfold chain_node in Hin.
  destruct (dentries s !! x) as [d|] eqn:Ed; [|done]. simpl in Hin. unfold on_chain in Hin.
  exists d. destruct (d_hash_node d) eqn:Eh; simplify_eq. split_and!; [done..|].
  rewrite (do_flag _ _ _ _ (dc_ok _ _ Hd _ _ Ed)), Eh. done.
Qed.

Lemma wp_d_lookup dext iext parent pd name s :
  vfs_inv dext iext s → dentries s !! parent = Some pd →
  wp (d_lookup parent name) (λ r s', lookup_spec s parent name r ∧
    if decide (r = NULL) then s' = s
    else vfs_inv (bump r 1 dext) iext s' ∧
         ∀ d, dentries s !! r = Some d →
              s' = s <| dentries ::= <[r := d <| d_count ::= Z.add 1 |>]> |>) s.
Proof.
  intros Hv Hp. pose proof (vi_dcache _ _ _ Hv) as Hd.
  unfold d_lookup, __d_lookup, d_hash, d_bucket. wp_run.
  set (b := d_hash_val _ _ _ _).
  change (default [] (dentry_hashtable s !! b)) with (chain s (InBucket b)).
  apply (wp_d_lookup_in _ _ pd); [done| | |].
  - intros x Hx. destruct (bucket_dentry _ _ _ _ Hd Hx) as (d & ? & _ & ?). eauto.
  - intros Hno. unfold lookup_spec. rewrite !decide_True by done. split; [|done].
    intros x d b' Hx Hb'. destruct (named parent name d) eqn:En; [|done].
    rewrite <-En. apply (Hno x d); [|done].
    assert (b' = b) as <-.
    { rewrite (do_home _ _ _ _ (dc_ok _ _ Hd _ _ Hx) _ Hb'). unfold named in En.
      bool_to_prop. subst b. unfold home_bucket. congruence. }
    rewrite <-Hb'. apply (chain_elem _ _ _ _ Hd Hx). congruence.
  - intros x d Hin Hx Hn. destruct (bucket_dentry _ _ _ _ Hd Hin) as (d' & Hx' & Hb & _).
    simplify_eq. pose proof (dentry_addr _ _ _ _ Hd Hx) as Hx0.
    unfold lookup_spec. rewrite !decide_False by done.
    split; [eauto|]. split; [|by intros d' ?; simplify_eq].
    pose proof (do_ext _ _ _ _ (dc_ok _ _ Hd _ _ Hx)).
    apply (vfs_inv_count dext iext s _ x d 1); [done|done|lia|].
    by rewrite count_inc.
Qed.

(** ** What the dentry cache promises *)

(** [d_alloc] gives a child its name, parent and superblock, links it below
    its parent, which gains a reference, and returns it with one reference; it
    is negative and unhashed.  When memory for the dentry or for a long name is
    missing the result is NULL and no dentry changes. *)
Theorem d_alloc_correct dext iext p pd name s :
  vfs_inv dext iext s → dentries s !! p = Some pd → d_count pd ≠ 0 →
  wp (d_alloc p name) (λ x s',
    if d_alloc_ok name s then
      x = slab_next s ∧ vfs_inv (first_ref x dext) iext s' ∧
      dentries s' = <[x := child_dentry name (slab_iname s) p (d_sb pd)]>
                      (<[p := pd <| d_count ::= Z.add 1 |> <| d_subdirs ::= cons x |>]> (dentries s))
    else x = NULL ∧ vfs_inv dext iext s' ∧ dentries s' = dentries s) s.
Proof.
  intros Hv Hp Hc. eapply wp_mono; [by apply (wp_d_alloc dext iext p pd)|]. intros x s' Hx.
  destruct (d_alloc_ok name s).
  - destruct Hx as (-> & Hv' & ->). split_and!; [done..|].
    unfold child_added. destruct (d_alloc_slab_moved name s) as (l & n & _ & ->). simpl.
    by rewrite (alter_insert_some p pd).
  - destruct Hx as [-> Hm]. split_and!; [done|by eapply slab_moved_inv|].
    by destruct Hm as (l & n & _ & ->).
Qed.

(** C27: [d_lookup] returns a hashed dentry with the parent and the name asked
    for, with one reference more, if there is one anywhere in the cache, and
    NULL without any change otherwise: no such dentry can hide in another
    bucket. *)
Theorem d_lookup_correct dext iext parent pd name s :
  vfs_inv dext iext s → dentries s !! parent = Some pd →
  wp (d_lookup parent name) (λ r s',
    (r = NULL ∧ s' = s ∧
       ∀ x d b, dentries s !! x = Some d → d_hash_node d = InBucket b → named parent name d = false) ∨
    (r ≠ NULL ∧ ∃ d b, dentries s !! r = Some d ∧ d_hash_node d = InBucket b ∧
       named parent name d = true ∧ vfs_inv (bump r 1 dext) iext s' ∧
       s' = s <| dentries ::= <[r := d <| d_count ::= Z.add 1 |>]> |>)) s.
Proof.
  intros Hv Hp. eapply wp_mono; [by apply (wp_d_lookup dext iext parent pd)|].
  intros r s' [Hspec Hs']. unfold lookup_spec in Hspec. destruct (decide (r = NULL)) as [->|Hr].
  - left. by subst s'.
  - right. split; [done|]. destruct Hspec as (d & b & H1 & H2 & H3). destruct Hs' as [Hv' Hs'].
    exists d, b. split_and!; auto.
Qed.

Lemma rehashed_lookup x d s y :
  dentries (rehashed x d s) !! y = if decide (y = x) then Some (hashed (home_bucket s d) d)
                                   else dentries s !! y.
Proof.
  unfold rehashed. simpl. destruct (decide (y = x)) as [->|Hy].
  - by rewrite lookup_insert_eq.
  - by rewrite lookup_insert_ne.
Qed.

(** A dentry that enters the hash is found by the next lookup of its name,
    when no other hashed dentry has that name: [d_rehash] and [d_lookup] agree
    on the bucket. *)
Theorem d_rehash_lookup dext iext x d parent pd name s :
  vfs_inv dext iext s → dentries s !! x = Some d → d_unhashed d = true →
  dentries s !! parent = Some pd → named parent name d = true →
  lookup_spec s parent name NULL →
  wp (d_rehash x ;; d_lookup parent name) (λ r s', r = x ∧ vfs_inv (bump x 1 dext) iext s') s.
Proof.
  intros Hv Hx Hu Hp Hn Hno. wp_step. eapply wp_mono; [by apply (wp_d_rehash dext iext x d)|].
  intros _ s1 [Hv1 ->].
  assert (∃ pd', dentries (rehashed x d s) !! parent = Some pd') as [pd' Hp'].
  { rewrite rehashed_lookup. destruct (decide (parent = x)); eauto. }
  eapply wp_mono; [by apply (wp_d_lookup dext iext parent pd')|].
  intros r s2 [Hspec Hs2]. unfold lookup_spec in Hspec, Hno. rewrite decide_True in Hno by done.
  destruct (decide (r = NULL)) as [->|Hr].
  - specialize (Hspec x (hashed (home_bucket s d) d) (home_bucket s d)).
    rewrite rehashed_lookup, decide_True in Hspec by done.
    unfold named in Hn, Hspec. simpl in Hspec. change (d_name (hashed _ d)) with (d_name d) in Hspec.
    rewrite Hspec in Hn; done.
  - destruct Hspec as (d' & b' & H1 & H2 & H3). rewrite rehashed_lookup in H1.
    destruct (decide (r = x)) as [->|Hne]; [by destruct Hs2|].
    by rewrite (Hno r d' b' H1 H2) in H3.
Qed.

(** A dentry that leaves the hash is not found any more. *)
Theorem d_drop_hides dext iext x d parent pd name s :
  vfs_inv dext iext s → dentries s !! x = Some d → dentries s !! parent = Some pd →
  wp (__d_drop x ;; d_lookup parent name) (λ r s', r ≠ x ∧
    ∃ dext', vfs_inv dext' iext s') s.
Proof.
  intros Hv Hx Hp. pose proof (vi_dcache _ _ _ Hv) as Hd. wp_step.
  eapply wp_mono; [by apply (wp___d_drop dext iext x d)|].
  intros _ s1 (_ & Hv1 & _ & _ & E1).
  assert (∃ pd', dentries s1 !! parent = Some pd') as [pd' Hp'].
  { rewrite E1. destruct (decide (x = parent)) as [->|]; [rewrite lookup_insert_eq|
      rewrite lookup_insert_ne by done]; eauto. }
  eapply wp_mono; [by apply (wp_d_lookup dext iext parent pd')|].
  intros r s2 [Hspec Hs2]. pose proof (dentry_addr _ _ _ _ Hd Hx) as Hx0.
  unfold lookup_spec in Hspec. destruct (decide (r = NULL)) as [->|Hr].
  - split; [done|]. subst s2. eauto.
  - split; [|destruct Hs2; eauto]. intros ->. destruct Hspec as (d' & b' & H1 & H2 & _).
    rewrite E1, lookup_insert_eq in H1. injection H1 as <-.
    pose proof (do_flag _ _ _ _ (dc_ok _ _ Hd _ _ Hx)) as Hfl.
    destruct (d_unhashed d); [|done]. symmetry in Hfl. apply bool_decide_eq_true in Hfl. congruence.
Qed.
