(* ===== verification/Prune.v ===== *)
(** * Reclaiming unused dentries (fs/dcache.c)

    Memory pressure and remounting free dentries from the end of the LRU list.
    Whatever they free, the two caches keep their invariant with the same
    references, and a dentry that somebody holds a reference to stays. *)

From S2P Require Import Prelude KString Kernel Links Inode InodeInv Dcache DcacheInv DcacheOps.

(** What a reclaimer may do. *)
Record reclaimed (dext iext : refs) (s s' : kstate) : Prop := mkReclaimed {
  rc_vfs : vfs_inv dext iext s';
  rc_frame : vframe s s';
  rc_kept : kept s s';
  rc_survive : survive dext s s';
  rc_weight : (weight s' ≤ weight s)%nat
}.

Lemma reclaimed_refl dext iext s : vfs_inv dext iext s → reclaimed dext iext s s.
Proof. intros Hv. split; [done|done|done|by apply survive_dom|done]. Qed.

Lemma reclaimed_trans dext iext s1 s2 s3 :
  reclaimed dext iext s1 s2 → reclaimed dext iext s2 s3 → reclaimed dext iext s1 s3.
Proof.
  intros [_ F1 D1 S1 W1] [V F2 D2 S2 W2].
  split; [done|by etrans|by etrans|by eapply survive_trans|lia].
Qed.

Lemma dom_update (m : gmap Z dentry) x d d' : m !! x = Some d → dom (<[x := d']> m) = dom m.
Proof. intros Hx%elem_of_dom_2. rewrite dom_insert_L. set_solver. Qed.

(** One dentry changes. *)
Lemma reclaimed_one dext iext s s' x d d' :
  dentries s !! x = Some d → dentries s' = <[x := d']> (dentries s) → (dweight d' ≤ dweight d)%nat →
  d_parent d' = d_parent d → d_sb d' = d_sb d → vframe s s' → vfs_inv dext iext s' → reclaimed dext iext s s'.
Proof.
  intros Hx E Hw Ep Es Hf Hv. pose proof (weight_update _ _ _ _ _ Hx E).
  split; [done|done|by eapply kept_update| |lia].
  apply survive_dom. by rewrite E, (dom_update _ _ d).
Qed.

(** ** One dentry *)

Lemma wp_prune_one dext iext x d s :
  vfs_inv dext iext s → dentries s !! x = Some d → d_count d = 0 → d_lru d = false →
  wp (prune_one_dentry x) (λ _ s', reclaimed dext iext s s' ∧ dentries s' !! x = None ∧
    (weight s' < weight s)%nat) s.
Proof.
  intros Hv Hx Hc Hl. unfold prune_one_dentry. wp_step.
  eapply wp_mono; [by apply (wp___d_drop _ _ _ _ _ Hv Hx)|]. intros _ s1 (_ & Hv1 & Hf1 & _ & E1).
  set (d1 := if d_unhashed d then d else unhash d) in *.
  assert (d_count d1 = 0 ∧ d_lru d1 = false ∧ d_unhashed d1 = true ∧ dweight d1 = dweight d ∧
    d_parent d1 = d_parent d ∧ d_sb d1 = d_sb d) as (C1 & L1 & U1 & W1 & P1 & B1).
  { unfold d1. destruct (d_unhashed d) eqn:Eu; [done|].
    split_and!; [done|done|by apply has_flag_set| |done|done].
    unfold dweight. simpl. by rewrite has_flag_set_other. }
  clearbody d1. assert (dentries s1 !! x = Some d1) as Hx1 by (by rewrite E1, lookup_insert_eq).
  pose proof (dc_ok _ _ (vi_dcache _ _ _ Hv1) _ _ Hx1) as [Hfl _ _ Hpar He Hcnt].
  assert (d_subdirs d1 = [] ∧ dext x ≤ 0) as [Hsub Hzero].
  { rewrite C1 in Hcnt. destruct (d_subdirs d1); cbn [length] in Hcnt; [split; [done|]|]; lia. }
  rewrite U1 in Hfl. symmetry in Hfl. apply bool_decide_eq_true in Hfl.
  assert (reclaimed dext iext s s1) as Hr1.
  { apply (reclaimed_one _ _ _ _ x d d1 Hx); [done|lia|done..]. }
  pose proof (rc_weight _ _ _ _ Hr1) as Hw1.
  wp_step. eapply wp_mono; [by apply (wp_kill_dentry _ _ x d1 s1 Hv1)|].
  intros p s2 (-> & Hv2 & Hf2 & E2 & _).
  pose proof (weight_pruned _ _ _ _ _ Hx1 E2) as Hw2. pose proof (dweight_bounds d1) as Hb.
  assert (survive dext s1 s2) as Hs2 by (by eapply survive_pruned).
  assert (kept s1 s2) as Hd2 by (by eapply kept_pruned).
  assert (dentries s2 !! x = None) as Hg2 by (rewrite E2; apply lookup_delete_eq).
  unfold inherit in Hv2. destruct (d_parent d1 =? x) eqn:Ep; bool_to_prop; cbn [negb].
  { rewrite decide_True in Hv2 by done. wp_step. split_and!; [|done|lia].
    apply (reclaimed_trans _ _ _ s1); [done|]. split; try done. lia. }
  rewrite decide_False in Hv2 by done.
  destruct Hpar as [(Ec & Hn & _)|[_ ?]]; [|done].
  destruct (parent_elem _ _ _ _ (vi_dcache _ _ _ Hv1) Hx1) as (pd & Hpd & _); [congruence|].
  rewrite Ec in Hpd. pose proof (do_ext _ _ _ _ (dc_ok _ _ (vi_dcache _ _ _ Hv1) _ _ Hpd)) as Hpe.
  assert (is_Some (dentries s2 !! d_parent d1)) as [pd2 Hpd2].
  { rewrite E2, pruned_other, decide_True by done. rewrite Hpd. by eexists. }
  eapply wp_mono; [apply (wp_dput _ _ _ _ _ Hv2 Hpd2); rewrite bump_same; lia|].
  intros _ s3 (Hv3 & Hf3 & Hd3 & Hs3 & _ & Hw3).
  assert (∀ z, bump (d_parent d1) (-1) (bump (d_parent d1) 1 dext) z = dext z) as Eb.
  { intros z. rewrite bump_bump. apply bump_0. }
  split_and!; [| |lia].
  - apply (reclaimed_trans _ _ _ s1); [done|]. split; [|by etrans|by etrans| |lia].
    + by eapply dcache_inv_refs.
    + apply (survive_trans _ _ s2); [done|]. intros z. rewrite <-Eb. apply Hs3.
  - apply not_elem_of_dom. intros Hin%(kept_dom _ _ Hd3)%elem_of_dom. rewrite Hg2 in Hin. by destruct Hin.
Qed.

(** ** The LRU list *)

Lemma lru_dentry dext iext s x :
  vfs_inv dext iext s → x ∈ dentry_unused s → ∃ d, dentries s !! x = Some d ∧ d_lru d = true.
Proof.
  intros [Hd _] Hx. change (x ∈ lru s tt) in Hx. apply (linked_iff _ _ (dc_lru _ _ Hd)) in Hx.
  unfold lru_node, on_lru in Hx. destruct (dentries s !! x) as [d|]; [|done]. simpl in Hx.
  exists d. by destruct (d_lru d).
Qed.

(** A dentry leaves the list. *)
Definition off_lru (x : ptr) (d : dentry) (s : kstate) : kstate :=
  s <| dentry_unused ::= list_del x |> <| dentries ::= <[x := d <| d_lru := false |>]> |>
    <| nr_unused_dentry ::= λ n, n - 1 |>.

Lemma off_lru_inv dext iext x d s :
  vfs_inv dext iext s → dentries s !! x = Some d → d_lru d = true →
  vfs_inv dext iext (off_lru x d s) ∧ reclaimed dext iext s (off_lru x d s).
Proof.
  intros Hv Hx Hl. assert (vfs_inv dext iext (off_lru x d s)) as Hv'.
  { by apply (vfs_inv_lru_del dext iext s _ x d). }
  split; [done|]. by apply (reclaimed_one _ _ _ _ x d (d <| d_lru := false |>) Hx).
Qed.

(** A dentry that is off the list comes to its head. *)
Lemma on_lru_inv dext iext x d d' s s' :
  vfs_inv dext iext s → dentries s !! x = Some d → d_lru d = false →
  (d' = d <| d_lru := true |> ∨
   d' = d <| d_flags ::= λ f, clear_flag f DCACHE_REFERENCED |> <| d_lru := true |>) →
  s' = s <| dentry_unused ::= cons x |> <| dentries ::= <[x := d']> |>
         <| nr_unused_dentry ::= Z.add 1 |> →
  vfs_inv dext iext s' ∧ reclaimed dext iext s s'.
Proof.
  intros Hv Hx Hl Hd' ->. pose proof (dc_ok _ _ (vi_dcache _ _ _ Hv) _ _ Hx) as Hok.
  match goal with |- vfs_inv _ _ ?st ∧ _ => assert (vfs_inv dext iext st) as Hv' end.
  { apply (vfs_inv_lru_add dext iext s _ x d d'); try done; [by destruct Hd' as [->| ->]..| |].
    - destruct Hok, Hd' as [->| ->]; split; try done. etrans; [|exact do_flag].
      by apply has_flag_clear_other.
    - simpl. lia. }
  split; [done|]. apply (reclaimed_one _ _ _ _ x d d' Hx); try done; [|by destruct Hd' as [->| ->]..].
  destruct Hd' as [->| ->]; [done|]. unfold dweight. simpl. rewrite has_flag_clear.
  destruct (has_flag _ _); lia.
Qed.

(** ** prune_dcache *)

(** There is something to reclaim at the end of the list. *)
Definition tail_free (s : kstate) : Prop :=
  ∃ x d, last (dentry_unused s) = Some x ∧ dentries s !! x = Some d ∧ d_count d = 0.

(** What is done with the dentry taken from the end. *)
Lemma wp_prune_step dext iext x d s :
  vfs_inv dext iext s → dentries s !! x = Some d → d_lru d = false →
  wp (if negb (d_count d =? 0) then mret tt
      else if has_flag (d_flags d) DCACHE_REFERENCED then
        mod_dentry x (λ d, d <| d_flags ::= λ f, clear_flag f DCACHE_REFERENCED |>) ;;
        d_lru_add x ;;
        modify (λ s, s <| nr_unused_dentry ::= Z.add 1 |>)
      else prune_one_dentry x)
    (λ _ s', reclaimed dext iext s s' ∧ (d_count d = 0 → (weight s' < weight s)%nat)) s.
Proof.
  intros Hv Hx Hl. destruct (d_count d =? 0) eqn:Ec; bool_to_prop; cbn [negb].
  2: { wp_step. split; [by apply reclaimed_refl|done]. }
  destruct (has_flag (d_flags d) DCACHE_REFERENCED) eqn:Er.
  - unfold d_lru_add. wp_run.
    match goal with |- reclaimed _ _ _ ?st ∧ _ => set (s2 := st) end.
    set (d2 := d <| d_flags ::= λ f, clear_flag f DCACHE_REFERENCED |> <| d_lru := true |>).
    assert (dentries s2 = <[x := d2]> (dentries s)) as E by (simpl; by rewrite insert_insert_eq).
    split.
    + apply (on_lru_inv dext iext x d d2 s s2 Hv Hx Hl); [by right|].
      unfold s2. kstate_eq. by rewrite insert_insert_eq.
    + intros _. pose proof (weight_update _ _ _ _ _ Hx E) as Hw. unfold dweight in Hw.
      unfold d2 in Hw. simpl in Hw. rewrite has_flag_clear, Er in Hw. lia.
  - eapply wp_mono; [by apply (wp_prune_one _ _ x d s Hv Hx)|]. intros _ s2 (? & _ & ?). by split.
Qed.

Lemma wp_prune_dcache dext iext count s :
  vfs_inv dext iext s →
  wp (prune_dcache count) (λ _ s', reclaimed dext iext s s' ∧
    ((0 < count)%nat → tail_free s → (weight s' < weight s)%nat)) s.
Proof.
  revert s. induction count as [|n IH]; intros s Hv; cbn [prune_dcache].
  { wp_step. split; [by apply reclaimed_refl|lia]. }
  wp_step. wp_step. destruct (last (dentry_unused s)) as [x|] eqn:El.
  2: { wp_step. split; [by apply reclaimed_refl|]. intros _ (x & d & E & _). congruence. }
  destruct (lru_dentry _ _ _ x Hv) as (d & Hx & Hl); [by apply last_Some_elem_of|].
  destruct (off_lru_inv _ _ _ _ _ Hv Hx Hl) as [Hv1 Hr1].
  assert (dentries (off_lru x d s) !! x = Some (d <| d_lru := false |>)) as Hx1 by (apply lookup_insert_eq).
  unfold d_lru_del. wp_step. wp_step. wp_step. wp_step; [exact Hx|]. wp_step. wp_step.
  fold (off_lru x d s). generalize dependent (off_lru x d s). intros s1 Hv1 Hr1 Hx1.
  wp_step. wp_step; [exact Hx1|]. wp_step.
  eapply wp_mono; [by apply (wp_prune_step _ _ x _ s1 Hv1 Hx1)|].
  intros _ s2 [Hr2 Hw2]. eapply wp_mono; [apply IH, Hr2|]. intros _ s3 [Hr3 _].
  split; [apply (reclaimed_trans _ _ _ s1); [done|]; by apply (reclaimed_trans _ _ _ s2)|].
  intros _ (x' & d' & E & Hd' & Hc). simplify_eq. specialize (Hw2 Hc).
  pose proof (rc_weight _ _ _ _ Hr1). pose proof (rc_weight _ _ _ _ Hr3). lia.
Qed.

(** ** shrink_dcache_sb *)

(** Pass one: the dentries of the superblock come to the head of the list. *)
Lemma wp_shrink_pass_one dext iext sb l s :
  vfs_inv dext iext s → (∀ x, x ∈ l → x ∈ dentry_unused s) →
  wp (mfor l (λ dentry, d ← get_dentry dentry;
                mwhen (d_sb d =? sb) (d_lru_del dentry ;; d_lru_add dentry)))
     (λ _ s', reclaimed dext iext s s') s.
Proof.
  intros Hv Hl.
  apply (wp_mfor (λ l s', reclaimed dext iext s s' ∧ ∀ x, x ∈ l → x ∈ dentry_unused s'));
    [by split; [apply reclaimed_refl|]| |by intros s' [? _]].
  intros x l' s1 [Hr1 Hl1]. destruct (lru_dentry _ _ _ x (rc_vfs _ _ _ _ Hr1)) as (d & Hx & Hlru).
  { apply Hl1. left. }
  assert (∀ y, y ∈ l' → y ∈ dentry_unused s1) as Hl2 by (intros y Hy; apply Hl1; by right).
  wp_step. wp_step; [exact Hx|]. apply wp_mwhen; [|by split].
  intros _. unfold d_lru_del, d_lru_add. wp_run.
  destruct (off_lru_inv _ _ _ _ _ (rc_vfs _ _ _ _ Hr1) Hx Hlru) as [Hv2 Hr2].
  assert (dentries (off_lru x d s1) !! x = Some (d <| d_lru := false |>)) as Hx2 by (apply lookup_insert_eq).
  match goal with |- reclaimed _ _ _ ?st ∧ _ =>
    destruct (on_lru_inv dext iext x _ _ _ st Hv2 Hx2 eq_refl (or_introl eq_refl)) as [Hv3 Hr3] end.
  { unfold off_lru. kstate_eq; first [by rewrite !insert_insert_eq|lia]. }
  split; [eauto using reclaimed_trans|].
  intros y Hy%Hl2. simpl. rewrite elem_of_cons, elem_of_list_del. destruct (decide (y = x)); auto.
Qed.

(** One scan of pass two: it frees a dentry, or it leaves none of the superblock
    among those it has seen. *)
Definition scanned (dext iext : refs) (sb : ptr) (l : list ptr) (s : kstate) (again : bool) (s' : kstate)
    : Prop :=
  reclaimed dext iext s s' ∧
  if again then (size (dentries s') < size (dentries s))%nat
  else (∀ y, y ∈ dentry_unused s' → y ∈ dentry_unused s) ∧
       (∀ y, d_sb <$> dentries s' !! y = d_sb <$> dentries s !! y) ∧
       (∀ y, y ∈ l → y ∈ dentry_unused s' → d_sb <$> dentries s' !! y ≠ Some sb).

Lemma wp_shrink_sb_scan dext iext sb l s :
  vfs_inv dext iext s → NoDup l → (∀ x, x ∈ l → x ∈ dentry_unused s) →
  wp (shrink_sb_scan l sb) (scanned dext iext sb l s) s.
Proof.
  intros Hv Hnd. revert s Hv. induction Hnd as [|x l Hnx Hnd IH]; intros s Hv Hl; cbn [shrink_sb_scan].
  { wp_step. split; [by apply reclaimed_refl|]. split_and!; try done. intros y Hy%elem_of_nil. done. }
  destruct (lru_dentry _ _ _ x Hv) as (d & Hx & Hlru); [apply Hl; left|].
  assert (∀ y, y ∈ l → y ∈ dentry_unused s) as Hl2 by (intros y Hy; apply Hl; by right).
  wp_step. wp_step; [exact Hx|]. destruct (d_sb d =? sb) eqn:Es; bool_to_prop; cbn [negb].
  2: { eapply wp_mono; [by apply IH|]. intros again s' [Hr Hs]. split; [done|].
       destruct again; [done|]. destruct Hs as (S1 & S2 & S3). split_and!; [done|done|].
       intros y [->|Hy]%elem_of_cons Hu; [|by apply S3]. rewrite S2, Hx. simpl. congruence. }
  unfold d_lru_del. wp_step. wp_step. wp_step. wp_step. wp_step. wp_step; [exact Hx|].
  destruct (off_lru_inv _ _ _ _ _ Hv Hx Hlru) as [Hv1 Hr1].
  match goal with |- wp _ _ ?st => assert (st = off_lru x d s) as -> by (unfold off_lru; kstate_eq) end.
  assert (dentries (off_lru x d s) !! x = Some (d <| d_lru := false |>) ∧
    dentry_unused (off_lru x d s) = list_del x (dentry_unused s) ∧
    size (dentries (off_lru x d s)) = size (dentries s) ∧
    (∀ y, d_sb <$> dentries (off_lru x d s) !! y = d_sb <$> dentries s !! y)) as (Hx1 & U1 & Z1 & B1).
  { split; [apply lookup_insert_eq|]. split; [done|]. split.
    - rewrite <-!size_dom. f_equal. by eapply dom_update.
    - intros y. simpl. map_cases; [by rewrite Hx|done]. }
  generalize dependent (off_lru x d s). intros s1 Hv1 Hr1 Hx1 U1 Z1 B1.
  destruct (d_count d =? 0) eqn:Ec; bool_to_prop; cbn [negb].
  - wp_step. eapply wp_mono; [by apply (wp_prune_one _ _ x _ s1 Hv1 Hx1)|].
    intros _ s2 (Hr2 & Hg & _). wp_step. split; [by eapply reclaimed_trans|]. rewrite <-Z1.
    rewrite <-!size_dom. apply subset_size. split; [apply kept_dom, Hr2|].
    intros Hsub. apply elem_of_dom_2, Hsub, elem_of_dom in Hx1. rewrite Hg in Hx1. by destruct Hx1.
  - eapply wp_mono; [apply IH; [done|]|].
    { intros y Hy. rewrite U1, elem_of_list_del. split; [by intros ->|by apply Hl2]. }
    intros again s' [Hr Hs]. split; [by eapply reclaimed_trans|]. destruct again; [lia|].
    destruct Hs as (S1 & S2 & S3). split_and!.
    + intros y Hy%S1. rewrite U1, elem_of_list_del in Hy. by destruct Hy.
    + intros y. by rewrite S2.
    + intros y [->|Hy]%elem_of_cons Hu; [|by apply S3].
      apply S1 in Hu. rewrite U1, elem_of_list_del in Hu. by destruct Hu.
Qed.

Lemma wp_shrink_dcache_sb dext iext sb s :
  vfs_inv dext iext s →
  wp (shrink_dcache_sb sb) (λ _ s', reclaimed dext iext s s' ∧
    ∀ x d, x ∈ dentry_unused s' → dentries s' !! x = Some d → d_sb d ≠ sb) s.
Proof.
  intros Hv. unfold shrink_dcache_sb. wp_step. wp_step. wp_step.
  eapply wp_mono; [by apply wp_shrink_pass_one|]. intros [] s1 Hr1. wp_step. wp_step.
  apply (wp_loop (λ _, reclaimed dext iext s) (λ _ s', size (dentries s'))); [|done|lia].
  intros [] s2 Hr2. wp_step. wp_step. wp_step. eapply wp_mono.
  { apply (wp_shrink_sb_scan dext iext); [apply Hr2| |done].
    apply (linked_nodup _ _ (dc_lru _ _ (vi_dcache _ _ _ (rc_vfs _ _ _ _ Hr2))) tt). }
  intros again s3 [Hr3 Hs]. wp_step.
  assert (reclaimed dext iext s s3) as Hr by (by eapply reclaimed_trans).
  destruct again; [done|]. split; [done|]. destruct Hs as (S1 & _ & S3).
  intros x d Hx Hd. specialize (S3 x (S1 _ Hx) Hx). rewrite Hd in S3. simpl in S3. congruence.
Qed.

(** ** Theorems *)

(** Pruning never faults and ends. It frees dentries from the end of the LRU
    list and the parents that thereby lose their last reference; both caches keep
    their invariant with the same references, nothing but the caches changes, and
    a dentry that somebody holds a reference to is not freed. *)
Lemma prune_dcache_correct dext iext count s :
  vfs_inv dext iext s →
  wp (prune_dcache count) (λ _ s', vfs_inv dext iext s' ∧ vframe s s' ∧
    dom (dentries s') ⊆ dom (dentries s) ∧
    ∀ x, 0 < dext x → is_Some (dentries s !! x) → is_Some (dentries s' !! x)) s.
Proof.
  intros Hv. eapply wp_mono; [by apply wp_prune_dcache|]. intros _ s' [[? ? ?%kept_dom ?] _]. done.
Qed.

(** C25: Shrinking the cache of a superblock never faults, and its rescans end.
    Afterwards no unused dentry of the superblock is left on the LRU list; the
    caches keep their invariant with the same references, and a dentry that
    somebody holds a reference to is not freed. *)
Theorem shrink_dcache_sb_correct dext iext sb s :
  vfs_inv dext iext s →
  wp (shrink_dcache_sb sb) (λ _ s', vfs_inv dext iext s' ∧ vframe s s' ∧
    (∀ x, 0 < dext x → is_Some (dentries s !! x) → is_Some (dentries s' !! x)) ∧
    ∀ x d, x ∈ dentry_unused s' → dentries s' !! x = Some d → d_sb d ≠ sb) s.
Proof.
  intros Hv. eapply wp_mono; [by apply wp_shrink_dcache_sb|]. by intros _ s' [[] ?].
Qed.
