(* ===== verification/Walk.v ===== *)
(** * Walks over the tree of dentries (fs/dcache.c)

    The walks descend into a directory, visit its children and ascend again
    through the parent, without a stack.  The dentries below a root form a finite
    forest, in the order of the lists of children, and a walk goes through it
    once; so it ends within its bound. *)

From stdpp Require Import relations.
From S2P Require Import Prelude KString Kernel Links Inode InodeInv Dcache DcacheInv DcacheOps Prune.

(** ** The forest below a root *)

(** First child and next sibling. *)
Inductive forest : Set := Nil | Tree (x : ptr) (children rest : forest).

Fixpoint roots (f : forest) : list ptr :=
  match f with Nil => [] | Tree x _ r => x :: roots r end.
Fixpoint nodes (f : forest) : list ptr :=
  match f with Nil => [] | Tree x c r => x :: nodes c ++ nodes r end.

(** [f] are the children of [p], or the last of them. *)
Fixpoint shaped (s : kstate) (p : ptr) (f : forest) : Prop :=
  match f with
  | Nil => True
  | Tree x c r =>
      (∃ d, dentries s !! x = Some d ∧ d_child d = p ∧ d_parent d = p ∧
            d_subdirs d = roots c ∧ NoDup (roots c)) ∧
      shaped s x c ∧ shaped s p r
  end.

Definition child (s : kstate) (x y : ptr) : Prop := y ∈ subdirs s x.

Lemma child_unique dext s x x' y : dcache_inv dext s → child s x y → child s x' y → x = x'.
Proof.
  intros Hd H1 H2. apply (linked_iff _ _ (dc_sub _ _ Hd)) in H1.
  apply (linked_iff _ _ (dc_sub _ _ Hd)) in H2. congruence.
Qed.

Lemma child_dentry_facts dext s x y :
  dcache_inv dext s → child s x y →
  ∃ d, dentries s !! y = Some d ∧ d_child d = x ∧ d_parent d = x ∧ x ≠ NULL ∧ x ≠ y.
Proof.
  intros Hd Hy. apply (linked_iff _ _ (dc_sub _ _ Hd)) in Hy. unfold child_node, on_child in Hy.
  destruct (dentries s !! y) as [d|] eqn:Ey; [|done]. simpl in Hy.
  destruct (d_child d =? NULL) eqn:En; bool_to_prop; [done|]. simplify_eq. exists d.
  destruct (do_parent _ _ _ _ (dc_ok _ _ Hd _ _ Ey)) as [(? & ? & ?)|[? ?]]; [|congruence].
  split_and!; congruence.
Qed.

Lemma child_dom s x y : child s x y → is_Some (dentries s !! x).
Proof.
  unfold child, subdirs. destruct (dentries s !! x); [done|]. by intros ?%elem_of_nil.
Qed.

Lemma tc_last {A} (R : relation A) x z : tc R x z → ∃ y, rtc R x y ∧ R y z.
Proof.
  induction 1 as [x y Hxy|x y z Hxy _ (w & Hw & Hz)]; [by exists x|]. exists w. split; [|done].
  by eapply rtc_l.
Qed.

Lemma step_rtc {A} (R : relation A) x y z : R x y → rtc R y z → tc R x z.
Proof.
  intros Hxy Hz. revert x Hxy. induction Hz as [y|y w z Hw _ IH]; intros x Hxy; [by constructor|].
  eapply tc_l; [done|]. by apply IH.
Qed.

(** A dentry that is its own parent is nobody's child. *)
Definition is_root (s : kstate) (r : ptr) : Prop := ∃ d, dentries s !! r = Some d ∧ d_parent d = r.

Lemma root_not_child dext s r x : dcache_inv dext s → is_root s r → ¬ child s x r.
Proof.
  intros Hd (d & Hr & Hp) Hc. destruct (child_dentry_facts _ _ _ _ Hd Hc) as (d' & Hr' & _ & Hp' & _ & Hne).
  congruence.
Qed.

Section acyclic.
Context (dext : refs) (s : kstate) (r : ptr) (Hd : dcache_inv dext s) (Hroot : is_root s r).

(** Ancestors of one dentry are ancestors of each other. *)
Lemma ancestors_linear x y z :
  rtc (child s) x z → rtc (child s) y z → rtc (child s) x y ∨ rtc (child s) y x.
Proof.
  intros Hx. revert y. revert z Hx. apply (rtc_ind_r (λ z, ∀ y, rtc (child s) y z → _)); [by right|].
  intros w z Hx Hc IH y Hy. apply rtc_inv_r in Hy as [->|(w' & Hy & Hw)].
  - left. eapply rtc_r; eauto.
  - rewrite (child_unique _ _ _ _ _ Hd Hw Hc) in Hy. by apply IH.
Qed.

Lemma below_acyclic x : rtc (child s) r x → ¬ tc (child s) x x.
Proof.
  revert x. apply rtc_ind_r.
  - intros (y & _ & Hc)%tc_last. by eapply root_not_child.
  - intros x y Hx Hxy IH (w & Hw & Hc)%tc_last. apply IH.
    rewrite (child_unique _ _ _ _ _ Hd Hc Hxy) in Hw. by eapply step_rtc.
Qed.

Lemma below_sn x : rtc (child s) r x → sn (λ a b, rtc (child s) r a ∧ child s a b) x.
Proof.
  intros Hx. apply tc_finite_sn.
  - assert (∀ a b, tc (λ a b, rtc (child s) r a ∧ child s a b) a b →
      rtc (child s) r a ∧ tc (child s) a b) as Hboth.
    { induction 1 as [a b [? ?]|a b c [? ?] _ [_ IH]]; split; try done; [by constructor|by eapply tc_l]. }
    intros y [H1 H2]%Hboth. by eapply below_acyclic.
  - exists (elements (dom (dentries s))). intros y Hy. apply elem_of_elements, elem_of_dom.
    apply tc_last in Hy as (w & _ & _ & Hc).
    destruct (child_dentry_facts _ _ _ _ Hd Hc) as (? & ? & _); eauto.
Qed.

Lemma siblings_apart x y w :
  rtc (child s) r x → child s x y → child s x w → y ≠ w → ¬ rtc (child s) y w.
Proof.
  intros Hx Hy Hw Hne [->|(u & Hu & Hc)]%rtc_inv_r; [done|].
  rewrite (child_unique _ _ _ _ _ Hd Hc Hw) in Hu. apply (below_acyclic x Hx).
  exact (step_rtc _ _ _ _ Hy Hu).
Qed.
End acyclic.

(** The forest exists: every dentry below [r] is in it once. *)
Lemma forest_below dext s r x :
  dcache_inv dext s → is_root s r → rtc (child s) r x →
  ∀ l, NoDup l → (∀ y, y ∈ l → child s x y) →
  ∃ f, roots f = l ∧ shaped s x f ∧ NoDup (nodes f) ∧
    ∀ z, z ∈ nodes f ↔ ∃ y, y ∈ l ∧ rtc (child s) y z.
Proof.
  intros Hd Hroot Hx. pose proof (below_sn _ _ _ Hd Hroot x Hx) as Hsn. revert Hx.
  induction Hsn as [x _ IH]. intros Hx l Hnd. induction Hnd as [|y l Hy Hnd IHl]; intros Hl.
  { exists Nil. split_and!; [done|done|constructor|]. intros z. split.
    - by intros ?%elem_of_nil.
    - by intros (? & ?%elem_of_nil & _). }
  destruct IHl as (r' & E1 & S1 & N1 & I1); [intros z Hz; apply Hl; by right|].
  assert (child s x y) as Hxy by (apply Hl; left).
  assert (rtc (child s) r y) as Hry by (by eapply rtc_r).
  destruct (child_dentry_facts _ _ _ _ Hd Hxy) as (d & Hyd & Hc & Hp & _).
  pose proof (linked_nodup _ _ (dc_sub _ _ Hd) y) as Hnds. unfold subdirs in Hnds. rewrite Hyd in Hnds.
  destruct (IH y ltac:(by split) Hry (d_subdirs d) Hnds) as (c & E2 & S2 & N2 & I2).
  { intros z Hz. unfold child, subdirs. by rewrite Hyd. }
  assert (∀ z, z ∈ nodes c ↔ tc (child s) y z) as I3.
  { intros z. rewrite I2. split.
    - intros (w & Hw & Hz). eapply step_rtc; [|done]. unfold child, subdirs. by rewrite Hyd.
    - intros Hz. inversion Hz as [? ? Hw|? w ? Hw Hz']; subst; unfold child, subdirs in Hw; rewrite Hyd in Hw.
      + by exists z.
      + exists w. split; [done|]. by apply tc_rtc. }
  exists (Tree y c r'). simpl. split_and!; [congruence|by exists d; rewrite E2|done|done| |].
  - constructor.
    + rewrite elem_of_app, I3, I1. intros [Hz|(w & Hw & Hz)].
      * by apply (below_acyclic _ _ _ Hd Hroot y Hry).
      * assert (child s x w) as Hxw by (apply Hl; by right).
        by apply (siblings_apart _ _ _ Hd Hroot x w y); [..|intros ->|].
    + apply NoDup_app. split_and!; [done| |done].
      intros z Hz%I3%tc_rtc (w & Hw & Hwz)%I1.
      assert (child s x w) as Hxw by (apply Hl; by right). assert (y ≠ w) as Hne by (by intros ->).
      destruct (ancestors_linear _ _ Hd _ _ _ Hz Hwz) as [Hyw|Hwy].
      * by apply (siblings_apart _ _ _ Hd Hroot x y w).
      * by apply (siblings_apart _ _ _ Hd Hroot x w y); [..|intros ->|].
  - intros z. rewrite elem_of_cons, elem_of_app, I3, I1. split.
    + intros [->|[Hz|(w & Hw & Hz)]].
      * exists y. split; [left|done].
      * exists y. split; [left|by apply tc_rtc].
      * exists w. split; [by right|done].
    + intros (w & [->|Hw]%elem_of_cons & Hz); [|by eauto].
      inversion Hz as [|? u ? Hu Hz']; subst; [by left|]. right; left.
      by eapply step_rtc.
Qed.

Lemma forest_of_root dext s r d :
  dcache_inv dext s → dentries s !! r = Some d → d_parent d = r →
  ∃ f, roots f = d_subdirs d ∧ shaped s r f ∧ NoDup (d_subdirs d) ∧ NoDup (r :: nodes f) ∧
    ∀ z, z ∈ nodes f ↔ tc (child s) r z.
Proof.
  intros Hd Hr Hp. assert (is_root s r) as Hroot by (by exists d).
  pose proof (linked_nodup _ _ (dc_sub _ _ Hd) r) as Hnd.
  assert (∀ y, y ∈ d_subdirs d ↔ child s r y) as Hc by (intros y; unfold child, subdirs; by rewrite Hr).
  unfold subdirs in Hnd. rewrite Hr in Hnd.
  destruct (forest_below dext s r r Hd Hroot ltac:(done) (d_subdirs d) Hnd) as (f & E & S & N & I).
  { intros y. apply Hc. }
  assert (∀ z, z ∈ nodes f ↔ tc (child s) r z) as I'.
  { intros z. rewrite I. split.
    - intros (y & Hy%Hc & Hz). by eapply step_rtc.
    - intros Hz. inversion Hz as [? ? Hw|? w ? Hw Hz']; subst.
      + exists z. by rewrite Hc.
      + exists w. rewrite Hc. split; [done|]. by apply tc_rtc. }
  exists f. split_and!; try done. constructor; [|done]. rewrite I'.
  by apply (below_acyclic _ _ _ Hd Hroot r).
Qed.

Lemma shaped_nodes s p f x : shaped s p f → x ∈ nodes f → is_Some (dentries s !! x).
Proof.
  revert p. induction f as [|y c IHc r IHr]; intros p; simpl; [by intros _ ?%elem_of_nil|].
  intros ((d & Hd & _) & Hc & Hr) [->|[Hx|Hx]%elem_of_app]%elem_of_cons; [by exists d|by eapply IHc|by eapply IHr].
Qed.

Lemma shaped_size s p f : shaped s p f → NoDup (nodes f) → (length (nodes f) ≤ size (dentries s))%nat.
Proof.
  intros Hs Hnd. rewrite <-size_dom, <-(size_list_to_set (C := gset Z) _ Hnd).
  apply subseteq_size. intros x Hx%elem_of_list_to_set. apply elem_of_dom. by eapply shaped_nodes.
Qed.

(** A change that keeps children and parents keeps the forest. *)
Definition same_tree (s s' : kstate) : Prop :=
  ∀ x d, dentries s !! x = Some d → ∃ d', dentries s' !! x = Some d' ∧ d_child d' = d_child d ∧
    d_parent d' = d_parent d ∧ d_subdirs d' = d_subdirs d.

Lemma shaped_same s s' p f : same_tree s s' → shaped s p f → shaped s' p f.
Proof.
  intros Hsame. revert p. induction f as [|y c IHc r IHr]; intros p; simpl; [done|].
  intros ((d & Hd & E1 & E2 & E3 & E4) & Hc & Hr). split_and!; [|by apply IHc|by apply IHr].
  destruct (Hsame _ _ Hd) as (d' & Hd' & F1 & F2 & F3). exists d'. split_and!; congruence.
Qed.

Lemma wp_loop_more {S A B} (body : A → M S (A + B)) n m a (Q : B → S → Prop) s :
  wp (loop n body a) Q s → (n ≤ m)%nat → wp (loop m body a) Q s.
Proof.
  revert m a s. induction n as [|n IH]; intros m a s Hw Hm; [done|].
  destruct m as [|m]; [lia|]. cbn [loop] in *. apply wp_bind_inv in Hw. apply wp_bind.
  eapply wp_mono; [exact Hw|]. intros [a'|b] s'; [|done]. intros Hw'. apply IH; [done|lia].
Qed.

(** Ascending from [x] goes on with its next sibling. *)
Lemma wp_walk_ascend s p pd x d pre next Q :
  dentries s !! x = Some d → d_child d = p → d_parent d = p → dentries s !! p = Some pd →
  d_subdirs pd = pre ++ x :: next → NoDup (d_subdirs pd) → Q (p, next) s → wp (walk_ascend x) Q s.
Proof.
  intros Hx Hc Hp Hpd Hsub Hnd HQ. unfold walk_ascend. wp_step. wp_step; [exact Hx|]. rewrite Hc, Hp.
  wp_step. wp_step; [exact Hpd|]. wp_step. rewrite Hsub in *. rewrite list_after_app; [done|].
  apply NoDup_app in Hnd as (_ & Hnd & _). intros Hin. apply (Hnd x Hin). left.
Qed.

(** ** d_genocide *)

(** The walk enters and counts down the dentries that a lookup can find. *)
Definition live (s : kstate) (x : ptr) : bool :=
  match dentries s !! x with
  | Some d => negb (d_unhashed d || (d_inode d =? NULL))
  | None => false
  end.

Fixpoint victims (s : kstate) (f : forest) : list ptr :=
  match f with
  | Nil => []
  | Tree x c r => (if live s x then victims s c ++ [x] else []) ++ victims s r
  end.

Definition dec (s : kstate) (x : ptr) : kstate :=
  s <| dentries ::= alter (λ d, d <| d_count ::= λ c, c - 1 |>) x |>.
Definition dec_all (s : kstate) (l : list ptr) : kstate := foldl dec s l.

Lemma wp_d_dec x d Q s : dentries s !! x = Some d → Q tt (dec s x) → wp (d_dec x) Q s.
Proof.
  intros Hx HQ. unfold d_dec. wp_step; [exact Hx|].
  match goal with |- Q _ ?st => assert (st = dec s x) as -> end; [|done].
  unfold dec. kstate_eq. apply map_eq. intros y. map_cases; [by rewrite lookup_alter_eq, Hx|].
  by rewrite lookup_alter_ne.
Qed.

Lemma dec_tree s x : same_tree s (dec s x).
Proof.
  intros y d Hy. unfold dec. simpl. destruct (decide (x = y)) as [->|Hne].
  - rewrite lookup_alter_eq, Hy. by eexists.
  - rewrite lookup_alter_ne by done. by exists d.
Qed.

Lemma same_tree_trans s1 s2 s3 : same_tree s1 s2 → same_tree s2 s3 → same_tree s1 s3.
Proof.
  intros H1 H2 x d Hx. destruct (H1 _ _ Hx) as (d2 & Hx2 & ? & ? & ?).
  destruct (H2 _ _ Hx2) as (d3 & Hx3 & ? & ? & ?). exists d3. split_and!; congruence.
Qed.

Lemma dec_all_tree s l : same_tree s (dec_all s l).
Proof.
  revert s. induction l as [|x l IH]; intros s; [by intros y d Hy; exists d|]. simpl.
  eapply same_tree_trans; [apply dec_tree|apply IH].
Qed.

Lemma dec_live s x y : live (dec s x) y = live s y.
Proof.
  unfold live, dec. simpl. destruct (decide (x = y)) as [->|Hne].
  - rewrite lookup_alter_eq. by destruct (dentries s !! y).
  - by rewrite lookup_alter_ne.
Qed.

Lemma dec_all_live s l y : live (dec_all s l) y = live s y.
Proof. revert s. induction l as [|x l IH]; intros s; [done|]. simpl. by rewrite IH, dec_live. Qed.

Lemma dec_all_victims s l f : victims (dec_all s l) f = victims s f.
Proof. induction f as [|x c IHc r IHr]; [done|]. simpl. by rewrite dec_all_live, IHc, IHr. Qed.

Lemma wp_genocide_forest root f : ∀ s p pd pre n Q,
  shaped s p f → dentries s !! p = Some pd → d_subdirs pd = pre ++ roots f → NoDup (d_subdirs pd) →
  root ∉ nodes f →
  wp (loop n (d_genocide_body root) (p, [])) Q (dec_all s (victims s f)) →
  wp (loop (2 * length (nodes f) + n) (d_genocide_body root) (p, roots f)) Q s.
Proof.
  induction f as [|x c IHc r IHr]; intros s p pd pre n Q Hs Hpd Hsub Hnd Hroot HQ; [done|].
  simpl in Hs, Hroot. destruct Hs as ((d & Hx & Ec & Ep & Es & Hndc) & Hc & Hr).
  assert (x ≠ root ∧ (root ∉ nodes c) ∧ (root ∉ nodes r)) as (Hxr & Hrc & Hrr) by set_solver.
  simpl in Hsub. assert (d_subdirs pd = (pre ++ [x]) ++ roots r) as Hsub' by (by rewrite <-app_assoc).
  assert (live s x = negb (d_unhashed d || (d_inode d =? NULL))) as El by (unfold live; by rewrite Hx).
  simpl in HQ. rewrite El in HQ. cbn [nodes length]. rewrite length_app.
  replace (2 * S (length (nodes c) + length (nodes r)) + n)%nat
    with (S (2 * length (nodes c) + S (2 * length (nodes r) + n))) by lia.
  cbn [loop roots]. wp_step. unfold d_genocide_body at 1. wp_step. wp_step; [exact Hx|].
  destruct (d_unhashed d || (d_inode d =? NULL)); cbn [negb] in HQ.
  { wp_step. apply (wp_loop_more _ (2 * length (nodes r) + n)); [|lia].
    by apply (IHr s p pd (pre ++ [x])). }
  unfold dec_all in HQ. rewrite !foldl_app in HQ. simpl in HQ. fold (dec_all s (victims s c)) in HQ.
  rewrite Es. destruct (roots c) as [|y l] eqn:Erc.
  - destruct c; [|done]. simpl in HQ. wp_step. apply (wp_d_dec x d); [done|]. wp_step.
    apply (wp_loop_more _ (2 * length (nodes r) + n)); [|lia].
    destruct (dec_tree s x _ _ Hpd) as (pd' & Hpd' & _ & _ & Epd).
    apply (IHr (dec s x) p pd' (pre ++ [x])); try congruence.
    + eapply shaped_same; [apply dec_tree|done].
    + by rewrite (dec_all_victims s [x] r : victims (dec s x) r = victims s r).
  - wp_step. apply (IHc s x d []); try congruence; [by rewrite Es|]. cbn [loop]. wp_step.
    set (s1 := dec_all s (victims s c)) in *.
    destruct (dec_all_tree s (victims s c) _ _ Hx) as (d1 & Hx1 & F1 & F2 & F3).
    destruct (dec_all_tree s (victims s c) _ _ Hpd) as (pd1 & Hpd1 & G1 & G2 & G3). fold s1 in Hx1, Hpd1.
    unfold d_genocide_body at 1. rewrite (proj2 (Z.eqb_neq _ _) Hxr). cbn [negb]. wp_step.
    apply (wp_walk_ascend s1 p pd1 x d1 pre (roots r)); try congruence.
    wp_step. apply (wp_d_dec x d1); [done|]. wp_step.
    destruct (dec_tree s1 x _ _ Hpd1) as (pd2 & Hpd2 & _ & _ & Epd).
    apply (IHr (dec s1 x) p pd2 (pre ++ [x])); try congruence.
    + eapply shaped_same; [apply dec_tree|]. eapply shaped_same; [apply dec_all_tree|done].
    + rewrite (dec_all_victims s1 [x] r : victims (dec s1 x) r = _). unfold s1 at 2.
      by rewrite dec_all_victims.
Qed.

Definition live_child (s : kstate) (x y : ptr) : Prop := child s x y ∧ live s y = true.

Lemma victims_live s p f z :
  shaped s p f → z ∈ victims s f ↔ ∃ y, y ∈ roots f ∧ live s y = true ∧ rtc (live_child s) y z.
Proof.
  revert p. induction f as [|x c IHc r IHr]; intros p; simpl.
  { intros _. split; [by intros ?%elem_of_nil|by intros (? & ?%elem_of_nil & _)]. }
  intros ((d & Hx & _ & _ & Es & _) & Hc & Hr). rewrite elem_of_app, (IHr p Hr).
  assert (∀ y, child s x y ↔ y ∈ roots c) as Hch.
  { intros y. unfold child, subdirs. rewrite Hx. simpl. by rewrite Es. }
  split.
  - intros [Hz|(y & Hy & ? & ?)]; [|exists y; by split; [right|]].
    destruct (live s x) eqn:El; [|by apply elem_of_nil in Hz]. exists x. split; [left|]. split; [done|].
    apply elem_of_app in Hz as [(y & Hy & Hl & Hyz)%(IHc x Hc)|Hz%list_elem_of_singleton].
    + eapply rtc_l; [|done]. by split; [apply Hch|].
    + by subst.
  - intros (y & [->|Hy]%elem_of_cons & El & Hz); [|right; by exists y]. left. rewrite El, elem_of_app.
    apply rtc_inv in Hz as [->|(w & [Hw%Hch Hl] & Hz')]; [right; by apply list_elem_of_singleton|].
    left. apply (IHc x Hc). by exists w.
Qed.

Lemma victims_nodup s f : NoDup (nodes f) → NoDup (victims s f) ∧ victims s f ⊆ nodes f.
Proof.
  induction f as [|x c IHc r IHr]; simpl; [done|]. intros [Hx Hnd]%NoDup_cons.
  apply NoDup_app in Hnd as (Hc & Hcr & Hr). destruct (IHc Hc) as [N1 I1], (IHr Hr) as [N2 I2].
  destruct (live s x); [|split; [done|set_solver]]. split; [|set_solver].
  rewrite <-app_assoc. apply NoDup_app. split_and!; [done| |].
  - intros z Hz. set_solver.
  - apply NoDup_cons. split; [set_solver|done].
Qed.

Definition spend (l : list ptr) (dext : refs) : refs := λ z, if decide (z ∈ l) then dext z - 1 else dext z.

Lemma vfs_inv_dec_all dext iext l s :
  vfs_inv dext iext s → NoDup l → (∀ x, x ∈ l → 0 < dext x ∧ is_Some (dentries s !! x)) →
  vfs_inv (spend l dext) iext (dec_all s l).
Proof.
  intros Hv Hnd. revert dext s Hv. induction Hnd as [|x l Hx Hnd IH]; intros dext s Hv Hl.
  { apply (dcache_inv_refs dext); [done|]. intros z. unfold spend. by rewrite decide_False by apply not_elem_of_nil. }
  destruct (Hl x) as (Hpos & d & Hd); [left|]. simpl.
  assert (vfs_inv (bump x (-1) dext) iext (dec s x)) as Hv1.
  { apply (vfs_inv_count dext iext s _ x d (-1)); [done|done|lia|]. unfold dec. kstate_eq.
    apply map_eq. intros y. map_cases; [by rewrite lookup_alter_eq, Hd|by rewrite lookup_alter_ne]. }
  apply (dcache_inv_refs (spend l (bump x (-1) dext))).
  - apply (IH _ _ Hv1). intros y Hy. destruct (Hl y) as (? & dy & Hdy); [by right|].
    rewrite bump_other by (by intros ->). split; [done|].
    destruct (dec_tree s x _ _ Hdy) as (? & ? & _). eauto.
  - intros z. unfold spend. destruct (decide (z = x)) as [->|Hne].
    + rewrite decide_True by left. rewrite decide_False by done. rewrite bump_same. lia.
    + rewrite bump_other by done. destruct (decide (z ∈ l)).
      * by rewrite decide_True by (by right).
      * by rewrite decide_False by (by intros [?|?]%elem_of_cons).
Qed.

Lemma wp_d_genocide dext s r d :
  dcache_inv dext s → dentries s !! r = Some d → d_parent d = r →
  ∃ l, NoDup l ∧ (∀ z, z ∈ l ↔ tc (live_child s) r z) ∧
    ∀ Q : unit → kstate → Prop, Q tt (dec_all s l) → wp (d_genocide r) Q s.
Proof.
  intros Hd Hr Hp. destruct (forest_of_root _ _ _ _ Hd Hr Hp) as (f & Er & Hs & Hnd & Hndf & Hn).
  apply NoDup_cons in Hndf as [Hrf Hndf]. exists (victims s f).
  split; [by apply victims_nodup|]. split.
  - intros z. rewrite (victims_live _ _ _ _ Hs), Er.
    assert (∀ y, child s r y ↔ y ∈ d_subdirs d) as Hc by (intros y; unfold child, subdirs; by rewrite Hr).
    split.
    + intros (y & Hy & Hl & Hz). eapply step_rtc; [|done]. split; [by apply Hc|done].
    + intros Hz. inversion Hz as [? ? [Hw Hl]|? w ? [Hw Hl] Hz']; subst.
      * exists z. by rewrite <-Hc.
      * exists w. rewrite <-Hc. split_and!; [done|done|by apply tc_rtc].
  - intros Q HQ. unfold d_genocide, walk_fuel. wp_step. wp_step; [exact Hr|]. wp_step. wp_step.
    pose proof (shaped_size _ _ _ Hs Hndf) as Hsz. rewrite <-Er.
    apply (wp_loop_more _ (2 * length (nodes f) + 1)); [|lia].
    apply (wp_genocide_forest r f s r d []); try done. cbn [loop]. unfold d_genocide_body.
    rewrite Z.eqb_refl. cbn [negb]. by wp_run.
Qed.
