(* ===== verification/Shrink.v ===== *)
(** * Shrinking the dentry cache below a root (fs/dcache.c)

    [shrink_dcache_parent] and [shrink_dcache_anon] collect the unused dentries
    at the end of the LRU list and prune as many, until none is found.  Each
    round frees a dentry or takes its second chance away, so the rounds end, and
    at the end no unused dentry is left. *)

From stdpp Require Import relations.
From S2P Require Import Prelude KString Kernel Links Inode InodeInv Dcache DcacheInv DcacheOps Prune Walk.

(** ** Selecting one dentry *)

(** Only places on the LRU list differ. *)
Definition lru_only (s s' : kstate) : Prop :=
  ∀ x, (λ d, d <| d_lru := false |>) <$> dentries s' !! x = (λ d, d <| d_lru := false |>) <$> dentries s !! x.

#[export] Instance lru_only_preorder : PreOrder lru_only.
Proof. split; [by intros s x|]. intros s1 s2 s3 H1 H2 x. by rewrite H2, H1. Qed.

Lemma lru_only_dentry s s' x d :
  lru_only s s' → dentries s !! x = Some d →
  ∃ d', dentries s' !! x = Some d' ∧ d' <| d_lru := false |> = d <| d_lru := false |>.
Proof.
  intros H Hx. specialize (H x). rewrite Hx in H. simpl in H.
  destruct (dentries s' !! x) as [d'|]; [|done]. apply (inj Some) in H. eauto.
Qed.

Lemma lru_only_tree s s' : lru_only s s' → same_tree s s'.
Proof.
  intros H x d Hx. destruct (lru_only_dentry _ _ _ _ H Hx) as (d' & Hx' & E). exists d'.
  split; [done|]. by injection E.
Qed.

Lemma lru_only_update s s' x d d' :
  dentries s !! x = Some d → dentries s' = <[x := d']> (dentries s) →
  d' <| d_lru := false |> = d <| d_lru := false |> → lru_only s s'.
Proof. intros Hx E Ed y. rewrite E. map_cases; [rewrite Hx; simpl; congruence|done]. Qed.

(** In use, and not on the LRU list. *)
Definition in_use (s : kstate) (x : ptr) : Prop :=
  ∃ d, dentries s !! x = Some d ∧ d_count d ≠ 0 ∧ d_lru d = false.

(** A selection that has visited [V] and found [found] unused dentries. *)
Record selecting (dext iext : refs) (s0 : kstate) (V : list ptr) (found : nat) (s : kstate) : Prop :=
    mkSelecting {
  se_reclaimed : reclaimed dext iext s0 s;
  se_lru_only : lru_only s0 s;
  se_seen : found = O → ∀ x, x ∈ V → in_use s x;
  se_tail : (0 < found)%nat → tail_free s
}.

Lemma off_lru_list dext iext s x d :
  vfs_inv dext iext s → dentries s !! x = Some d → d_lru d = false → x ∉ dentry_unused s.
Proof.
  intros Hv Hx Hl Hin. destruct (lru_dentry _ _ _ _ Hv Hin) as (d' & Hx' & Hl'). congruence.
Qed.

Lemma last_list_del x y l : last l = Some y → y ≠ x → last (list_del x l) = Some y.
Proof.
  intros (l' & ->)%last_Some Hy. unfold list_del. rewrite filter_app, filter_cons_True by done.
  apply last_snoc.
Qed.

(** It leaves the list. *)
Lemma wp_select_del dext iext x d s :
  vfs_inv dext iext s → dentries s !! x = Some d →
  wp (mwhen (d_lru d) (modify (λ s, s <| nr_unused_dentry ::= λ n, n - 1 |>) ;; d_lru_del x))
    (λ _ s', reclaimed dext iext s s' ∧ dentries s' = <[x := d <| d_lru := false |>]> (dentries s) ∧
       dentry_unused s' = list_del x (dentry_unused s)) s.
Proof.
  intros Hv Hx. wp_if Hl.
  - unfold d_lru_del. wp_run. destruct (off_lru_inv _ _ _ _ _ Hv Hx Hl) as [_ Hr].
    match goal with |- reclaimed _ _ _ ?st ∧ _ => assert (st = off_lru x d s) as -> by (unfold off_lru; kstate_eq) end.
    done.
  - split_and!; [by apply reclaimed_refl| |].
    + rewrite insert_id; [done|]. rewrite Hx. destruct d. simpl in *. by subst.
    + symmetry. apply list_del_notin. by eapply off_lru_list.
Qed.

(** It comes to the end of the list. *)
Lemma add_tail_inv dext iext x d s s' :
  vfs_inv dext iext s → dentries s !! x = Some d → d_lru d = false →
  s' = s <| dentry_unused ::= (.++ [x]) |> <| dentries ::= <[x := d <| d_lru := true |>]> |>
         <| nr_unused_dentry ::= Z.add 1 |> →
  reclaimed dext iext s s'.
Proof.
  intros Hv Hx Hl ->. apply (reclaimed_one _ _ _ _ x d (d <| d_lru := true |>) Hx); try done.
  apply (vfs_inv_lru_add dext iext s _ x d (d <| d_lru := true |>)); try done.
  - by destruct (dc_ok _ _ (vi_dcache _ _ _ Hv) _ _ Hx).
  - simpl. by rewrite <-Permutation_cons_append.
  - simpl. lia.
Qed.

Lemma wp_select_one dext iext s0 V found x d s :
  selecting dext iext s0 V found s → dentries s !! x = Some d →
  wp (select_one x d) (λ _ s', selecting dext iext s0 (x :: V)
    (if d_count d =? 0 then S found else found) s') s.
Proof.
  intros [Hr Ho Hs Ht] Hx. unfold select_one. wp_step.
  eapply wp_mono; [apply (wp_select_del _ _ _ _ _ (rc_vfs _ _ _ _ Hr) Hx)|].
  intros _ s1 (Hr1 & E1 & U1). assert (dentries s1 !! x = Some (d <| d_lru := false |>)) as Hx1
    by (by rewrite E1, lookup_insert_eq).
  assert (lru_only s0 s1) as Ho1 by (etrans; [done|by eapply lru_only_update]).
  assert (reclaimed dext iext s0 s1) as Hr1' by (by eapply reclaimed_trans).
  destruct (d_count d =? 0) eqn:Ec; bool_to_prop; cbn [mwhen].
  - unfold d_lru_add_tail. wp_run. split.
    + eapply reclaimed_trans; [done|]. eapply (add_tail_inv _ _ x _ s1 _ (rc_vfs _ _ _ _ Hr1) Hx1); done.
    + etrans; [done|]. by eapply (lru_only_update _ _ x _ _ Hx1).
    + done.
    + intros _. do 2 eexists. simpl. rewrite last_snoc, lookup_insert_eq. done.
  - wp_run. split; [done|done| |].
    + intros E z [->|Hz]%elem_of_cons; [by exists (d <| d_lru := false |>)|].
      destruct (Hs E z Hz) as (dz & Hz' & ? & ?). unfold in_use. rewrite E1. map_cases; [|by eauto].
      simplify_eq. by exists (d <| d_lru := false |>).
    + intros Hf. destruct (Ht Hf) as (y & dy & El & Hy & Hc). exists y.
      assert (y ≠ x) by (intros ->; congruence). exists dy. split_and!; [|by rewrite E1, lookup_insert_ne|done].
      rewrite U1. by apply last_list_del.
Qed.

Lemma selecting_resched dext iext s0 V found s l :
  selecting dext iext s0 V found s → selecting dext iext s0 V found (s <| resched := l |>).
Proof.
  intros [[[Hd Hi] Hf Hk Hs Hw] Ho Hv Ht]. split; try done. split; try done.
  split; [by apply (dcache_inv_ext _ _ _ _ Hd)|by apply (inode_inv_ext _ _ _ _ Hi)].
Qed.

Lemma wp_may_resched dext iext s0 V found s :
  selecting dext iext s0 V found s →
  wp (match found with O => mret false | S _ => need_resched end)
    (λ out s', selecting dext iext s0 V found s' ∧ (out = true → (0 < found)%nat)) s.
Proof.
  intros Hs. destruct found as [|n]; [wp_step; done|]. unfold need_resched, wp.
  destruct (resched s) as [|b l]; [done|]. split; [by apply selecting_resched|lia].
Qed.

(** ** select_parent *)

Section select.
Context (dext iext : refs) (s0 : kstate) (root : ptr) (Q : nat → kstate → Prop).
Hypothesis early : ∀ V found s, selecting dext iext s0 V found s → (0 < found)%nat → Q found s.

Lemma wp_select_forest f : ∀ p pd pre n V found s,
  shaped s0 p f → dentries s0 !! p = Some pd → d_subdirs pd = pre ++ roots f → NoDup (d_subdirs pd) →
  root ∉ nodes f → selecting dext iext s0 V found s →
  (∀ V' found' s', selecting dext iext s0 V' found' s' → V ⊆ V' → nodes f ⊆ V' →
     wp (loop n (select_parent_body root) (p, [], found')) Q s') →
  wp (loop (2 * length (nodes f) + n) (select_parent_body root) (p, roots f, found)) Q s.
Proof.
  induction f as [|x c IHc r IHr]; intros p pd pre n V found s Hs Hpd Hsub Hnd Hroot Hsel HQ.
  { apply (HQ V); [done|done|set_solver]. }
  simpl in Hs, Hroot, Hsub. destruct Hs as ((d0 & Hx0 & Ec & Ep & Es & Hndc) & Hc & Hr).
  assert (x ≠ root ∧ (root ∉ nodes c) ∧ (root ∉ nodes r)) as (Hxr & Hrc & Hrr) by set_solver.
  assert (d_subdirs pd = (pre ++ [x]) ++ roots r) as Hsub' by (by rewrite <-app_assoc).
  destruct (lru_only_tree _ _ (se_lru_only _ _ _ _ _ _ Hsel) _ _ Hx0) as (d & Hx & _ & _ & F3).
  cbn [nodes length] in HQ |- *. rewrite length_app.
  replace (2 * S (length (nodes c) + length (nodes r)) + n)%nat
    with (S (2 * length (nodes c) + S (2 * length (nodes r) + n))) by lia.
  cbn [loop roots]. wp_step. unfold select_parent_body at 1. wp_step. wp_step; [exact Hx|]. wp_step.
  eapply wp_mono; [by apply (wp_select_one _ _ _ _ _ _ _ _ Hsel Hx)|]. intros [] s1 Hsel1.
  set (found1 := if d_count d =? 0 then S found else found) in *. clearbody found1.
  wp_step. eapply wp_mono; [by apply (wp_may_resched _ _ _ _ _ _ Hsel1)|].
  intros out s2 [Hsel2 Hout]. destruct out; [wp_step; wp_step; by apply (early (x :: V)), Hout|].
  rewrite F3, Es. destruct (roots c) as [|y l] eqn:Erc.
  - destruct c; [|done]. wp_step. apply (wp_loop_more _ (2 * length (nodes r) + n)); [|lia].
    apply (IHr p pd (pre ++ [x]) n (x :: V)); try done.
    intros V' found' s' Hsel' H1 H2. apply (HQ V'); [done|set_solver|set_solver].
  - wp_step. apply (IHc x d0 [] _ (x :: V)); try congruence; [by rewrite Es|].
    intros V3 found3 s3 Hsel3 H1 H2. cbn [loop]. wp_step. unfold select_parent_body at 1.
    rewrite (proj2 (Z.eqb_neq _ _) Hxr). cbn [negb]. wp_step.
    destruct (lru_only_tree _ _ (se_lru_only _ _ _ _ _ _ Hsel3) _ _ Hx0) as (d3 & Hx3 & A1 & A2 & A3).
    destruct (lru_only_tree _ _ (se_lru_only _ _ _ _ _ _ Hsel3) _ _ Hpd) as (pd3 & Hpd3 & B1 & B2 & B3).
    apply (wp_walk_ascend s3 p pd3 x d3 pre (roots r)); try congruence. wp_step.
    apply (IHr p pd (pre ++ [x]) n V3); try done.
    intros V' found' s' Hsel' H3 H4. apply (HQ V'); [done|set_solver|set_solver].
Qed.
End select.

(** One selection below a root: either the end of the LRU list can be pruned, or
    every dentry below is in use. *)
Definition selected (dext iext : refs) (s : kstate) (below : ptr → Prop) (found : nat) (s' : kstate) : Prop :=
  reclaimed dext iext s s' ∧ ((0 < found)%nat → tail_free s') ∧
  (found = O → lru_only s s' ∧ ∀ z, below z → in_use s' z).

Lemma wp_select_parent dext iext r d s :
  vfs_inv dext iext s → dentries s !! r = Some d → d_parent d = r →
  wp (select_parent r) (selected dext iext s (tc (child s) r)) s.
Proof.
  intros Hv Hr Hp.
  destruct (forest_of_root _ _ _ _ (vi_dcache _ _ _ Hv) Hr Hp) as (f & Er & Hs & Hnd & Hndf & Hn).
  apply NoDup_cons in Hndf as [Hrf Hndf]. unfold select_parent, walk_fuel.
  wp_step. wp_step; [exact Hr|]. wp_step. wp_step. rewrite <-Er.
  pose proof (shaped_size _ _ _ Hs Hndf) as Hsz.
  apply (wp_loop_more _ (2 * length (nodes f) + 1)); [|lia].
  assert (∀ V found s', selecting dext iext s V found s' → (0 < found)%nat →
    selected dext iext s (tc (child s) r) found s') as Hearly.
  { intros V found s' [Hrc Ho _ Ht] Hf. split_and!; [done|done|lia]. }
  apply (wp_select_forest dext iext s r _ Hearly f r d [] 1 []); try done.
  - split; [by apply reclaimed_refl|done|by intros _ z ?%elem_of_nil|lia].
  - intros V found s' [Hrc Ho Hsn Ht] _ HV. cbn [loop]. unfold select_parent_body.
    rewrite Z.eqb_refl. cbn [negb]. wp_run. split_and!; [done|done|].
    intros E. split; [done|]. intros z Hz%Hn%HV. by apply Hsn.
Qed.

(** ** The rounds *)

Lemma weight_bound s : (weight s ≤ 3 * size (dentries s))%nat.
Proof.
  unfold weight. induction (dentries s) as [|x d m Hx IH] using map_ind; [done|].
  rewrite (weight_delete _ x d) by apply lookup_insert_eq. rewrite delete_insert_id by done.
  rewrite map_size_insert_None by done. pose proof (dweight_bounds d). lia.
Qed.

(** The root stays a root. *)
Lemma reclaimed_root dext iext s s' r d :
  reclaimed dext iext s s' → dentries s !! r = Some d → d_parent d = r → 0 < dext r →
  ∃ d', dentries s' !! r = Some d' ∧ d_parent d' = r.
Proof.
  intros Hr Hd Hp He. destruct (rc_survive _ _ _ _ Hr r He) as [d' Hd']; [by exists d|].
  exists d'. split; [done|]. destruct (rc_kept _ _ _ _ Hr _ _ Hd') as (d0 & Hd0 & E & _). congruence.
Qed.

Lemma lru_only_below s s' r z : lru_only s s' → tc (child s') r z → tc (child s) r z.
Proof.
  intros H. assert (∀ x y, child s' x y → child s x y) as Hc.
  { intros x y. unfold child, subdirs. specialize (H x).
    destruct (dentries s' !! x) as [d'|], (dentries s !! x) as [d|]; try done. simpl in *.
    apply (inj Some), (f_equal d_subdirs) in H. simpl in H. by rewrite H. }
  induction 1; [by constructor; apply Hc|by eapply tc_l; [apply Hc|]].
Qed.

(** When the shrinking is over, every dentry below the root is in use and off the
    LRU list. *)
Lemma wp_shrink_dcache_parent dext iext r d s :
  vfs_inv dext iext s → dentries s !! r = Some d → d_parent d = r → 0 < dext r →
  wp (shrink_dcache_parent r) (λ _ s', reclaimed dext iext s s' ∧
    ∀ z, tc (child s') r z → in_use s' z) s.
Proof.
  intros Hv Hr Hp He. unfold shrink_dcache_parent, shrink_fuel. wp_step. wp_step.
  pose proof (weight_bound s) as Hw.
  apply (wp_loop (λ _, reclaimed dext iext s) (λ _ s', weight s')); [|by apply reclaimed_refl|lia].
  intros _ s1 Hr1. destruct (reclaimed_root _ _ _ _ _ _ Hr1 Hr Hp He) as (d1 & Hd1 & Hp1).
  wp_step. eapply wp_mono; [by apply (wp_select_parent dext iext r d1); [apply Hr1|..]|].
  intros found s2 (Hr2 & Ht & Hn). assert (reclaimed dext iext s s2) as Hr2' by (by eapply reclaimed_trans).
  destruct found as [|n].
  - wp_step. destruct (Hn eq_refl) as [Ho Hu]. split; [done|]. intros z Hz. apply Hu. by eapply lru_only_below.
  - wp_step. eapply wp_mono; [apply (wp_prune_dcache dext iext); apply Hr2|].
    intros _ s3 [Hr3 Hw3]. wp_step. split; [by eapply reclaimed_trans|].
    pose proof (rc_weight _ _ _ _ Hr2). specialize (Hw3 ltac:(lia) (Ht ltac:(lia))). lia.
Qed.

(** ** Anonymous dentries *)

Lemma wp_select_anon dext iext s0 l V found s :
  selecting dext iext s0 V found s → (∀ x, x ∈ l → is_Some (dentries s0 !! x)) →
  wp (select_anon l found) (λ found' s', ∃ V', selecting dext iext s0 V' found' s' ∧ V ⊆ V' ∧ l ⊆ V') s.
Proof.
  revert V found s. induction l as [|x l IH]; intros V found s Hs Hl; cbn [select_anon].
  { wp_step. exists V. split_and!; [done|done|set_solver]. }
  destruct (Hl x) as [d0 Hx0]; [left|].
  destruct (lru_only_dentry _ _ _ _ (se_lru_only _ _ _ _ _ _ Hs) Hx0) as (d & Hx & _).
  wp_step. wp_step; [exact Hx|]. wp_step.
  eapply wp_mono; [by apply (wp_select_one _ _ _ _ _ _ _ _ Hs Hx)|]. intros [] s1 Hs1.
  eapply wp_mono; [apply (IH _ _ _ Hs1); intros y Hy; apply Hl; by right|].
  intros found' s' (V' & Hs' & H1 & H2). exists V'. split_and!; [done|set_solver|set_solver].
Qed.

Lemma wp_shrink_dcache_anon dext iext sb b s :
  vfs_inv dext iext s → supers s !! sb = Some b →
  wp (shrink_dcache_anon sb) (λ _ s', reclaimed dext iext s s' ∧
    ∀ z, z ∈ chain s' (InAnon sb) → in_use s' z) s.
Proof.
  intros Hv Hb. unfold shrink_dcache_anon, shrink_fuel. wp_step. wp_step.
  pose proof (weight_bound s) as Hw.
  apply (wp_loop (λ _, reclaimed dext iext s) (λ _ s', weight s')); [|by apply reclaimed_refl|lia].
  intros _ s1 Hr1. destruct (vframe_super _ _ _ _ (rc_frame _ _ _ _ Hr1) Hb) as (b1 & Hb1 & _).
  wp_step. wp_step; [exact Hb1|]. wp_step.
  assert (s_anon b1 = chain s1 (InAnon sb)) as Ea by (simpl; by rewrite Hb1).
  eapply wp_mono.
  { apply (wp_select_anon dext iext s1 _ []).
    - split; [apply reclaimed_refl, Hr1|done|by intros _ z ?%elem_of_nil|lia].
    - intros x Hx. rewrite Ea in Hx. apply (linked_iff _ _ (dc_chain _ _ (vi_dcache _ _ _ (rc_vfs _ _ _ _ Hr1)))) in Hx.
      unfold chain_node in Hx. by destruct (dentries s1 !! x). }
  intros found s2 (V & [Hr2 Ho Hsn Ht] & _ & HV).
  assert (reclaimed dext iext s s2) as Hr2' by (by eapply reclaimed_trans).
  wp_step. destruct found as [|n].
  - cbn [prune_dcache]. wp_run. split; [done|]. intros z Hz. apply Hsn, HV; [done|]. rewrite Ea.
    apply (linked_iff _ _ (dc_chain _ _ (vi_dcache _ _ _ (rc_vfs _ _ _ _ Hr1)))).
    apply (linked_iff _ _ (dc_chain _ _ (vi_dcache _ _ _ (rc_vfs _ _ _ _ Hr2)))) in Hz.
    rewrite <-Hz. unfold chain_node. specialize (Ho z).
    destruct (dentries s1 !! z) as [d1|], (dentries s2 !! z) as [d2|]; try done.
    apply (inj Some), (f_equal d_hash_node) in Ho. simpl in *. unfold on_chain. by rewrite Ho.
  - eapply wp_mono; [apply (wp_prune_dcache dext iext); apply Hr2|].
    intros _ s3 [Hr3 Hw3]. wp_step. split; [by eapply reclaimed_trans|].
    pose proof (rc_weight _ _ _ _ Hr2). specialize (Hw3 ltac:(lia) (Ht ltac:(lia))). lia.
Qed.

(** ** Dropping a tree *)

Lemma spend_in l dext z : z ∈ l → spend l dext z = dext z - 1.
Proof. intros. unfold spend. by rewrite decide_True. Qed.

Lemma spend_out l dext z : z ∉ l → spend l dext z = dext z.
Proof. intros. unfold spend. by rewrite decide_False. Qed.

Lemma dec_all_vframe s l : vframe s (dec_all s l).
Proof. revert s. induction l as [|x l IH]; intros s; [done|]. simpl. etrans; [|apply IH]. done. Qed.

Lemma dec_all_kept s l : kept s (dec_all s l).
Proof.
  revert s. induction l as [|x l IH]; intros s; [done|]. simpl. etrans; [|apply IH].
  intros y d'. unfold dec. simpl. destruct (decide (x = y)) as [->|Hne].
  - rewrite lookup_alter_eq. intros (d & Hd & ->)%fmap_Some. by exists d.
  - rewrite lookup_alter_ne by done. by exists d'.
Qed.

Lemma same_tree_below s s' r z : same_tree s s' → tc (child s) r z → tc (child s') r z.
Proof.
  intros H. assert (∀ x y, child s x y → child s' x y) as Hc.
  { intros x y. unfold child, subdirs. destruct (dentries s !! x) as [d|] eqn:E; [|by intros ?%elem_of_nil].
    destruct (H _ _ E) as (d' & -> & _ & _ & E'). simpl. by rewrite E'. }
  induction 1; [by constructor; apply Hc|by eapply tc_l; [apply Hc|]].
Qed.

(** What is left below the root was below it before. *)
Lemma kept_child dext dext' s s' x y :
  dcache_inv dext s → dcache_inv dext' s' → kept s s' → child s' x y → child s x y.
Proof.
  intros Hd Hd' Hk Hc. destruct (child_dentry_facts _ _ _ _ Hd' Hc) as (d' & Hy & _ & Hp & Hn & Hne).
  destruct (Hk _ _ Hy) as (d & Hy0 & Ep & _). apply (linked_iff _ _ (dc_sub _ _ Hd)).
  unfold child_node, on_child. rewrite Hy0. simpl.
  destruct (do_parent _ _ _ _ (dc_ok _ _ Hd _ _ Hy0)) as [(E1 & ? & ?)|[? ?]]; [|congruence].
  rewrite (proj2 (Z.eqb_neq (d_child d) NULL)) by congruence. congruence.
Qed.

(** And what is left at all of the dentries below is still below it. *)
Lemma kept_below dext dext' s s' r d z :
  dcache_inv dext s → dcache_inv dext' s' → kept s s' → is_Some (dentries s' !! r) →
  dentries s !! r = Some d → d_parent d = r →
  tc (child s) r z → is_Some (dentries s' !! z) → tc (child s') r z.
Proof.
  intros Hd Hd' Hk Hr' Hr Hp Hz. apply tc_rtc in Hz as Hrz.
  assert (z ≠ r) as Hne.
  { intros ->. eapply below_acyclic; [exact Hd|by exists d|exact Hrz|done]. }
  clear Hz. revert z Hrz Hne. apply (rtc_ind_r (λ z, z ≠ r → is_Some (dentries s' !! z) → _)); [done|].
  intros x z _ Hxz IH Hne [dz Hdz].
  assert (child s' x z) as Hc.
  { destruct (Hk _ _ Hdz) as (d0 & Hd0 & Ep & _).
    destruct (child_dentry_facts _ _ _ _ Hd Hxz) as (d1 & Hd1 & _ & Hp1 & Hn1 & Hne1).
    apply (linked_iff _ _ (dc_sub _ _ Hd')). unfold child_node, on_child. rewrite Hdz. simpl.
    destruct (do_parent _ _ _ _ (dc_ok _ _ Hd' _ _ Hdz)) as [(E1 & ? & ?)|[? ?]]; [|congruence].
    rewrite (proj2 (Z.eqb_neq (d_child dz) NULL)) by congruence. congruence. }
  destruct (decide (x = r)) as [->|Hxr]; [by constructor|].
  eapply tc_r; [|done]. apply IH; [done|]. by eapply child_dom.
Qed.

Lemma tc_mono {A} (R R' : relation A) x z : (∀ x y, R x y → R' x y) → tc R x z → tc R' x z.
Proof. intros H. induction 1; [by constructor; apply H|by eapply tc_l; [apply H|]]. Qed.

Lemma rtc_snoc {A} (R : relation A) x y z : rtc R x y → R y z → tc R x z.
Proof. intros Hxy Hyz. apply (tc_rtc_l _ y); [done|by constructor]. Qed.

(** Below a root where all dentries can be looked up, the walk gets everywhere. *)
Lemma all_live s r z :
  (∀ z, tc (child s) r z → live s z = true) → tc (child s) r z → tc (live_child s) r z.
Proof.
  intros Hall. assert (∀ z, rtc (child s) r z → rtc (live_child s) r z) as Hlift.
  { apply rtc_ind_r; [done|]. intros x y Hx Hxy IH. eapply rtc_r; [exact IH|]. split; [done|].
    by apply Hall, (rtc_snoc _ _ x). }
  intros Hz. pose proof (Hall z Hz). apply tc_last in Hz as (y & Hy & Hyz).
  by apply (rtc_snoc _ _ y); [apply Hlift|].
Qed.

(** When nothing below the root has a reference from outside and everything is in
    use, there is nothing: a leaf would be unused. *)
Lemma nothing_below dext iext s r d :
  vfs_inv dext iext s → dentries s !! r = Some d → d_parent d = r →
  (∀ z, tc (child s) r z → in_use s z ∧ dext z = 0) → ∀ z, ¬ tc (child s) r z.
Proof.
  intros [Hd _] Hr Hp Hall z Hz. assert (is_root s r) as Hroot by (by exists d).
  pose proof (below_sn _ _ _ Hd Hroot z (tc_rtc _ _ Hz)) as Hsn. revert Hz.
  induction Hsn as [z _ IH]. intros Hz. destruct (Hall z Hz) as [(dz & Hdz & Hc & _) He].
  pose proof (do_count _ _ _ _ (dc_ok _ _ Hd _ _ Hdz)) as Hcnt. rewrite He in Hcnt.
  destruct (d_subdirs dz) as [|y l] eqn:Es; [done|].
  assert (child s z y) as Hy by (unfold child, subdirs; rewrite Hdz; simpl; rewrite Es; left).
  apply (IH y); [split; [by apply tc_rtc|done]|]. by eapply tc_r.
Qed.

(** A tree whose dentries can be looked up is dropped: what has one reference
    goes, what has more stays. *)
Lemma wp_drop_tree dext iext r d s :
  vfs_inv dext iext s → dentries s !! r = Some d → d_parent d = r → 0 < dext r →
  (∀ z, tc (child s) r z → live s z = true ∧ 0 < dext z) →
  wp (d_genocide r ;; shrink_dcache_parent r) (λ _ s', ∃ l,
    (∀ z, z ∈ l ↔ tc (child s) r z) ∧ vfs_inv (spend l dext) iext s' ∧ vframe s s' ∧
    is_Some (dentries s' !! r) ∧
    (∀ z, z ∈ l → 1 < dext z → is_Some (dentries s' !! z)) ∧
    ((∀ z, z ∈ l → dext z = 1) → ∀ z, z ∈ l → dentries s' !! z = None)) s.
Proof.
  intros Hv Hr Hp He Hall. pose proof (vi_dcache _ _ _ Hv) as Hd.
  destruct (wp_d_genocide _ _ _ _ Hd Hr Hp) as (l & Hnd & Hl' & Hwp).
  assert (∀ z, z ∈ l ↔ tc (child s) r z) as Hl.
  { intros z. rewrite Hl'. split; [apply tc_mono; by intros ? ? []|].
    apply all_live. intros y Hy. by apply Hall. }
  wp_step. apply Hwp.
  assert (vfs_inv (spend l dext) iext (dec_all s l)) as Hv1.
  { apply vfs_inv_dec_all; [done|done|]. intros x Hx%Hl. split; [by apply Hall|].
    apply tc_last in Hx as (y & _ & Hc). destruct (child_dentry_facts _ _ _ _ Hd Hc) as (? & ? & _). eauto. }
  assert (r ∉ l) as Hrl.
  { rewrite Hl. by eapply below_acyclic; [exact Hd|exists d|]. }
  pose proof (dec_all_tree s l) as Ht1. pose proof (dec_all_kept s l) as Hk1.
  pose proof (dec_all_vframe s l) as Hf1.
  generalize dependent (dec_all s l). intros s1 Hwp Hv1 Ht1 Hk1 Hf1.
  destruct (Ht1 _ _ Hr) as (d1 & Hr1 & _ & Hp1 & _). rewrite Hp in Hp1.
  eapply wp_mono; [apply (wp_shrink_dcache_parent _ _ r d1 s1 Hv1 Hr1 Hp1); by rewrite spend_out|].
  intros _ s2 [Hrc Hu]. exists l. pose proof Hrc as [Hv2 Hf2 Hk2 Hs2 _].
  split_and!; [done|done|by etrans|apply Hs2; [by rewrite spend_out|by exists d1]| |].
  - intros z Hz Hz1. apply Hs2; [rewrite spend_in by done; lia|].
    apply Hl in Hz. apply (same_tree_below _ _ _ _ Ht1), tc_last in Hz as (y & _ & Hc).
    destruct (child_dentry_facts _ _ _ _ (vi_dcache _ _ _ Hv1) Hc) as (? & ? & _). eauto.
  - intros Hone z Hz. destruct (dentries s2 !! z) as [dz|] eqn:Ez; [|done]. exfalso.
    assert (kept s s2) as Hk by (by etrans).
    destruct (reclaimed_root _ _ _ _ _ _ Hrc Hr1 Hp1) as (d2 & Hr2 & Hp2); [by rewrite spend_out|].
    apply (nothing_below _ _ s2 r d2 Hv2 Hr2 Hp2) with z.
    + intros y Hy. split; [by apply Hu|].
      assert (y ∈ l) as Hyl.
      { apply Hl. eapply tc_mono; [|exact Hy]. intros a b.
        by apply (kept_child _ _ _ _ _ _ Hd (vi_dcache _ _ _ Hv2)). }
      rewrite spend_in by done. rewrite Hone by done. done.
    + apply (kept_below _ _ _ _ r d z Hd (vi_dcache _ _ _ Hv2) Hk); eauto. by apply Hl.
Qed.

(** ** Theorems *)

(** C24: Shrinking the cache below a root that is in use never faults, and its
    rounds end, since each frees a dentry or takes a second chance away.  When it
    ends every dentry below the root is in use and off the LRU list; the caches
    keep their invariant with the same references, and a dentry that somebody
    holds a reference to is not freed. *)
Theorem shrink_dcache_parent_correct dext iext r d s :
  vfs_inv dext iext s → dentries s !! r = Some d → d_parent d = r → 0 < dext r →
  wp (shrink_dcache_parent r) (λ _ s', vfs_inv dext iext s' ∧ vframe s s' ∧
    (∀ x, 0 < dext x → is_Some (dentries s !! x) → is_Some (dentries s' !! x)) ∧
    ∀ z, tc (child s') r z → ∃ d', dentries s' !! z = Some d' ∧ d_count d' ≠ 0 ∧ d_lru d' = false) s.
Proof.
  intros Hv Hr Hp He. eapply wp_mono; [by apply (wp_shrink_dcache_parent dext iext r d s)|].
  intros _ s' [[] Hu]. done.
Qed.

(** C20: Killing a litter, a tree of dentries that are pinned by a reference of
    their own: [d_genocide] takes one reference from every dentry below the root,
    and the shrinking frees what is unused then.  If each dentry had one reference
    from outside, the whole tree goes; every dentry that had more stays, whatever
    the shape of the tree. *)
Theorem litter_tree dext iext r d s :
  vfs_inv dext iext s → dentries s !! r = Some d → d_parent d = r → 0 < dext r →
  (∀ z, tc (child s) r z → live s z = true ∧ 0 < dext z) →
  wp (d_genocide r ;; shrink_dcache_parent r) (λ _ s', ∃ l,
    (∀ z, z ∈ l ↔ tc (child s) r z) ∧ vfs_inv (spend l dext) iext s' ∧ vframe s s' ∧
    is_Some (dentries s' !! r) ∧
    (∀ z, z ∈ l → 1 < dext z → is_Some (dentries s' !! z)) ∧
    ((∀ z, z ∈ l → dext z = 1) → ∀ z, z ∈ l → dentries s' !! z = None)) s.
Proof. apply wp_drop_tree. Qed.
