(* ===== verification/VfsCheck.v ===== *)
(** * A checker of the cache invariant

    The invariant of the two caches speaks of every address; on a given state it
    is decided by looking at the objects of the state.  [vfs_check] does so, and
    is sound: a state on which it evaluates to [true] satisfies the invariant,
    with the external references read off the counts. *)

From S2P Require Import Prelude KString Kernel Links Inode InodeInv Dcache DcacheInv.

(** ** Lists and their nodes *)

Section linked.
Context {K V : Type} `{EqDecision K}.
Implicit Types (H : K → list Z) (m : gmap Z V) (on : V → option K).

Definition linked_check (ks : list K) H m on : bool :=
  forallb (λ k, bool_decide (NoDup (H k)) &&
                forallb (λ x, bool_decide (m !! x ≫= on = Some k)) (H k)) ks &&
  forallb (λ e, match on e.2 with Some k => bool_decide (e.1 ∈ H k) | None => true end)
    (map_to_list m).

Lemma linked_check_sound ks H m on :
  (∀ k, H k ≠ [] → k ∈ ks) → linked_check ks H m on = true → linked H (λ x, m !! x ≫= on).
Proof.
  intros Hks [H1 H2]%andb_true_iff. rewrite forallb_forall in H1, H2.
  assert (∀ k, k ∈ ks → NoDup (H k) ∧ ∀ x, x ∈ H k → m !! x ≫= on = Some k) as Hk.
  { intros k Hin. apply list_elem_of_In in Hin. specialize (H1 _ Hin).
    apply andb_true_iff in H1 as [Hnd%bool_decide_eq_true Hx]. split; [done|].
    intros x Hxk. rewrite forallb_forall in Hx. apply list_elem_of_In in Hxk.
    by apply (bool_decide_eq_true _), Hx. }
  split.
  - intros k. destruct (decide (H k = [])) as [->|Hne]; [apply NoDup_nil_2|]. by apply Hk, Hks.
  - intros x k. split.
    + intros Hx. apply Hk; [|done]. apply Hks. intros E. rewrite E in Hx. by apply elem_of_nil in Hx.
    + intros Hx. destruct (m !! x) as [v|] eqn:Ev; simpl in Hx; [|done].
      assert (In (x, v) (map_to_list m)) as Hin.
      { by apply list_elem_of_In, elem_of_map_to_list. }
      specialize (H2 _ Hin). simpl in H2. rewrite Hx in H2. by apply bool_decide_eq_true in H2.
Qed.
End linked.

Definition keys {V} (m : gmap Z V) : list Z := (map_to_list m).*1.

Lemma elem_of_keys {V} (m : gmap Z V) x : x ∈ keys m ↔ is_Some (m !! x).
Proof.
  unfold keys. rewrite list_elem_of_fmap. split.
  - intros ([y v] & -> & Hin). apply elem_of_map_to_list in Hin. eauto.
  - intros [v Hv]. exists (x, v). split; [done|]. by apply elem_of_map_to_list.
Qed.

(** A property of every object of a map. *)
Definition all_check {V} (P : Z → V → bool) (m : gmap Z V) : bool :=
  forallb (λ e, P e.1 e.2) (map_to_list m).

Lemma all_check_sound {V} (P : Z → V → bool) (m : gmap Z V) x v :
  all_check P m = true → m !! x = Some v → P x v = true.
Proof.
  unfold all_check. rewrite forallb_forall. intros H Hx.
  apply (H (x, v)). by apply list_elem_of_In, elem_of_map_to_list.
Qed.

(** ** The inode cache *)

(** The references that the dentries of an inode do not explain. *)
Definition iext_of (s : kstate) : refs := λ x,
  match inodes s !! x with
  | Some i => i_count i - Z.of_nat (length (i_dentry i))
  | None => 0
  end.

Definition inode_check (s : kstate) (x : Z) (i : inode) : bool :=
  (i_sb_list i =? i_sb i) && negb (i_sb i =? NULL) && (0 <=? iext_of s x) &&
  negb (has_flag (i_state i) I_BUSY) &&
  (match i_hash i with InAnon _ => false | _ => true end) &&
  (0 <? x) && (x <? slab_next s).

Definition icache_check (s : kstate) : bool :=
  linked_check [OnInUse; OnUnused] (ilist_head s) (inodes s) on_ilist &&
  linked_check (keys (supers s)) (sb_inodes s) (inodes s) on_sb_list &&
  linked_check (keys (inode_hashtable s)) (ihash_head s) (inodes s) on_bucket &&
  all_check (inode_check s) (inodes s) &&
  (nr_inodes s =? Z.of_nat (size (inodes s))) && (0 <? slab_next s).

Lemma icache_check_sound s : icache_check s = true → inode_inv (iext_of s) s.
Proof.
  unfold icache_check. intros Hc. bool_to_prop. split; try done.
  - eapply linked_check_sound; [|done]. intros []; simpl; set_solver.
  - eapply linked_check_sound; [|done]. intros k. rewrite elem_of_keys. unfold sb_inodes.
    destruct (supers s !! k); [by eauto|done].
  - eapply linked_check_sound; [|done]. intros k. rewrite elem_of_keys. unfold ihash_head.
    destruct (inode_hashtable s !! k); [by eauto|done].
  - intros x i Hx. pose proof (all_check_sound _ _ _ _ H2 Hx) as Hi. unfold inode_check in Hi.
    bool_to_prop. split; try done.
    + unfold iext_of. rewrite Hx. lia.
    + destruct (i_hash i); [by left|by right; eauto|done].
  - intros x [i Hx]. pose proof (all_check_sound _ _ _ _ H2 Hx) as Hi. unfold inode_check in Hi.
    by bool_to_prop.
Qed.

(** ** The dentry cache *)

Definition dext_of (s : kstate) : refs := λ x,
  match dentries s !! x with
  | Some d => d_count d - Z.of_nat (length (d_subdirs d))
  | None => 0
  end.

Definition dentry_check (s : kstate) (x : Z) (d : dentry) : bool :=
  eqb (d_unhashed d) (bool_decide (d_hash_node d = Unlinked)) &&
  (match d_hash_node d with InBucket b => b =? home_bucket s d | _ => true end) &&
  (d_alias d =? d_inode d) &&
  (if d_child d =? NULL then d_parent d =? x
   else (d_child d =? d_parent d) && negb (d_parent d =? x)) &&
  (0 <=? dext_of s x) && (0 <? x) && (x <? slab_next s).

Definition dcache_check (s : kstate) : bool :=
  linked_check (keys (dentries s)) (subdirs s) (dentries s) on_child &&
  linked_check (keys (inodes s)) (aliases s) (dentries s) on_alias &&
  linked_check ((InBucket <$> keys (dentry_hashtable s)) ++ (InAnon <$> keys (supers s)))
    (chain s) (dentries s) on_chain &&
  linked_check [tt] (lru s) (dentries s) on_lru &&
  all_check (dentry_check s) (dentries s) &&
  (nr_dentry s =? Z.of_nat (size (dentries s))) &&
  (nr_unused_dentry s =? Z.of_nat (length (dentry_unused s))).

Lemma dcache_check_sound s : dcache_check s = true → dcache_inv (dext_of s) s.
Proof.
  unfold dcache_check. intros Hc. bool_to_prop. split; try done.
  - eapply linked_check_sound; [|done]. intros k. rewrite elem_of_keys. unfold subdirs.
    destruct (dentries s !! k); [by eauto|done].
  - eapply linked_check_sound; [|done]. intros k. rewrite elem_of_keys. unfold aliases.
    destruct (inodes s !! k); [by eauto|done].
  - eapply linked_check_sound; [|done]. intros k. rewrite elem_of_app, !list_elem_of_fmap.
    destruct k as [|b|sb]; simpl; [done| |].
    + destruct (dentry_hashtable s !! b) eqn:E; [|done]. left. exists b.
      split; [done|]. apply elem_of_keys. eauto.
    + destruct (supers s !! sb) eqn:E; [|done]. right. exists sb.
      split; [done|]. apply elem_of_keys. eauto.
  - eapply linked_check_sound; [|done]. intros []. set_solver.
  - intros x d Hx. pose proof (all_check_sound _ _ _ _ H2 Hx) as Hd. unfold dentry_check in Hd.
    bool_to_prop. split; try done.
    + by apply eqb_prop.
    + intros b Eb. rewrite Eb in *. by bool_to_prop.
    + destruct (d_child d =? NULL) eqn:Ec; bool_to_prop; [by right|left].
      split_and!; congruence.
    + unfold dext_of. rewrite Hx. lia.
  - intros x [d Hx]. pose proof (all_check_sound _ _ _ _ H2 Hx) as Hd. unfold dentry_check in Hd.
    by bool_to_prop.
Qed.

Definition vfs_check (s : kstate) : bool := dcache_check s && icache_check s.

Lemma vfs_check_sound s : vfs_check s = true → vfs_inv (dext_of s) (iext_of s) s.
Proof.
  intros [H1 H2]%andb_true_iff. split; [by apply dcache_check_sound|by apply icache_check_sound].
Qed.
