(* ===== verification/Super.v ===== *)
(** * Superblocks (fs/super.c)

    Reference counting, creation, lookup and shutdown of superblocks.  Two
    counts protect a superblock: [s_count] holds the structure (with the bias
    S_BIAS while it is active) and [s_active] holds its contents; the
    semaphore [s_umount] serialises mounting and unmounting. *)

From S2P Require Import Prelude KString Kernel Filesystems Inode Dcache.

(** ** The identifiers of unnamed devices

    lib/idr.c is used through its contract: a set of identifiers of which
    [idr_get_new] hands out the least free one. *)

(** MAX_ID_BIT - 1 for 32-bit identifiers *)
Definition MAX_ID_MASK : Z := 2147483647.

Definition idr_pre_get : KM bool := p ← kmem_alloc; mret (negb (p =? NULL)).

Fixpoint least_free (fuel : nat) (used : gset Z) (n : Z) : Z :=
  match fuel with
  | O => n
  | S k => if bool_decide (n ∈ used) then least_free k used (n + 1) else n
  end.

Definition idr_get_new : KM Z :=
  used ← gets unnamed_dev_idr;
  let id := least_free (S (size used)) used 0 in
  modify (λ s, s <| unnamed_dev_idr ::= union {[id]} |>) ;;
  mret id.

Definition idr_remove (id : Z) : KM unit :=
  modify (λ s, s <| unnamed_dev_idr ::= λ u, u ∖ {[id]} |>).

(** ** Creation and destruction *)

Definition alloc_super : KM ptr :=
  s ← kmem_alloc;
  if s =? NULL then mret NULL
  else
    let b := {|
      s_list := false; s_dev := 0; s_blocksize := 0; s_blocksize_bits := 0;
      s_dirt := false; s_maxbytes := MAX_NON_LFS; s_type := NULL; s_op := default_op;
      s_flags := 0; s_magic := 0; s_root := NULL;
      s_umount := -1;      (* down_write *)
      s_count := S_BIAS; s_active := 1;
      s_inodes := []; s_anon := []; s_files := []; s_bdev := NULL;
      s_instances := NULL; s_id := []; s_time_gran := 1000000000
    |} in
    modify (λ k, k <| supers ::= <[s := b]> |>) ;;
    mret s.

Definition destroy_super (s : ptr) : KM unit :=
  get_super s ;; modify (λ k, k <| supers ::= delete s |>).

Definition __put_super (sb : ptr) : KM bool :=
  mod_super sb (λ b, b <| s_count ::= λ c, c - 1 |>) ;;
  b ← get_super sb;
  if s_count b =? 0 then destroy_super sb ;; mret true else mret false.

Definition __put_super_and_need_restart (sb : ptr) : KM bool :=
  b ← get_super sb;
  if negb (s_list b) then __put_super sb ;; mret true
  else
    mod_super sb (λ b, b <| s_count ::= λ c, c - 1 |>) ;;
    bug_on (s_count b - 1 =? 0) ;;
    mret false.

Definition put_super (sb : ptr) : KM unit := __put_super sb ;; mret tt.

(** ** Shutdown *)

(** [list_del_init (&sb->s_list); list_del (&sb->s_instances);] *)
Definition s_list_del (sb : ptr) : KM unit :=
  modify (λ k, k <| super_blocks ::= list_del sb |>) ;;
  mod_super sb (λ b, b <| s_list := false |>).
Definition s_instances_del (sb : ptr) : KM unit :=
  b ← get_super sb;
  if s_instances b =? NULL then mret tt
  else
    mod_fstype (s_instances b) (λ t, t <| fs_supers ::= list_del sb |>) ;;
    mod_super sb (λ b, b <| s_instances := NULL |>).

(** fs/buffer.c is not modelled: there is nothing to write back. *)
Definition fsync_super (sb : ptr) : KM unit := get_super sb ;; mret tt.

Definition busy_inodes_message : list Z :=
  cstr "VFS: Busy inodes after unmount. Self-destruct in 5 seconds.  Have a nice day..." ++ [10].

Definition generic_shutdown_super (sb : ptr) : KM unit :=
  b ← get_super sb;
  let root := s_root b in
  let sop := s_op b in
  (if root =? NULL then mret tt
   else
     mod_super sb (λ b, b <| s_root := NULL |>) ;;
     shrink_dcache_parent root ;;
     shrink_dcache_anon sb ;;
     dput root ;;
     fsync_super sb ;;
     mod_super sb (λ b, b <| s_flags ::= λ f, clear_flag f MS_ACTIVE |>) ;;
     invalidate_inodes sb ;;
     match so_write_super sop with Some f => match f with end | None => mret tt end ;;
     match so_put_super sop with Some f => match f with end | None => mret tt end ;;
     busy ← invalidate_inodes sb;
     mwhen busy (printk busy_inodes_message)) ;;
  s_list_del sb ;;
  s_instances_del sb ;;
  up_write sb.

Definition kill_anon_super (sb : ptr) : KM unit :=
  b ← get_super sb;
  let slot := MINOR (s_dev b) in
  generic_shutdown_super sb ;;
  idr_remove slot.

Definition kill_litter_super (sb : ptr) : KM unit :=
  b ← get_super sb;
  mwhen (negb (s_root b =? NULL)) (d_genocide (s_root b)) ;;
  kill_anon_super sb.

Definition call_kill_sb (f : kill_sb_fn) (sb : ptr) : KM unit :=
  match f with
  | kill_anon_super_fn => kill_anon_super sb
  | kill_litter_super_fn => kill_litter_super sb
  end.

Definition deactivate_super (s : ptr) : KM unit :=
  b ← get_super s;
  let fs := s_type b in
  mod_super s (λ b, b <| s_active ::= λ c, c - 1 |>) ;;
  if s_active b - 1 =? 0 then
    mod_super s (λ b, b <| s_count ::= λ c, c - (S_BIAS - 1) |>) ;;
    down_write s ;;
    t ← get_fstype fs;
    call_kill_sb (fs_kill_sb t) s ;;
    put_filesystem fs ;;
    put_super s
  else mret tt.

(** ** Finding or creating a superblock *)

Definition grab_super (s : ptr) : KM bool :=
  mod_super s (λ b, b <| s_count ::= Z.add 1 |>) ;;
  down_write s ;;
  b ← get_super s;
  if negb (s_root b =? NULL) && (s_count b >? S_BIAS) then
    mod_super s (λ b, b <| s_active ::= Z.add 1 |> <| s_count ::= λ c, c - 1 |>) ;;
    mret true
  else
    up_write s ;;
    put_super s ;;
    mret false.

(** The scan of [type->fs_supers]: nothing matches, a superblock was grabbed,
    or a match could not be grabbed and the search starts again. *)
Inductive sget_scan_result : Set := NoMatch | Grabbed (old : ptr) | Retry.

Fixpoint sget_scan (l : list ptr) (test : ptr → KM bool) : KM sget_scan_result :=
  match l with
  | [] => mret NoMatch
  | old :: l' =>
      m ← test old;
      if negb m then sget_scan l' test
      else
        ok ← grab_super old;
        mret (if (ok : bool) then Grabbed old else Retry)
  end.

(** Two rounds: the first may allocate, the second links the new superblock.
    A third is reached only when a dying superblock could not be grabbed, and
    then another thread would have to finish its shutdown first. *)
Definition sget (type : ptr) (test : option (ptr → KM bool)) (set : ptr → KM Z) : KM ptr :=
  loop 3 (λ s,
    r ← match test with
        | Some test => t ← get_fstype type; sget_scan (fs_supers t) test
        | None => mret NoMatch
        end;
    match r with
    | Retry => mret (inl s)
    | Grabbed old => mwhen (negb (s =? NULL)) (destroy_super s) ;; mret (inr old)
    | NoMatch =>
        if s =? NULL then
          s ← alloc_super;
          if s =? NULL then mret (inr (ERR_PTR (- ENOMEM))) else mret (inl s)
        else
          err ← set s;
          if negb (err =? 0) then destroy_super s ;; mret (inr (ERR_PTR err))
          else
            t ← get_fstype type;
            mod_super s (λ b, b
              <| s_type := type |>
              <| s_id := default [] (snd (strlcpy (fs_name t) 32)) |>
              <| s_list := true |>
              <| s_instances := type |>) ;;
            modify (λ k, k <| super_blocks ::= (.++ [s]) |>) ;;
            mod_fstype type (λ t, t <| fs_supers ::= cons s |>) ;;
            get_filesystem type ;;
            mret (inr s)
    end) NULL.

(** ** Remounting *)

Definition FMODE_WRITE : Z := 2.

(** fs/file_table.c:241 *)
Fixpoint fs_may_remount_ro_in (l : list ptr) : KM bool :=
  match l with
  | [] => mret true
  | f :: l' =>
      file ← get_file f;
      d ← get_dentry (f_dentry file);
      i ← get_inode (d_inode d);
      if i_nlink i =? 0 then mret false
      else if S_ISREG (i_mode i) && has_flag (f_mode file) FMODE_WRITE then mret false
      else fs_may_remount_ro_in l'
  end.

Definition fs_may_remount_ro (sb : ptr) : KM bool :=
  b ← get_super sb; fs_may_remount_ro_in (s_files b).

(** A file on [s_files] is open, so its [file_count] is not zero. *)
Definition mark_files_ro (sb : ptr) : KM unit :=
  b ← get_super sb;
  mfor (s_files b) (λ f,
    file ← get_file f;
    d ← get_dentry (f_dentry file);
    i ← get_inode (d_inode d);
    mwhen (S_ISREG (i_mode i))
      (mod_file f (λ x, x <| f_mode ::= λ m, clear_flag m FMODE_WRITE |>))).

(** No block device is behind the superblock, so [bdev_read_only] is false, and
    process accounting is not configured. *)
Definition do_remount_sb (sb flags data : Z) (force : bool) : KM Z :=
  shrink_dcache_sb sb ;;
  fsync_super sb ;;
  b ← get_super sb;
  busy ← (if has_flag flags MS_RDONLY && negb (has_flag (s_flags b) MS_RDONLY) then
            if force then mark_files_ro sb ;; mret false
            else ok ← fs_may_remount_ro sb; mret (negb ok)
          else mret false);
  if (busy : bool) then mret (- EBUSY)
  else
    match so_remount_fs (s_op b) with Some f => match f with end | None => mret tt end ;;
    mod_super sb (λ b, b <| s_flags ::= λ f,
      Z.lor (Z.ldiff f MS_RMT_MASK) (Z.land flags MS_RMT_MASK) |>) ;;
    mret 0.

(** ** Unnamed devices *)

(** One thread never loses the race for a preallocated layer, so [idr_get_new]
    does not return -EAGAIN. *)
Definition set_anon_super (s : ptr) : KM Z :=
  ok ← idr_pre_get;
  if negb ok then mret (- ENOMEM)
  else
    dev ← idr_get_new;
    if Z.land dev MAX_ID_MASK =? Z.shiftl 1 MINORBITS then idr_remove dev ;; mret (- EMFILE)
    else
      mod_super s (λ b, b <| s_dev := MKDEV 0 (Z.land dev MINORMASK) |>) ;;
      mret 0.

(** ** Mount methods

    [fill_super s data silent] fills a superblock that is new. *)

Definition fill_or_kill (s flags data : Z) (fill_super : ptr → Z → Z → KM Z) : KM Z :=
  mod_super s (λ b, b <| s_flags := flags |>) ;;
  error ← fill_super s data (if has_flag flags MS_VERBOSE then 1 else 0);
  if negb (error =? 0) then
    up_write s ;; deactivate_super s ;; mret error
  else
    mod_super s (λ b, b <| s_flags ::= λ f, set_flag f MS_ACTIVE |>) ;; mret 0.

Definition get_sb_nodev (fs_type flags data : Z) (fill_super : ptr → Z → Z → KM Z) : KM ptr :=
  s ← sget fs_type None set_anon_super;
  if IS_ERR s then mret s
  else
    error ← fill_or_kill s flags data fill_super;
    mret (if negb (error =? 0) then ERR_PTR error else s).

Definition compare_single (s : ptr) : KM bool := mret true.

Definition get_sb_single (fs_type flags data : Z) (fill_super : ptr → Z → Z → KM Z) : KM ptr :=
  s ← sget fs_type (Some compare_single) set_anon_super;
  if IS_ERR s then mret s
  else
    b ← get_super s;
    error ← (if s_root b =? NULL then fill_or_kill s flags data fill_super else mret 0);
    if negb (error =? 0) then mret (ERR_PTR error)
    else do_remount_sb s flags data false ;; mret s.
