(* ===== verification/Mount.v ===== *)
(** * Mounts (fs/namespace.c, include/linux/mount.h, fs/super.c)

    Allocation and reference counting of [struct vfsmount], the tree of mounts
    and its hash table, and the in-kernel mount of a filesystem type.  The
    [get_sb] methods belong to the filesystems, so the section that mounts
    takes their dispatcher as a variable. *)

From S2P Require Import Prelude KString Kernel Filesystems Inode Dcache Super.

Definition hash (mnt dentry : ptr) : KM Z :=
  bits ← gets mnt_hash_bits;
  mask ← gets mnt_hash_mask;
  let tmp := u32 (mnt / L1_CACHE_BYTES + dentry / L1_CACHE_BYTES) in
  let tmp := u32 (tmp + Z.shiftr tmp bits) in
  mret (Z.land tmp mask).

(** ** Allocation *)

Definition alloc_vfsmnt (name : option bytes) : KM ptr :=
  mnt ← kmem_alloc;
  if mnt =? NULL then mret NULL
  else
    newname ← (match name with
               | Some name =>
                   p ← kmem_alloc;
                   mret (if p =? NULL then None else Some name)
               | None => mret None
               end);
    let m := {|
      mnt_parent := NULL; mnt_mountpoint := NULL; mnt_root := NULL; mnt_sb := NULL;
      mnt_count := 1; mnt_flags := 0; mnt_expiry_mark := 0; mnt_devname := newname;
      mnt_hash := None; mnt_mounts := []; mnt_child := NULL
    |} in
    modify (λ s, s <| mounts ::= <[mnt := m]> |>) ;;
    mret mnt.

Definition free_vfsmnt (mnt : ptr) : KM unit :=
  get_mount mnt ;; modify (λ s, s <| mounts ::= delete mnt |>).

(** ** Reference counts *)

Definition mntget (mnt : ptr) : KM ptr :=
  mwhen (negb (mnt =? NULL)) (mod_mount mnt (λ m, m <| mnt_count ::= Z.add 1 |>)) ;;
  mret mnt.

Definition __mntput (mnt : ptr) : KM unit :=
  m ← get_mount mnt;
  dput (mnt_root m) ;;
  free_vfsmnt mnt ;;
  deactivate_super (mnt_sb m).

Definition mntput_no_expire (mnt : ptr) : KM unit :=
  if mnt =? NULL then mret tt
  else
    mod_mount mnt (λ m, m <| mnt_count ::= λ c, c - 1 |>) ;;
    m ← get_mount mnt;
    mwhen (mnt_count m =? 0) (__mntput mnt).

Definition mntput (mnt : ptr) : KM unit :=
  if mnt =? NULL then mret tt
  else
    mod_mount mnt (λ m, m <| mnt_expiry_mark := 0 |>) ;;
    mntput_no_expire mnt.

(** ** The tree of mounts *)

Fixpoint lookup_mnt_in (l : list ptr) (mnt dentry : ptr) : KM ptr :=
  match l with
  | [] => mret NULL
  | p :: l' =>
      m ← get_mount p;
      if (mnt_parent m =? mnt) && (mnt_mountpoint m =? dentry) then mntget p
      else lookup_mnt_in l' mnt dentry
  end.

Definition lookup_mnt (mnt dentry : ptr) : KM ptr :=
  b ← hash mnt dentry;
  head ← gets (λ s, default [] (mount_hashtable s !! b));
  lookup_mnt_in head mnt dentry.

(** The mnt and the dentry of a [struct path] or of a [struct nameidata]. *)
Definition vpath : Type := ptr * ptr.

Definition mnt_child_del (mnt : ptr) : KM unit :=
  m ← get_mount mnt;
  mwhen (negb (mnt_child m =? NULL))
    (mod_mount (mnt_child m) (λ p, p <| mnt_mounts ::= list_del mnt |>) ;;
     mod_mount mnt (λ m, m <| mnt_child := NULL |>)).

Definition mnt_hash_del (mnt : ptr) : KM unit :=
  m ← get_mount mnt;
  match mnt_hash m with
  | Some b =>
      modify (λ s, s <| mount_hashtable ::= alter (list_del mnt) b |>) ;;
      mod_mount mnt (λ m, m <| mnt_hash := None |>)
  | None => mret tt
  end.

Definition detach_mnt (mnt : ptr) : KM vpath :=
  m ← get_mount mnt;
  let old_nd := (mnt_parent m, mnt_mountpoint m) in
  mod_mount mnt (λ m, m <| mnt_parent := mnt |> <| mnt_mountpoint := mnt_root m |>) ;;
  mnt_child_del mnt ;;
  mnt_hash_del mnt ;;
  mod_dentry (snd old_nd) (λ d, d <| d_mounted ::= λ c, c - 1 |>) ;;
  mret old_nd.

Definition attach_mnt (mnt : ptr) (nd : vpath) : KM unit :=
  let '(nd_mnt, nd_dentry) := nd in
  parent ← mntget nd_mnt;
  mod_mount mnt (λ m, m <| mnt_parent := parent |>) ;;
  mountpoint ← dget nd_dentry;
  mod_mount mnt (λ m, m <| mnt_mountpoint := mountpoint |>) ;;
  b ← hash nd_mnt nd_dentry;
  modify (λ s, s <| mount_hashtable ::= λ t, <[b := mnt :: default [] (t !! b)]> t |>) ;;
  mod_mount mnt (λ m, m <| mnt_hash := Some b |>) ;;
  mod_mount nd_mnt (λ p, p <| mnt_mounts ::= (.++ [mnt]) |>) ;;
  mod_mount mnt (λ m, m <| mnt_child := nd_mnt |>) ;;
  mod_dentry nd_dentry (λ d, d <| d_mounted ::= Z.add 1 |>).

(** [p->mnt_child.next], on the list of the parent. *)
Definition mnt_siblings_after (p : ptr) : KM (ptr * list ptr) :=
  m ← get_mount p;
  up ← get_mount (mnt_child m);
  mret (mnt_parent m, list_after p (mnt_mounts up)).

Definition mnt_fuel : KM nat := gets (λ s, (2 * size (mounts s) + 2)%nat).

Definition next_mnt (p root : ptr) : KM ptr :=
  m ← get_mount p;
  match mnt_mounts m with
  | next :: _ => mret next
  | [] =>
      n ← mnt_fuel;
      loop n (λ p,
        if p =? root then mret (inr NULL)
        else
          '(parent, after) ← mnt_siblings_after p;
          match after with
          | next :: _ => mret (inr next)
          | [] => mret (inl parent)
          end) p
  end.

(** Expiry lists (used by network filesystems only) are not kept. *)
Definition clone_mnt (old root : ptr) : KM ptr :=
  o ← get_mount old;
  let sb := mnt_sb o in
  mnt ← alloc_vfsmnt (mnt_devname o);
  if mnt =? NULL then mret NULL
  else
    mod_mount mnt (λ m, m <| mnt_flags := mnt_flags o |>) ;;
    mod_super sb (λ b, b <| s_active ::= Z.add 1 |>) ;;
    mod_mount mnt (λ m, m <| mnt_sb := sb |>) ;;
    r ← dget root;
    mod_mount mnt (λ m, m
      <| mnt_root := r |> <| mnt_mountpoint := r |> <| mnt_parent := mnt |>) ;;
    mret mnt.

Definition may_umount_tree (mnt : ptr) : KM Z :=
  m ← get_mount mnt;
  n ← mnt_fuel;
  '(actual_refs, minimum_refs) ← loop n (λ '(this_parent, next, actual_refs, minimum_refs),
    match next with
    | p :: next =>
        m ← get_mount p;
        let actual_refs := actual_refs + mnt_count m in
        let minimum_refs := minimum_refs + 2 in
        match mnt_mounts m with
        | [] => mret (inl (this_parent, next, actual_refs, minimum_refs))
        | sub => mret (inl (p, sub, actual_refs, minimum_refs))
        end
    | [] =>
        if negb (this_parent =? mnt) then
          '(up, next) ← mnt_siblings_after this_parent;
          mret (inl (up, next, actual_refs, minimum_refs))
        else mret (inr (actual_refs, minimum_refs))
    end) (mnt, mnt_mounts m, mnt_count m, 2);
  mret (if actual_refs >? minimum_refs then - EBUSY else 0).

Definition may_umount (mnt : ptr) : KM Z :=
  m ← get_mount mnt; mret (if mnt_count m >? 2 then - EBUSY else 0).

(** ** Mounting a type from inside the kernel *)

Section kern_mount.
(** [type->get_sb (type, flags, dev_name, data)] *)
Variable call_get_sb : get_sb_fn → ptr → Z → bytes → Z → KM ptr.
Variable request_module : bytes → KM Z.

(** Without security modules [alloc_secdata] gives a non-null page and the
    security hooks succeed. *)
Definition do_kern_mount (fstype : bytes) (flags : Z) (name : bytes) (data : Z) : KM ptr :=
  type ← get_fs_type request_module fstype;
  if type =? NULL then mret (ERR_PTR (- ENODEV))
  else
    mnt ← alloc_vfsmnt (Some name);
    if mnt =? NULL then put_filesystem type ;; mret (ERR_PTR (- ENOMEM))
    else
      t ← get_fstype type;
      sb ← call_get_sb (fs_get_sb t) type flags name data;
      if IS_ERR sb then
        free_vfsmnt mnt ;; put_filesystem type ;; mret sb
      else
        b ← get_super sb;
        root ← dget (s_root b);
        mod_mount mnt (λ m, m
          <| mnt_sb := sb |> <| mnt_root := root |>
          <| mnt_mountpoint := s_root b |> <| mnt_parent := mnt |>) ;;
        up_write sb ;;
        put_filesystem type ;;
        mret mnt.

Definition kern_mount (type : ptr) : KM ptr :=
  t ← get_fstype type;
  do_kern_mount (fs_name t) 0 (fs_name t) 0.
End kern_mount.
