(* ===== verification/SuperSpec.v ===== *)
(** * Correctness of superblock creation

    The numbers of unnamed devices, the superblock that [sget] makes for a type
    that has none, and the parts of a mount that turn out to change nothing: the
    shrinking of a cache without dentries of the superblock, and a reference
    that is taken and given back. *)

From S2P Require Import Prelude KString Kernel Links Inode InodeInv Dcache DcacheInv DcacheOps.
From S2P Require Import Filesystems Super Mount.

(** ** Unnamed devices *)

Lemma least_free_spec fuel used n :
  let r := least_free fuel used n in
  n ≤ r ≤ n + Z.of_nat fuel ∧ (∀ k, n ≤ k < r → k ∈ used) ∧
  (r < n + Z.of_nat fuel → r ∉ used).
Proof.
  revert n. induction fuel as [|fuel IH]; intros n; simpl.
  { split_and!; [lia|lia|intros k ?; lia|lia]. }
  case_bool_decide as Hin.
  - destruct (IH (n + 1)) as ([H1 H2] & H3 & H4). split_and!; [lia|lia| |].
    + intros k Hk. destruct (decide (k = n)) as [->|]; [done|]. apply H3. lia.
    + intros Hr. apply H4. lia.
  - split_and!; [lia|lia|intros k ?; lia|done].
Qed.

(** A set cannot contain an interval longer than its size. *)
Lemma interval_size (used : gset Z) n (k : nat) :
  (∀ z, n ≤ z < n + Z.of_nat k → z ∈ used) → (k ≤ size used)%nat.
Proof.
  intros H. pose (l := (λ i, n + Z.of_nat i) <$> seq 0 k).
  assert (NoDup l) as Hnd.
  { apply NoDup_fmap; [intros ??; simpl; lia|apply NoDup_seq]. }
  assert (length l = k) as Hlen by (unfold l; by rewrite length_fmap, length_seq).
  rewrite <-Hlen, <-(size_list_to_set (C := gset Z) l Hnd). apply subseteq_size.
  intros z Hz. apply elem_of_list_to_set, list_elem_of_fmap in Hz as (i & -> & Hi).
  apply elem_of_seq in Hi. apply H. lia.
Qed.

(** The identifier handed out is the smallest one that is not in use. *)
Lemma least_free_least (used : gset Z) :
  let r := least_free (S (size used)) used 0 in
  (r ∉ used) ∧ (∀ k, 0 ≤ k < r → k ∈ used) ∧ 0 ≤ r ≤ Z.of_nat (size used).
Proof.
  destruct (least_free_spec (S (size used)) used 0) as ([H1 H2] & H3 & H4).
  set (r := least_free _ _ _) in *.
  assert (r ≤ Z.of_nat (size used)) as Hle.
  { pose proof (interval_size used 0 (Z.to_nat r)) as Hs.
    enough (Z.to_nat r ≤ size used)%nat by lia. apply Hs. intros z Hz. apply H3. lia. }
  split_and!; [apply H4; lia|done|lia|done].
Qed.

Definition next_dev (s : kstate) : Z :=
  least_free (S (size (unnamed_dev_idr s))) (unnamed_dev_idr s) 0.

(** There are 2^20 unnamed devices. *)
Lemma next_dev_free s :
  Z.of_nat (size (unnamed_dev_idr s)) < 1048576 →
  (Z.land (next_dev s) MAX_ID_MASK =? Z.shiftl 1 MINORBITS) = false.
Proof.
  intros Hs. destruct (least_free_least (unnamed_dev_idr s)) as (_ & _ & Hr).
  fold (next_dev s) in Hr. apply Z.eqb_neq. change MAX_ID_MASK with (Z.ones 31).
  rewrite Z.land_ones by done. rewrite Z.mod_small by lia. change (Z.shiftl 1 MINORBITS) with 1048576.
  lia.
Qed.

(** ** A new superblock *)

Definition new_super : super_block := {|
  s_list := false; s_dev := 0; s_blocksize := 0; s_blocksize_bits := 0;
  s_dirt := false; s_maxbytes := MAX_NON_LFS; s_type := NULL; s_op := default_op;
  s_flags := 0; s_magic := 0; s_root := NULL; s_umount := -1;
  s_count := S_BIAS; s_active := 1; s_inodes := []; s_anon := []; s_files := [];
  s_bdev := NULL; s_instances := NULL; s_id := []; s_time_gran := 1000000000
|}.

(** What [sget] makes of it. *)
Definition sget_sb (type : ptr) (t : file_system_type) (dev : Z) : super_block :=
  new_super <| s_dev := MKDEV 0 (Z.land dev MINORMASK) |>
    <| s_type := type |> <| s_id := default [] (snd (strlcpy (fs_name t) 32)) |>
    <| s_list := true |> <| s_instances := type |>.

Definition sget_state (type : ptr) (t : file_system_type) (s : kstate) : kstate :=
  let sb := slab_next s in
  (after_alloc (after_alloc s)) <| supers ::= <[sb := sget_sb type t (next_dev s)]> |>
    <| unnamed_dev_idr ::= union {[next_dev s]} |>
    <| super_blocks ::= (.++ [sb]) |> <| fstypes ::= <[type := t <| fs_supers ::= cons sb |>]> |>.

(** Memory does not run out. *)
Lemma wp_alloc Q s :
  slab_fail s = [] → Q (slab_next s) (after_alloc s) → wp kmem_alloc Q s.
Proof.
  intros Hf HQ. apply wp_kmem_alloc; unfold alloc_fails; rewrite Hf; [done|]. intros _. exact HQ.
Qed.

Lemma wp_sget_new type t Q s :
  slab_fail s = [] → 0 < slab_next s → fstypes s !! type = Some t → fs_supers t = [] →
  fs_owner t = NULL → Z.of_nat (size (unnamed_dev_idr s)) < 1048576 →
  Q (slab_next s) (sget_state type t s) →
  wp (sget type (Some compare_single) set_anon_super) Q s.
Proof.
  intros Hf Hn Ht Hsup Hown Hdev HQ. unfold sget. cbn [loop].
  wp_step. wp_step. wp_step. wp_step; [exact Ht|]. rewrite Hsup. cbn [sget_scan]. wp_step.
  change (NULL =? NULL) with true. cbv iota. unfold alloc_super.
  wp_step. wp_step. apply (wp_alloc _ _ Hf).
  rewrite (proj2 (Z.eqb_neq (slab_next s) NULL)) by (unfold NULL; lia).
  wp_step. wp_step. wp_step. rewrite (proj2 (Z.eqb_neq (slab_next s) NULL)) by (unfold NULL; lia).
  wp_step. fold new_super. wp_step. wp_step. wp_step. wp_step; [exact Ht|]. rewrite Hsup.
  cbn [sget_scan]. wp_step. rewrite (proj2 (Z.eqb_neq (slab_next s) NULL)) by (unfold NULL; lia).
  wp_step. unfold set_anon_super, idr_pre_get. wp_step. wp_step. apply wp_alloc.
  { simpl. by rewrite Hf. }
  wp_step. rewrite (proj2 (Z.eqb_neq _ NULL)) by (simpl; unfold NULL, SLAB_STEP; lia).
  cbn [negb]. unfold idr_get_new. wp_step. wp_step. wp_step. wp_step. wp_step. wp_step.
  change (unnamed_dev_idr (after_alloc _)) with (unnamed_dev_idr s).
  fold (next_dev s). rewrite next_dev_free by done.
  wp_step. wp_step; [wp_lookup|]. wp_step. change (0 =? 0) with true. cbn [negb].
  wp_step. wp_step; [exact Ht|]. wp_step. wp_step; [wp_lookup|]. wp_step. wp_step. wp_step.
  wp_step; [exact Ht|]. wp_step. unfold get_filesystem, __module_get. wp_step.
  wp_step; [wp_lookup|]. change (fs_owner t <| fs_supers ::= _ |>) with (fs_owner t). rewrite Hown.
  change (NULL =? NULL) with true. cbv iota. wp_step. wp_step. wp_step.
  match goal with |- Q _ ?st => assert (sget_state type t s = st) as <- end; [|exact HQ].
  unfold sget_state, sget_sb. kstate_eq. by rewrite !insert_insert_eq.
Qed.

(** A superblock without inodes appears. *)
Lemma vfs_inv_super_new dext iext sb b s :
  vfs_inv dext iext s → supers s !! sb = None → s_inodes b = [] → s_anon b = [] →
  vfs_inv dext iext (s <| supers ::= <[sb := b]> |>).
Proof.
  intros [Hd Hi] Hb E1 E2. split.
  - apply (dcache_inv_ext _ _ _ _ Hd); try done. split; try done.
    intros []; simpl; try done. map_cases; [by rewrite Hb|done].
  - apply (inode_inv_ext _ _ _ _ Hi); try done. split; try done.
    intros k. unfold sb_inodes. simpl. map_cases; [by rewrite Hb|done].
Qed.

(** The caches do not depend on the lists of superblocks. *)
Lemma vfs_inv_sb_lists dext iext f g h s :
  vfs_inv dext iext s →
  vfs_inv dext iext (s <| unnamed_dev_idr ::= f |> <| super_blocks ::= g |> <| fstypes ::= h |>).
Proof.
  intros [Hd Hi]. split; [by apply (dcache_inv_ext _ _ _ _ Hd)|by apply (inode_inv_ext _ _ _ _ Hi)].
Qed.

Lemma vfs_inv_sget dext iext type t s :
  vfs_inv dext iext s → supers s !! slab_next s = None → vfs_inv dext iext (sget_state type t s).
Proof.
  intros Hv Hb. assert (slab_moved s (after_alloc (after_alloc s))) as Hm.
  { eexists _, (SLAB_STEP + SLAB_STEP). split; [done|]. unfold after_alloc. kstate_eq. lia. }
  apply vfs_inv_sb_lists, vfs_inv_super_new; [exact (slab_moved_inv _ _ _ _ Hv Hm)|exact Hb|reflexivity..].
Qed.

(** ** A cache without dentries of the superblock *)

Definition foreign (s : kstate) (sb : ptr) : Prop :=
  Forall (λ x, ∃ d, dentries s !! x = Some d ∧ d_sb d ≠ sb) (dentry_unused s).

Lemma wp_shrink_foreign sb Q s :
  foreign s sb → Q tt s → wp (shrink_dcache_sb sb) Q s.
Proof.
  unfold foreign. intros Hf HQ. unfold shrink_dcache_sb. wp_step. wp_step. wp_step.
  assert (∀ l, Forall (λ x, ∃ d, dentries s !! x = Some d ∧ d_sb d ≠ sb) l →
    wp (mfor l (λ dentry, d ← get_dentry dentry;
                  mwhen (d_sb d =? sb) (d_lru_del dentry ;; d_lru_add dentry)))
       (λ _ s', s' = s) s) as Hpass.
  { intros l Hl. induction Hl as [|x l (d & Hx & Hne) Hl IH]; simpl; [by wp_step|].
    wp_step. wp_step. wp_step; [exact Hx|]. rewrite (proj2 (Z.eqb_neq _ _) Hne). simpl.
    wp_step. exact IH. }
  eapply wp_mono; [by apply Hpass|]. intros _ s' ->. wp_step. wp_step. cbn [loop]. wp_step.
  wp_step. wp_step. wp_step.
  assert (∀ l, Forall (λ x, ∃ d, dentries s !! x = Some d ∧ d_sb d ≠ sb) l →
    wp (shrink_sb_scan l sb) (λ again s', again = false ∧ s' = s) s) as Hscan.
  { intros l Hl. induction Hl as [|x l (d & Hx & Hne) Hl IH]; simpl; [by wp_step|].
    wp_step. wp_step; [exact Hx|]. by rewrite (proj2 (Z.eqb_neq _ _) Hne). }
  eapply wp_mono; [by apply Hscan|]. intros again s' [-> ->]. wp_step. by wp_step.
Qed.

(** Remounting it with the flags it has. *)
Lemma wp_remount_foreign sb b flags data Q s :
  foreign s sb → supers s !! sb = Some b → has_flag flags MS_RDONLY = false →
  Q 0 (s <| supers ::= <[sb := b <| s_flags ::= λ f,
         Z.lor (Z.ldiff f MS_RMT_MASK) (Z.land flags MS_RMT_MASK) |>]> |>) →
  wp (do_remount_sb sb flags data false) Q s.
Proof.
  intros Hf Hb Hfl HQ. unfold do_remount_sb. wp_step. apply wp_shrink_foreign; [done|].
  unfold fsync_super. wp_run. rewrite Hfl. cbn [andb]. wp_run. exact HQ.
Qed.

(** ** A reference taken and given back *)

Lemma wp_dput_more x d Q s :
  x ≠ NULL → dentries s !! x = Some d → d_count d ≠ 1 →
  Q tt (s <| dentries ::= <[x := d <| d_count ::= λ c, c - 1 |>]> |>) → wp (dput x) Q s.
Proof.
  intros Hx Hd Hc HQ. unfold dput. rewrite (proj2 (Z.eqb_neq _ _) Hx). wp_step. wp_step.
  cbn [loop]. unfold dput_body. wp_run.
  change (d_count d <| d_count ::= λ c, c - 1 |>) with (d_count d - 1).
  rewrite (proj2 (Z.eqb_neq (d_count d - 1) 0)) by lia. cbn [negb]. wp_run. exact HQ.
Qed.

(** ** Finding a registered type *)

Lemma wp_get_fs_type rm l x t Q s :
  fs_table s l → x ∈ l → fstypes s !! x = Some t → fs_owner t = NULL → cstring (fs_name t) →
  Q x s → wp (get_fs_type rm (fs_name t)) Q s.
Proof.
  intros Htab Hx Ht Hown Hcs HQ. unfold get_fs_type, try_find_filesystem. wp_step. wp_step.
  apply (wp_find_filesystem s l); [done|done|]. intros l1 l2 -> Hnot Hhead. wp_step.
  assert (name_of (fstypes s) x = fs_name t) as Hnx by (unfold name_of; by rewrite Ht).
  pose proof (fs_table_unique _ _ Htab) as Huniq.
  assert (x ∈ l2) as Hx2.
  { apply elem_of_app in Hx as [Hx|]; [|done]. exfalso. apply Hnot, list_elem_of_fmap. eauto. }
  destruct l2 as [|y l2]; [by apply not_elem_of_nil in Hx2|].
  assert (y = x) as ->.
  { specialize (Hhead y eq_refl). apply elem_of_cons in Hx2 as [->|Hx2]; [done|]. exfalso.
    rewrite fmap_app in Huniq. apply NoDup_app in Huniq as (_ & _ & Hu).
    rewrite fmap_cons in Hu. apply NoDup_cons in Hu as [Hu _]. apply Hu.
    rewrite Hhead, <-Hnx. by apply list_elem_of_fmap_2. }
  apply (wp_read_slot_at _ l1 (x :: l2)); [apply Htab|]. simpl.
  destruct (fs_seg_elem _ _ _ _ x (fs_table_seg _ _ Htab)) as [Hnn _]; [set_solver|].
  rewrite (proj2 (Z.eqb_neq x NULL)) by done. wp_step. wp_step; [exact Ht|].
  rewrite Hown. unfold try_module_get. change (NULL =? NULL) with true. cbv iota. wp_run.
  rewrite (proj2 (Z.eqb_neq x NULL)) by done. by wp_step.
Qed.

(** ** A new mount *)

Definition new_mount (name : bytes) : vfsmount := {|
  mnt_parent := NULL; mnt_mountpoint := NULL; mnt_root := NULL; mnt_sb := NULL;
  mnt_count := 1; mnt_flags := 0; mnt_expiry_mark := 0; mnt_devname := Some name;
  mnt_hash := None; mnt_mounts := []; mnt_child := NULL
|}.

Lemma wp_alloc_vfsmnt name Q s :
  slab_fail s = [] → 0 < slab_next s →
  Q (slab_next s)
    ((after_alloc (after_alloc s)) <| mounts ::= <[slab_next s := new_mount name]> |>) →
  wp (alloc_vfsmnt (Some name)) Q s.
Proof.
  intros Hf Hn HQ. unfold alloc_vfsmnt. wp_step. apply (wp_alloc _ _ Hf).
  rewrite (proj2 (Z.eqb_neq (slab_next s) NULL)) by (unfold NULL; lia). wp_step. wp_step.
  apply wp_alloc; [simpl; by rewrite Hf|].
  wp_step. rewrite (proj2 (Z.eqb_neq _ NULL)) by (simpl; unfold NULL, SLAB_STEP; lia).
  wp_run. exact HQ.
Qed.
