(* ===== verification/Libfs.v ===== *)
(** * The library of file-system writers (fs/libfs.c)

    Directories that live in the dentry cache, superblocks filled from a table,
    pinned in-kernel mounts, and reads from a kernel buffer. *)

From S2P Require Import Prelude KString Kernel Filesystems Inode Dcache Super Mount.

(** ** Attributes of a superblock *)

(** The file system id and the spare words are 0. *)
Record kstatfs := mkStatfs {
  f_type : Z;
  f_bsize : Z;
  f_blocks : Z;
  f_bfree : Z;
  f_bavail : Z;
  f_nfiles : Z;              (* f_files *)
  f_ffree : Z;
  f_namelen : Z;
  f_frsize : Z
}.

#[export] Instance eta_kstatfs : Eta kstatfs := λ k,
  mkStatfs (f_type k) (f_bsize k) (f_blocks k) (f_bfree k) (f_bavail k) (f_nfiles k) (f_ffree k)
    (f_namelen k) (f_frsize k).

Definition simple_statfs (sb : ptr) (buf : kstatfs) : KM (Z * kstatfs) :=
  b ← get_super sb;
  mret (0, buf <| f_type := s_magic b |> <| f_bsize := PAGE_CACHE_SIZE |> <| f_namelen := NAME_MAX |>).

(** ** Lookup *)

Definition simple_delete_dentry (dentry : ptr) : Z := 1.

Definition simple_lookup (dir dentry : ptr) : KM ptr :=
  d ← get_dentry dentry;
  if d_name_len d >? NAME_MAX then mret (ERR_PTR (- ENAMETOOLONG))
  else
    mod_dentry dentry (λ d, d <| d_op := Some simple_dentry_operations |>) ;;
    d_add dentry NULL ;;
    mret NULL.

Definition simple_sync_file (file dentry datasync : Z) : Z := 0.

(** ** Reading a directory *)

(** [loff_t] is a 64-bit integer. *)
Definition s64 (z : Z) : Z := (z + 9223372036854775808) mod 18446744073709551616 - 9223372036854775808.

Definition dcache_dir_open (inode file : ptr) : KM Z :=
  f ← get_file file;
  cursor ← d_alloc (f_dentry f) {| q_hash := 0; q_len := 1; q_name := cstr "." |};
  mod_file file (λ f, f <| f_private_data := cursor |>) ;;
  mret (if cursor =? NULL then - ENOMEM else 0).

Definition dcache_dir_close (inode file : ptr) : KM Z :=
  f ← get_file file;
  dput (f_private_data f) ;;
  mret 0.

(** [list_del (&cursor->d_child)] and [list_add (&cursor->d_child, pos)]. *)
Fixpoint insert_after (pos x : Z) (l : list Z) : list Z :=
  match l with
  | [] => []
  | y :: l' => if y =? pos then y :: x :: l' else y :: insert_after pos x l'
  end.

Definition cursor_unlink (dir cursor : ptr) : KM unit :=
  mod_dentry dir (λ d, d <| d_subdirs ::= list_del cursor |>).
Definition cursor_add_head (dir cursor : ptr) : KM unit :=
  mod_dentry dir (λ d, d <| d_subdirs ::= cons cursor |>).
Definition cursor_add_after (dir cursor pos : ptr) : KM unit :=
  mod_dentry dir (λ d, d <| d_subdirs ::= insert_after pos cursor |>).

(** The entries in front of the cursor after a seek: [n] positive ones. *)
Fixpoint seek_split (n : nat) (l : list ptr) : KM (list ptr * list ptr) :=
  match n, l with
  | S k, next :: l' =>
      d ← get_dentry next;
      '(before, after) ← seek_split
        (if negb (d_unhashed d) && negb (d_inode d =? NULL) then k else n) l';
      mret (next :: before, after)
  | _, _ => mret ([], l)
  end.

Definition dcache_dir_lseek (file offset origin : Z) : KM Z :=
  f ← get_file file;
  let target := if origin =? 1 then s64 (offset + f_pos f) else offset in
  if negb ((origin =? 0) || (origin =? 1)) || (target <? 0) then mret (- EINVAL)
  else if target =? f_pos f then mret target
  else
    mod_file file (λ f, f <| f_pos := target |>) ;;
    mwhen (target >=? 2)
      (let dir := f_dentry f in
       let cursor := f_private_data f in
       cursor_unlink dir cursor ;;
       d ← get_dentry dir;
       '(before, after) ← seek_split (Z.to_nat (target - 2)) (d_subdirs d);
       mod_dentry dir (λ d, d <| d_subdirs := before ++ cursor :: after |>)) ;;
    mret target.

Definition DT_DIR : Z := 4.
Definition dt_type (i : inode) : Z := Z.land (Z.shiftr (i_mode i) 12) 15.

(** include/linux/fs.h:1556 *)
Definition parent_ino (dentry : ptr) : KM Z :=
  d ← get_dentry dentry;
  p ← get_dentry (d_parent d);
  i ← get_inode (d_inode p);
  mret (i_ino i).

Section readdir.
Context {dirent : Type}.
(** [filldir (dirent, name, namlen, offset, ino, type)] *)
Variable filldir : dirent → bytes → Z → Z → Z → Z → dirent * Z.

(** The loop over the entries behind the cursor.  The cursor moves behind
    each entry that was handed out, so what follows it is what is left. *)
Fixpoint readdir_entries (filp dir cursor : ptr) (l : list ptr) (buf : dirent) : KM dirent :=
  match l with
  | [] => mret buf
  | next :: l' =>
      d ← get_dentry next;
      if d_unhashed d || (d_inode d =? NULL)
      then readdir_entries filp dir cursor l' buf
      else
        i ← get_inode (d_inode d);
        f ← get_file filp;
        let '(buf, r) := filldir buf (d_name d) (d_name_len d) (f_pos f) (i_ino i) (dt_type i) in
        if r <? 0 then mret buf
        else
          cursor_unlink dir cursor ;;
          cursor_add_after dir cursor next ;;
          mod_file filp (λ f, f <| f_pos ::= Z.add 1 |>) ;;
          readdir_entries filp dir cursor l' buf
  end.

Definition readdir_rest (filp : ptr) (buf : dirent) : KM dirent :=
  f ← get_file filp;
  let dir := f_dentry f in
  let cursor := f_private_data f in
  mwhen (f_pos f =? 2) (cursor_unlink dir cursor ;; cursor_add_head dir cursor) ;;
  d ← get_dentry dir;
  readdir_entries filp dir cursor (list_after cursor (d_subdirs d)) buf.

Definition readdir_dotdot (filp : ptr) (buf : dirent) : KM dirent :=
  f ← get_file filp;
  ino ← parent_ino (f_dentry f);
  let '(buf, r) := filldir buf (cstr "..") 2 1 ino DT_DIR in
  if r <? 0 then mret buf
  else mod_file filp (λ f, f <| f_pos ::= Z.add 1 |>) ;; readdir_rest filp buf.

Definition dcache_readdir (filp : ptr) (buf : dirent) : KM dirent :=
  f ← get_file filp;
  let i := s32 (f_pos f) in
  if i =? 0 then
    d ← get_dentry (f_dentry f);
    inode ← get_inode (d_inode d);
    let '(buf, r) := filldir buf (cstr ".") 1 0 (i_ino inode) DT_DIR in
    if r <? 0 then mret buf
    else mod_file filp (λ f, f <| f_pos ::= Z.add 1 |>) ;; readdir_dotdot filp buf
  else if i =? 1 then readdir_dotdot filp buf
  else readdir_rest filp buf.
End readdir.

Definition generic_read_dir (filp buf siz ppos : Z) : Z := - EISDIR.

(** ** Changing a directory *)

Definition touch (inode : ptr) (ctime : bool) (mtime : bool) : KM unit :=
  now ← CURRENT_TIME;
  mod_inode inode (λ i, i
    <| i_ctime := if ctime then now else i_ctime i |>
    <| i_mtime := if mtime then now else i_mtime i |>).

Definition simple_link (old_dentry dir dentry : ptr) : KM Z :=
  d ← get_dentry old_dentry;
  let inode := d_inode d in
  touch dir true true ;; touch inode true false ;;
  mod_inode inode (λ i, i <| i_nlink ::= λ n, u32 (n + 1) |> <| i_count ::= Z.add 1 |>) ;;
  dget dentry ;;
  d_instantiate dentry inode ;;
  mret 0.

Definition simple_positive (d : dentry) : bool :=
  negb (d_inode d =? NULL) && negb (d_unhashed d).

Fixpoint no_positive (l : list ptr) : KM bool :=
  match l with
  | [] => mret true
  | child :: l' =>
      d ← get_dentry child;
      if simple_positive d then mret false else no_positive l'
  end.

Definition simple_empty (dentry : ptr) : KM bool :=
  d ← get_dentry dentry; no_positive (d_subdirs d).

Definition i_nlink_dec (inode : ptr) : KM unit :=
  mod_inode inode (λ i, i <| i_nlink ::= λ n, u32 (n - 1) |>).

Definition simple_unlink (dir dentry : ptr) : KM Z :=
  d ← get_dentry dentry;
  let inode := d_inode d in
  touch dir true true ;; touch inode true false ;;
  i_nlink_dec inode ;;
  dput dentry ;;
  mret 0.

Definition simple_rmdir (dir dentry : ptr) : KM Z :=
  empty ← simple_empty dentry;
  if negb empty then mret (- ENOTEMPTY)
  else
    d ← get_dentry dentry;
    i_nlink_dec (d_inode d) ;;
    simple_unlink dir dentry ;;
    i_nlink_dec dir ;;
    mret 0.

Definition simple_rename (old_dir old_dentry new_dir new_dentry : ptr) : KM Z :=
  d ← get_dentry old_dentry;
  let inode := d_inode d in
  i ← get_inode inode;
  let they_are_dirs := S_ISDIR (i_mode i) in
  empty ← simple_empty new_dentry;
  if negb empty then mret (- ENOTEMPTY)
  else
    nd ← get_dentry new_dentry;
    (if negb (d_inode nd =? NULL) then
       simple_unlink new_dir new_dentry ;;
       mwhen they_are_dirs (i_nlink_dec old_dir)
     else
       mwhen they_are_dirs
         (i_nlink_dec old_dir ;;
          mod_inode new_dir (λ i, i <| i_nlink ::= λ n, u32 (n + 1) |>))) ;;
    touch inode true false ;; touch new_dir true true ;; touch old_dir true true ;;
    mret 0.

(** ** Superblocks *)

(** [struct tree_descr]; a table ends with an entry whose name is empty. *)
Record tree_descr := mkTree { td_name : option bytes; td_ops : file_operations; td_mode : Z }.

(** The fields simple_fill_super gives to every inode. *)
Definition fill_inode (inode mode : Z) : KM unit :=
  now ← CURRENT_TIME;
  mod_inode inode (λ i, i
    <| i_mode := u16 mode |> <| i_uid := 0 |> <| i_gid := 0 |>
    <| i_blksize := PAGE_CACHE_SIZE |> <| i_blocks := 0 |>
    <| i_ctime := now |> <| i_mtime := now |> <| i_atime := now |>).

(** The loop over the table: true when every entry was created. *)
Fixpoint fill_files (s root : ptr) (i : Z) (files : list tree_descr) : KM bool :=
  match files with
  | [] => raise (BadPtr NULL)    (* the table has no end mark *)
  | f :: files' =>
      match td_name f with
      | None => fill_files s root (i + 1) files'
      | Some [] => mret true
      | Some name =>
          dentry ← d_alloc_name root name;
          if dentry =? NULL then mret false
          else
            inode ← new_inode s;
            if inode =? NULL then mret false
            else
              fill_inode inode (Z.lor S_IFREG (td_mode f)) ;;
              mod_inode inode (λ x, x <| i_fop := td_ops f |> <| i_ino := i |>) ;;
              d_add dentry inode ;;
              fill_files s root (i + 1) files'
      end
  end.

Definition simple_fill_super (s magic : Z) (files : list tree_descr) : KM Z :=
  mod_super s (λ b, b
    <| s_blocksize := PAGE_CACHE_SIZE |> <| s_blocksize_bits := PAGE_CACHE_SHIFT |>
    <| s_magic := magic |> <| s_op := simple_s_ops |> <| s_time_gran := 1 |>) ;;
  inode ← new_inode s;
  if inode =? NULL then mret (- ENOMEM)
  else
    fill_inode inode (Z.lor S_IFDIR 493 (* 0755 *)) ;;
    mod_inode inode (λ i, i
      <| i_op := simple_dir_inode_operations |> <| i_fop := simple_dir_operations |>) ;;
    root ← d_alloc_root inode;
    if root =? NULL then iput inode ;; mret (- ENOMEM)
    else
      ok ← fill_files s root 0 files;
      if (ok : bool) then mod_super s (λ b, b <| s_root := root |>) ;; mret 0
      else d_genocide root ;; dput root ;; mret (- ENOMEM).

Definition get_sb_pseudo (fs_type : ptr) (name : bytes) (ops : option super_operations)
    (magic : Z) : KM ptr :=
  s ← sget fs_type None set_anon_super;
  if IS_ERR s then mret s
  else
    mod_super s (λ b, b
      <| s_flags := MS_NOUSER |> <| s_maxbytes := 18446744073709551615 |>
      <| s_blocksize := 1024 |> <| s_blocksize_bits := 10 |> <| s_magic := magic |>
      <| s_op := default pseudo_default_ops ops |> <| s_time_gran := 1 |>) ;;
    root ← new_inode s;
    let Enomem := up_write s ;; deactivate_super s ;; mret (ERR_PTR (- ENOMEM)) in
    if root =? NULL then Enomem
    else
      now ← CURRENT_TIME;
      mod_inode root (λ i, i
        <| i_mode := Z.lor S_IFDIR (Z.lor S_IRUSR S_IWUSR) |> <| i_uid := 0 |> <| i_gid := 0 |>
        <| i_atime := now |> <| i_mtime := now |> <| i_ctime := now |>) ;;
      dentry ← d_alloc NULL {| q_hash := 0; q_len := strlen name; q_name := name |};
      if dentry =? NULL then iput root ;; Enomem
      else
        mod_dentry dentry (λ d, d <| d_sb := s |> <| d_parent := dentry |>) ;;
        d_instantiate dentry root ;;
        mod_super s (λ b, b <| s_root := dentry |>
          <| s_flags ::= λ f, set_flag f MS_ACTIVE |>) ;;
        mret s.

(** ** Pinning a file system

    [mount] and [count] are the caller's variables: the new values are
    returned. *)
Section pin_fs.
Variable call_get_sb : get_sb_fn → ptr → Z → bytes → Z → KM ptr.
Variable request_module : bytes → KM Z.

Definition simple_pin_fs (name : bytes) (mount : ptr) (count : Z) : KM (Z * ptr * Z) :=
  mnt ← (if mount =? NULL
         then do_kern_mount call_get_sb request_module name 0 name 0
         else mret NULL);
  if (mount =? NULL) && IS_ERR mnt then mret (PTR_ERR mnt, mount, count)
  else
    let mount := if mount =? NULL then mnt else mount in
    mntget mount ;;
    mntput mnt ;;
    mret (0, mount, count + 1).
End pin_fs.

Definition simple_release_fs (mount : ptr) (count : Z) : KM (ptr * Z) :=
  mntput mount ;;
  mret (if count - 1 =? 0 then NULL else mount, count - 1).

(** ** Reading from a kernel buffer

    Returns the result and the new value of [*ppos]. *)
Definition simple_read_from_buffer (to count ppos : Z) (from : bytes) (available : Z) : KM (Z * Z) :=
  if ppos <? 0 then mret (- EINVAL, ppos)
  else if ppos >=? available then mret (0, ppos)
  else
    let count := if count >? available - ppos then available - ppos else count in
    rest ← copy_to_user to (take (Z.to_nat count) (drop (Z.to_nat ppos) from));
    if negb (rest =? 0) then mret (- EFAULT, ppos)
    else mret (s32 count, ppos + count).
