(* ===== verification/LibfsSpec.v ===== *)
(** * Correctness of the library of file-system writers

    Reads from a kernel buffer, in one piece and in chunks, and the listing and
    emptiness of directories that live in the dentry cache. *)

From S2P Require Import Prelude KString Kernel Links Inode InodeInv Dcache DcacheInv DcacheOps.
From S2P Require Import Super Mount Libfs.

(** ** Copies to user space *)

(** [n] mapped bytes from [to]. *)
Definition mapped (m : gmap Z Z) (to n : Z) : Prop := ∀ a, to ≤ a < to + n → is_Some (m !! a).

(** The memory [m] with [src] written at [to]. *)
Definition written (m : gmap Z Z) (to : Z) (src : bytes) (m' : gmap Z Z) : Prop :=
  ∀ a, m' !! a = if decide (to ≤ a < to + Z.of_nat (length src))
                 then src !! Z.to_nat (a - to) else m !! a.

Lemma copy_out_mapped m to src :
  mapped m to (Z.of_nat (length src)) →
  ∃ m', copy_out m to src = (m', 0) ∧ written m to src m'.
Proof.
  revert m to. induction src as [|c src IH]; intros m to Hm; simpl.
  { exists m. split; [done|]. intros a. rewrite decide_False; [done|simpl; lia]. }
  simpl in Hm. destruct (Hm to) as [v ->]; [lia|].
  destruct (IH (<[to := c]> m) (to + 1)) as (m' & -> & Hw).
  { intros a Ha. rewrite lookup_insert_is_Some'. right. apply Hm. lia. }
  exists m'. split; [done|]. intros a. rewrite (Hw a). simpl.
  destruct (decide (a = to)) as [->|Hne].
  - rewrite decide_False, decide_True by lia. by rewrite lookup_insert_eq, Z.sub_diag.
  - rewrite lookup_insert_ne by done.
    destruct (decide (to + 1 ≤ a < to + 1 + Z.of_nat (length src))).
    + rewrite decide_True by lia.
      by replace (Z.to_nat (a - to)) with (S (Z.to_nat (a - (to + 1)))) by lia.
    + rewrite decide_False by lia. done.
Qed.

Lemma copy_out_unmapped m to src a :
  to ≤ a < to + Z.of_nat (length src) → m !! a = None → (copy_out m to src).2 ≠ 0.
Proof.
  revert m to. induction src as [|c src IH]; intros m to Ha Hm; simpl in *; [lia|].
  destruct (m !! to) eqn:E; [|simpl; lia].
  apply IH; [|rewrite lookup_insert_ne; [done|]]; try congruence.
  assert (a ≠ to) by congruence. lia.
Qed.

(** ** Reading from a buffer *)

(** What a read of [count] bytes at [pos] returns. *)
Definition slice (from : bytes) (pos count : Z) : bytes :=
  take (Z.to_nat count) (drop (Z.to_nat pos) from).

Lemma length_slice from pos count :
  0 ≤ pos → 0 ≤ count → Z.of_nat (length (slice from pos count)) =
    Z.min count (Z.max 0 (Z.of_nat (length from) - pos)).
Proof. intros. unfold slice. rewrite length_take, length_drop. lia. Qed.

Lemma slice_all from pos count :
  0 ≤ pos → Z.of_nat (length from) - pos ≤ count → slice from pos count = drop (Z.to_nat pos) from.
Proof. intros. unfold slice. apply take_ge. rewrite length_drop. lia. Qed.

(** The part of the read that both cases share. *)
Lemma read_inside to count ppos from :
  0 ≤ ppos < Z.of_nat (length from) → 0 ≤ count →
  simple_read_from_buffer to count ppos from (Z.of_nat (length from)) =
  (rest ← copy_to_user to (slice from ppos count);
   if negb (rest =? 0) then mret (- EFAULT, ppos)
   else mret (s32 (Z.min count (Z.of_nat (length from) - ppos)),
              ppos + Z.min count (Z.of_nat (length from) - ppos))).
Proof.
  intros Hp Hc. unfold simple_read_from_buffer. rewrite (proj2 (Z.ltb_ge _ _)) by lia.
  assert ((ppos >=? Z.of_nat (length from)) = false) as -> by (rewrite Z.geb_leb; apply Z.leb_gt; lia).
  assert ((if count >? Z.of_nat (length from) - ppos then Z.of_nat (length from) - ppos else count)
          = Z.min count (Z.of_nat (length from) - ppos)) as ->.
  { destruct (count >? _) eqn:E; bool_to_prop; lia. }
  assert (slice from ppos count = slice from ppos (Z.min count (Z.of_nat (length from) - ppos))) as ->;
    [|done].
  destruct (decide (count ≤ Z.of_nat (length from) - ppos)).
  - by rewrite Z.min_l.
  - rewrite Z.min_r by lia. by rewrite !slice_all by lia.
Qed.

Lemma wp_read_from_buffer to count ppos from s :
  0 ≤ ppos → 0 ≤ count → Z.of_nat (length from) < 2147483648 →
  mapped (user_mem s) to (Z.of_nat (length (slice from ppos count))) →
  wp (simple_read_from_buffer to count ppos from (Z.of_nat (length from))) (λ r s',
    let n := Z.of_nat (length (slice from ppos count)) in
    r = (n, ppos + n) ∧ ∃ m, s' = s <| user_mem := m |> ∧
    written (user_mem s) to (slice from ppos count) m) s.
Proof.
  intros Hp Hc Hlen Hm. pose proof (length_slice from ppos count Hp Hc) as El.
  destruct (decide (ppos < Z.of_nat (length from))) as [Hin|Hend].
  - rewrite read_inside by lia. wp_step. unfold wp at 1, copy_to_user.
    destruct (copy_out_mapped _ _ _ Hm) as (m & -> & Hw). simpl.
    split; [|eauto]. rewrite s32_small by lia. f_equal; lia.
  - unfold simple_read_from_buffer. rewrite (proj2 (Z.ltb_ge _ _)) by lia.
    rewrite (proj2 (Z.geb_le _ _)) by lia. wp_run.
    assert (slice from ppos count = []) as Es by (apply nil_length_inv; lia).
    rewrite Es in *. simpl. rewrite Z.add_0_r. split; [done|].
    exists (user_mem s). split; [by destruct s|]. intros a. by rewrite decide_False by lia.
Qed.

Lemma wp_read_unmapped to count ppos from s a :
  0 ≤ ppos < Z.of_nat (length from) → 0 ≤ count →
  to ≤ a < to + Z.of_nat (length (slice from ppos count)) → user_mem s !! a = None →
  wp (simple_read_from_buffer to count ppos from (Z.of_nat (length from)))
    (λ r _, r = (- EFAULT, ppos)) s.
Proof.
  intros Hp Hc Ha Hn. rewrite read_inside by lia. wp_step. unfold wp at 1, copy_to_user.
  pose proof (copy_out_unmapped _ _ _ _ Ha Hn) as Hne.
  destruct (copy_out (user_mem s) to (slice from ppos count)) as [m rest]. simpl in Hne.
  by rewrite (proj2 (Z.eqb_neq _ _) Hne).
Qed.

(** A reader that asks for [n] bytes at a time until it gets none. *)
Section chunks.
Variable read : Z → KM (Z * Z).  (* one read at a position *)
Variable buf : Z.

Definition user_bytes (m : gmap Z Z) (a n : Z) : bytes :=
  (λ i, default 0 (m !! (a + Z.of_nat i))) <$> seq 0 (Z.to_nat n).

Fixpoint read_all (fuel : nat) (pos : Z) : KM (option bytes) :=
  match fuel with
  | O => raise OutOfFuel
  | S k =>
      '(r, pos') ← read pos;
      if r <? 0 then mret None
      else if r =? 0 then mret (Some [])
      else
        got ← gets (λ s, user_bytes (user_mem s) buf r);
        rest ← read_all k pos';
        mret (app got <$> rest)
  end.
End chunks.

Lemma user_bytes_written m a src m' :
  written m a src m' → user_bytes m' a (Z.of_nat (length src)) = src.
Proof.
  intros Hw. unfold user_bytes. rewrite Nat2Z.id. apply list_eq. intros i.
  rewrite list_lookup_fmap. destruct (decide (i < length src)%nat) as [Hi|Hi].
  - rewrite lookup_seq_lt by done. simpl. rewrite Hw, decide_True by lia.
    replace (Z.to_nat (a + Z.of_nat i - a)) with i by lia.
    destruct (src !! i) eqn:E; [done|]. apply lookup_ge_None in E. lia.
  - rewrite lookup_seq_ge by lia. simpl. symmetry. apply lookup_ge_None. lia.
Qed.

Lemma written_mapped m a src m' b n :
  written m a src m' → mapped m b n → mapped m' b n.
Proof.
  intros Hw Hm c Hc. rewrite Hw. destruct (decide _); [|by apply Hm].
  apply lookup_lt_is_Some. lia.
Qed.

(** Whatever the size of the chunks, the reader gets the whole buffer from where
    it starts. *)
Lemma wp_read_all (P : kstate → Prop) (read : Z → KM (Z * Z)) fuel buf n from pos s :
  (∀ pos s, P s → read pos s = simple_read_from_buffer buf n pos from (Z.of_nat (length from)) s) →
  (∀ s m, P s → P (s <| user_mem := m |>)) →
  0 < n → 0 ≤ pos → Z.of_nat (length from) < 2147483648 → P s → mapped (user_mem s) buf n →
  (length (drop (Z.to_nat pos) from) < fuel)%nat →
  wp (read_all read buf fuel pos)
    (λ r s', r = Some (drop (Z.to_nat pos) from) ∧ ∃ m, s' = s <| user_mem := m |>) s.
Proof.
  intros Hread HP Hn Hpos Hlen. revert pos s Hpos.
  induction fuel as [|k IH]; intros pos s Hpos HPs Hm Hf; [lia|].
  cbn [read_all]. pose proof (length_slice from pos n) as El. rewrite length_drop in Hf.
  wp_step. unfold wp at 1. rewrite Hread by done.
  eapply wp_mono; [apply wp_read_from_buffer; [lia|lia|done|]|].
  { intros a Ha. apply Hm. lia. }
  cbv zeta. intros [r pos'] s1 ([= -> ->] & m & -> & Hw).
  rewrite (proj2 (Z.ltb_ge _ _)) by lia.
  destruct (Z.of_nat (length (slice from pos n)) =? 0) eqn:E; bool_to_prop.
  - wp_run. assert (length (drop (Z.to_nat pos) from) = 0)%nat as ->%nil_length_inv
      by (rewrite length_drop; lia). eauto.
  - wp_run. eapply wp_mono; [apply IH|].
    + lia.
    + by apply HP.
    + simpl. by eapply written_mapped.
    + rewrite length_drop. lia.
    + intros r s2 (-> & m' & ->). wp_run. simpl. split; [|by eexists; kstate_eq].
      rewrite (user_bytes_written _ _ _ _ Hw). f_equal. unfold slice.
      replace (Z.to_nat (pos + _)) with (Z.to_nat pos + Z.to_nat n `min` length (drop (Z.to_nat pos) from))%nat
        by (rewrite length_take in *; lia).
      rewrite <-drop_drop. symmetry. rewrite <-(take_drop (Z.to_nat n) (drop _ from)) at 1. f_equal.
      destruct (decide (Z.to_nat n ≤ length (drop (Z.to_nat pos) from))%nat).
      * by rewrite Nat.min_l.
      * rewrite Nat.min_r by lia. rewrite !drop_ge by lia. done.
Qed.

(** ** Listing a directory *)

(** An entry as [filldir] gets it: name, length, offset, inode number, type. *)
Definition entry : Type := bytes * Z * Z * Z * Z.

(** The positive, hashed entries of a list of dentries, numbered from [pos]. *)
Fixpoint listing (s : kstate) (l : list ptr) (pos : Z) : list entry :=
  match l with
  | [] => []
  | x :: l' =>
      match dentries s !! x with
      | Some d =>
          if d_unhashed d || (d_inode d =? NULL) then listing s l' pos
          else match inodes s !! d_inode d with
               | Some i => (d_name d, d_name_len d, pos, i_ino i, dt_type i) :: listing s l' (pos + 1)
               | None => listing s l' pos
               end
      | None => listing s l' pos
      end
  end.

Lemma listing_snoc s l x p :
  (∀ p, listing s l p = []) →
  match dentries s !! x with
  | Some d => d_unhashed d || (d_inode d =? NULL) = true
  | None => True
  end → listing s (l ++ [x]) p = [].
Proof.
  intros Hl Hx. revert p Hl. induction l as [|y l IH]; intros p Hl; simpl in *.
  - destruct (dentries s !! x); [by rewrite Hx|done].
  - destruct (dentries s !! y) as [d|]; [|by apply IH].
    destruct (d_unhashed d || (d_inode d =? NULL)); [by apply IH|].
    destruct (inodes s !! d_inode d); [|by apply IH]. by specialize (Hl 0).
Qed.

Lemma listing_ext s s' l p :
  dentries s' = dentries s → inodes s' = inodes s → listing s' l p = listing s l p.
Proof.
  intros E1 E2. revert p. induction l as [|x l IH]; intros p; simpl; [done|].
  rewrite E1, E2. by repeat case_match; rewrite ?IH.
Qed.

(** Each dentry of the list exists, with its inode if it has one. *)
Definition children_ok (s : kstate) (l : list ptr) : Prop :=
  Forall (λ x, ∃ d, dentries s !! x = Some d ∧
                    (d_inode d = NULL ∨ is_Some (inodes s !! d_inode d))) l.

Lemma insert_after_app pos x l1 l2 :
  pos ∉ l1 → insert_after pos x (l1 ++ pos :: l2) = l1 ++ pos :: x :: l2.
Proof.
  induction l1 as [|y l1 IH]; simpl; [by rewrite Z.eqb_refl|].
  rewrite not_elem_of_cons. intros [Hne Hn].
  rewrite (proj2 (Z.eqb_neq y pos)) by done. by rewrite IH.
Qed.

Lemma list_del_app_mid x l1 l2 : x ∉ l1 → x ∉ l2 → list_del x (l1 ++ x :: l2) = l1 ++ l2.
Proof.
  intros H1 H2. unfold list_del. rewrite filter_app. change (filter _ l1) with (list_del x l1).
  change (filter _ (x :: l2)) with (list_del x (x :: l2)).
  by rewrite list_del_notin, list_del_cons_eq.
Qed.

Section readdir.
Context {dirent : Type} (filldir : dirent → bytes → Z → Z → Z → Z → dirent * Z).
(** The caller's buffer takes everything. *)
Hypothesis filldir_ok : ∀ b n len off ino t, 0 ≤ (filldir b n len off ino t).2.

Definition handed (b : dirent) (e : entry) : dirent :=
  let '(n, len, off, ino, t) := e in (filldir b n len off ino t).1.

(** A directory that is being read. *)
Definition reading (s : kstate) (filp : ptr) (f : file) (dir : ptr) (d : dentry)
    (pos : Z) (l : list ptr) : kstate :=
  s <| dentries ::= <[dir := d <| d_subdirs := l |>]> |>
    <| files ::= <[filp := f <| f_pos := pos |>]> |>.

Lemma reading_reading s filp f dir d p1 l1 p2 l2 :
  (reading s filp f dir d p1 l1)
    <| dentries ::= <[dir := d <| d_subdirs := l2 |>]> |>
    <| files ::= <[filp := f <| f_pos := p2 |>]> |> = reading s filp f dir d p2 l2.
Proof. unfold reading. kstate_eq; by rewrite insert_insert_eq. Qed.

Lemma wp_readdir_entries s filp f dir d cursor pre skip l pos b :
  NoDup (pre ++ skip ++ l) → cursor ∉ pre ++ skip ++ l → dir ∉ l → children_ok s l →
  (∀ p, listing s skip p = []) →
  wp (readdir_entries filldir filp dir cursor l b) (λ b' s',
    b' = foldl handed b (listing s l pos) ∧
    ∃ pre' skip', pre' ++ skip' = pre ++ skip ++ l ∧ (∀ p, listing s skip' p = []) ∧
      s' = reading s filp f dir d (pos + Z.of_nat (length (listing s l pos)))
             (pre' ++ cursor :: skip'))
    (reading s filp f dir d pos (pre ++ cursor :: skip ++ l)).
Proof.
  revert pre skip pos b. induction l as [|x l IH]; intros pre skip pos b Hnd Hc Hdir Hch Hsk.
  { simpl. wp_run. split; [done|]. exists pre, skip. by rewrite !app_nil_r, Z.add_0_r. }
  apply not_elem_of_cons in Hdir as [Hx Hdir].
  apply Forall_cons in Hch as [(e & He & Hei) Hch]. cbn [readdir_entries listing].
  rewrite He. wp_step. wp_step; [by simpl; rewrite lookup_insert_ne|].
  destruct (d_unhashed e || (d_inode e =? NULL)) eqn:En.
  - specialize (IH pre (skip ++ [x]) pos b). rewrite <-!app_assoc in IH. apply IH; try done.
    intros p. apply listing_snoc; [done|]. by rewrite He, En.
  - apply orb_false_iff in En as [_ En]. bool_to_prop. destruct Hei as [?|[i Hi]]; [done|].
    rewrite Hi. wp_run. simpl.
    pose proof (filldir_ok b (d_name e) (d_name_len e) pos (i_ino i) (dt_type i)) as Hok.
    destruct (filldir b (d_name e) (d_name_len e) pos (i_ino i) (dt_type i)) as [b' r] eqn:Ef.
    simpl in Hok. rewrite (proj2 (Z.ltb_ge _ _) Hok). unfold cursor_unlink, cursor_add_after. wp_run.
    unfold mod_file. wp_run. rewrite Nat2Z.inj_succ.
    assert (x ∉ pre ++ skip) as Hxp.
    { rewrite app_assoc in Hnd. apply NoDup_app in Hnd as (_ & Hd & _).
      intros Hin. apply (Hd _ Hin). by left. }
    assert ((pre ++ skip ++ [x]) ++ l = pre ++ skip ++ x :: l) as El by (by rewrite <-!app_assoc).
    assert (insert_after x cursor (list_del cursor (pre ++ cursor :: skip ++ x :: l)) =
            (pre ++ skip ++ [x]) ++ cursor :: l) as El2.
    { rewrite list_del_app_mid by set_solver. rewrite app_assoc, insert_after_app by done.
      by rewrite <-!app_assoc. }
    specialize (IH (pre ++ skip ++ [x]) [] (pos + 1) b'). simpl in IH. rewrite El in IH.
    eapply wp_start; [|eapply wp_mono; [by apply IH|]].
    + rewrite <-(reading_reading s filp f dir d pos (pre ++ cursor :: skip ++ x :: l)).
      kstate_eq; [|by rewrite !insert_insert_eq, Z.add_comm].
      rewrite !insert_insert_eq. f_equal. rewrite <-El2. by destruct d.
    + intros b'' s' (-> & pre' & skip' & Ep & Es & ->). split; [done|].
      exists pre', skip'. split_and!; [done..|]. f_equal. lia.
Qed.

(** The state after the two fixed entries. *)
Lemma wp_readdir_rest s filp f dir d cursor b :
  files s !! filp = Some f → f_dentry f = dir → f_private_data f = cursor → f_pos f = 2 →
  dentries s !! dir = Some d → NoDup (d_subdirs d) →
  let l := list_del cursor (d_subdirs d) in
  dir ∉ l → children_ok s l →
  wp (readdir_rest filldir filp b) (λ b' s',
    b' = foldl handed b (listing s l 2) ∧
    ∃ pre skip, pre ++ skip = l ∧ (∀ p, listing s skip p = []) ∧
      s' = reading s filp f dir d (2 + Z.of_nat (length (listing s l 2))) (pre ++ cursor :: skip)) s.
Proof.
  intros Hf Hfd Hfc Hpos Hd Hnd l Hdir Hch. unfold readdir_rest. wp_run. rewrite Hpos, Hfd, Hfc.
  change (2 =? 2) with true. unfold mwhen, cursor_unlink, cursor_add_head. wp_run. simpl.
  rewrite Z.eqb_refl. fold l.
  assert (cursor ∉ l) as Hcl by (unfold l; rewrite elem_of_list_del; naive_solver).
  eapply wp_start; [|apply (wp_readdir_entries s filp f dir d cursor [] [] l 2 b); try done].
  - simpl. unfold reading. kstate_eq.
    + by rewrite insert_insert_eq.
    + rewrite insert_id; [done|]. rewrite Hf. f_equal. rewrite <-Hpos. by destruct f.
  - simpl. by apply NoDup_list_del.
Qed.

(** C37: reading a directory from the start hands out ".", "..", and then every
    hashed entry that has an inode exactly once, in the order of the list of
    children and with consecutive offsets, whatever the caller does with them as
    long as it accepts them.  The children keep their order, the position is
    that of the next entry, and only entries that are not handed out remain
    behind the cursor. *)
Theorem dcache_readdir_lists s filp f dir d di pd pi cursor b :
  files s !! filp = Some f → f_dentry f = dir → f_private_data f = cursor → f_pos f = 0 →
  dentries s !! dir = Some d → inodes s !! d_inode d = Some di →
  dentries s !! d_parent d = Some pd → inodes s !! d_inode pd = Some pi →
  NoDup (d_subdirs d) →
  let l := list_del cursor (d_subdirs d) in
  dir ∉ l → children_ok s l →
  wp (dcache_readdir filldir filp b) (λ b' s',
    b' = foldl handed b ((cstr ".", 1, 0, i_ino di, DT_DIR) :: (cstr "..", 2, 1, i_ino pi, DT_DIR)
                         :: listing s l 2) ∧
    ∃ pre skip, pre ++ skip = l ∧ (∀ p, listing s skip p = []) ∧
      s' = reading s filp f dir d (2 + Z.of_nat (length (listing s l 2))) (pre ++ cursor :: skip)) s.
Proof.
  intros Hf Hfd Hfc Hpos Hd Hdi Hpd Hpi Hnd l Hdir Hch. unfold dcache_readdir. wp_run.
  rewrite Hpos, Hfd. change (s32 0 =? 0) with true. cbv iota. wp_run. cbn [foldl handed].
  pose proof (filldir_ok b (cstr ".") 1 0 (i_ino di) DT_DIR) as Hok.
  destruct (filldir b (cstr ".") 1 0 (i_ino di) DT_DIR) as [b1 r1]. simpl in Hok.
  rewrite (proj2 (Z.ltb_ge _ _) Hok). unfold mod_file. wp_run. clear Hok.
  unfold readdir_dotdot, parent_ino. wp_run.
  change (f_dentry f <| f_pos ::= Z.add 1 |>) with (f_dentry f). rewrite Hfd. wp_run. cbn [fst].
  pose proof (filldir_ok b1 (cstr "..") 2 1 (i_ino pi) DT_DIR) as Hok.
  destruct (filldir b1 (cstr "..") 2 1 (i_ino pi) DT_DIR) as [b2 r2]. simpl in Hok.
  rewrite (proj2 (Z.ltb_ge _ _) Hok). unfold mod_file. wp_run. clear Hok. cbn [fst].
  set (f' := f <| f_pos := 2 |>). set (s1 := s <| files ::= <[filp := f']> |>).
  eapply (wp_start _ _ _ s1).
  { unfold s1. kstate_eq. rewrite insert_insert_eq. f_equal. unfold f'. destruct f. simpl in *.
    by rewrite Hpos. }
  eapply wp_mono; [apply (wp_readdir_rest s1 filp f' dir d cursor b2); try done|].
  { simpl. by rewrite lookup_insert_eq. }
  intros b' s' (-> & pre & skip & E1 & E2 & ->). fold l in E1 |- *.
  pose proof (λ l p, listing_ext s s1 l p eq_refl eq_refl) as Es.
  rewrite Es in *. split; [done|]. exists pre, skip.
  split_and!; [done|intros p; by rewrite <-(E2 p), Es|]. unfold reading, s1. kstate_eq.
  rewrite insert_insert_eq. by destruct f.
Qed.
End readdir.

(** ** What reads promise *)

(** A read from a kernel buffer returns -EINVAL for a negative position, 0 at
    or behind the end, -EFAULT without moving when some byte of the target is
    not mapped, and otherwise the number of bytes there are, up to the count
    asked for: exactly those are written to the target, and the position
    advances by that number. *)
Theorem read_from_buffer_correct to count ppos from s :
  0 ≤ count → Z.of_nat (length from) < 2147483648 →
  let data := slice from ppos count in
  let n := Z.of_nat (length data) in
  wp (simple_read_from_buffer to count ppos from (Z.of_nat (length from))) (λ r s',
    (ppos < 0 → r = (- EINVAL, ppos) ∧ s' = s) ∧
    (Z.of_nat (length from) ≤ ppos → r = (0, ppos) ∧ s' = s) ∧
    (0 ≤ ppos → (∃ a, to ≤ a < to + n ∧ user_mem s !! a = None) → r = (- EFAULT, ppos)) ∧
    (0 ≤ ppos → mapped (user_mem s) to n →
       r = (n, ppos + n) ∧ ∃ m, s' = s <| user_mem := m |> ∧ written (user_mem s) to data m)) s.
Proof.
  intros Hc Hlen data n. destruct (decide (ppos < 0)) as [Hneg|Hpos].
  { unfold simple_read_from_buffer. rewrite (proj2 (Z.ltb_lt _ _)) by lia. wp_run.
    split_and!; [done|lia..]. }
  destruct (decide (Z.of_nat (length from) ≤ ppos)) as [Hend|Hin].
  { unfold simple_read_from_buffer. rewrite (proj2 (Z.ltb_ge _ _)) by lia.
    rewrite (proj2 (Z.geb_le _ _)) by lia. wp_run.
    assert (length (slice from ppos count) = O) as En.
    { pose proof (length_slice from ppos count). lia. }
    split_and!; [lia|done|intros _ (a & Ha & _); unfold n, data in Ha; lia|].
    intros _ _. unfold n, data. apply nil_length_inv in En. rewrite En. simpl. rewrite Z.add_0_r.
    split; [done|]. exists (user_mem s). split; [by destruct s|].
    intros a. by rewrite decide_False by (simpl; lia). }
  destruct (decide (Forall (λ i, is_Some (user_mem s !! (to + Z.of_nat i))) (seq 0 (length data))))
    as [Hall|Hsome].
  - assert (mapped (user_mem s) to n) as Hm.
    { intros a Ha. rewrite Forall_forall in Hall. replace a with (to + Z.of_nat (Z.to_nat (a - to))) by lia.
      apply Hall, elem_of_seq. lia. }
    eapply wp_mono; [apply wp_read_from_buffer; [lia|done|done|exact Hm]|].
    intros r s' Hr. split_and!; [lia|lia| |done].
    intros _ (a & Ha & Hna). destruct (Hm a Ha) as [v Hv]. congruence.
  - apply not_Forall_Exists in Hsome; [|apply _]. apply Exists_exists in Hsome as (i & Hi & Hni).
    apply elem_of_seq in Hi. apply eq_None_not_Some in Hni. unfold n, data in *.
    eapply wp_mono; [apply (wp_read_unmapped to count ppos from s (to + Z.of_nat i)); try done; lia|].
    intros r s' ->. split_and!; [lia|lia|done|].
    intros _ Hm. destruct (Hm (to + Z.of_nat i)) as [v Hv]; [lia|]. congruence.
Qed.

(** A reader that asks again and again for [n] bytes, for any [n], gets the
    whole buffer, and ends. *)
Theorem read_in_chunks buf n from s :
  0 < n → Z.of_nat (length from) < 2147483648 → mapped (user_mem s) buf n →
  wp (read_all (λ pos, simple_read_from_buffer buf n pos from (Z.of_nat (length from)))
        buf (S (length from)) 0) (λ r s', r = Some from ∧ ∃ m, s' = s <| user_mem := m |>) s.
Proof.
  intros Hn Hlen Hm. eapply wp_mono.
  { apply (wp_read_all (λ _, True) _ (S (length from)) buf n from 0); try done. change (Z.to_nat 0) with O. rewrite drop_0. lia. }
  done.
Qed.
