(* ===== verification/Groups.v ===== *)
(** * Supplementary groups (kernel/sys.c)

    The sorted array of a task's supplementary groups: Shell sort when it is
    set, binary search when a permission check asks for membership.  The array
    is flat here; the kernel splits it into pages behind GROUP_AT. *)

From stdpp Require Import sorting.
From S2P Require Import Prelude.

Definition GROUP_AT (gi : list Z) (i : Z) : Z := default 0 (gi !! Z.to_nat i).
Definition set_GROUP_AT (gi : list Z) (i v : Z) : list Z := <[Z.to_nat i := v]> gi.

(** ** Shell sort *)

(** [while (left >= 0 && GROUP_AT (left) > tmp) { ... }] and the store that
    follows it; [left] falls by [stride] in each round. *)
Fixpoint sift (fuel : nat) (gi : list Z) (left right stride tmp : Z) : list Z :=
  match fuel with
  | O => gi
  | S n =>
      if (left >=? 0) && (GROUP_AT gi left >? tmp)
      then sift n (set_GROUP_AT gi right (GROUP_AT gi left)) (left - stride) left stride tmp
      else set_GROUP_AT gi right tmp
  end.

(** [for (base = 0; base < max; base++) { ... }], [n] rounds from [base]. *)
Fixpoint sort_pass (n : nat) (gi : list Z) (base stride : Z) : list Z :=
  match n with
  | O => gi
  | S k =>
      let right := base + stride in
      let tmp := GROUP_AT gi right in
      sort_pass k (sift (S (length gi)) gi base right stride tmp) (base + 1) stride
  end.

(** [for (stride = 1; stride < gidsetsize; stride = 3 * stride + 1) ;] *)
Fixpoint first_stride (fuel : nat) (stride gidsetsize : Z) : Z :=
  match fuel with
  | O => stride
  | S n => if stride <? gidsetsize then first_stride n (3 * stride + 1) gidsetsize else stride
  end.

(** [while (stride) { ...; stride /= 3; }] *)
Fixpoint sort_strides (fuel : nat) (gi : list Z) (stride : Z) : list Z :=
  match fuel with
  | O => gi
  | S n =>
      if stride =? 0 then gi
      else
        let max := Z.of_nat (length gi) - stride in
        sort_strides n (sort_pass (Z.to_nat max) gi 0 stride) (stride / 3)
  end.

Definition groups_sort (gi : list Z) : list Z :=
  let gidsetsize := Z.of_nat (length gi) in
  let stride := first_stride (S (length gi)) 1 gidsetsize / 3 in
  sort_strides (S (Z.to_nat stride)) gi stride.

(** ** Binary search *)

Fixpoint search_loop (fuel : nat) (gi : list Z) (grp left right : Z) : bool :=
  match fuel with
  | O => false
  | S n =>
      if left <? right then
        let mid := (left + right) / 2 in
        let cmp := s32 (grp - GROUP_AT gi mid) in
        if cmp >? 0 then search_loop n gi grp (mid + 1) right
        else if cmp <? 0 then search_loop n gi grp left mid
        else true
      else false
  end.

Definition groups_search (gi : list Z) (grp : Z) : bool :=
  search_loop (S (length gi)) gi grp 0 (Z.of_nat (length gi)).

(** ** The sort is a sort *)

Lemma GROUP_AT_lookup gi i : 0 ≤ i < Z.of_nat (length gi) → gi !! Z.to_nat i = Some (GROUP_AT gi i).
Proof.
  intros Hi. unfold GROUP_AT. destruct (gi !! Z.to_nat i) eqn:E; [done|].
  apply lookup_ge_None in E. lia.
Qed.

Lemma GROUP_AT_app pre y post : GROUP_AT (pre ++ y :: post) (Z.of_nat (length pre)) = y.
Proof. unfold GROUP_AT. by rewrite Nat2Z.id, list_lookup_middle. Qed.

Lemma set_GROUP_AT_app pre y post v :
  set_GROUP_AT (pre ++ y :: post) (Z.of_nat (length pre)) v = pre ++ v :: post.
Proof.
  unfold set_GROUP_AT. rewrite Nat2Z.id, <-(Nat.add_0_r (length pre)).
  by rewrite insert_app_r.
Qed.

Lemma length_set_GROUP_AT gi i v : length (set_GROUP_AT gi i v) = length gi.
Proof. apply length_insert. Qed.

(** Moving an element into the hole at [r] leaves a hole at [l]. *)
Lemma hole_move gi l r v :
  0 ≤ l < Z.of_nat (length gi) → 0 ≤ r < Z.of_nat (length gi) → l ≠ r →
  set_GROUP_AT (set_GROUP_AT gi r (GROUP_AT gi l)) l v ≡ₚ set_GROUP_AT gi r v.
Proof.
  intros Hl Hr Hne. unfold set_GROUP_AT.
  rewrite <-(list_insert_insert_eq gi (Z.to_nat r) (GROUP_AT gi l) v).
  apply Permutation_insert_swap.
  - apply list_lookup_insert_eq. lia.
  - rewrite list_lookup_insert_ne by lia. by apply GROUP_AT_lookup.
Qed.

(** The loop fills the hole at [right]; it has fuel for every round. *)
Lemma sift_perm fuel gi left right stride tmp :
  0 < stride → 0 ≤ right < Z.of_nat (length gi) → left = right - stride →
  Z.max 0 (left + 1) < Z.of_nat fuel →
  sift fuel gi left right stride tmp ≡ₚ set_GROUP_AT gi right tmp.
Proof.
  intros Hs. revert gi left right. induction fuel as [|n IH]; intros gi left right Hr Hl Hf; simpl.
  - lia.
  - destruct ((left >=? 0) && (GROUP_AT gi left >? tmp)) eqn:E; [|done]. bool_to_prop.
    rewrite IH; [|rewrite length_set_GROUP_AT; lia|done|lia].
    apply hole_move; lia.
Qed.

Lemma sort_pass_perm n gi base stride :
  0 < stride → 0 ≤ base → base + Z.of_nat n + stride ≤ Z.of_nat (length gi) →
  sort_pass n gi base stride ≡ₚ gi.
Proof.
  intros Hs. revert gi base. induction n as [|n IH]; intros gi base Hb Hn; cbn [sort_pass]; [done|].
  assert (sift (S (length gi)) gi base (base + stride) stride (GROUP_AT gi (base + stride)) ≡ₚ gi) as E.
  { rewrite sift_perm by lia. unfold set_GROUP_AT.
    rewrite list_insert_id; [done|]. apply GROUP_AT_lookup. lia. }
  rewrite IH; [done|lia|]. apply Permutation_length in E. lia.
Qed.

Lemma sort_strides_perm fuel gi stride : 0 ≤ stride → sort_strides fuel gi stride ≡ₚ gi.
Proof.
  revert gi stride. induction fuel as [|n IH]; intros gi stride Hs; simpl; [done|].
  destruct (stride =? 0) eqn:E; bool_to_prop; [done|].
  rewrite IH by (apply Z.div_pos; lia).
  destruct (decide (Z.of_nat (length gi) - stride ≤ 0)) as [Hle|Hgt].
  - by replace (Z.to_nat _) with O by lia.
  - apply sort_pass_perm; lia.
Qed.

(** With stride 1 the loop inserts [tmp] into the sorted part before the hole. *)
Lemma sift_insert fuel pre y post tmp :
  StronglySorted Z.le pre → (length pre < fuel)%nat →
  ∃ l, sift fuel (pre ++ y :: post) (Z.of_nat (length pre) - 1) (Z.of_nat (length pre)) 1 tmp
         = l ++ post ∧ StronglySorted Z.le l ∧ l ≡ₚ tmp :: pre.
Proof.
  revert fuel y post. induction pre as [|z pre IH] using rev_ind; intros fuel y post Hsort Hf;
    (destruct fuel as [|n]; [lia|]); cbn [sift].
  - exists [tmp]. by repeat constructor.
  - assert (Z.of_nat (length (pre ++ [z])) = Z.of_nat (length pre) + 1) as El
      by (rewrite length_app; simpl; lia).
    replace (Z.of_nat (length (pre ++ [z])) - 1) with (Z.of_nat (length pre)) by lia.
    assert (GROUP_AT ((pre ++ [z]) ++ y :: post) (Z.of_nat (length pre)) = z) as ->
      by (rewrite <-app_assoc; apply GROUP_AT_app).
    apply StronglySorted_app in Hsort as Hsort'. destruct Hsort' as (Hpz & Hpre & _).
    rewrite (proj2 (Z.geb_le _ _)) by lia. cbn [andb]. rewrite !set_GROUP_AT_app.
    destruct (z >? tmp) eqn:E.
    + rewrite <-app_assoc. simpl.
      destruct (IH n z (z :: post)) as (l & -> & Hl & Hp); [done|rewrite length_app in *; simpl in *; lia|].
      exists (l ++ [z]). rewrite <-app_assoc. split_and!; [done| |by rewrite Hp].
      apply StronglySorted_app_2; [|done|by repeat constructor].
      intros a b Ha ->%list_elem_of_singleton. rewrite Hp in Ha.
      apply elem_of_cons in Ha as [->|Ha]; bool_to_prop; [lia|].
      apply Hpz; [done|by apply list_elem_of_singleton].
    + exists ((pre ++ [z]) ++ [tmp]). bool_to_prop. split_and!.
      * by rewrite <-(app_assoc (pre ++ [z])).
      * apply StronglySorted_app_2; [|done|by repeat constructor].
        intros a b Ha ->%list_elem_of_singleton.
        apply elem_of_app in Ha as [Ha|Ha%list_elem_of_singleton]; [|lia].
        transitivity z; [|lia]. apply Hpz; [done|by apply list_elem_of_singleton].
      * symmetry. apply Permutation_cons_append.
Qed.

(** The pass with stride 1 is an insertion sort. *)
Lemma sort_pass_sorted pre post :
  pre ≠ [] → StronglySorted Z.le pre →
  StronglySorted Z.le (sort_pass (length post) (pre ++ post) (Z.of_nat (length pre) - 1) 1).
Proof.
  revert pre. induction post as [|y post IH]; intros pre Hne Hsort; cbn [sort_pass length].
  { by rewrite app_nil_r. }
  replace (Z.of_nat (length pre) - 1 + 1) with (Z.of_nat (length pre)) by lia.
  rewrite GROUP_AT_app.
  destruct (sift_insert (S (length (pre ++ y :: post))) pre y post y) as (l & -> & Hl & Hp);
    [done|rewrite length_app; lia|].
  apply Permutation_length in Hp as El. simpl in El.
  replace (Z.of_nat (length pre)) with (Z.of_nat (length l) - 1) by lia.
  apply IH; [|done]. by intros ->.
Qed.

(** The strides: 1, 4, 13, 40, ... and 0 after the last pass. *)
Inductive knuth : Z → Prop :=
  | knuth_0 : knuth 0
  | knuth_S s : knuth s → knuth (3 * s + 1).

Lemma knuth_div s : (3 * s + 1) / 3 = s.
Proof. rewrite (Z.mul_comm 3), Z.div_add_l by lia. change (1 / 3) with 0. lia. Qed.

Lemma knuth_nonneg s : knuth s → 0 ≤ s.
Proof. induction 1; lia. Qed.

Lemma sort_strides_sorted stride fuel gi :
  knuth stride → stride ≠ 0 → stride < Z.of_nat fuel →
  StronglySorted Z.le (sort_strides fuel gi stride).
Proof.
  intros Hk. revert fuel gi. induction Hk as [|s Hk IH]; intros fuel gi H0 Hf; [done|].
  pose proof (knuth_nonneg _ Hk). destruct fuel as [|n]; [lia|]. cbn [sort_strides].
  rewrite (proj2 (Z.eqb_neq _ _)) by lia. rewrite knuth_div.
  destruct (decide (s = 0)) as [->|Hs]; [|apply IH; lia].
  assert (∀ m l, sort_strides m l 0 = l) as -> by (by intros []).
  destruct gi as [|z gi]; [constructor|].
  pose proof (sort_pass_sorted [z] gi) as Hp. simpl in Hp.
  replace (Z.to_nat _) with (length gi) by (simpl; lia).
  apply Hp; [done|by repeat constructor].
Qed.

Lemma first_stride_knuth fuel stride n : knuth stride → knuth (first_stride fuel stride n).
Proof.
  revert stride. induction fuel as [|k IH]; intros stride Hk; simpl; [done|].
  destruct (stride <? n); [|done]. apply IH. by constructor.
Qed.

(** The loop has fuel for every round. *)
Lemma first_stride_ge fuel stride n :
  0 ≤ stride → n - stride ≤ Z.of_nat fuel →
  Z.max stride n ≤ first_stride fuel stride n.
Proof.
  revert stride. induction fuel as [|k IH]; intros stride Hs Hf; simpl; [lia|].
  destruct (stride <? n) eqn:E; bool_to_prop; [|lia].
  specialize (IH (3 * stride + 1)). lia.
Qed.

Lemma groups_sort_perm gi : groups_sort gi ≡ₚ gi.
Proof.
  unfold groups_sort. apply sort_strides_perm, Z.div_pos; [|lia].
  pose proof (first_stride_ge (S (length gi)) 1 (Z.of_nat (length gi))). lia.
Qed.

Lemma groups_sort_sorted gi : StronglySorted Z.le (groups_sort gi).
Proof.
  unfold groups_sort.
  pose proof (first_stride_ge (S (length gi)) 1 (Z.of_nat (length gi))) as Hge.
  pose proof (first_stride_knuth (S (length gi)) 1 (Z.of_nat (length gi))) as Hk.
  set (st := first_stride _ _ _) in *. destruct (decide (st = 1)) as [E|Hne].
  - rewrite E in *. assert (length gi ≤ 1)%nat by lia.
    destruct gi as [|z [|]]; simpl in *; [constructor|by repeat constructor|lia].
  - specialize (Hk (knuth_S 0 knuth_0)). clearbody st.
    destruct Hk as [|s Hk]; [lia|]. rewrite knuth_div. pose proof (knuth_nonneg _ Hk).
    apply sort_strides_sorted; [done|lia|lia].
Qed.

(** ** The search finds what is there *)

(** The comparison is the sign of the difference when that is an [int]. *)
Definition in_window (grp g : Z) : Prop := -2147483648 ≤ grp - g < 2147483648.

Lemma sorted_lookup (l : list Z) i j x y :
  StronglySorted Z.le l → l !! i = Some x → l !! j = Some y → (i < j)%nat → x ≤ y.
Proof.
  intros Hs Hi Hj Hlt. rewrite <-(take_drop_middle l i x Hi) in Hs.
  apply StronglySorted_app in Hs as (_ & _ & Hs). inversion Hs as [|? ? _ Hall]; subst.
  rewrite Forall_forall in Hall. apply Hall. eapply (list_elem_of_lookup_2 _ (j - S i)).
  rewrite lookup_drop. rewrite <-Hj. f_equal. lia.
Qed.

Lemma sorted_at gi i j :
  StronglySorted Z.le gi → 0 ≤ i ≤ j → j < Z.of_nat (length gi) → GROUP_AT gi i ≤ GROUP_AT gi j.
Proof.
  intros Hs Hij Hj. destruct (decide (i = j)) as [->|Hne]; [lia|].
  eapply (sorted_lookup gi (Z.to_nat i) (Z.to_nat j)); [done|apply GROUP_AT_lookup; lia..|lia].
Qed.

Lemma search_loop_spec fuel gi grp left right :
  StronglySorted Z.le gi → Forall (in_window grp) gi →
  0 ≤ left ≤ right → right ≤ Z.of_nat (length gi) → right - left < Z.of_nat fuel →
  (∀ i, 0 ≤ i < left → GROUP_AT gi i < grp) →
  (∀ i, right ≤ i < Z.of_nat (length gi) → grp < GROUP_AT gi i) →
  search_loop fuel gi grp left right = bool_decide (grp ∈ gi).
Proof.
  intros Hs Hw. revert left right.
  induction fuel as [|n IH]; intros left right Hl Hr Hf Hlo Hhi; simpl; [lia|].
  destruct (left <? right) eqn:E; bool_to_prop.
  2: { symmetry. apply bool_decide_eq_false. intros [i Hi]%list_elem_of_lookup.
       pose proof (lookup_lt_Some _ _ _ Hi) as Hlt.
       assert (GROUP_AT gi (Z.of_nat i) = grp) as Ei by (unfold GROUP_AT; by rewrite Nat2Z.id, Hi).
       destruct (decide (Z.of_nat i < left)).
       - specialize (Hlo (Z.of_nat i)). lia.
       - specialize (Hhi (Z.of_nat i)). lia. }
  set (mid := (left + right) / 2).
  assert (left ≤ mid < right) as Hm.
  { unfold mid. split; [apply Z.div_le_lower_bound|apply Z.div_lt_upper_bound]; lia. }
  assert (GROUP_AT gi mid ∈ gi) as Hin.
  { eapply list_elem_of_lookup_2, GROUP_AT_lookup. lia. }
  rewrite Forall_forall in Hw. rewrite s32_small by (apply Hw, Hin).
  destruct (grp - GROUP_AT gi mid >? 0) eqn:E1; [|destruct (grp - GROUP_AT gi mid <? 0) eqn:E2];
    bool_to_prop.
  - apply IH; try lia; [|done]. intros i Hi. pose proof (sorted_at gi i mid Hs). lia.
  - apply IH; try lia; [done|]. intros i Hi. pose proof (sorted_at gi mid i Hs). lia.
  - symmetry. apply bool_decide_eq_true. by replace grp with (GROUP_AT gi mid) by lia.
Qed.

Lemma groups_search_spec gi grp :
  StronglySorted Z.le gi → Forall (in_window grp) gi →
  groups_search gi grp = bool_decide (grp ∈ gi).
Proof. intros Hs Hw. apply search_loop_spec; [done|done|lia..]. Qed.

(** ** The search misses what is too far away *)

Lemma group_at_u32 gi i : Forall (λ g, 0 ≤ g < two32) gi → 0 ≤ i < Z.of_nat (length gi) → 0 ≤ GROUP_AT gi i < two32.
Proof. intros Hg Hi. rewrite Forall_forall in Hg. eapply Hg, list_elem_of_lookup_2, GROUP_AT_lookup, Hi. Qed.

(** The difference of two ids is 0 as an [int] only if they are equal. *)
Lemma s32_zero z : - two32 < z < two32 → s32 z = 0 → z = 0.
Proof. unfold s32, two32. intros. Z.div_mod_to_equations. lia. Qed.

(** The test of the loop on a difference that does not fit an [int]. *)
Lemma s32_far_above {B} (a b c : B) z : 2147483648 ≤ z < two32 →
  (if s32 z >? 0 then a else if s32 z <? 0 then b else c) = b.
Proof.
  intros Hz. assert (s32 z = z - two32) as ->.
  { revert Hz. unfold s32, two32. intros. Z.div_mod_to_equations. lia. }
  unfold two32 in *. rewrite Z.gtb_ltb, (proj2 (Z.ltb_ge _ _)), (proj2 (Z.ltb_lt _ _)) by lia. done.
Qed.

Lemma s32_far_below {B} (a b c : B) z : - two32 < z < -2147483648 →
  (if s32 z >? 0 then a else if s32 z <? 0 then b else c) = a.
Proof.
  intros Hz. assert (s32 z = z + two32) as ->.
  { revert Hz. unfold s32, two32. intros. Z.div_mod_to_equations. lia. }
  unfold two32 in *. by rewrite Z.gtb_ltb, (proj2 (Z.ltb_lt _ _)) by lia.
Qed.

(** A part of the set without the group does not lead to it. *)
Lemma search_loop_absent fuel gi grp left right :
  Forall (λ g, 0 ≤ g < two32) gi → 0 ≤ grp < two32 → 0 ≤ left → right ≤ Z.of_nat (length gi) →
  (∀ i, left ≤ i < right → GROUP_AT gi i ≠ grp) →
  search_loop fuel gi grp left right = false.
Proof.
  intros Hg Hgrp. revert left right. induction fuel as [|n IH]; intros left right Hl Hr Hno; [done|]. simpl.
  destruct (Z.ltb_spec left right) as [Hlt|]; [|done]. set (mid := (left + right) / 2).
  assert (left ≤ mid < right) as Hm.
  { unfold mid. split; [apply Z.div_le_lower_bound|apply Z.div_lt_upper_bound]; lia. }
  destruct (s32 (grp - GROUP_AT gi mid) >? 0) eqn:E1; [apply IH; try lia; intros; apply Hno; lia|].
  destruct (s32 (grp - GROUP_AT gi mid) <? 0) eqn:E2; [apply IH; try lia; intros; apply Hno; lia|]. bool_to_prop.
  pose proof (group_at_u32 gi mid Hg). pose proof (s32_zero (grp - GROUP_AT gi mid)). specialize (Hno mid). lia.
Qed.

(** ** What the groups promise *)

(** [groups_sort], a Shell sort with the strides 1, 4, 13, ..., sorts: its
    result is an ordered permutation of the array, for every array. *)
Theorem groups_sort_correct gi : StronglySorted Z.le (groups_sort gi) ∧ groups_sort gi ≡ₚ gi.
Proof. split; [apply groups_sort_sorted|apply groups_sort_perm]. Qed.

(** C38: the binary search of a sorted set of groups answers membership, as long
    as no group differs from the one sought by 2^31 or more. *)
Theorem groups_search_correct gi grp :
  Forall (in_window grp) gi → groups_search (groups_sort gi) grp = bool_decide (grp ∈ gi).
Proof.
  intros Hw. rewrite groups_search_spec; [|apply groups_sort_sorted|by rewrite groups_sort_perm].
  apply bool_decide_ext. by rewrite groups_sort_perm.
Qed.

(** C39: the comparison takes the sign of an [int] difference of unsigned ids, so
    the search misses every group, also one that is there, that is too far from
    the first one it looks at, the middle of the sorted set: 2^31 or more above
    it, or more than 2^31 below. *)
Theorem groups_search_misses gi grp :
  Forall (λ g, 0 ≤ g < two32) gi → 0 ≤ grp < two32 → gi ≠ [] →
  ¬ in_window grp (GROUP_AT (groups_sort gi) (Z.of_nat (length gi) / 2)) →
  groups_search (groups_sort gi) grp = false.
Proof.
  intros Hg Hgrp Hne Hwin. pose proof (groups_sort_sorted gi) as Hs. rewrite <-(groups_sort_perm gi) in Hg.
  assert (length (groups_sort gi) = length gi) as Hl by (by rewrite groups_sort_perm).
  unfold groups_search. rewrite <-Hl in *. assert (groups_sort gi ≠ []) as Hne'.
  { by intros E; rewrite E in Hl; destruct gi. }
  clear Hne Hl. revert Hg Hs Hne' Hwin. generalize (groups_sort gi) as l. clear gi. intros l Hg Hs Hne.
  set (n := Z.of_nat (length l)) in *. assert (0 ≤ n / 2 < n) as Hm.
  { destruct l; [done|]. split; [apply Z.div_pos|apply Z.div_lt]; unfold n; simpl; lia. }
  pose proof (group_at_u32 l (n / 2) Hg ltac:(lia)) as Hp. unfold in_window. intros Hwin.
  cbn [search_loop]. rewrite (proj2 (Z.ltb_lt 0 n)), Z.add_0_l by lia.
  destruct (decide (GROUP_AT l (n / 2) ≤ grp)) as [Hge|Hlt].
  - rewrite (s32_far_above _ _ _ (grp - _)) by lia. apply search_loop_absent; [done|done|lia|lia|].
    intros i Hi. pose proof (sorted_at l i (n / 2) Hs). lia.
  - rewrite (s32_far_below _ _ _ (grp - _)) by lia. apply search_loop_absent; [done|done|lia|lia|].
    intros i Hi. pose proof (sorted_at l (n / 2) i Hs). lia.
Qed.

Lemma groups_search_misses_witness :
  1 ∈ [1; 2147483650] ∧ groups_search (groups_sort [1; 2147483650]) 1 = false.
Proof.
  split; [by left|]. apply (groups_search_misses [1; 2147483650] 1).
  - repeat constructor; unfold two32; lia.
  - unfold two32; lia.
  - done.
  - intros [H _]. vm_compute in H. by apply H.
Defined.
