(* ===== verification/Namei.v ===== *)
(** * Single-component lookup and permissions (fs/namei.c)

    What the in-kernel file systems use of path lookup: permission checks, the
    lookup of one name under a parent through the dentry cache or the file
    system's [lookup] method, and the checks in front of creation and
    deletion. *)

From S2P Require Import Prelude KString Kernel Groups Filesystems Inode Dcache Super Mount Libfs.

(** ** Permissions *)

(** kernel/sys.c:1460 *)
Definition in_group_p (t : task) (grp : Z) : bool :=
  if negb (grp =? fsgid t) then groups_search (groups t) grp else true.

Definition IS_RDONLY (i : inode) : KM bool :=
  b ← get_super (i_sb i); mret (has_flag (s_flags b) MS_RDONLY).
Definition IS_POSIXACL (i : inode) : KM bool :=
  b ← get_super (i_sb i); mret (has_flag (s_flags b) MS_POSIXACL).
Definition IS_APPEND (i : inode) : bool := has_flag (i_flags i) S_APPEND.
Definition IS_IMMUTABLE (i : inode) : bool := has_flag (i_flags i) S_IMMUTABLE.
Definition IS_DEADDIR (i : inode) : bool := has_flag (i_flags i) S_DEAD.

(** The part of generic_permission from [check_capabilities] on. *)
Definition check_capabilities (t : task) (i : inode) (mask : Z) : Z :=
  if (negb (has_flag mask MAY_EXEC) || has_flag (i_mode i) S_IXUGO || S_ISDIR (i_mode i))
     && cap_dac_override t then 0
  else if ((mask =? MAY_READ) || (S_ISDIR (i_mode i) && negb (has_flag mask MAY_WRITE)))
          && cap_dac_read_search t then 0
  else - EACCES.

Definition check_mode (t : task) (i : inode) (mode mask : Z) : Z :=
  if Z.land (Z.land mode mask) (Z.lor MAY_READ (Z.lor MAY_WRITE MAY_EXEC)) =? mask then 0
  else check_capabilities t i mask.

Definition generic_permission (inode mask : Z) (check_acl : option (ptr → Z → KM Z)) : KM Z :=
  i ← get_inode inode;
  t ← gets current;
  if fsuid t =? i_uid i then mret (check_mode t i (Z.shiftr (i_mode i) 6) mask)
  else
    let group_check :=
      mret (check_mode t i
              (if in_group_p t (i_gid i) then Z.shiftr (i_mode i) 3 else i_mode i) mask) in
    match check_acl with
    | None => group_check
    | Some acl =>
        posix ← IS_POSIXACL i;
        if posix && has_flag (i_mode i) S_IRWXG then
          error ← acl inode mask;
          if error =? - EACCES then mret (check_capabilities t i mask)
          else if negb (error =? - EAGAIN) then mret error
          else group_check
        else group_check
    end.

Definition permission (inode mask : Z) : KM Z :=
  i ← get_inode inode;
  refused ← (if has_flag mask MAY_WRITE then
               ro ← IS_RDONLY i;
               if ro && (S_ISREG (i_mode i) || S_ISDIR (i_mode i) || S_ISLNK (i_mode i))
               then mret (- EROFS)
               else mret (if IS_IMMUTABLE i then - EACCES else 0)
             else mret 0);
  if negb (refused =? 0) then mret refused
  else
    let submask := clear_flag mask MAY_APPEND in
    match iop_permission (i_op i) with
    | Some f => match f with end
    | None => generic_permission inode submask None
    end.

Definition exec_permission_lite (inode : ptr) : KM Z :=
  i ← get_inode inode;
  t ← gets current;
  let mode := if fsuid t =? i_uid i then Z.shiftr (i_mode i) 6
              else if in_group_p t (i_gid i) then Z.shiftr (i_mode i) 3
              else i_mode i in
  match iop_permission (i_op i) with
  | Some f => match f with end
  | None =>
      mret (if has_flag mode MAY_EXEC then 0
            else if has_flag (i_mode i) S_IXUGO && cap_dac_override t then 0
            else if S_ISDIR (i_mode i) && cap_dac_override t then 0
            else if S_ISDIR (i_mode i) && cap_dac_read_search t then 0
            else - EACCES)
  end.

(** ** Write access to a file *)

Definition get_write_access (inode : ptr) : KM Z :=
  i ← get_inode inode;
  if i_writecount i <? 0 then mret (- ETXTBSY)
  else mod_inode inode (λ i, i <| i_writecount ::= Z.add 1 |>) ;; mret 0.

(** include/linux/fs.h:1403 *)
Definition put_write_access (inode : ptr) : KM unit :=
  mod_inode inode (λ i, i <| i_writecount ::= λ c, c - 1 |>).

Definition deny_write_access (file : ptr) : KM Z :=
  f ← get_file file;
  d ← get_dentry (f_dentry f);
  i ← get_inode (d_inode d);
  if i_writecount i >? 0 then mret (- ETXTBSY)
  else mod_inode (d_inode d) (λ i, i <| i_writecount ::= λ c, c - 1 |>) ;; mret 0.

(** ** Lookup *)

Definition path_release (nd : vpath) : KM unit := dput (snd nd) ;; mntput (fst nd).

Definition path_release_on_umount (nd : vpath) : KM unit :=
  dput (snd nd) ;; mntput_no_expire (fst nd).

(** No modelled table has a [d_revalidate] method. *)
Definition revalidate (dentry : ptr) : KM ptr :=
  if dentry =? NULL then mret NULL
  else
    d ← get_dentry dentry;
    match d_method d dop_revalidate with
    | Some f => match f with end
    | None => mret dentry
    end.

Definition cached_lookup (parent : ptr) (name : qstr) : KM ptr :=
  dentry ← __d_lookup parent name;
  dentry ← (if dentry =? NULL then d_lookup parent name else mret dentry);
  revalidate dentry.

(** [inode->i_op->lookup (inode, dentry, nd)]: a call through NULL when the
    table has no such method. *)
Definition call_lookup (inode dentry : ptr) : KM ptr :=
  i ← get_inode inode;
  match iop_lookup (i_op i) with
  | Some simple_lookup_fn => simple_lookup inode dentry
  | None => raise (BadPtr NULL)
  end.

Definition real_lookup (parent : ptr) (name : qstr) : KM ptr :=
  p ← get_dentry parent;
  let dir := d_inode p in
  get_inode dir ;;
  result ← d_lookup parent name;
  if result =? NULL then
    dentry ← d_alloc parent name;
    if dentry =? NULL then mret (ERR_PTR (- ENOMEM))
    else
      result ← call_lookup dir dentry;
      if negb (result =? NULL) then dput dentry ;; mret result
      else mret dentry
  else revalidate result.

Definition __lookup_hash (name : qstr) (base : ptr) : KM ptr :=
  b ← get_dentry base;
  let inode := d_inode b in
  err ← permission inode MAY_EXEC;
  if negb (err =? 0) then mret (ERR_PTR err)
  else
    match d_method b dop_hash with Some f => match f with end | None => mret tt end ;;
    dentry ← cached_lookup base name;
    if dentry =? NULL then
      new ← d_alloc base name;
      if new =? NULL then mret (ERR_PTR (- ENOMEM))
      else
        dentry ← call_lookup inode new;
        if dentry =? NULL then mret new else dput new ;; mret dentry
    else mret dentry.

Definition lookup_hash (name : qstr) (base : ptr) : KM ptr := __lookup_hash name base.

(** The loop over the name: its hash, or None at a slash or a NUL. *)
Fixpoint hash_component (name : bytes) (len : nat) (hash : Z) : option Z :=
  match len with
  | O => Some hash
  | S n =>
      let c := head_byte name in
      if (c =? 47) || (c =? 0) then None
      else hash_component (tail_bytes name) n (partial_name_hash c hash)
  end.

Definition lookup_one_len (name : bytes) (base len : Z) : KM ptr :=
  if len =? 0 then mret (ERR_PTR (- EACCES))
  else
    match hash_component name (Z.to_nat len) init_name_hash with
    | None => mret (ERR_PTR (- EACCES))
    | Some hash =>
        lookup_hash {| q_hash := end_name_hash hash; q_len := len; q_name := name |} base
    end.

(** ** Checks in front of creation and deletion *)

Definition check_sticky (t : task) (dir inode : inode) : bool :=
  if negb (has_flag (i_mode dir) S_ISVTX) then false
  else if i_uid inode =? fsuid t then false
  else if i_uid dir =? fsuid t then false
  else negb (cap_fowner t).

Definition may_delete (dir victim : ptr) (isdir : bool) : KM Z :=
  v ← get_dentry victim;
  if d_inode v =? NULL then mret (- ENOENT)
  else
    p ← get_dentry (d_parent v);
    bug_on (negb (d_inode p =? dir)) ;;
    error ← permission dir (Z.lor MAY_WRITE MAY_EXEC);
    if negb (error =? 0) then mret error
    else
      d ← get_inode dir;
      i ← get_inode (d_inode v);
      t ← gets current;
      mret (if IS_APPEND d then - EPERM
            else if check_sticky t d i || IS_APPEND i || IS_IMMUTABLE i then - EPERM
            else if isdir && negb (S_ISDIR (i_mode i)) then - ENOTDIR
            else if isdir && IS_ROOT victim v then - EBUSY
            else if negb isdir && S_ISDIR (i_mode i) then - EISDIR
            else if IS_DEADDIR d then - ENOENT
            else if has_flag (d_flags v) DCACHE_NFSFS_RENAMED then - EBUSY
            else 0).

Definition may_create (dir child : ptr) : KM Z :=
  c ← get_dentry child;
  if negb (d_inode c =? NULL) then mret (- EEXIST)
  else
    d ← get_inode dir;
    if IS_DEADDIR d then mret (- ENOENT)
    else permission dir (Z.lor MAY_WRITE MAY_EXEC).

Definition LOOKUP_FOLLOW : Z := 1.
Definition LOOKUP_DIRECTORY : Z := 2.
Definition O_CREAT : Z := 64.
Definition O_EXCL : Z := 128.
Definition O_DIRECTORY : Z := 65536.
Definition O_NOFOLLOW : Z := 131072.

Definition lookup_flags (f : Z) : Z :=
  let retval := LOOKUP_FOLLOW in
  let retval := if has_flag f O_NOFOLLOW then clear_flag retval LOOKUP_FOLLOW else retval in
  let retval := if Z.land f (Z.lor O_CREAT O_EXCL) =? Z.lor O_CREAT O_EXCL
                then clear_flag retval LOOKUP_FOLLOW else retval in
  if has_flag f O_DIRECTORY then set_flag retval LOOKUP_DIRECTORY else retval.
