(* ===== verification/Attr.v ===== *)
(** * Inode attributes (fs/attr.c)

    The change of an inode's owner, mode, size and times: who may ask for it
    and what it writes.  With it [do_truncate] of fs/open.c, [vmtruncate] of
    mm/memory.c, [__mark_inode_dirty] of fs/fs-writeback.c and the clock of a
    file system (kernel/time.c).  No quota and no security module is
    configured. *)

From S2P Require Import Prelude KString Kernel Groups Filesystems Inode Dcache Super Mount Libfs Namei.

(** ** Time

    A time is a number of nanoseconds; the clock ticks 250 times a second. *)

Definition jiffy_ns : Z := 4000000.
Definition NSEC_PER_SEC : Z := 1000000000.

Definition timespec_trunc (t gran : Z) : Z :=
  if gran <=? jiffy_ns then t
  else if gran =? NSEC_PER_SEC then t - t mod NSEC_PER_SEC
  else t - (t mod NSEC_PER_SEC) mod gran.

Definition current_fs_time (sb : ptr) : KM Z :=
  now ← CURRENT_TIME;
  b ← get_super sb;
  mret (timespec_trunc now (s_time_gran b)).

(** ** Dirty inodes

    The debugging output of block_dump is off. *)

Definition __mark_inode_dirty (inode flags : Z) : KM unit :=
  i ← get_inode inode;
  (if has_flag flags (Z.lor I_DIRTY_SYNC I_DIRTY_DATASYNC) then
     b ← get_super (i_sb i);
     match so_dirty_inode (s_op b) with Some f => match f with end | None => mret tt end
   else mret tt) ;;
  if Z.land (i_state i) flags =? flags then mret tt
  else
    let was_dirty := has_flag (i_state i) I_DIRTY in
    let state := Z.lor (i_state i) flags in
    mod_inode inode (λ i, i <| i_state := state |>) ;;
    if has_flag state I_LOCK then mret tt
    else if negb (S_ISBLK (i_mode i)) && i_unhashed i then mret tt
    else if has_flag state (Z.lor I_FREEING I_CLEAR) then mret tt
    else mwhen (negb was_dirty) (i_list_move inode OnDirty).

Definition mark_inode_dirty (inode : ptr) : KM unit := __mark_inode_dirty inode I_DIRTY.

(** ** Attributes *)

Definition ATTR_MODE : Z := 1.
Definition ATTR_UID : Z := 2.
Definition ATTR_GID : Z := 4.
Definition ATTR_SIZE : Z := 8.
Definition ATTR_ATIME : Z := 16.
Definition ATTR_MTIME : Z := 32.
Definition ATTR_CTIME : Z := 64.
Definition ATTR_ATIME_SET : Z := 128.
Definition ATTR_MTIME_SET : Z := 256.
Definition ATTR_FORCE : Z := 512.
Definition ATTR_KILL_SUID : Z := 2048.
Definition ATTR_KILL_SGID : Z := 4096.

Record iattr := mkIattr {
  ia_valid : Z;
  ia_mode : Z;
  ia_uid : Z;
  ia_gid : Z;
  ia_size : Z;
  ia_atime : Z;
  ia_mtime : Z;
  ia_ctime : Z
}.

#[export] Instance eta_iattr : Eta iattr := λ a,
  mkIattr (ia_valid a) (ia_mode a) (ia_uid a) (ia_gid a) (ia_size a) (ia_atime a)
    (ia_mtime a) (ia_ctime a).

(** Whether the caller may make the change, and the change with the setgid bit
    taken from a mode the caller may not set it in. *)
Definition inode_change_ok (t : task) (i : inode) (attr : iattr) : Z * iattr :=
  let valid := ia_valid attr in
  if has_flag valid ATTR_FORCE then (0, attr)
  else if has_flag valid ATTR_UID &&
          (negb (fsuid t =? i_uid i) || negb (ia_uid attr =? i_uid i)) && negb (cap_chown t)
  then (- EPERM, attr)
  else if has_flag valid ATTR_GID &&
          (negb (fsuid t =? i_uid i) ||
           (negb (in_group_p t (ia_gid attr)) && negb (ia_gid attr =? i_gid i))) &&
          negb (cap_chown t)
  then (- EPERM, attr)
  else if has_flag valid ATTR_MODE && negb (fsuid t =? i_uid i) && negb (cap_fowner t)
  then (- EPERM, attr)
  else
    let attr :=
      if has_flag valid ATTR_MODE &&
         negb (in_group_p t (if has_flag valid ATTR_GID then ia_gid attr else i_gid i)) &&
         negb (cap_fsetid t)
      then attr <| ia_mode ::= λ m, clear_flag m S_ISGID |> else attr in
    if has_flag valid (Z.lor ATTR_MTIME_SET ATTR_ATIME_SET) &&
       negb (fsuid t =? i_uid i) && negb (cap_fowner t)
    then (- EPERM, attr)
    else (0, attr).

(** The pages that a file caches are its first [i_nrpages]. *)
Definition truncate_inode_pages_from (inode lstart : Z) : KM unit :=
  mod_inode inode (λ i, i <| i_nrpages ::=
    Z.min (Z.shiftr (lstart + PAGE_CACHE_SIZE - 1) PAGE_CACHE_SHIFT) |>).

Definition IS_SWAPFILE (i : inode) : bool := has_flag (i_flags i) S_SWAPFILE.

(** The label out_truncate. *)
Definition out_truncate (inode : ptr) : KM Z :=
  i ← get_inode inode;
  match iop_truncate (i_op i) with Some f => match f with end | None => mret 0 end.

(** No page is mapped into a process, and the signal to a task beyond its limit
    is not modelled. *)
Definition vmtruncate (inode offset : Z) : KM Z :=
  i ← get_inode inode;
  if i_size i <? offset then
    t ← gets current;
    if match rlim_fsize t with Some limit => offset >? limit | None => false end
    then mret (- EFBIG)
    else
      b ← get_super (i_sb i);
      if offset >? s_maxbytes b then mret (- EFBIG)
      else mod_inode inode (λ i, i <| i_size := offset |>) ;; out_truncate inode
  else if IS_SWAPFILE i then mret (- ETXTBSY)
  else
    mod_inode inode (λ i, i <| i_size := offset |>) ;;
    truncate_inode_pages_from inode offset ;;
    out_truncate inode.

(** The part of inode_setattr behind the size: [valid] says what to write. *)
Definition setattr_fields (t : task) (gran valid : Z) (attr : iattr) (i : inode) : inode :=
  let i := if has_flag valid ATTR_UID then i <| i_uid := ia_uid attr |> else i in
  let i := if has_flag valid ATTR_GID then i <| i_gid := ia_gid attr |> else i in
  let i := if has_flag valid ATTR_ATIME
           then i <| i_atime := timespec_trunc (ia_atime attr) gran |> else i in
  let i := if has_flag valid ATTR_MTIME
           then i <| i_mtime := timespec_trunc (ia_mtime attr) gran |> else i in
  let i := if has_flag valid ATTR_CTIME
           then i <| i_ctime := timespec_trunc (ia_ctime attr) gran |> else i in
  if has_flag valid ATTR_MODE then
    i <| i_mode := u16 (if negb (in_group_p t (i_gid i)) && negb (cap_fsetid t)
                        then clear_flag (ia_mode attr) S_ISGID else ia_mode attr) |>
  else i.

Definition inode_setattr (inode : ptr) (attr : iattr) : KM Z :=
  i ← get_inode inode;
  let valid := ia_valid attr in
  (* an error and whether to stop, and what is left to write *)
  '(error, stop, valid) ←
    (if has_flag valid ATTR_SIZE then
       if negb (ia_size attr =? i_size i) then
         error ← vmtruncate inode (ia_size attr);
         mret (error, negb (error =? 0) || (valid =? ATTR_SIZE), valid)
       else mret (0, false, Z.lor valid (Z.lor ATTR_MTIME ATTR_CTIME))
     else mret (0, false, valid));
  if (stop : bool) then mret error
  else
    b ← get_super (i_sb i);
    t ← gets current;
    mod_inode inode (setattr_fields t (s_time_gran b) valid attr) ;;
    mark_inode_dirty inode ;;
    mret error.

(** [ATTR_KILL_SUID] and [ATTR_KILL_SGID] become changes of the mode; [ia_valid]
    is the local variable of notify_change. *)
Definition kill_suid (mode : Z) (a : Z * iattr) : Z * iattr :=
  let '(valid, attr) := a in
  if has_flag valid ATTR_KILL_SUID then
    let attr := attr <| ia_valid ::= λ v, clear_flag v ATTR_KILL_SUID |> in
    if has_flag mode S_ISUID then
      let '(valid, attr) :=
        if negb (has_flag valid ATTR_MODE) then
          let v := Z.lor (ia_valid attr) ATTR_MODE in
          (v, attr <| ia_valid := v |> <| ia_mode := mode |>)
        else (valid, attr) in
      (valid, attr <| ia_mode ::= λ m, clear_flag m S_ISUID |>)
    else (valid, attr)
  else (valid, attr).

Definition kill_sgid (mode : Z) (a : Z * iattr) : Z * iattr :=
  let '(valid, attr) := a in
  if has_flag valid ATTR_KILL_SGID then
    let attr := attr <| ia_valid ::= λ v, clear_flag v ATTR_KILL_SGID |> in
    if Z.land mode (Z.lor S_ISGID S_IXGRP) =? Z.lor S_ISGID S_IXGRP then
      let '(valid, attr) :=
        if negb (has_flag valid ATTR_MODE) then
          let v := Z.lor (ia_valid attr) ATTR_MODE in
          (v, attr <| ia_valid := v |> <| ia_mode := mode |>)
        else (valid, attr) in
      (valid, attr <| ia_mode ::= λ m, clear_flag m S_ISGID |>)
    else (valid, attr)
  else (valid, attr).

Definition notify_change (dentry : ptr) (attr : iattr) : KM Z :=
  d ← get_dentry dentry;
  let inode := d_inode d in
  bug_on (inode =? NULL) ;;
  i ← get_inode inode;
  now ← current_fs_time (i_sb i);
  let attr := attr <| ia_ctime := now |> in
  let attr := if negb (has_flag (ia_valid attr) ATTR_ATIME_SET)
              then attr <| ia_atime := now |> else attr in
  let attr := if negb (has_flag (ia_valid attr) ATTR_MTIME_SET)
              then attr <| ia_mtime := now |> else attr in
  let '(_, attr) := kill_sgid (i_mode i) (kill_suid (i_mode i) (ia_valid attr, attr)) in
  if ia_valid attr =? 0 then mret 0
  else
    match iop_setattr (i_op i) with
    | Some f => match f with end
    | None =>
        t ← gets current;
        let '(error, attr) := inode_change_ok t i attr in
        if negb (error =? 0) then mret error else inode_setattr inode attr
    end.

(** fs/open.c *)
Definition do_truncate (dentry length : Z) : KM Z :=
  if length <? 0 then mret (- EINVAL)
  else notify_change dentry (mkIattr (Z.lor ATTR_SIZE ATTR_CTIME) 0 0 0 length 0 0 0).
