(* ===== verification/Path.v ===== *)
(** * Path walks (fs/namei.c)

    The resolution of a path name, component by component, through the dentry
    cache, across mount points and up through [..].  A function that works on a
    [struct nameidata] takes it and returns it. *)

From S2P Require Import Prelude KString Kernel Groups Filesystems Inode Dcache Super Mount Libfs Namei.

(** ** The walk's data *)

Definition LOOKUP_CONTINUE : Z := 4.
Definition LOOKUP_PARENT : Z := 16.
Definition LOOKUP_NOALT : Z := 32.
Definition LOOKUP_REVAL : Z := 64.
Definition FS_REVAL_DOT : Z := 16384.

Inductive last_type : Set := LAST_NORM | LAST_ROOT | LAST_DOT | LAST_DOTDOT | LAST_BIND.

(** The saved names of symbolic links are left out: no modelled table has a
    [follow_link] method. *)
Record nameidata := mkNd {
  nd_dentry : ptr;
  nd_mnt : ptr;
  nd_last : qstr;
  nd_flags : Z;
  nd_last_type : last_type;
  nd_depth : Z
}.

#[export] Instance eta_nameidata : Eta nameidata := λ n,
  mkNd (nd_dentry n) (nd_mnt n) (nd_last n) (nd_flags n) (nd_last_type n) (nd_depth n).

Definition nd_path (nd : nameidata) : vpath := (nd_mnt nd, nd_dentry nd).

(** ** Mount points *)

Definition dput_path (path : vpath) (nd : nameidata) : KM unit :=
  dput (snd path) ;;
  mwhen (negb (fst path =? nd_mnt nd)) (mntput (fst path)).

Definition path_to_nameidata (path : vpath) (nd : nameidata) : KM nameidata :=
  dput (nd_dentry nd) ;;
  mwhen (negb (nd_mnt nd =? fst path)) (mntput (nd_mnt nd)) ;;
  mret (nd <| nd_mnt := fst path |> <| nd_dentry := snd path |>).

Definition follow_up (mnt dentry : ptr) : KM (Z * vpath) :=
  m ← get_mount mnt;
  let parent := mnt_parent m in
  if parent =? mnt then mret (0, (mnt, dentry))
  else
    mntget parent ;;
    mountpoint ← dget (mnt_mountpoint m);
    dput dentry ;;
    mntput mnt ;;
    mret (1, (parent, mountpoint)).

(** Each round enters a mount on top of the last. *)
Definition __follow_mount (path : vpath) : KM (Z * vpath) :=
  n ← mnt_fuel;
  loop n (λ '(res, (mnt, dentry)),
    d ← get_dentry dentry;
    if negb (d_mountpoint d) then mret (inr (res, (mnt, dentry)))
    else
      mounted ← lookup_mnt mnt dentry;
      if mounted =? NULL then mret (inr (res, (mnt, dentry)))
      else
        dput dentry ;;
        mwhen (negb (res =? 0)) (mntput mnt) ;;
        m ← get_mount mounted;
        root ← dget (mnt_root m);
        mret (inl (1, (mounted, root)))) (0, path).

Definition follow_mount (mnt dentry : ptr) : KM vpath :=
  n ← mnt_fuel;
  loop n (λ '(mnt, dentry),
    d ← get_dentry dentry;
    if negb (d_mountpoint d) then mret (inr (mnt, dentry))
    else
      mounted ← lookup_mnt mnt dentry;
      if mounted =? NULL then mret (inr (mnt, dentry))
      else
        dput dentry ;;
        mntput mnt ;;
        m ← get_mount mounted;
        root ← dget (mnt_root m);
        mret (inl (mounted, root))) (mnt, dentry).

Definition follow_down (mnt dentry : ptr) : KM (Z * vpath) :=
  mounted ← lookup_mnt mnt dentry;
  if mounted =? NULL then mret (0, (mnt, dentry))
  else
    dput dentry ;;
    mntput mnt ;;
    m ← get_mount mounted;
    root ← dget (mnt_root m);
    mret (1, (mounted, root)).

(** One round: up to the parent directory, or from the root of a mount to the
    directory it covers. *)
Definition follow_dotdot_body (pos : vpath) : KM (vpath + vpath) :=
  let '(mnt, old) := pos in
  fs ← gets (λ s, task_fs (current s));
  if (old =? fs_root fs) && (mnt =? fs_rootmnt fs) then mret (inr (mnt, old))
  else
    m ← get_mount mnt;
    if negb (old =? mnt_root m) then
      d ← get_dentry old;
      dentry ← dget (d_parent d);
      dput old ;;
      mret (inr (mnt, dentry))
    else
      let parent := mnt_parent m in
      if parent =? mnt then mret (inr (mnt, old))
      else
        mntget parent ;;
        dentry ← dget (mnt_mountpoint m);
        dput old ;;
        mntput mnt ;;
        mret (inl (parent, dentry)).

Definition follow_dotdot (nd : nameidata) : KM nameidata :=
  n ← mnt_fuel;
  '(mnt, dentry) ← loop n follow_dotdot_body (nd_path nd);
  '(mnt, dentry) ← follow_mount mnt dentry;
  mret (nd <| nd_mnt := mnt |> <| nd_dentry := dentry |>).

(** ** One component *)

(** An error, or the mount and the dentry the component leads to. *)
Definition do_lookup (nd : nameidata) (name : qstr) : KM (Z + vpath) :=
  dentry ← __d_lookup (nd_dentry nd) name;
  dentry ← (if dentry =? NULL then real_lookup (nd_dentry nd) name
            else
              d ← get_dentry dentry;
              match d_method d dop_revalidate with
              | Some f => match f with end
              | None => mret dentry
              end);
  if IS_ERR dentry then mret (inl (PTR_ERR dentry))
  else
    '(_, path) ← __follow_mount (nd_mnt nd, dentry);
    mret (inr path).

(** ** The walk *)

Fixpoint skip_slashes (name : bytes) : bytes :=
  match name with
  | c :: name' => if c =? 47 then skip_slashes name' else name
  | [] => []
  end.

(** The length and the hash of the component that [name] starts with, and what
    follows it. *)
Fixpoint scan_component (name : bytes) (len hash : Z) : Z * Z * bytes :=
  match name with
  | c :: name' =>
      if (c =? 0) || (c =? 47) then (len, hash, name)
      else scan_component name' (len + 1) (partial_name_hash c hash)
  | [] => (len, hash, [])
  end.

(** The switch on components that start with a dot: 1 for [.], 2 for [..], 0
    for any other. *)
Definition dots (this : qstr) : Z :=
  if negb (head_byte (q_name this) =? 46) then 0
  else if q_len this =? 2 then (if head_byte (tail_bytes (q_name this)) =? 46 then 2 else 0)
  else if q_len this =? 1 then 1
  else 0.

(** [nd->dentry->d_op->d_hash]: no modelled table has one. *)
Definition call_d_hash (dentry : ptr) : KM unit :=
  d ← get_dentry dentry;
  match d_method d dop_hash with Some f => match f with end | None => mret tt end.

Definition walk_fail (err : Z) (nd : nameidata) : KM (Z * nameidata) :=
  path_release (nd_path nd) ;; mret (err, nd).

(** The label return_reval. *)
Definition return_reval (nd : nameidata) : KM (Z * nameidata) :=
  if nd_dentry nd =? NULL then mret (0, nd)
  else
    d ← get_dentry (nd_dentry nd);
    if d_sb d =? NULL then mret (0, nd)
    else
      b ← get_super (d_sb d);
      t ← get_fstype (s_type b);
      if has_flag (fs_flags t) FS_REVAL_DOT then
        match d_method d dop_revalidate with
        | Some f => match f with end
        | None => raise (BadPtr NULL)
        end
      else mret (0, nd).

(** The label lookup_parent. *)
Definition lookup_parent (this : qstr) (nd : nameidata) : KM (Z * nameidata) :=
  let nd := nd <| nd_last := this |> <| nd_last_type := LAST_NORM |> in
  if negb (head_byte (q_name this) =? 46) then mret (0, nd)
  else if q_len this =? 1 then return_reval (nd <| nd_last_type := LAST_DOT |>)
  else if (q_len this =? 2) && (head_byte (tail_bytes (q_name this)) =? 46)
  then return_reval (nd <| nd_last_type := LAST_DOTDOT |>)
  else mret (0, nd).

(** From the label last_component on. *)
Definition last_component (this : qstr) (lookup_flags : Z) (nd : nameidata) : KM (Z * nameidata) :=
  let nd := nd <| nd_flags ::= λ f, clear_flag f LOOKUP_CONTINUE |> in
  if has_flag lookup_flags LOOKUP_PARENT then lookup_parent this nd
  else if dots this =? 2 then nd ← follow_dotdot nd; return_reval nd
  else if dots this =? 1 then return_reval nd
  else
    call_d_hash (nd_dentry nd) ;;
    r ← do_lookup nd this;
    match r with
    | inl err => walk_fail err nd
    | inr next =>
        d ← get_dentry (snd next);
        let inode := d_inode d in
        i ← (if inode =? NULL then mret None else i ← get_inode inode; mret (Some i));
        (if has_flag lookup_flags LOOKUP_FOLLOW then
           match i with
           | Some i => match iop_follow_link (i_op i) with Some f => match f with end | None => mret tt end
           | None => mret tt
           end
         else mret tt) ;;
        nd ← path_to_nameidata next nd;
        match i with
        | None => walk_fail (- ENOENT) nd
        | Some i =>
            if has_flag lookup_flags LOOKUP_DIRECTORY && negb (bool_decide (is_Some (iop_lookup (i_op i))))
            then walk_fail (- ENOTDIR) nd
            else mret (0, nd)
        end
    end.

(** A component with more behind it: an error, or the state of the walk in the
    next directory. *)
Definition middle_component (this : qstr) (nd : nameidata) (inode : ptr)
    : KM ((Z * nameidata) + (nameidata * ptr)) :=
  if dots this =? 2 then
    nd ← follow_dotdot nd;
    d ← get_dentry (nd_dentry nd);
    mret (inr (nd, d_inode d))
  else if dots this =? 1 then mret (inr (nd, inode))
  else
    call_d_hash (nd_dentry nd) ;;
    let nd := nd <| nd_flags ::= λ f, set_flag f LOOKUP_CONTINUE |> in
    r ← do_lookup nd this;
    match r with
    | inl err => e ← walk_fail err nd; mret (inl e)
    | inr next =>
        d ← get_dentry (snd next);
        let inode := d_inode d in
        if inode =? NULL then dput_path next nd ;; e ← walk_fail (- ENOENT) nd; mret (inl e)
        else
          i ← get_inode inode;
          match iop_follow_link (i_op i) with Some f => match f with end | None => mret tt end ;;
          nd ← path_to_nameidata next nd;
          match iop_lookup (i_op i) with
          | None => e ← walk_fail (- ENOTDIR) nd; mret (inl e)
          | Some _ => mret (inr (nd, inode))
          end
    end.

(** One round of the main loop. *)
Definition walk_body (lookup_flags : Z) (pos : bytes * nameidata * ptr)
    : KM ((bytes * nameidata * ptr) + (Z * nameidata)) :=
  let '(name, nd, inode) := pos in
  err ← exec_permission_lite inode;
  err ← (if err =? - EAGAIN then permission inode MAY_EXEC else mret err);
  if negb (err =? 0) then r ← walk_fail err nd; mret (inr r)
  else
    let '(len, hash, rest) := scan_component name 0 init_name_hash in
    let this := {| q_hash := end_name_hash hash; q_len := len; q_name := name |} in
    if head_byte rest =? 0 then r ← last_component this lookup_flags nd; mret (inr r)
    else
      let next := skip_slashes rest in
      if head_byte next =? 0 then
        r ← last_component this (Z.lor lookup_flags (Z.lor LOOKUP_FOLLOW LOOKUP_DIRECTORY)) nd;
        mret (inr r)
      else
        r ← middle_component this nd inode;
        mret (match r with inl e => inr e | inr (nd, inode) => inl (next, nd, inode) end).

Definition __link_path_walk (name : bytes) (nd : nameidata) : KM (Z * nameidata) :=
  let name := skip_slashes name in
  if head_byte name =? 0 then return_reval nd
  else
    d ← get_dentry (nd_dentry nd);
    let lookup_flags := if negb (nd_depth nd =? 0) then LOOKUP_FOLLOW else nd_flags nd in
    loop (S (length name)) (walk_body lookup_flags) (name, nd, d_inode d).

Definition link_path_walk (name : bytes) (nd : nameidata) : KM (Z * nameidata) :=
  let save := nd in
  dget (nd_dentry save) ;;
  mntget (nd_mnt save) ;;
  '(result, nd) ← __link_path_walk name nd;
  r ← (if result =? - ESTALE then
         dget (nd_dentry save) ;;
         mntget (nd_mnt save) ;;
         __link_path_walk name (save <| nd_flags ::= λ f, set_flag f LOOKUP_REVAL |>)
       else mret (result, nd));
  dput (nd_dentry save) ;;
  mntput (nd_mnt save) ;;
  mret r.

(** The counters of symbolic links have no reader here. *)
Definition path_walk (name : bytes) (nd : nameidata) : KM (Z * nameidata) := link_path_walk name nd.

Definition __emul_lookup_dentry (name : bytes) (nd : nameidata) : KM (Z * nameidata) :=
  '(err, nd) ← path_walk name nd;
  if negb (err =? 0) then mret (0, nd)
  else
    d ← get_dentry (nd_dentry nd);
    again ← (if d_inode d =? NULL then mret true
             else i ← get_inode (d_inode d); mret (S_ISDIR (i_mode i)));
    if negb again then mret (1, nd)
    else
      let old := nd in
      fs ← gets (λ s, task_fs (current s));
      mnt ← mntget (fs_rootmnt fs);
      dentry ← dget (fs_root fs);
      '(err, nd) ← path_walk name
        (nd <| nd_last_type := LAST_ROOT |> <| nd_mnt := mnt |> <| nd_dentry := dentry |>);
      let back := nd <| nd_dentry := nd_dentry old |> <| nd_mnt := nd_mnt old |>
                     <| nd_last := nd_last old |> <| nd_last_type := nd_last_type old |> in
      if err =? 0 then
        d ← get_dentry (nd_dentry nd);
        if negb (d_inode d =? NULL) then
          dput (nd_dentry old) ;;
          mntput (nd_mnt old) ;;
          mret (1, nd)
        else path_release (nd_path nd) ;; mret (1, back)
      else mret (1, back).

Definition walk_init_root (name : bytes) (nd : nameidata) : KM (Z * nameidata) :=
  fs ← gets (λ s, task_fs (current s));
  found ← (if negb (fs_altroot fs =? NULL) && negb (has_flag (nd_flags nd) LOOKUP_NOALT) then
             mnt ← mntget (fs_altrootmnt fs);
             dentry ← dget (fs_altroot fs);
             __emul_lookup_dentry name (nd <| nd_mnt := mnt |> <| nd_dentry := dentry |>)
           else mret (0, nd));
  let '(done, nd) := found in
  if negb (done =? 0) then mret (0, nd)
  else
    mnt ← mntget (fs_rootmnt fs);
    dentry ← dget (fs_root fs);
    mret (1, nd <| nd_mnt := mnt |> <| nd_dentry := dentry |>).

Definition path_lookup (name : bytes) (flags : Z) (nd : nameidata) : KM (Z * nameidata) :=
  let nd := nd <| nd_last_type := LAST_ROOT |> <| nd_flags := flags |> <| nd_depth := 0 |> in
  fs ← gets (λ s, task_fs (current s));
  if head_byte name =? 47 then
    found ← (if negb (fs_altroot fs =? NULL) && negb (has_flag (nd_flags nd) LOOKUP_NOALT) then
               mnt ← mntget (fs_altrootmnt fs);
               dentry ← dget (fs_altroot fs);
               __emul_lookup_dentry name (nd <| nd_mnt := mnt |> <| nd_dentry := dentry |>)
             else mret (0, nd));
    let '(done, nd) := found in
    if negb (done =? 0) then mret (0, nd)
    else
      mnt ← mntget (fs_rootmnt fs);
      dentry ← dget (fs_root fs);
      link_path_walk name (nd <| nd_mnt := mnt |> <| nd_dentry := dentry |>)
  else
    mnt ← mntget (fs_pwdmnt fs);
    dentry ← dget (fs_pwd fs);
    link_path_walk name (nd <| nd_mnt := mnt |> <| nd_dentry := dentry |>).
