(* ===== verification/Vfs.v ===== *)
(** * Operations on names (fs/namei.c)

    What a user program may do to a directory tree: create, link, rename and
    remove names, and open a file.  Each operation of the first group checks
    permissions and then calls a method of the directory's [inode_operations];
    the methods that the tables have beside [lookup] are the argument [iop] of
    the section, and [vendored_iop] is what the tables of the modelled sources
    give.  The semaphore [i_sem] of an inode is never contended (one thread
    runs), so that taking it only reads the inode.  No quota, no security
    module, no leases, no mandatory locks and no inotify watches are
    configured. *)

From S2P Require Import Prelude KString Kernel Groups Filesystems Inode Dcache Super Mount Libfs Namei.
From S2P Require Import Attr Path.

(** ** The methods of a directory *)

Record dir_methods := mkDirMethods {
  dm_create : option (ptr → ptr → Z → KM Z);
  dm_mknod : option (ptr → ptr → Z → Z → KM Z);
  dm_mkdir : option (ptr → ptr → Z → KM Z);
  dm_rmdir : option (ptr → ptr → KM Z);
  dm_unlink : option (ptr → ptr → KM Z);
  dm_symlink : option (ptr → ptr → bytes → KM Z);
  dm_link : option (ptr → ptr → ptr → KM Z);
  dm_rename : option (ptr → ptr → ptr → ptr → KM Z)
}.

(** [simple_dir_inode_operations] of fs/libfs.c and [empty_iops] of fs/inode.c
    have none of them. *)
Definition vendored_iop (t : inode_operations) : dir_methods :=
  match t with
  | empty_iops | simple_dir_inode_operations =>
      mkDirMethods None None None None None None None None
  end.

(** [down] and [up] of the [i_sem] of a dentry's inode. *)
Definition i_sem (dentry : ptr) : KM unit :=
  d ← get_dentry dentry; get_inode (d_inode d) ;; mret tt.

(** What a nameidata on the stack holds before the walk sets it. *)
Definition nd_init : nameidata := mkNd NULL NULL (mkQstr 0 0 []) 0 LAST_ROOT 0.

(** [nd->last.name[nd->last.len]]: 0, or a slash behind the last component. *)
Definition after_last (nd : nameidata) : Z :=
  head_byte (drop (Z.to_nat (q_len (nd_last nd))) (q_name (nd_last nd))).

Definition is_last_norm (nd : nameidata) : bool :=
  match nd_last_type nd with LAST_NORM => true | _ => false end.

Definition umask_mode (dir mode : Z) : KM Z :=
  i ← get_inode dir;
  acl ← IS_POSIXACL i;
  t ← gets current;
  mret (if (acl : bool) then mode else clear_flag mode (fs_umask (task_fs t))).

(** include/linux/kdev_t.h *)
Definition new_decode_dev (dev : Z) : Z :=
  let major := Z.shiftr (Z.land dev 1048320) 8 in
  let minor := Z.lor (Z.land dev 255) (Z.land (Z.shiftr dev 12) 1048320) in
  MKDEV major minor.

(** ** Two directories at once *)

(** The loop of lock_rename: the ancestor of [p1], or [p1] itself, whose parent
    is [p2]. *)
Definition child_towards (p1 p2 : ptr) : KM (option ptr) :=
  n ← gets (λ s, S (size (dentries s)));
  loop n (λ p,
    d ← get_dentry p;
    if d_parent d =? p then mret (inr None)
    else if d_parent d =? p2 then mret (inr (Some p))
    else mret (inl (d_parent d))) p1.

Definition lock_rename (p1 p2 : ptr) : KM ptr :=
  if p1 =? p2 then i_sem p1 ;; mret NULL
  else
    below ← child_towards p1 p2;
    match below with
    | Some p => i_sem p2 ;; i_sem p1 ;; mret p
    | None =>
        above ← child_towards p2 p1;
        i_sem p1 ;; i_sem p2 ;; mret (default NULL above)
    end.

Definition unlock_rename (p1 p2 : ptr) : KM unit :=
  i_sem p1 ;; mwhen (negb (p1 =? p2)) (i_sem p2).

(** ** The operations on two looked-up names *)

Section vfs.
Context (iop : inode_operations → dir_methods).

Definition vfs_create (dir dentry mode : Z) : KM Z :=
  error ← may_create dir dentry;
  if negb (error =? 0) then mret error
  else
    i ← get_inode dir;
    match dm_create (iop (i_op i)) with
    | None => mret (- EACCES)
    | Some create => create dir dentry (Z.lor (Z.land mode S_IALLUGO) S_IFREG)
    end.

Definition vfs_mknod (dir dentry mode dev : Z) : KM Z :=
  error ← may_create dir dentry;
  if negb (error =? 0) then mret error
  else
    t ← gets current;
    if (S_ISCHR mode || S_ISBLK mode) && negb (cap_mknod t) then mret (- EPERM)
    else
      i ← get_inode dir;
      match dm_mknod (iop (i_op i)) with
      | None => mret (- EPERM)
      | Some mknod => mknod dir dentry mode dev
      end.

Definition vfs_mkdir (dir dentry mode : Z) : KM Z :=
  error ← may_create dir dentry;
  if negb (error =? 0) then mret error
  else
    i ← get_inode dir;
    match dm_mkdir (iop (i_op i)) with
    | None => mret (- EPERM)
    | Some mkdir => mkdir dir dentry (Z.land mode (Z.lor S_IRWXUGO S_ISVTX))
    end.

Definition dentry_unhash (dentry : ptr) : KM unit :=
  dget dentry ;;
  d ← get_dentry dentry;
  mwhen (negb (d_count d =? 0)) (shrink_dcache_parent dentry) ;;
  d ← get_dentry dentry;
  mwhen (d_count d =? 2) (__d_drop dentry).

Definition set_dead (inode : ptr) : KM unit :=
  mod_inode inode (λ i, i <| i_flags ::= λ f, set_flag f S_DEAD |>).

Definition vfs_rmdir (dir dentry : ptr) : KM Z :=
  error ← may_delete dir dentry true;
  if negb (error =? 0) then mret error
  else
    i ← get_inode dir;
    match dm_rmdir (iop (i_op i)) with
    | None => mret (- EPERM)
    | Some rmdir =>
        i_sem dentry ;;
        dentry_unhash dentry ;;
        d ← get_dentry dentry;
        error ← (if d_mountpoint d then mret (- EBUSY)
                 else
                   error ← rmdir dir dentry;
                   d ← get_dentry dentry;
                   mwhen (error =? 0) (set_dead (d_inode d)) ;;
                   mret error);
        i_sem dentry ;;
        mwhen (error =? 0) (d_delete dentry) ;;
        dput dentry ;;
        mret error
    end.

Definition vfs_unlink (dir dentry : ptr) : KM Z :=
  error ← may_delete dir dentry false;
  if negb (error =? 0) then mret error
  else
    i ← get_inode dir;
    match dm_unlink (iop (i_op i)) with
    | None => mret (- EPERM)
    | Some unlink =>
        i_sem dentry ;;
        d ← get_dentry dentry;
        error ← (if d_mountpoint d then mret (- EBUSY) else unlink dir dentry);
        i_sem dentry ;;
        d ← get_dentry dentry;
        mwhen ((error =? 0) && negb (has_flag (d_flags d) DCACHE_NFSFS_RENAMED)) (d_delete dentry) ;;
        mret error
    end.

Definition vfs_symlink (dir dentry : ptr) (oldname : bytes) (mode : Z) : KM Z :=
  error ← may_create dir dentry;
  if negb (error =? 0) then mret error
  else
    i ← get_inode dir;
    match dm_symlink (iop (i_op i)) with
    | None => mret (- EPERM)
    | Some symlink => symlink dir dentry oldname
    end.

Definition vfs_link (old_dentry dir new_dentry : ptr) : KM Z :=
  d ← get_dentry old_dentry;
  if d_inode d =? NULL then mret (- ENOENT)
  else
    error ← may_create dir new_dentry;
    if negb (error =? 0) then mret error
    else
      i ← get_inode (d_inode d);
      p ← get_inode dir;
      if negb (i_sb p =? i_sb i) then mret (- EXDEV)
      else if IS_APPEND i || IS_IMMUTABLE i then mret (- EPERM)
      else
        match dm_link (iop (i_op p)) with
        | None => mret (- EPERM)
        | Some link =>
            if S_ISDIR (i_mode i) then mret (- EPERM)
            else
              i_sem old_dentry ;;
              error ← link old_dentry dir new_dentry;
              i_sem old_dentry ;;
              mret error
        end.

Definition FS_ODD_RENAME : Z := 32768.

(** The call through the slot, which vfs_rename found filled. *)
Definition call_rename (old_dir old_dentry new_dir new_dentry : ptr) : KM Z :=
  od ← get_dentry old_dentry;
  nd ← get_dentry new_dentry;
  if d_mountpoint od || d_mountpoint nd then mret (- EBUSY)
  else
    i ← get_inode old_dir;
    match dm_rename (iop (i_op i)) with
    | Some rename => rename old_dir old_dentry new_dir new_dentry
    | None => raise (BadPtr NULL)
    end.

Definition vfs_rename_dir (old_dir old_dentry new_dir new_dentry : ptr) : KM Z :=
  error ← (if negb (new_dir =? old_dir) then
             od ← get_dentry old_dentry; permission (d_inode od) MAY_WRITE
           else mret 0);
  if negb (error =? 0) then mret error
  else
    nd ← get_dentry new_dentry;
    let target := d_inode nd in
    mwhen (negb (target =? NULL)) (get_inode target ;; dentry_unhash new_dentry) ;;
    error ← call_rename old_dir old_dentry new_dir new_dentry;
    mwhen (negb (target =? NULL))
      (mwhen (error =? 0) (set_dead target) ;;
       nd ← get_dentry new_dentry;
       mwhen (d_unhashed nd) (d_rehash new_dentry) ;;
       dput new_dentry) ;;
    mwhen (error =? 0) (d_move old_dentry new_dentry) ;;
    mret error.

Definition vfs_rename_other (old_dir old_dentry new_dir new_dentry : ptr) : KM Z :=
  dget new_dentry ;;
  nd ← get_dentry new_dentry;
  let target := d_inode nd in
  mwhen (negb (target =? NULL)) (get_inode target ;; mret tt) ;;
  error ← call_rename old_dir old_dentry new_dir new_dentry;
  mwhen (error =? 0)
    (i ← get_inode old_dir;
     b ← get_super (i_sb i);
     t ← get_fstype (s_type b);
     mwhen (negb (has_flag (fs_flags t) FS_ODD_RENAME)) (d_move old_dentry new_dentry)) ;;
  dput new_dentry ;;
  mret error.

Definition vfs_rename (old_dir old_dentry new_dir new_dentry : ptr) : KM Z :=
  od ← get_dentry old_dentry;
  oi ← get_inode (d_inode od);
  let is_dir := S_ISDIR (i_mode oi) in
  nd ← get_dentry new_dentry;
  if d_inode od =? d_inode nd then mret 0
  else
    error ← may_delete old_dir old_dentry is_dir;
    if negb (error =? 0) then mret error
    else
      error ← (if d_inode nd =? NULL then may_create new_dir new_dentry
               else may_delete new_dir new_dentry is_dir);
      if negb (error =? 0) then mret error
      else
        i ← get_inode old_dir;
        match dm_rename (iop (i_op i)) with
        | None => mret (- EPERM)
        | Some _ =>
            if is_dir then vfs_rename_dir old_dir old_dentry new_dir new_dentry
            else vfs_rename_other old_dir old_dentry new_dir new_dentry
        end.

(** ** System calls

    [getname] copied the path: a function takes the kernel's copy. *)

(** The dentry for the last component, or an error pointer. *)
Definition lookup_create (nd : nameidata) (is_dir : bool) : KM ptr :=
  i_sem (nd_dentry nd) ;;
  if negb (is_last_norm nd) then mret (ERR_PTR (- EEXIST))
  else
    dentry ← lookup_hash (nd_last nd) (nd_dentry nd);
    if IS_ERR dentry then mret dentry
    else
      d ← get_dentry dentry;
      if negb is_dir && negb (after_last nd =? 0) && (d_inode d =? NULL) then
        dput dentry ;; mret (ERR_PTR (- ENOENT))
      else mret dentry.

(** The inode of the directory that the walk ended in. *)
Definition nd_dir (nd : nameidata) : KM ptr :=
  d ← get_dentry (nd_dentry nd); mret (d_inode d).

(** How every system call that makes a name ends. *)
Definition finish_create (nd : nameidata) (dentry error : Z) : KM Z :=
  mwhen (negb (IS_ERR dentry)) (dput dentry) ;;
  i_sem (nd_dentry nd) ;;
  path_release (nd_path nd) ;;
  mret error.

Definition sys_mknod (tmp : bytes) (mode dev : Z) : KM Z :=
  if S_ISDIR mode then mret (- EPERM)
  else
    '(error, nd) ← path_lookup tmp LOOKUP_PARENT nd_init;
    if negb (error =? 0) then mret error
    else
      dentry ← lookup_create nd false;
      dir ← nd_dir nd;
      mode ← umask_mode dir mode;
      error ← (if IS_ERR dentry then mret (PTR_ERR dentry)
               else
                 let fmt := Z.land mode S_IFMT in
                 if (fmt =? 0) || (fmt =? S_IFREG) then vfs_create dir dentry mode
                 else if (fmt =? S_IFCHR) || (fmt =? S_IFBLK)
                 then vfs_mknod dir dentry mode (new_decode_dev dev)
                 else if (fmt =? S_IFIFO) || (fmt =? S_IFSOCK) then vfs_mknod dir dentry mode 0
                 else if fmt =? S_IFDIR then mret (- EPERM)
                 else mret (- EINVAL));
      finish_create nd dentry error.

Definition sys_mkdir (tmp : bytes) (mode : Z) : KM Z :=
  '(error, nd) ← path_lookup tmp LOOKUP_PARENT nd_init;
  if negb (error =? 0) then mret error
  else
    dentry ← lookup_create nd true;
    error ← (if IS_ERR dentry then mret (PTR_ERR dentry)
             else
               dir ← nd_dir nd;
               mode ← umask_mode dir mode;
               vfs_mkdir dir dentry mode);
    finish_create nd dentry error.

Definition sys_symlink (from to : bytes) : KM Z :=
  '(error, nd) ← path_lookup to LOOKUP_PARENT nd_init;
  if negb (error =? 0) then mret error
  else
    dentry ← lookup_create nd false;
    error ← (if IS_ERR dentry then mret (PTR_ERR dentry)
             else dir ← nd_dir nd; vfs_symlink dir dentry from S_IALLUGO);
    finish_create nd dentry error.

Definition sys_link (from to : bytes) : KM Z :=
  '(error, old_nd) ← path_lookup from 0 nd_init;
  if negb (error =? 0) then mret error
  else
    '(error, nd) ← path_lookup to LOOKUP_PARENT nd_init;
    error ←
      (if negb (error =? 0) then mret error
       else if negb (nd_mnt old_nd =? nd_mnt nd)
       then path_release (nd_path nd) ;; mret (- EXDEV)
       else
         new_dentry ← lookup_create nd false;
         error ← (if IS_ERR new_dentry then mret (PTR_ERR new_dentry)
                  else dir ← nd_dir nd; vfs_link (nd_dentry old_nd) dir new_dentry);
         finish_create nd new_dentry error);
    path_release (nd_path old_nd) ;;
    mret error.

Definition sys_rmdir (name : bytes) : KM Z :=
  '(error, nd) ← path_lookup name LOOKUP_PARENT nd_init;
  if negb (error =? 0) then mret error
  else
    error ←
      match nd_last_type nd with
      | LAST_DOTDOT => mret (- ENOTEMPTY)
      | LAST_DOT => mret (- EINVAL)
      | LAST_ROOT => mret (- EBUSY)
      | LAST_NORM | LAST_BIND =>
          i_sem (nd_dentry nd) ;;
          dentry ← lookup_hash (nd_last nd) (nd_dentry nd);
          error ← (if IS_ERR dentry then mret (PTR_ERR dentry)
                   else
                     dir ← nd_dir nd;
                     error ← vfs_rmdir dir dentry;
                     dput dentry ;;
                     mret error);
          i_sem (nd_dentry nd) ;;
          mret error
      end;
    path_release (nd_path nd) ;;
    mret error.

(** The label slashes. *)
Definition slashes_error (d : dentry) : KM Z :=
  if d_inode d =? NULL then mret (- ENOENT)
  else
    i ← get_inode (d_inode d);
    mret (if S_ISDIR (i_mode i) then - EISDIR else - ENOTDIR).

(** The part of sys_unlink on a looked-up dentry: the error, and the inode held
    until the directory is unlocked. *)
Definition unlink_dentry (nd : nameidata) (dentry : ptr) : KM (Z * ptr) :=
  d ← get_dentry dentry;
  r ← (if negb (after_last nd =? 0) then
         error ← slashes_error d; mret (error, NULL)
       else
         let inode := d_inode d in
         mwhen (negb (inode =? NULL)) (mod_inode inode (λ i, i <| i_count ::= Z.add 1 |>)) ;;
         dir ← nd_dir nd;
         error ← vfs_unlink dir dentry;
         mret (error, inode));
  dput dentry ;;
  mret r.

Definition sys_unlink (name : bytes) : KM Z :=
  '(error, nd) ← path_lookup name LOOKUP_PARENT nd_init;
  if negb (error =? 0) then mret error
  else
    error ←
      (if negb (is_last_norm nd) then mret (- EISDIR)
       else
         i_sem (nd_dentry nd) ;;
         dentry ← lookup_hash (nd_last nd) (nd_dentry nd);
         '(error, inode) ← (if IS_ERR dentry then mret (PTR_ERR dentry, NULL)
                            else unlink_dentry nd dentry);
         i_sem (nd_dentry nd) ;;
         mwhen (negb (inode =? NULL)) (iput inode) ;;
         mret error);
    path_release (nd_path nd) ;;
    mret error.

(** From lock_rename to unlock_rename. *)
Definition rename_locked (oldnd newnd : nameidata) : KM Z :=
  let old_dir := nd_dentry oldnd in
  let new_dir := nd_dentry newnd in
  trap ← lock_rename new_dir old_dir;
  old_dentry ← lookup_hash (nd_last oldnd) old_dir;
  error ←
    (if IS_ERR old_dentry then mret (PTR_ERR old_dentry)
     else
       od ← get_dentry old_dentry;
       error ←
         (if d_inode od =? NULL then mret (- ENOENT)
          else
            oi ← get_inode (d_inode od);
            if negb (S_ISDIR (i_mode oi)) &&
               (negb (after_last oldnd =? 0) || negb (after_last newnd =? 0))
            then mret (- ENOTDIR)
            else if old_dentry =? trap then mret (- EINVAL)
            else
              new_dentry ← lookup_hash (nd_last newnd) new_dir;
              if IS_ERR new_dentry then mret (PTR_ERR new_dentry)
              else
                error ← (if new_dentry =? trap then mret (- ENOTEMPTY)
                         else
                           odir ← nd_dir oldnd;
                           ndir ← nd_dir newnd;
                           vfs_rename odir old_dentry ndir new_dentry);
                dput new_dentry ;;
                mret error);
       dput old_dentry ;;
       mret error);
  unlock_rename new_dir old_dir ;;
  mret error.

Definition do_rename (oldname newname : bytes) : KM Z :=
  '(error, oldnd) ← path_lookup oldname LOOKUP_PARENT nd_init;
  if negb (error =? 0) then mret error
  else
    '(error, newnd) ← path_lookup newname LOOKUP_PARENT nd_init;
    error ←
      (if negb (error =? 0) then mret error
       else
         error ← (if negb (nd_mnt oldnd =? nd_mnt newnd) then mret (- EXDEV)
                  else if negb (is_last_norm oldnd) || negb (is_last_norm newnd) then mret (- EBUSY)
                  else rename_locked oldnd newnd);
         path_release (nd_path newnd) ;;
         mret error);
    path_release (nd_path oldnd) ;;
    mret error.

(** ** open *)

Definition O_ACCMODE : Z := 3.
Definition O_TRUNC : Z := 512.
Definition O_APPEND : Z := 1024.
Definition O_NOATIME : Z := 262144.
Definition MNT_NODEV : Z := 2.
Definition LOOKUP_OPEN : Z := 256.
Definition LOOKUP_CREATE : Z := 512.

(** ["\000\004\002\006"[flag & O_ACCMODE]] *)
Definition ACC_MODE (flag : Z) : Z :=
  default 0 ([0; 4; 2; 6] !! Z.to_nat (Z.land flag O_ACCMODE)).

(** May_open after the permission check: the flags with [O_TRUNC] taken from
    what cannot be truncated, or an error. *)
Definition open_checks (i : inode) (mnt flag : Z) : KM (Z + Z) :=
  r ← (if S_ISFIFO (i_mode i) || S_ISSOCK (i_mode i) then mret (inr (clear_flag flag O_TRUNC))
       else if S_ISBLK (i_mode i) || S_ISCHR (i_mode i) then
         m ← get_mount mnt;
         mret (if has_flag (mnt_flags m) MNT_NODEV then inl (- EACCES)
               else inr (clear_flag flag O_TRUNC))
       else
         ro ← IS_RDONLY i;
         mret (if (ro : bool) && has_flag flag FMODE_WRITE then inl (- EROFS) else inr flag));
  match r with
  | inl error => mret (inl error)
  | inr flag =>
      t ← gets current;
      mret (if IS_APPEND i && has_flag flag FMODE_WRITE && negb (has_flag flag O_APPEND)
            then inl (- EPERM)
            else if IS_APPEND i && has_flag flag O_TRUNC then inl (- EPERM)
            else if has_flag flag O_NOATIME && negb (fsuid t =? i_uid i) && negb (cap_fowner t)
            then inl (- EPERM)
            else inr flag)
  end.

Definition may_open (nd : nameidata) (acc_mode flag : Z) : KM Z :=
  d ← get_dentry (nd_dentry nd);
  let inode := d_inode d in
  if inode =? NULL then mret (- ENOENT)
  else
    i ← get_inode inode;
    if S_ISLNK (i_mode i) then mret (- ELOOP)
    else if S_ISDIR (i_mode i) && has_flag flag FMODE_WRITE then mret (- EISDIR)
    else
      error ← permission inode acc_mode;
      if negb (error =? 0) then mret error
      else
        r ← open_checks i (nd_mnt nd) flag;
        match r with
        | inl error => mret error
        | inr flag =>
            if has_flag flag O_TRUNC then
              error ← get_write_access inode;
              if negb (error =? 0) then mret error
              else
                error ← do_truncate (nd_dentry nd) 0;
                put_write_access inode ;;
                mret error
            else mret 0
        end.

(** The labels ok and exit. *)
Definition open_ok (nd : nameidata) (acc_mode flag : Z) : KM (Z * nameidata) :=
  error ← may_open nd acc_mode flag;
  if negb (error =? 0) then path_release (nd_path nd) ;; mret (error, nd)
  else mret (0, nd).

(** The label do_last, on the dentry of the last component under [dir]. *)
Definition open_last (nd : nameidata) (dentry flag mode acc_mode : Z) : KM (Z * nameidata) :=
  d ← get_dentry dentry;
  dir ← nd_dir nd;
  if d_inode d =? NULL then
    mode ← umask_mode dir mode;
    error ← vfs_create dir dentry mode;
    i_sem (nd_dentry nd) ;;
    dput (nd_dentry nd) ;;
    let nd := nd <| nd_dentry := dentry |> in
    if negb (error =? 0) then path_release (nd_path nd) ;; mret (error, nd)
    else open_ok nd 0 (clear_flag flag O_TRUNC)
  else
    i_sem (nd_dentry nd) ;;
    let exit_dput path error :=
      (dput_path path nd ;; path_release (nd_path nd) ;; mret (error, nd)) in
    if has_flag flag O_EXCL then exit_dput (nd_mnt nd, dentry) (- EEXIST)
    else
      '(crossed, path) ← __follow_mount (nd_mnt nd, dentry);
      if negb (crossed =? 0) && has_flag flag O_NOFOLLOW then exit_dput path (- ELOOP)
      else
        d ← get_dentry (snd path);
        if d_inode d =? NULL then exit_dput path (- ENOENT)
        else
          i ← get_inode (d_inode d);
          match iop_follow_link (i_op i) with
          | Some f => match f with end
          | None =>
              nd ← path_to_nameidata path nd;
              if S_ISDIR (i_mode i) then path_release (nd_path nd) ;; mret (- EISDIR, nd)
              else open_ok nd acc_mode flag
          end.

Definition open_namei (pathname : bytes) (flag mode : Z) : KM (Z * nameidata) :=
  let acc_mode := if has_flag flag O_APPEND then Z.lor (ACC_MODE flag) MAY_APPEND
                  else ACC_MODE flag in
  if negb (has_flag flag O_CREAT) then
    '(error, nd) ← path_lookup pathname (Z.lor (lookup_flags flag) LOOKUP_OPEN) nd_init;
    if negb (error =? 0) then mret (error, nd) else open_ok nd acc_mode flag
  else
    '(error, nd) ← path_lookup pathname (Z.lor LOOKUP_PARENT (Z.lor LOOKUP_OPEN LOOKUP_CREATE)) nd_init;
    if negb (error =? 0) then mret (error, nd)
    else if negb (is_last_norm nd) || negb (after_last nd =? 0)
    then path_release (nd_path nd) ;; mret (- EISDIR, nd)
    else
      i_sem (nd_dentry nd) ;;
      let nd := nd <| nd_flags ::= λ f, clear_flag f LOOKUP_PARENT |> in
      dentry ← __lookup_hash (nd_last nd) (nd_dentry nd);
      if IS_ERR dentry then
        i_sem (nd_dentry nd) ;;
        path_release (nd_path nd) ;;
        mret (PTR_ERR dentry, nd)
      else open_last nd dentry flag mode acc_mode.
End vfs.
