(* ===== verification/LookupSpec.v ===== *)
(** * Correctness of single-component lookup

    [lookup_one_len] on a directory kept in the dentry cache: it returns the
    hashed dentry of that name, or creates a negative one, or reports an error,
    and each time the caller owns one reference more. *)

From S2P Require Import Prelude KString Kernel Links Inode InodeInv Dcache DcacheInv DcacheOps.
From S2P Require Import Filesystems Super Mount Libfs Groups Namei.

(** ** Names *)

(** A name of one path component. *)
Definition component (name : bytes) : Prop := cstring name ∧ name ≠ [] ∧ 47 ∉ name.

(** The hash computed byte by byte is that of the whole name, so that a dentry
    made by [d_alloc_name] is found by [lookup_one_len]. *)
Lemma hash_component_full name n h :
  Forall (λ c, c ≠ 0 ∧ c ≠ 47) name → (n ≤ length name)%nat →
  hash_component name n h = Some (name_hash_loop name n h).
Proof.
  intros Hf. revert n h. induction Hf as [|c name [H0 H1] Hf IH]; intros [|n] h; simpl; try done.
  { lia. }
  intros Hn. rewrite (proj2 (Z.eqb_neq _ _) H0), (proj2 (Z.eqb_neq _ _) H1). simpl.
  apply IH. lia.
Qed.

Lemma component_bytes name : component name → Forall (λ c, c ≠ 0 ∧ c ≠ 47) name.
Proof.
  intros (Hc & _ & Hs). apply Forall_forall. intros c Hin. unfold cstring in Hc.
  rewrite Forall_forall in Hc. specialize (Hc _ Hin). split; [lia|by intros ->].
Qed.

(** The key under which a name is looked up. *)
Definition key (name : bytes) : qstr :=
  {| q_hash := full_name_hash name (Z.of_nat (length name));
     q_len := Z.of_nat (length name); q_name := name |}.

Lemma lookup_one_len_key name base :
  component name → lookup_one_len name base (strlen name) = lookup_hash (key name) base.
Proof.
  intros Hn. pose proof Hn as (Hc & Hne & _). unfold lookup_one_len, key, full_name_hash.
  rewrite strlen_cstring, Nat2Z.id by done.
  rewrite hash_component_full by (by apply component_bytes || lia).
  destruct name; [done|]. by rewrite (proj2 (Z.eqb_neq _ _)) by (simpl; lia).
Qed.

(** ** Permission to search a directory *)

Definition may_exec (t : task) (i : inode) : Z :=
  check_mode t i
    (if fsuid t =? i_uid i then Z.shiftr (i_mode i) 6
     else if in_group_p t (i_gid i) then Z.shiftr (i_mode i) 3 else i_mode i) MAY_EXEC.

Lemma wp_permission_exec x i Q s :
  inodes s !! x = Some i → Q (may_exec (current s) i) s → wp (permission x MAY_EXEC) Q s.
Proof.
  intros Hx HQ. unfold permission, generic_permission. wp_run. simpl. wp_run. simpl. wp_run.
  unfold may_exec in HQ. destruct (fsuid (current s) =? i_uid i); by wp_run.
Qed.

(** ** The lookup method *)

Definition simple_dentry (d : dentry) : dentry := d <| d_op := Some simple_dentry_operations |>.

Lemma vfs_inv_set_op dext iext x d s :
  vfs_inv dext iext s → dentries s !! x = Some d →
  vfs_inv dext iext (s <| dentries ::= <[x := simple_dentry d]> |>).
Proof.
  intros [Hd Hi] Hx. split; [|by apply (inode_inv_ext _ _ _ _ Hi)].
  pose proof (dc_ok _ _ Hd _ _ Hx) as [H1 H2 H3 H4 H5 H6].
  by eapply (dcache_inv_set dext dext s _ x d); [done|done|reflexivity|done|done| |].
Qed.

Lemma wp_simple_lookup dext iext dir x d s :
  vfs_inv dext iext s → dentries s !! x = Some d → d_inode d = NULL → d_unhashed d = true →
  d_name_len d ≤ NAME_MAX →
  wp (simple_lookup dir x) (λ r s', r = NULL ∧ vfs_inv dext iext s' ∧
    s' = rehashed x (simple_dentry d) (s <| dentries ::= <[x := simple_dentry d]> |>)) s.
Proof.
  intros Hv Hx Hn Hu Hlen. unfold simple_lookup, d_add. wp_run.
  rewrite Z.gtb_ltb, (proj2 (Z.ltb_ge _ _)) by lia. wp_run.
  pose proof (vfs_inv_set_op _ _ _ _ _ Hv Hx) as Hv1.
  eapply wp_mono; [eapply (wp_d_instantiate_null _ _ _ _ _ Hv1); [wp_lookup|done]|].
  intros _ s1 ->. wp_run.
  eapply wp_mono; [eapply (wp_d_rehash _ _ _ _ _ Hv1); [wp_lookup|done]|].
  intros _ s2 [Hv2 ->]. wp_run. done.
Qed.

(** ** The lookup *)

Lemma wp_cached_lookup dext iext base bd name s Q :
  vfs_inv dext iext s → dentries s !! base = Some bd →
  (lookup_spec s base name NULL → Q NULL s) →
  (∀ r d b, dentries s !! r = Some d → d_hash_node d = InBucket b → named base name d = true →
     vfs_inv (bump r 1 dext) iext (s <| dentries ::= <[r := d <| d_count ::= Z.add 1 |>]> |>) →
     Q r (s <| dentries ::= <[r := d <| d_count ::= Z.add 1 |>]> |>)) →
  wp (cached_lookup base name) Q s.
Proof.
  intros Hv Hb Hnone Hsome. pose proof (wp_d_lookup dext iext base bd name s Hv Hb) as Hl.
  unfold cached_lookup. apply wp_bind. eapply wp_mono; [exact Hl|].
  intros r s' [Hspec Hr]. destruct (decide (r = NULL)) as [->|Hr0]; simpl.
  - subst s'. apply wp_bind. eapply wp_mono; [exact Hl|].
    intros r s' [Hspec' Hr]. destruct (decide (r = NULL)) as [->|Hr0].
    + subst s'. unfold revalidate. simpl. wp_run. auto.
    + exfalso. unfold lookup_spec in Hspec, Hspec'. rewrite decide_True in Hspec by done.
      rewrite decide_False in Hspec' by done. destruct Hspec' as (d & b & H1 & H2 & H3).
      rewrite (Hspec _ _ _ H1 H2) in H3. done.
  - unfold lookup_spec in Hspec. rewrite decide_False in Hspec by done.
    destruct Hspec as (d & b & H1 & H2 & H3). destruct Hr as [Hv' Hr]. specialize (Hr _ H1). subst s'.
    rewrite (proj2 (Z.eqb_neq _ _) Hr0). wp_run. unfold revalidate.
    rewrite (proj2 (Z.eqb_neq _ _) Hr0). wp_run. eauto.
Qed.

(** A directory of the dentry cache, in use, with its inode. *)
Record dir_ok (s : kstate) (base : ptr) (bd : dentry) (bi : inode) : Prop := mkDirOk {
  dir_dentry : dentries s !! base = Some bd;
  dir_used : d_count bd ≠ 0;
  dir_inode : inodes s !! d_inode bd = Some bi;
  dir_op : i_op bi = simple_dir_inode_operations
}.

(** The state after a lookup made a negative dentry. *)
Definition negative (name : qstr) (base : ptr) (bd : dentry) (s : kstate) : dentry :=
  simple_dentry (child_dentry name (slab_iname s) base (d_sb bd)).

Definition lookup_new (name : qstr) (base : ptr) (bd : dentry) (s : kstate) : kstate :=
  let x := slab_next s in
  let d := child_dentry name (slab_iname s) base (d_sb bd) in
  rehashed x (simple_dentry d)
    ((child_added x base d (d_alloc_slab name s)) <| dentries ::= <[x := simple_dentry d]> |>).

Lemma lookup_new_found name base bd s :
  0 < slab_next s →
  q_len name = Z.of_nat (length (q_name name)) →
  lookup_spec (lookup_new name base bd s) base name (slab_next s).
Proof.
  intros Hn Hlen. unfold lookup_spec. rewrite decide_False by (unfold NULL; lia).
  set (d := simple_dentry (child_dentry name (slab_iname s) base (d_sb bd))).
  set (b := home_bucket ((child_added (slab_next s) base
    (child_dentry name (slab_iname s) base (d_sb bd)) (d_alloc_slab name s))
      <| dentries ::= <[slab_next s := d]> |>) d).
  exists (hashed b d), b. split_and!.
  - unfold lookup_new. rewrite rehashed_lookup. by rewrite decide_True.
  - done.
  - unfold named. simpl. rewrite !Z.eqb_refl. simpl. apply Z.eqb_eq.
    unfold d_name. simpl. rewrite Hlen, Nat2Z.id, take_ge by done.
    destruct (long_name name); apply memcmp_refl.
Qed.

Inductive lookup_result (dext iext : refs) (name : qstr) (base : ptr) (bd : dentry) (bi : inode)
    (s : kstate) : ptr → kstate → Prop :=
  | lookup_denied :
      may_exec (current s) bi ≠ 0 →
      lookup_result dext iext name base bd bi s (ERR_PTR (may_exec (current s) bi)) s
  | lookup_found r d b :
      may_exec (current s) bi = 0 →
      dentries s !! r = Some d → d_hash_node d = InBucket b → named base name d = true →
      vfs_inv (bump r 1 dext) iext (s <| dentries ::= <[r := d <| d_count ::= Z.add 1 |>]> |>) →
      lookup_result dext iext name base bd bi s
        r (s <| dentries ::= <[r := d <| d_count ::= Z.add 1 |>]> |>)
  | lookup_nomem s' :
      may_exec (current s) bi = 0 → lookup_spec s base name NULL →
      d_alloc_ok name s = false → slab_moved s s' →
      lookup_result dext iext name base bd bi s (ERR_PTR (- ENOMEM)) s'
  | lookup_created :
      may_exec (current s) bi = 0 → lookup_spec s base name NULL → d_alloc_ok name s = true →
      vfs_inv (first_ref (slab_next s) dext) iext (lookup_new name base bd s) →
      lookup_result dext iext name base bd bi s (slab_next s) (lookup_new name base bd s).

Lemma wp_lookup_hash dext iext name base bd bi s :
  vfs_inv dext iext s → dir_ok s base bd bi → q_len name ≤ NAME_MAX →
  wp (lookup_hash name base) (lookup_result dext iext name base bd bi s) s.
Proof.
  intros Hv [Hb Hc Hi Ho] Hlen. unfold lookup_hash, __lookup_hash. wp_run.
  apply (wp_permission_exec _ bi); [done|].
  destruct (may_exec (current s) bi =? 0) eqn:Ex; simpl; bool_to_prop.
  2: { wp_run. by constructor. }
  wp_run. apply (wp_cached_lookup dext iext base bd); [done|done| |].
  - intros Hnone. simpl. wp_run. eapply wp_mono; [by apply (wp_d_alloc dext iext base bd)|].
    intros x s1 Hx. destruct (d_alloc_ok name s) eqn:Eok.
    2: { destruct Hx as [-> Hm]. simpl. wp_run. by eapply lookup_nomem. }
    destruct Hx as (-> & Hv1 & ->).
    pose proof (ii_next _ _ (vi_inode _ _ _ Hv)) as Hn.
    rewrite (proj2 (Z.eqb_neq _ NULL)) by (unfold NULL; lia).
    set (d := child_dentry name (slab_iname s) base (d_sb bd)) in *.
    set (s1 := child_added (slab_next s) base d (d_alloc_slab name s)) in *.
    unfold call_lookup. wp_run.
    wp_step; [|].
    { destruct (d_alloc_slab_moved name s) as (l & n & _ & E).
      unfold s1, child_added. rewrite E. simpl. exact Hi. }
    rewrite Ho. eapply wp_mono; [apply (wp_simple_lookup _ _ _ _ d s1 Hv1); try done|].
    { unfold s1. simpl. by rewrite lookup_insert_eq. }
    intros r s2 (-> & Hv2 & ->). simpl. wp_run. by apply lookup_created.
  - intros r d b H1 H2 H3 Hv'. 
    rewrite (proj2 (Z.eqb_neq _ _) (dentry_addr _ _ _ _ (vi_dcache _ _ _ Hv) H1)). wp_run.
    by eapply lookup_found.
Qed.

Lemma wp_lookup_one_len dext iext name base bd bi s :
  vfs_inv dext iext s → dir_ok s base bd bi → component name →
  Z.of_nat (length name) ≤ NAME_MAX →
  wp (lookup_one_len name base (strlen name)) (lookup_result dext iext (key name) base bd bi s) s.
Proof.
  intros Hv Hb Hn Hlen. rewrite lookup_one_len_key by done. by apply wp_lookup_hash.
Qed.

(** ** What the lookup promises *)

(** The hash that [lookup_one_len] accumulates byte by byte is the one that
    [full_name_hash] computes of the whole name, for every name that is a path
    component; a dentry named by one is found by the other. *)
Theorem component_hash_full name :
  component name →
  hash_component name (length name) init_name_hash =
    Some (name_hash_loop name (length name) init_name_hash) ∧
  end_name_hash (name_hash_loop name (length name) init_name_hash) =
    full_name_hash name (strlen name).
Proof.
  intros Hn. pose proof Hn as (Hc & _ & _). split.
  - apply hash_component_full; [by apply component_bytes|done].
  - unfold full_name_hash. by rewrite strlen_cstring, Nat2Z.id.
Qed.

(** C28: [lookup_one_len] on a directory of the dentry cache neither faults nor
    loops.  It reports the error of the permission check; or it returns the
    hashed dentry of that name, and only its count changes; or, when there is
    none, a new dentry for the name, negative, hashed below the directory and with
    one reference; or -ENOMEM, and only the allocator has moved.  The caches keep
    their invariant in every case. *)
Theorem lookup_one_len_correct dext iext name base bd bi s :
  vfs_inv dext iext s → dir_ok s base bd bi → component name →
  Z.of_nat (length name) ≤ NAME_MAX →
  wp (lookup_one_len name base (strlen name)) (λ r s',
    (may_exec (current s) bi ≠ 0 ∧ r = ERR_PTR (may_exec (current s) bi) ∧ s' = s) ∨
    (may_exec (current s) bi = 0 ∧
     ((∃ d b, dentries s !! r = Some d ∧ d_hash_node d = InBucket b ∧
         named base (key name) d = true ∧ vfs_inv (bump r 1 dext) iext s' ∧
         s' = s <| dentries ::= <[r := d <| d_count ::= Z.add 1 |>]> |>) ∨
      (lookup_spec s base (key name) NULL ∧
       ((d_alloc_ok (key name) s = false ∧ r = ERR_PTR (- ENOMEM) ∧ vfs_inv dext iext s' ∧ slab_moved s s') ∨
        (d_alloc_ok (key name) s = true ∧ r = slab_next s ∧
         vfs_inv (first_ref r dext) iext s' ∧ lookup_spec s' base (key name) r ∧
         s' = lookup_new (key name) base bd s ∧
         ∃ d, dentries s' !! r = Some d ∧ d_inode d = NULL ∧ d_count d = 1 ∧ d_parent d = base ∧ d_sb d = d_sb bd)))))) s.
Proof.
  intros Hv Hb Hn Hlen. eapply wp_mono; [by apply (wp_lookup_one_len dext iext name base bd bi)|].
  intros r s' [|r' d b He Hd Hh Hnm Hv'|s1 He Hno Hal Hm|He Hno Hal Hv'].
  - by left.
  - right. split; [done|]. left. by exists d, b.
  - right. split; [done|]. right. split; [done|]. left. split_and!; [done..| |done].
    by eapply slab_moved_inv.
  - right. split; [done|]. right. split; [done|]. right. split_and!; [done..| |done|].
    + apply lookup_new_found; [|done]. apply (ii_next _ _ (vi_inode _ _ _ Hv)).
    + unfold lookup_new. rewrite rehashed_lookup, decide_True by done. by eexists.
Qed.
