(* ===== verification/Aufs.v ===== *)
(** * The aufs module (aufs/node.h, dentry.h, file.h, supper.h, aufs.c)

    The functions of the module, one section per header.  The module is written
    for a kernel whose credentials and mount interface are newer than the
    vendored one: [current_fsuid], [current_fsgid], [mount_single],
    [kern_mount] (of a type with a [mount] method) and [kern_unmount] are
    variables of the sections that call them. *)

From S2P Require Import Prelude KString Kernel Filesystems Inode Dcache Super Mount Libfs Namei.

(** The printed part of a NUL-terminated string. *)
Definition fmt_s (s : bytes) : bytes := take (Z.to_nat (strlen s)) s.

(** KERN_ERR *)
Definition KERN_ERR : bytes := cstr "<3>".

(** ** node.h: inodes *)

Section node.
(** The file-system ids in the credentials of a task. *)
Variables current_fsuid current_fsgid : task → Z.

Definition aufs_get_inode (sb mode dev : Z) : KM ptr :=
  inode ← new_inode sb;
  if inode =? NULL then mret inode
  else
    mod_inode inode (λ i, i <| i_mode := u16 mode |>) ;;
    uid ← gets (λ s, current_fsuid (current s));
    mod_inode inode (λ i, i <| i_uid := uid |>) ;;
    gid ← gets (λ s, current_fsgid (current s));
    mod_inode inode (λ i, i <| i_gid := gid |>) ;;
    mod_inode inode (λ i, i <| i_blocks := 0 |>) ;;
    mod_inode inode (λ i, i <| i_mtime := i_ctime i |> <| i_atime := i_ctime i |>) ;;
    (if Z.land mode S_IFMT =? S_IFREG then printk (cstr "create a file \n")
     else if Z.land mode S_IFMT =? S_IFDIR then
       mod_inode inode (λ i, i <| i_op := simple_dir_inode_operations |>) ;;
       mod_inode inode (λ i, i <| i_fop := simple_dir_operations |>) ;;
       printk (cstr "creat a dir file \n") ;;
       mod_inode inode (λ i, i <| i_nlink ::= λ n, u32 (n + 1) |>)
     else init_special_inode inode mode dev) ;;
    mret inode.

Definition aufs_mknod (dir dentry mode dev : Z) : KM Z :=
  d ← get_dentry dentry;
  if negb (d_inode d =? NULL) then mret (- EEXIST)
  else
    di ← get_inode dir;
    inode ← aufs_get_inode (i_sb di) mode dev;
    if negb (inode =? NULL) then
      d_instantiate dentry inode ;;
      dget dentry ;;
      mret 0
    else mret (- EPERM).

Definition aufs_mkdir (dir dentry mode : Z) : KM Z :=
  res ← aufs_mknod dir dentry (Z.lor mode S_IFDIR) 0;
  mwhen (res =? 0) (mod_inode dir (λ i, i <| i_nlink ::= λ n, u32 (n + 1) |>)) ;;
  mret res.

Definition aufs_create (dir dentry mode : Z) : KM Z :=
  aufs_mknod dir dentry (Z.lor mode S_IFREG) 0.

(** ** dentry.h: creation by name

    [dentry] is the address of the caller's variable and [old] its value; the
    second component of the result is the value it has on return. *)

Definition aufs_create_by_name (name : bytes) (mode parent dentry old : Z) : KM (Z * ptr) :=
  m ← gets aufs_mount;
  parent ← (if (parent =? NULL) && negb (m =? NULL) then
              mnt ← get_mount m;
              if negb (mnt_sb mnt =? NULL) then
                b ← get_super (mnt_sb mnt); mret (s_root b)
              else mret parent
            else mret parent);
  if parent =? NULL then
    printk (cstr "Ah! can not find a parent!\n") ;; mret (- EFAULT, old)
  else
    found ← lookup_one_len name parent (strlen name);
    if negb (IS_ERR dentry) then
      p ← get_dentry parent;
      error ← (if Z.land mode S_IFMT =? S_IFDIR
               then aufs_mkdir (d_inode p) found mode
               else aufs_create (d_inode p) found mode);
      mret (error, found)
    else mret (PTR_ERR dentry, found).

(** ** file.h: creation of files and directories *)

(** The address of a variable on the kernel stack. *)
Definition stack_slot : ptr := 3224381276. (* 0xC030275C *)

Definition aufs_create_file (name : bytes) (mode parent data : Z)
    (fops : option file_operations) : KM ptr :=
  printk (cstr "aufs: creating file '" ++ fmt_s name ++ cstr "'") ;;
  '(error, dentry) ← aufs_create_by_name name mode parent stack_slot NULL;
  if negb (error =? 0) then mret NULL
  else
    d ← get_dentry dentry;
    mwhen (negb (d_inode d =? NULL))
      (mwhen (negb (data =? NULL))
         (mod_inode (d_inode d) (λ i, i <| i_private := data |>)) ;;
       match fops with
       | Some fops => mod_inode (d_inode d) (λ i, i <| i_fop := fops |>)
       | None => mret tt
       end) ;;
    mret dentry.

Definition aufs_create_dir (name : bytes) (parent : ptr) : KM ptr :=
  aufs_create_file name (Z.lor S_IFDIR (Z.lor S_IRWXU S_IRUGO)) parent NULL None.
End node.

(** ** file.h: reading and writing the switch *)

(** The result of a read is its value and the new [*ppos].  The stack trace of
    [dump_stack] is not kept in the modelled log. *)
Definition aufs_file_read (fle buf nbytes ppos : Z) : KM (Z * Z) :=
  e ← gets enabled;
  let s := if negb (e =? 0) then cstr "aufs read enabled\n" else cstr "aufs read disabled\n" in
  simple_read_from_buffer buf nbytes ppos s (strlen s).

Definition aufs_file_write (file buffer count ppos : Z) : KM Z :=
  c ← load_user buffer;
  let res := s8 c - 48 in
  (if negb (res =? 0) then modify (λ s, s <| enabled := 1 |>)
   else modify (λ s, s <| enabled := 0 |>)) ;;
  mret (s32 count).

(** ** supper.h: the superblock *)

Definition AUFS_MAGIC : Z := 1684440885. (* 0x64668735 *)

Definition debug_files : list tree_descr :=
  [ {| td_name := Some (cstr ""); td_ops := empty_fops; td_mode := 0 |} ].

Definition aufs_fill_super (sb data silent : Z) : KM Z :=
  simple_fill_super sb AUFS_MAGIC debug_files.

Section supper.
Variable mount_single : ptr → Z → Z → (ptr → Z → Z → KM Z) → KM ptr.

Definition aufs_get_sb (fs_type flags : Z) (dev_name : bytes) (data : Z) : KM ptr :=
  mount_single fs_type flags data aufs_fill_super.
End supper.

(** ** aufs.c: the module *)

(** The address of the static [aufs_type] and its initial value. *)
Definition aufs_type : ptr := 4096.

Definition aufs_type_init : file_system_type := {|
  fs_name := cstr "aufs";
  fs_flags := 0;
  fs_get_sb := aufs_get_sb_fn;
  fs_kill_sb := kill_litter_super_fn;
  fs_owner := NULL;
  fs_next := NULL;
  fs_supers := []
|}.

Section module.
Variables current_fsuid current_fsgid : task → Z.
Variable kern_mount : ptr → KM ptr.
Variable kern_unmount : ptr → KM unit.

Let create_dir := aufs_create_dir current_fsuid current_fsgid.
Let create_file := aufs_create_file current_fsuid current_fsgid.

Definition file_mode : Z := Z.lor S_IFREG S_IRUGO.

(** The tree: two directories of three files each. *)
Definition aufs_populate : KM unit :=
  pslot ← create_dir (cstr "woman_star") NULL;
  create_file (cstr "lbb") file_mode pslot NULL (Some aufs_file_operations) ;;
  create_file (cstr "fbb") file_mode pslot NULL (Some aufs_file_operations) ;;
  create_file (cstr "lj1") file_mode pslot NULL (Some aufs_file_operations) ;;
  pslot ← create_dir (cstr "man_star") NULL;
  create_file (cstr "ldh") file_mode pslot NULL (Some aufs_file_operations) ;;
  create_file (cstr "lcw") file_mode pslot NULL (Some aufs_file_operations) ;;
  create_file (cstr "jw") file_mode pslot NULL (Some aufs_file_operations) ;;
  mret tt.

Definition aufs_init : KM Z :=
  ret ← register_filesystem aufs_type;
  if negb (ret =? 0) then
    printk (KERN_ERR ++ cstr "aufs: cannot register file system\n") ;; mret ret
  else
    m ← kern_mount aufs_type;
    modify (λ s, s <| aufs_mount := m |>) ;;
    if IS_ERR m then
      printk (KERN_ERR ++ cstr "aufs: cannot mount file system\n") ;;
      unregister_filesystem aufs_type ;;
      mret ret
    else
      aufs_populate ;;
      mret ret.

Definition aufs_exit : KM unit :=
  m ← gets aufs_mount;
  kern_unmount m ;;
  unregister_filesystem aufs_type ;;
  modify (λ s, s <| aufs_mount := NULL |>).
End module.
