(* ===== verification/Open.v ===== *)
(** * Open files (fs/file_table.c, fs/open.c, fs/read_write.c)

    The life of a [struct file]: it is allocated, opened on a dentry, read,
    written and positioned through the methods of its table, and released with
    its last reference.  The methods of device nodes and fifos, and [cdev_put],
    are arguments of the section.  No security module, no event polls, no file
    locks and no notification watches are configured; a file that is freed
    after a grace period is freed at once. *)

From stdpp Require Import pretty.
From S2P Require Import Prelude KString Kernel Groups Filesystems Inode Dcache Super Mount Libfs Namei.
From S2P Require Import Attr Path Vfs Aufs.

(** ** Tables of file operations *)

(** A read or a write returns its result and the new value of [*pos].  A table
    with an aio_read or aio_write method and no read or write is not
    modelled.  Methods that none of the functions below calls (readdir, poll,
    ioctl, mmap, fsync, fasync, lock and the like) have no field. *)
Record fop_methods := mkFops {
  fm_owner : ptr;
  fm_open : option (ptr → ptr → KM Z);
  fm_release : option (ptr → ptr → KM Z);
  fm_flush : option (ptr → KM Z);
  fm_llseek : option (ptr → Z → Z → KM Z);
  fm_read : option (ptr → Z → Z → Z → KM (Z * Z));
  fm_write : option (ptr → Z → Z → Z → KM (Z * Z));
  fm_aio_read : option nofn;
  fm_aio_write : option nofn;
  fm_direct : bool           (* the mapping has direct_IO or get_xip_page after open *)
}.

Definition no_fops : fop_methods := mkFops NULL None None None None None None None None false.

(** net/socket.c *)
Definition sock_no_open (irrelevant dontcare : ptr) : KM Z := mret (- ENXIO).

Section files.
Context (special : file_operations → fop_methods).
Context (cdev_put : ptr → KM unit).

(** The table a constant stands for; those of character devices, block devices
    and fifos are the argument. *)
Definition fops (t : file_operations) : fop_methods :=
  match t with
  | empty_fops => no_fops
  | simple_dir_operations =>
      mkFops NULL (Some dcache_dir_open) (Some dcache_dir_close) None (Some dcache_dir_lseek)
        (Some (λ filp buf siz ppos, mret (generic_read_dir filp buf siz ppos, ppos)))
        None None None false
  | aufs_file_operations =>
      mkFops NULL None None None None (Some aufs_file_read)
        (Some (λ file buf count ppos, r ← aufs_file_write file buf count ppos; mret (r, ppos)))
        None None false
  | bad_sock_fops => mkFops NULL (Some sock_no_open) None None None None None None None false
  | def_chr_fops | def_blk_fops | def_fifo_fops => special t
  end.

Definition fops_get (t : file_operations) : KM (option file_operations) :=
  ok ← try_module_get (fm_owner (fops t));
  mret (if (ok : bool) then Some t else None).

Definition fops_put (t : option file_operations) : KM unit :=
  match t with Some t => module_put (fm_owner (fops t)) | None => mret tt end.

(** [file->f_op && file->f_op->method] *)
Definition f_method {A} (f : file) (method : fop_methods → option A) : option A :=
  match f_op f with Some t => method (fops t) | None => None end.

(** ** fs/file_table.c *)

Definition filp_ctor : KM unit := modify (λ s, s <| files_stat ::= λ st, st <| nr_files ::= Z.add 1 |> |>).
Definition filp_dtor : KM unit := modify (λ s, s <| files_stat ::= λ st, st <| nr_files ::= λ n, n - 1 |> |>).

(** Every object has a slab page of its own: it is constructed when it is
    allocated and destroyed when it is freed. *)
Definition file_free (f : ptr) : KM unit :=
  get_file f ;; modify (λ s, s <| files ::= delete f |>) ;; filp_dtor.

Definition file_max_message (max : Z) : list Z :=
  cstr "<6>VFS: file-max limit " ++ cstr (pretty max) ++ cstr " reached" ++ [10].

(** The label over. *)
Definition filp_over : KM ptr :=
  st ← gets files_stat;
  mwhen (nr_files st >? old_max st)
    (printk (file_max_message (max_files st)) ;;
     modify (λ s, s <| files_stat ::= λ st, st <| old_max := nr_files st |> |>)) ;;
  mret NULL.

Definition get_empty_filp : KM ptr :=
  st ← gets files_stat;
  t ← gets current;
  if (nr_files st >=? max_files st) && negb (cap_sys_admin t) then filp_over
  else
    f ← kmem_alloc;
    if f =? NULL then mret NULL
    else
      filp_ctor ;;
      modify (λ s, s <| files ::= <[f := mkFile NULL NULL NULL None 1 0 0 0 (fsuid t) (fsgid t) 0 0]> |>) ;;
      mret f.


Definition file_kill (file : ptr) : KM unit :=
  f ← get_file file;
  mwhen (negb (f_list f =? NULL))
    (mod_super (f_list f) (λ b, b <| s_files ::= list_del file |>) ;;
     mod_file file (λ f, f <| f_list := NULL |>)).

Definition file_move (file sb : ptr) : KM unit :=
  file_kill file ;;
  mod_super sb (λ b, b <| s_files ::= cons file |>) ;;
  mod_file file (λ f, f <| f_list := sb |>).

Definition put_filp (file : ptr) : KM unit :=
  mod_file file (λ f, f <| f_count ::= λ c, c - 1 |>) ;;
  f ← get_file file;
  mwhen (f_count f =? 0) (file_kill file ;; file_free file).

Definition __fput (file : ptr) : KM unit :=
  f ← get_file file;
  let dentry := f_dentry f in
  let mnt := f_vfsmnt f in
  d ← get_dentry dentry;
  let inode := d_inode d in
  match f_method f fm_release with
  | Some release => release inode file ;; mret tt
  | None => mret tt
  end ;;
  i ← get_inode inode;
  mwhen (negb (i_cdev i =? NULL)) (cdev_put (i_cdev i)) ;;
  f ← get_file file;
  fops_put (f_op f) ;;
  mwhen (has_flag (f_mode f) FMODE_WRITE) (put_write_access inode) ;;
  file_kill file ;;
  mod_file file (λ f, f <| f_dentry := NULL |> <| f_vfsmnt := NULL |>) ;;
  file_free file ;;
  dput dentry ;;
  mntput mnt.

Definition fput (file : ptr) : KM unit :=
  mod_file file (λ f, f <| f_count ::= λ c, c - 1 |>) ;;
  f ← get_file file;
  mwhen (f_count f =? 0) (__fput file).

(** include/linux/file.h: an entry of the descriptor table, or NULL. *)
Definition fcheck_files (fds : list ptr) (fd : Z) : ptr := default NULL (fds !! Z.to_nat fd).

(** The descriptor table has one user, so that no reference is taken. *)
Definition fget_light (fd : Z) : KM ptr :=
  t ← gets current; mret (fcheck_files (task_fds t) fd).

Definition fget (fd : Z) : KM ptr :=
  t ← gets current;
  let file := fcheck_files (task_fds t) fd in
  if file =? NULL then mret NULL
  else mod_file file (λ f, f <| f_count ::= Z.add 1 |>) ;; mret file.

(** ** fs/open.c *)

Definition FMODE_READ : Z := 1.
Definition FMODE_LSEEK : Z := 4.
Definition FMODE_PREAD : Z := 8.
Definition O_NOCTTY : Z := 256.
Definition O_DIRECT : Z := 16384.

(** The label cleanup_file. *)
Definition open_cleanup (f dentry mnt error : Z) : KM ptr :=
  put_filp f ;; dput dentry ;; mntput mnt ;; mret (ERR_PTR error).

Definition open_mode (flags : Z) : Z :=
  Z.lor (Z.land (flags + 1) O_ACCMODE) (Z.lor FMODE_LSEEK FMODE_PREAD).

Definition __dentry_open (dentry mnt flags f : Z) : KM ptr :=
  mod_file f (λ x, x <| f_flags := flags |> <| f_mode := open_mode flags |>) ;;
  d ← get_dentry dentry;
  let inode := d_inode d in
  error ← (if has_flag (open_mode flags) FMODE_WRITE then get_write_access inode else mret 0);
  if negb (error =? 0) then open_cleanup f dentry mnt error
  else
    i ← get_inode inode;
    mod_file f (λ x, x <| f_dentry := dentry |> <| f_vfsmnt := mnt |> <| f_pos := 0 |>) ;;
    t ← fops_get (i_fop i);
    mod_file f (λ x, x <| f_op := t |>) ;;
    file_move f (i_sb i) ;;
    x ← get_file f;
    error ← match f_method x fm_open with Some open => open inode f | None => mret 0 end;
    if negb (error =? 0) then
      x ← get_file f;
      fops_put (f_op x) ;;
      mwhen (has_flag (f_mode x) FMODE_WRITE) (put_write_access inode) ;;
      file_kill f ;;
      mod_file f (λ x, x <| f_dentry := NULL |> <| f_vfsmnt := NULL |>) ;;
      open_cleanup f dentry mnt error
    else
      mod_file f (λ x, x <| f_flags ::= λ fl,
        clear_flag fl (Z.lor O_CREAT (Z.lor O_EXCL (Z.lor O_NOCTTY O_TRUNC))) |>) ;;
      x ← get_file f;
      if has_flag (f_flags x) O_DIRECT &&
         negb match f_op x with Some t => fm_direct (fops t) | None => false end
      then fput f ;; mret (ERR_PTR (- EINVAL))
      else mret f.

(** The flags of open(2) as the permissions of the internal routines. *)
Definition namei_flags (flags : Z) : Z :=
  let fl := if negb (Z.land (flags + 1) O_ACCMODE =? 0) then flags + 1 else flags in
  if has_flag fl O_TRUNC then Z.lor fl 2 else fl.

Definition filp_open (iop : inode_operations → dir_methods) (filename : bytes) (flags mode : Z) : KM ptr :=
  f ← get_empty_filp;
  if f =? NULL then mret (ERR_PTR (- ENFILE))
  else
    '(error, nd) ← open_namei iop filename (namei_flags flags) mode;
    if error =? 0 then __dentry_open (nd_dentry nd) (nd_mnt nd) flags f
    else put_filp f ;; mret (ERR_PTR error).

Definition dentry_open (dentry mnt flags : Z) : KM ptr :=
  f ← get_empty_filp;
  if f =? NULL then mret (ERR_PTR (- ENFILE)) else __dentry_open dentry mnt flags f.

Definition close_message : list Z := cstr "<3>VFS: Close: file count is 0" ++ [10].

Definition filp_close (filp : ptr) : KM Z :=
  f ← get_file filp;
  if f_count f =? 0 then printk close_message ;; mret 0
  else
    retval ← match f_method f fm_flush with Some flush => flush filp | None => mret 0 end;
    fput filp ;;
    mret retval.

Definition set_fd (fd file : Z) : KM unit :=
  modify (λ s, s <| current ::= λ t, t <| task_fds ::= <[Z.to_nat fd := file]> |> |>).

Definition fd_install (fd file : Z) : KM unit :=
  t ← gets current;
  bug_on (negb (fcheck_files (task_fds t) fd =? NULL)) ;;
  set_fd fd file.

Definition sys_close (fd : Z) : KM Z :=
  t ← gets current;
  let filp := fcheck_files (task_fds t) fd in
  if filp =? NULL then mret (- EBADF)
  else set_fd fd NULL ;; filp_close filp.

(** ** fs/read_write.c: the position *)

(** How the three seeks end, once [offset] is absolute. *)
Definition seek_to (file offset : Z) (ok : bool) : KM Z :=
  if negb ok then mret (- EINVAL)
  else
    f ← get_file file;
    mwhen (negb (offset =? f_pos f))
      (mod_file file (λ f, f <| f_pos := offset |> <| f_version := 0 |>)) ;;
    mret offset.

Definition seek_from (size pos offset origin : Z) : Z :=
  if origin =? 2 then s64 (offset + size) else if origin =? 1 then s64 (offset + pos) else offset.

Definition generic_file_llseek (file offset origin : Z) : KM Z :=
  f ← get_file file;
  d ← get_dentry (f_dentry f);
  i ← get_inode (d_inode d);
  b ← get_super (i_sb i);
  let offset := seek_from (i_size i) (f_pos f) offset origin in
  seek_to file offset ((offset >=? 0) && (offset <=? s_maxbytes b)).

Definition remote_llseek (file offset origin : Z) : KM Z :=
  f ← get_file file;
  d ← get_dentry (f_dentry f);
  i ← get_inode (d_inode d);
  b ← get_super (i_sb i);
  let offset := seek_from (i_size i) (f_pos f) offset origin in
  seek_to file offset ((offset >=? 0) && (offset <=? s_maxbytes b)).

Definition no_llseek (file offset origin : Z) : KM Z := mret (- ESPIPE).

(** The inode is read for its size only. *)
Definition default_llseek (file offset origin : Z) : KM Z :=
  f ← get_file file;
  size ← (if origin =? 2 then d ← get_dentry (f_dentry f); i ← get_inode (d_inode d); mret (i_size i)
          else mret 0);
  let offset := seek_from size (f_pos f) offset origin in
  seek_to file offset (offset >=? 0).

Definition vfs_llseek (file offset origin : Z) : KM Z :=
  f ← get_file file;
  if negb (has_flag (f_mode f) FMODE_LSEEK) then no_llseek file offset origin
  else
    match f_method f fm_llseek with
    | Some fn => fn file offset origin
    | None => default_llseek file offset origin
    end.

(** [off_t] is a 32-bit integer. *)
Definition sys_lseek (fd offset origin : Z) : KM Z :=
  file ← fget_light fd;
  if file =? NULL then mret (- EBADF)
  else if origin >? 2 then mret (- EINVAL)
  else
    res ← vfs_llseek file offset origin;
    mret (if negb (res =? s32 res) then - EOVERFLOW else s32 res).

(** The bytes of a 64-bit integer in memory. *)
Fixpoint le_bytes (n : nat) (z : Z) : list Z :=
  match n with O => [] | S k => z mod 256 :: le_bytes k (z / 256) end.

Definition sys_llseek (fd offset_high offset_low result origin : Z) : KM Z :=
  file ← fget_light fd;
  if file =? NULL then mret (- EBADF)
  else if origin >? 2 then mret (- EINVAL)
  else
    offset ← vfs_llseek file (s64 (Z.lor (Z.shiftl offset_high 32) offset_low)) origin;
    if offset >=? 0 then
      rest ← copy_to_user result (le_bytes 8 offset);
      mret (if rest =? 0 then 0 else - EFAULT)
    else mret (s32 offset).

(** ** fs/read_write.c: the data *)

(** asm-i386/uaccess.h: the range ends in user space. *)
Definition access_ok (addr size : Z) : bool := addr + size <=? TASK_SIZE.

Definition INT_MAX : Z := 2147483647.

(** 0 or an error; no inode has file locks. *)
Definition rw_verify_area (file pos count : Z) : KM Z :=
  if count >? INT_MAX then mret (- EINVAL)
  else if (pos <? 0) || (s64 (pos + count) <? 0) then mret (- EINVAL)
  else
    f ← get_file file;
    d ← get_dentry (f_dentry f);
    get_inode (d_inode d) ;;
    mret 0.

(** The accounting of a task. *)
Definition u64 (z : Z) : Z := z mod 18446744073709551616.

(** A result and the new value of [*pos]. *)
Definition vfs_read (file buf count pos : Z) : KM (Z * Z) :=
  f ← get_file file;
  if negb (has_flag (f_mode f) FMODE_READ) then mret (- EBADF, pos)
  else
    match f_method f fm_read, f_method f fm_aio_read with
    | None, None => mret (- EINVAL, pos)
    | None, Some aio => match aio with end
    | Some read, _ =>
        if negb (access_ok buf count) then mret (- EFAULT, pos)
        else
          ret ← rw_verify_area file pos count;
          if negb (ret =? 0) then mret (ret, pos)
          else
            '(ret, pos) ← read file buf count pos;
            mwhen (ret >? 0) (modify (λ s, s <| current ::= λ t, t <| rchar ::= λ c, u64 (c + ret) |> |>)) ;;
            modify (λ s, s <| current ::= λ t, t <| syscr ::= λ c, u64 (c + 1) |> |>) ;;
            mret (ret, pos)
    end.

Definition vfs_write (file buf count pos : Z) : KM (Z * Z) :=
  f ← get_file file;
  if negb (has_flag (f_mode f) FMODE_WRITE) then mret (- EBADF, pos)
  else
    match f_method f fm_write, f_method f fm_aio_write with
    | None, None => mret (- EINVAL, pos)
    | None, Some aio => match aio with end
    | Some write, _ =>
        if negb (access_ok buf count) then mret (- EFAULT, pos)
        else
          ret ← rw_verify_area file pos count;
          if negb (ret =? 0) then mret (ret, pos)
          else
            '(ret, pos) ← write file buf count pos;
            mwhen (ret >? 0) (modify (λ s, s <| current ::= λ t, t <| wchar ::= λ c, u64 (c + ret) |> |>)) ;;
            modify (λ s, s <| current ::= λ t, t <| syscw ::= λ c, u64 (c + 1) |> |>) ;;
            mret (ret, pos)
    end.

Definition file_pos_read (file : ptr) : KM Z := f ← get_file file; mret (f_pos f).
Definition file_pos_write (file pos : Z) : KM unit := mod_file file (λ f, f <| f_pos := pos |>).

Definition sys_read (fd buf count : Z) : KM Z :=
  file ← fget_light fd;
  if file =? NULL then mret (- EBADF)
  else
    pos ← file_pos_read file;
    '(ret, pos) ← vfs_read file buf count pos;
    file_pos_write file pos ;;
    mret ret.

Definition sys_write (fd buf count : Z) : KM Z :=
  file ← fget_light fd;
  if file =? NULL then mret (- EBADF)
  else
    pos ← file_pos_read file;
    '(ret, pos) ← vfs_write file buf count pos;
    file_pos_write file pos ;;
    mret ret.

Definition sys_pread64 (fd buf count pos : Z) : KM Z :=
  if pos <? 0 then mret (- EINVAL)
  else
    file ← fget_light fd;
    if file =? NULL then mret (- EBADF)
    else
      f ← get_file file;
      if has_flag (f_mode f) FMODE_PREAD
      then '(ret, _) ← vfs_read file buf count pos; mret ret
      else mret (- ESPIPE).

Definition sys_pwrite64 (fd buf count pos : Z) : KM Z :=
  if pos <? 0 then mret (- EINVAL)
  else
    file ← fget_light fd;
    if file =? NULL then mret (- EBADF)
    else
      f ← get_file file;
      if has_flag (f_mode f) FMODE_PREAD
      then '(ret, _) ← vfs_write file buf count pos; mret ret
      else mret (- ESPIPE).
End files.
