(* ===== verification/Stat.v ===== *)
(** * What stat tells (fs/stat.c)

    The attributes of an inode as the kernel collects them and as the stat calls
    write them into user memory, in the layout of include/asm-i386/stat.h; the
    encodings of device numbers of include/linux/kdev_t.h; the space accounting
    of an inode.  The call sys_stat of old programs, which counts its warnings,
    is left out. *)

From S2P Require Import Prelude KString Kernel Groups Filesystems Inode Dcache Super Mount Libfs Namei.
From S2P Require Import Attr Path Vfs Aufs Open.

(** ** Device numbers (include/linux/kdev_t.h)

    [new_decode_dev] is in Vfs. *)

Definition old_valid_dev (dev : Z) : bool := (MAJOR dev <? 256) && (MINOR dev <? 256).
Definition old_encode_dev (dev : Z) : Z := u16 (Z.lor (Z.shiftl (MAJOR dev) 8) (MINOR dev)).
Definition old_decode_dev (val : Z) : Z := MKDEV (Z.land (Z.shiftr val 8) 255) (Z.land val 255).

Definition new_encode_dev (dev : Z) : Z :=
  let major := MAJOR dev in
  let minor := MINOR dev in
  u32 (Z.lor (Z.land minor 255) (Z.lor (Z.shiftl major 8) (Z.shiftl (clear_flag minor 255) 12))).

Definition huge_encode_dev (dev : Z) : Z := new_encode_dev dev.
Definition huge_decode_dev (dev : Z) : Z := new_decode_dev dev.

(** ** A path in user memory (fs/namei.c) *)

Definition __user_walk (name flags : Z) : KM (Z * nameidata) :=
  tmp ← getname name;
  match tmp with
  | inl err => mret (err, nd_init)
  | inr tmp => path_lookup tmp flags nd_init
  end.

Definition user_path_walk (name : Z) : KM (Z * nameidata) := __user_walk name LOOKUP_FOLLOW.
Definition user_path_walk_link (name : Z) : KM (Z * nameidata) := __user_walk name 0.

(** ** The attributes *)

(** Times are in nanoseconds. *)
Record kstat := mkKstat {
  st_ino : Z;
  st_dev : Z;
  st_mode : Z;
  st_nlink : Z;
  st_uid : Z;
  st_gid : Z;
  st_rdev : Z;
  st_size : Z;
  st_atime : Z;
  st_mtime : Z;
  st_ctime : Z;
  st_blksize : Z;
  st_blocks : Z
}.

#[export] Instance eta_kstat : Eta kstat := λ k,
  mkKstat (st_ino k) (st_dev k) (st_mode k) (st_nlink k) (st_uid k) (st_gid k) (st_rdev k)
    (st_size k) (st_atime k) (st_mtime k) (st_ctime k) (st_blksize k) (st_blocks k).

Definition generic_fillattr (inode : ptr) : KM kstat :=
  i ← get_inode inode;
  b ← get_super (i_sb i);
  mret (mkKstat (i_ino i) (s_dev b) (i_mode i) (i_nlink i) (i_uid i) (i_gid i) (i_rdev i)
          (i_size i) (i_atime i) (i_mtime i) (i_ctime i) (i_blksize i) (i_blocks i)).

(** The methods of inode tables that this file looks for. *)
Definition iop_getattr (t : inode_operations) : option nofn := None.
Definition iop_readlink (t : inode_operations) : option nofn := None.

Definition vfs_getattr (mnt dentry : ptr) : KM (Z * kstat) :=
  d ← get_dentry dentry;
  let inode := d_inode d in
  i ← get_inode inode;
  match iop_getattr (i_op i) with
  | Some f => match f with end
  | None =>
      stat ← generic_fillattr inode;
      if st_blksize stat =? 0 then
        s ← get_super (i_sb i);
        let blocks := u32 (Z.shiftr (st_size stat + s_blocksize s - 1) (s_blocksize_bits s)) in
        mret (0, stat <| st_blocks := u32 (s_blocksize s / 512 * blocks) |>
                      <| st_blksize := s_blocksize s |>)
      else mret (0, stat)
  end.

Definition no_stat : kstat := mkKstat 0 0 0 0 0 0 0 0 0 0 0 0 0.

(** The part of vfs_stat and vfs_lstat behind the walk. *)
Definition stat_walked (res : Z * nameidata) : KM (Z * kstat) :=
  let '(error, nd) := res in
  if error =? 0 then
    r ← vfs_getattr (nd_mnt nd) (nd_dentry nd);
    path_release (nd_path nd) ;;
    mret r
  else mret (error, no_stat).

Definition vfs_stat (name : Z) : KM (Z * kstat) := res ← user_path_walk name; stat_walked res.
Definition vfs_lstat (name : Z) : KM (Z * kstat) := res ← user_path_walk_link name; stat_walked res.

(** ** The structures of user space *)

Definition overflowuid : Z := 65534.
Definition overflowgid : Z := 65534.

(** A field of 16 bits cannot hold every uid (include/linux/highuid.h). *)
Definition high2lowuid (uid : Z) : Z := if negb (clear_flag uid 65535 =? 0) then overflowuid else u16 uid.
Definition high2lowgid (gid : Z) : Z := if negb (clear_flag gid 65535 =? 0) then overflowgid else u16 gid.

Definition tv_sec (t : Z) : Z := t / NSEC_PER_SEC.
Definition tv_nsec (t : Z) : Z := t mod NSEC_PER_SEC.

(** A structure is the list of its fields, each with its width in bytes. *)
Definition layout (fields : list (nat * Z)) : list Z := flat_map (λ '(w, v), le_bytes w v) fields.

(** struct stat *)
Definition stat_fields (k : kstat) : list (nat * Z) :=
  [(4, old_encode_dev (st_dev k)); (4, st_ino k); (2, st_mode k); (2, st_nlink k);
   (2, high2lowuid (st_uid k)); (2, high2lowgid (st_gid k)); (4, old_encode_dev (st_rdev k));
   (4, st_size k); (4, st_blksize k); (4, st_blocks k);
   (4, tv_sec (st_atime k)); (4, tv_nsec (st_atime k));
   (4, tv_sec (st_mtime k)); (4, tv_nsec (st_mtime k));
   (4, tv_sec (st_ctime k)); (4, tv_nsec (st_ctime k)); (4, 0%Z); (4, 0%Z)]%nat.

(** struct stat64 *)
Definition stat64_fields (k : kstat) : list (nat * Z) :=
  [(8, huge_encode_dev (st_dev k)); (4, 0%Z); (4, st_ino k); (4, st_mode k); (4, st_nlink k);
   (4, st_uid k); (4, st_gid k); (8, huge_encode_dev (st_rdev k)); (4, 0%Z);
   (8, st_size k); (4, st_blksize k); (4, st_blocks k); (4, 0%Z);
   (4, tv_sec (st_atime k)); (4, tv_nsec (st_atime k));
   (4, tv_sec (st_mtime k)); (4, tv_nsec (st_mtime k));
   (4, tv_sec (st_ctime k)); (4, tv_nsec (st_ctime k)); (8, st_ino k)]%nat.

Definition cp_new_stat (stat : kstat) (statbuf : Z) : KM Z :=
  if negb (old_valid_dev (st_dev stat)) || negb (old_valid_dev (st_rdev stat)) then mret (- EOVERFLOW)
  else if negb (u16 (st_nlink stat) =? st_nlink stat) then mret (- EOVERFLOW)
  else if st_size stat >? MAX_NON_LFS then mret (- EOVERFLOW)
  else
    rest ← copy_to_user statbuf (layout (stat_fields stat));
    mret (if rest =? 0 then 0 else - EFAULT).

Definition cp_new_stat64 (stat : kstat) (statbuf : Z) : KM Z :=
  rest ← copy_to_user statbuf (layout (stat64_fields stat));
  mret (if rest =? 0 then 0 else - EFAULT).

(** ** The calls *)

Definition sys_newstat (filename statbuf : Z) : KM Z :=
  '(error, stat) ← vfs_stat filename;
  if error =? 0 then cp_new_stat stat statbuf else mret error.

Definition sys_newlstat (filename statbuf : Z) : KM Z :=
  '(error, stat) ← vfs_lstat filename;
  if error =? 0 then cp_new_stat stat statbuf else mret error.

Definition sys_stat64 (filename statbuf : Z) : KM Z :=
  '(error, stat) ← vfs_stat filename;
  if error =? 0 then cp_new_stat64 stat statbuf else mret error.

Definition sys_lstat64 (filename statbuf : Z) : KM Z :=
  '(error, stat) ← vfs_lstat filename;
  if error =? 0 then cp_new_stat64 stat statbuf else mret error.

Definition sys_readlink (path buf bufsiz : Z) : KM Z :=
  if bufsiz <=? 0 then mret (- EINVAL)
  else
    '(error, nd) ← user_path_walk_link path;
    if error =? 0 then
      d ← get_dentry (nd_dentry nd);
      i ← get_inode (d_inode d);
      error ← match iop_readlink (i_op i) with
              | Some f => match f with end
              | None => mret (- EINVAL)
              end;
      path_release (nd_path nd) ;;
      mret error
    else mret error.

(** Through a descriptor. *)
Section descriptor.
Context (special : file_operations → fop_methods) (cdev_put : ptr → KM unit).

Definition vfs_fstat (fd : Z) : KM (Z * kstat) :=
  f ← fget fd;
  if f =? NULL then mret (- EBADF, no_stat)
  else
    fl ← get_file f;
    r ← vfs_getattr (f_vfsmnt fl) (f_dentry fl);
    fput special cdev_put f ;;
    mret r.

Definition sys_newfstat (fd statbuf : Z) : KM Z :=
  '(error, stat) ← vfs_fstat fd;
  if error =? 0 then cp_new_stat stat statbuf else mret error.

Definition sys_fstat64 (fd statbuf : Z) : KM Z :=
  '(error, stat) ← vfs_fstat fd;
  if error =? 0 then cp_new_stat64 stat statbuf else mret error.
End descriptor.

(** ** The space of an inode

    [i_blocks] counts blocks of 512 bytes in 32 bits, [i_bytes] the rest in 16. *)

Definition add_bytes (bytes : Z) (i : inode) : inode :=
  let i := i <| i_blocks ::= λ b, u32 (b + Z.shiftr bytes 9) |>
             <| i_bytes ::= λ b, u16 (b + Z.land bytes 511) |> in
  if i_bytes i >=? 512
  then i <| i_blocks ::= λ b, u32 (b + 1) |> <| i_bytes ::= λ b, u16 (b - 512) |> else i.

Definition sub_bytes (bytes : Z) (i : inode) : inode :=
  let rest := Z.land bytes 511 in
  let i := i <| i_blocks ::= λ b, u32 (b - Z.shiftr bytes 9) |> in
  let i := if i_bytes i <? rest
           then i <| i_blocks ::= λ b, u32 (b - 1) |> <| i_bytes ::= λ b, u16 (b + 512) |> else i in
  i <| i_bytes ::= λ b, u16 (b - rest) |>.

Definition inode_add_bytes (inode bytes : Z) : KM unit := mod_inode inode (add_bytes bytes).
Definition inode_sub_bytes (inode bytes : Z) : KM unit := mod_inode inode (sub_bytes bytes).

Definition inode_get_bytes (inode : ptr) : KM Z :=
  i ← get_inode inode; mret (Z.shiftl (i_blocks i) 9 + i_bytes i).

Definition inode_set_bytes (inode bytes : Z) : KM unit :=
  mod_inode inode (λ i, i <| i_blocks := u32 (Z.shiftr bytes 9) |> <| i_bytes := Z.land bytes 511 |>).
