(* ===== verification/Calls.v ===== *)
(** * Attribute and directory calls (first half of fs/open.c)

    statfs, truncate, utime, access, chdir, chroot, chmod and chown, up to the
    paths and buffers in user memory.  No inode has file locks or leases, and no
    quota or security module is configured.  The call utimes is left out: it
    stores microseconds that it does not check. *)

From S2P Require Import Prelude KString Kernel Groups Filesystems Inode Dcache Super Mount Libfs Namei.
From S2P Require Import Attr Path Vfs Aufs Open Stat.

(** ** User memory *)

(** [n] bytes of user memory, or a fault. *)
Fixpoint copy_in (m : gmap Z Z) (from : Z) (n : nat) : option (list Z) :=
  match n with
  | O => Some []
  | S k => match m !! from with
           | Some c => cons c <$> copy_in m (from + 1) k
           | None => None
           end
  end.

Fixpoint le_value (l : list Z) : Z :=
  match l with [] => 0 | b :: l' => b + 256 * le_value l' end.

(** get_user of a [long]: 0 and the value, or [-EFAULT]. *)
Definition get_user_long (p : Z) : KM (Z * Z) :=
  m ← gets user_mem;
  mret (match copy_in m p 4 with Some l => (0, s32 (le_value l)) | None => (- EFAULT, 0) end).

(** ** statfs *)

Definition vfs_statfs (sb : ptr) : KM (Z * kstatfs) :=
  let zero := mkStatfs 0 0 0 0 0 0 0 0 0 in
  if sb =? NULL then mret (- ENODEV, zero)
  else
    b ← get_super sb;
    match so_statfs (s_op b) with
    | None => mret (- ENOSYS, zero)
    | Some simple_statfs_fn =>
        '(retval, buf) ← simple_statfs sb zero;
        mret (retval, if (retval =? 0) && (f_frsize buf =? 0)
                      then buf <| f_frsize := f_bsize buf |> else buf)
    end.

Definition high_bits : Z := 18446744069414584320. (* 0xffffffff00000000 *)
Definition minus_one64 : Z := 18446744073709551615.

(** struct statfs has fields of 32 bits, struct kstatfs sectors of 64. *)
Definition statfs_fields (w : nat) (st : kstatfs) : list (nat * Z) :=
  [(4%nat, f_type st); (4%nat, f_bsize st); (w, f_blocks st); (w, f_bfree st); (w, f_bavail st);
   (w, f_nfiles st); (w, f_ffree st); (8%nat, 0); (4%nat, f_namelen st); (4%nat, f_frsize st);
   (4%nat, 0); (4%nat, 0); (4%nat, 0); (4%nat, 0); (4%nat, 0)].

Definition vfs_statfs_native (sb : ptr) : KM (Z * list Z) :=
  '(retval, st) ← vfs_statfs sb;
  mret (if negb (retval =? 0) then (retval, [])
        else if has_flag (Z.lor (f_blocks st) (Z.lor (f_bfree st) (f_bavail st))) high_bits
        then (- EOVERFLOW, [])
        else if negb (f_nfiles st =? minus_one64) && has_flag (f_nfiles st) high_bits
        then (- EOVERFLOW, [])
        else if negb (f_ffree st =? minus_one64) && has_flag (f_ffree st) high_bits
        then (- EOVERFLOW, [])
        else (0, layout (statfs_fields 4 st))).

(** struct statfs64 has the size of struct kstatfs and is copied. *)
Definition vfs_statfs64 (sb : ptr) : KM (Z * list Z) :=
  '(retval, st) ← vfs_statfs sb;
  mret (if negb (retval =? 0) then (retval, []) else (0, layout (statfs_fields 8 st))).

Definition sizeof_statfs64 : Z := 84.

(** The copy to the caller, of the four calls. *)
Definition statfs_out (r : Z * list Z) (buf : Z) : KM Z :=
  let '(error, tmp) := r in
  if error =? 0 then
    rest ← copy_to_user buf tmp;
    mret (if negb (rest =? 0) then - EFAULT else 0)
  else mret error.

Definition dentry_sb (dentry : ptr) : KM ptr :=
  d ← get_dentry dentry; i ← get_inode (d_inode d); mret (i_sb i).

Definition sys_statfs (path buf : Z) : KM Z :=
  '(error, nd) ← user_path_walk path;
  if error =? 0 then
    sb ← dentry_sb (nd_dentry nd);
    tmp ← vfs_statfs_native sb;
    error ← statfs_out tmp buf;
    path_release (nd_path nd) ;;
    mret error
  else mret error.

Definition sys_statfs64 (path sz buf : Z) : KM Z :=
  if negb (sz =? sizeof_statfs64) then mret (- EINVAL)
  else
    '(error, nd) ← user_path_walk path;
    if error =? 0 then
      sb ← dentry_sb (nd_dentry nd);
      tmp ← vfs_statfs64 sb;
      error ← statfs_out tmp buf;
      path_release (nd_path nd) ;;
      mret error
    else mret error.

(** ** truncate *)

(** The part of do_sys_truncate up to the label dput_and_out. *)
Definition truncate_at (dentry length : Z) : KM Z :=
  d ← get_dentry dentry;
  let inode := d_inode d in
  i ← get_inode inode;
  if S_ISDIR (i_mode i) then mret (- EISDIR)
  else if negb (S_ISREG (i_mode i)) then mret (- EINVAL)
  else
    error ← permission inode MAY_WRITE;
    if negb (error =? 0) then mret error
    else
      ro ← IS_RDONLY i;
      if (ro : bool) then mret (- EROFS)
      else if IS_IMMUTABLE i || IS_APPEND i then mret (- EPERM)
      else
        error ← get_write_access inode;
        if negb (error =? 0) then mret error
        else
          error ← do_truncate dentry length;
          put_write_access inode ;;
          mret error.

Definition do_sys_truncate (path length : Z) : KM Z :=
  if length <? 0 then mret (- EINVAL)
  else
    '(error, nd) ← user_path_walk path;
    if negb (error =? 0) then mret error
    else
      error ← truncate_at (nd_dentry nd) length;
      path_release (nd_path nd) ;;
      mret error.

Definition sys_truncate (path length : Z) : KM Z := do_sys_truncate path (s32 length).
Definition sys_truncate64 (path length : Z) : KM Z := do_sys_truncate path length.

(** ** utime *)

Definition iattr0 : iattr := mkIattr 0 0 0 0 0 0 0 0.

(** The times that the caller gives: an error, or the attributes. *)
Definition utime_times (times : Z) (i : inode) (newattrs : iattr) : KM (Z * iattr) :=
  if IS_APPEND i || IS_IMMUTABLE i then mret (- EPERM, newattrs)
  else
    '(error, actime) ← get_user_long times;
    let newattrs := newattrs <| ia_atime := actime * NSEC_PER_SEC |> in
    '(error, modtime) ← (if error =? 0 then get_user_long (times + 4) else mret (error, 0));
    let newattrs := newattrs <| ia_mtime := modtime * NSEC_PER_SEC |> in
    if negb (error =? 0) then mret (error, newattrs)
    else mret (0, newattrs <| ia_valid ::= λ v, Z.lor v (Z.lor ATTR_ATIME_SET ATTR_MTIME_SET) |>).

(** The part of sys_utime up to the label dput_and_out. *)
Definition utime_at (dentry times : Z) : KM Z :=
  d ← get_dentry dentry;
  let inode := d_inode d in
  i ← get_inode inode;
  ro ← IS_RDONLY i;
  if (ro : bool) then mret (- EROFS)
  else
    let newattrs := iattr0 <| ia_valid := Z.lor ATTR_CTIME (Z.lor ATTR_MTIME ATTR_ATIME) |> in
    '(error, newattrs) ←
      (if negb (times =? NULL) then utime_times times i newattrs
       else if IS_IMMUTABLE i then mret (- EACCES, newattrs)
       else
         t ← gets current;
         if fsuid t =? i_uid i then mret (0, newattrs)
         else error ← permission inode MAY_WRITE; mret (error, newattrs));
    if negb (error =? 0) then mret error else notify_change dentry newattrs.

Definition sys_utime (filename times : Z) : KM Z :=
  '(error, nd) ← user_path_walk filename;
  if negb (error =? 0) then mret error
  else
    error ← utime_at (nd_dentry nd) times;
    path_release (nd_path nd) ;;
    mret error.

(** ** access *)

Definition S_IRWXO : Z := 7.
Definition S_IWOTH : Z := 2.
Definition LOOKUP_ACCESS : Z := 1024.

Definition cap_effective (t : task) : capset :=
  mkCaps (cap_dac_override t) (cap_dac_read_search t) (cap_fowner t) (cap_chown t) (cap_fsetid t)
    (cap_mknod t) (cap_sys_admin t) (cap_sys_chroot t).

Definition set_cap_effective (c : capset) (t : task) : task :=
  t <| cap_dac_override := c_dac_override c |> <| cap_dac_read_search := c_dac_read_search c |>
    <| cap_fowner := c_fowner c |> <| cap_chown := c_chown c |> <| cap_fsetid := c_fsetid c |>
    <| cap_mknod := c_mknod c |> <| cap_sys_admin := c_sys_admin c |> <| cap_sys_chroot := c_sys_chroot c |>.

Definition cap_clear : capset := mkCaps false false false false false false false false.

(** The task with its real ids and the capabilities that go with them. *)
Definition real_ids (t : task) : task :=
  set_cap_effective (if negb (uid t =? 0) then cap_clear else cap_permitted t)
    (t <| fsuid := uid t |> <| fsgid := gid t |>).

Definition special_file (m : Z) : bool := S_ISCHR m || S_ISBLK m || S_ISFIFO m || S_ISSOCK m.

Definition access_at (dentry mode : Z) : KM Z :=
  d ← get_dentry dentry;
  let inode := d_inode d in
  res ← permission inode mode;
  i ← get_inode inode;
  ro ← IS_RDONLY i;
  mret (if (res =? 0) && has_flag mode S_IWOTH && (ro : bool) && negb (special_file (i_mode i))
        then - EROFS else res).

Definition sys_access (filename mode : Z) : KM Z :=
  if negb (clear_flag mode S_IRWXO =? 0) then mret (- EINVAL)
  else
    old ← gets current;
    modify (λ s, s <| current ::= real_ids |>) ;;
    '(res, nd) ← __user_walk filename (Z.lor LOOKUP_FOLLOW LOOKUP_ACCESS);
    res ← (if res =? 0 then
             res ← access_at (nd_dentry nd) mode;
             path_release (nd_path nd) ;;
             mret res
           else mret res);
    modify (λ s, s <| current ::= λ t, set_cap_effective (cap_effective old)
                                         (t <| fsuid := fsuid old |> <| fsgid := fsgid old |>) |>) ;;
    mret res.

(** ** Working directory and root *)

(** fs/namespace.c *)
Definition set_fs_pwd (mnt dentry : ptr) : KM unit :=
  fs ← gets (λ s, task_fs (current s));
  mnt ← mntget mnt;
  dentry ← dget dentry;
  modify (λ s, s <| current ::= λ t, t <| task_fs ::= λ f, f <| fs_pwdmnt := mnt |> <| fs_pwd := dentry |> |> |>) ;;
  mwhen (negb (fs_pwd fs =? NULL)) (dput (fs_pwd fs) ;; mntput (fs_pwdmnt fs)).

Definition set_fs_root (mnt dentry : ptr) : KM unit :=
  fs ← gets (λ s, task_fs (current s));
  mnt ← mntget mnt;
  dentry ← dget dentry;
  modify (λ s, s <| current ::= λ t, t <| task_fs ::= λ f, f <| fs_rootmnt := mnt |> <| fs_root := dentry |> |> |>) ;;
  mwhen (negb (fs_root fs =? NULL)) (dput (fs_root fs) ;; mntput (fs_rootmnt fs)).

(** fs/namei.c; [__emul_prefix] is NULL on this machine. *)
Definition set_fs_altroot : KM unit :=
  fs ← gets (λ s, task_fs (current s));
  modify (λ s, s <| current ::= λ t, t <| task_fs ::= λ f, f <| fs_altrootmnt := NULL |> <| fs_altroot := NULL |> |> |>) ;;
  mwhen (negb (fs_altroot fs =? NULL)) (dput (fs_altroot fs) ;; mntput (fs_altrootmnt fs)).

Definition sys_chdir (filename : Z) : KM Z :=
  '(error, nd) ← __user_walk filename (Z.lor LOOKUP_FOLLOW LOOKUP_DIRECTORY);
  if negb (error =? 0) then mret error
  else
    d ← get_dentry (nd_dentry nd);
    error ← permission (d_inode d) MAY_EXEC;
    mwhen (error =? 0) (set_fs_pwd (nd_mnt nd) (nd_dentry nd)) ;;
    path_release (nd_path nd) ;;
    mret error.

Definition sys_chroot (filename : Z) : KM Z :=
  '(error, nd) ← __user_walk filename (Z.lor LOOKUP_FOLLOW (Z.lor LOOKUP_DIRECTORY LOOKUP_NOALT));
  if negb (error =? 0) then mret error
  else
    d ← get_dentry (nd_dentry nd);
    error ← permission (d_inode d) MAY_EXEC;
    error ← (if negb (error =? 0) then mret error
             else
               t ← gets current;
               if negb (cap_sys_chroot t) then mret (- EPERM)
               else
                 set_fs_root (nd_mnt nd) (nd_dentry nd) ;;
                 set_fs_altroot ;;
                 mret 0);
    path_release (nd_path nd) ;;
    mret error.

(** fs/dcache.c: the path of a dentry as the task sees it. *)
Definition d_path (dentry vfsmnt : ptr) (buflen : Z) : KM (Z + list Z) :=
  fs ← gets (λ s, task_fs (current s));
  rootmnt ← mntget (fs_rootmnt fs);
  root ← dget (fs_root fs);
  res ← __d_path dentry vfsmnt root rootmnt buflen;
  dput root ;;
  mntput rootmnt ;;
  mret res.

Definition PAGE_SIZE : Z := 4096.

Definition sys_getcwd (buf size : Z) : KM Z :=
  page ← kmem_alloc;
  if page =? NULL then mret (- ENOMEM)
  else
    fs ← gets (λ s, task_fs (current s));
    pwdmnt ← mntget (fs_pwdmnt fs);
    pwd ← dget (fs_pwd fs);
    rootmnt ← mntget (fs_rootmnt fs);
    root ← dget (fs_root fs);
    d ← get_dentry pwd;
    error ←
      (if (d_parent d =? pwd) || negb (d_unhashed d) then
         cwd ← __d_path pwd pwdmnt root rootmnt PAGE_SIZE;
         match cwd with
         | inl err => mret err
         | inr cwd =>
             let len := Z.of_nat (length cwd) + 1 in
             if len <=? size then
               rest ← copy_to_user buf (cwd ++ [0]);
               mret (if negb (rest =? 0) then - EFAULT else len)
             else mret (- ERANGE)
         end
       else mret (- ENOENT));
    dput pwd ;;
    mntput pwdmnt ;;
    dput root ;;
    mntput rootmnt ;;
    mret error.

(** ** chmod and chown *)

(** What sys_chmod and sys_fchmod do with the inode. *)
Definition chmod_at (dentry mode : Z) : KM Z :=
  d ← get_dentry dentry;
  i ← get_inode (d_inode d);
  ro ← IS_RDONLY i;
  if (ro : bool) then mret (- EROFS)
  else if IS_IMMUTABLE i || IS_APPEND i then mret (- EPERM)
  else
    let mode := if mode =? u16 (-1) then i_mode i else mode in
    notify_change dentry
      (iattr0 <| ia_mode := Z.lor (Z.land mode S_IALLUGO) (clear_flag (i_mode i) S_IALLUGO) |>
              <| ia_valid := Z.lor ATTR_MODE ATTR_CTIME |>).

Definition sys_chmod (filename mode : Z) : KM Z :=
  '(error, nd) ← user_path_walk filename;
  if negb (error =? 0) then mret error
  else
    error ← chmod_at (nd_dentry nd) mode;
    path_release (nd_path nd) ;;
    mret error.

Definition chown_message : list Z := cstr "<3>chown_common: NULL inode" ++ [10].

Definition chown_common (dentry user group : Z) : KM Z :=
  d ← get_dentry dentry;
  let inode := d_inode d in
  if inode =? NULL then printk chown_message ;; mret (- ENOENT)
  else
    i ← get_inode inode;
    ro ← IS_RDONLY i;
    if (ro : bool) then mret (- EROFS)
    else if IS_IMMUTABLE i || IS_APPEND i then mret (- EPERM)
    else
      let a := iattr0 <| ia_valid := ATTR_CTIME |> in
      let a := if negb (user =? u32 (-1))
               then a <| ia_valid ::= λ v, Z.lor v ATTR_UID |> <| ia_uid := user |> else a in
      let a := if negb (group =? u32 (-1))
               then a <| ia_valid ::= λ v, Z.lor v ATTR_GID |> <| ia_gid := group |> else a in
      let a := if negb (S_ISDIR (i_mode i))
               then a <| ia_valid ::= λ v, Z.lor v (Z.lor ATTR_KILL_SUID ATTR_KILL_SGID) |> else a in
      notify_change dentry a.

Definition sys_chown (filename user group : Z) : KM Z :=
  '(error, nd) ← user_path_walk filename;
  if negb (error =? 0) then mret error
  else
    error ← chown_common (nd_dentry nd) user group;
    path_release (nd_path nd) ;;
    mret error.

Definition sys_lchown (filename user group : Z) : KM Z :=
  '(error, nd) ← user_path_walk_link filename;
  if negb (error =? 0) then mret error
  else
    error ← chown_common (nd_dentry nd) user group;
    path_release (nd_path nd) ;;
    mret error.

(** ** Through a descriptor *)

Definition O_LARGEFILE : Z := 32768. (* 00100000 *)

Section descriptor.
Context (special : file_operations → fop_methods) (cdev_put : ptr → KM unit).

(** [fget], an action on the file and [fput]. *)
Definition with_file (fd : Z) (act : file → KM Z) : KM Z :=
  f ← fget fd;
  if f =? NULL then mret (- EBADF)
  else
    fl ← get_file f;
    error ← act fl;
    fput special cdev_put f ;;
    mret error.

Definition sys_fstatfs (fd buf : Z) : KM Z :=
  with_file fd (λ f, sb ← dentry_sb (f_dentry f); tmp ← vfs_statfs_native sb; statfs_out tmp buf).

Definition sys_fstatfs64 (fd sz buf : Z) : KM Z :=
  if negb (sz =? sizeof_statfs64) then mret (- EINVAL)
  else with_file fd (λ f, sb ← dentry_sb (f_dentry f); tmp ← vfs_statfs64 sb; statfs_out tmp buf).

Definition do_sys_ftruncate (fd length : Z) (small : bool) : KM Z :=
  if length <? 0 then mret (- EINVAL)
  else with_file fd (λ f,
    let small := if has_flag (f_flags f) O_LARGEFILE then false else small in
    d ← get_dentry (f_dentry f);
    i ← get_inode (d_inode d);
    if negb (S_ISREG (i_mode i)) || negb (has_flag (f_mode f) FMODE_WRITE) then mret (- EINVAL)
    else if small && (length >? MAX_NON_LFS) then mret (- EINVAL)
    else if IS_APPEND i then mret (- EPERM)
    else do_truncate (f_dentry f) length).

Definition sys_ftruncate (fd length : Z) : KM Z := do_sys_ftruncate fd length true.
Definition sys_ftruncate64 (fd length : Z) : KM Z := do_sys_ftruncate fd length false.

Definition sys_fchdir (fd : Z) : KM Z :=
  with_file fd (λ f,
    d ← get_dentry (f_dentry f);
    i ← get_inode (d_inode d);
    if negb (S_ISDIR (i_mode i)) then mret (- ENOTDIR)
    else
      error ← permission (d_inode d) MAY_EXEC;
      mwhen (error =? 0) (set_fs_pwd (f_vfsmnt f) (f_dentry f)) ;;
      mret error).

Definition sys_fchmod (fd mode : Z) : KM Z := with_file fd (λ f, chmod_at (f_dentry f) mode).

Definition sys_fchown (fd user group : Z) : KM Z :=
  with_file fd (λ f, chown_common (f_dentry f) user group).
End descriptor.

(** ** Methods for the tables of file operations *)

Definition generic_file_open (inode filp : ptr) : KM Z :=
  f ← get_file filp;
  if negb (has_flag (f_flags f) O_LARGEFILE) then
    i ← get_inode inode;
    mret (if i_size i >? MAX_NON_LFS then - EFBIG else 0)
  else mret 0.

Definition nonseekable_open (inode filp : ptr) : KM Z :=
  mod_file filp (λ f, f <| f_mode ::= λ m, clear_flag m (Z.lor FMODE_LSEEK FMODE_PREAD) |>) ;;
  mret 0.
