(* ===== verification/PermSpec.v ===== *)
(** * What the permission check decides

    [permission] refuses writes on a read-only file system and on an immutable
    inode, and then goes by the bits of the caller's class and by capabilities. *)

From S2P Require Import Prelude KString Kernel Links Inode Dcache Filesystems Super Mount Libfs Groups Namei.
From S2P Require Import Attr Path Vfs Open Stat Calls.

(** The permission bits of the caller's class. *)
Definition class_bits (t : task) (i : inode) : Z :=
  if fsuid t =? i_uid i then Z.shiftr (i_mode i) 6
  else if in_group_p t (i_gid i) then Z.shiftr (i_mode i) 3 else i_mode i.

(** A capability grants what the bits do not. *)
Definition overridden (t : task) (i : inode) (mask : Z) : Prop :=
  (cap_dac_override t = true ∧
     (has_flag mask MAY_EXEC = false ∨ has_flag (i_mode i) S_IXUGO = true ∨ S_ISDIR (i_mode i) = true)) ∨
  (cap_dac_read_search t = true ∧
     (mask = MAY_READ ∨ S_ISDIR (i_mode i) = true ∧ has_flag mask MAY_WRITE = false)).

Definition granted (t : task) (i : inode) (b : super_block) (mask : Z) : Prop :=
  (Z.land (class_bits t i) mask = mask ∨ overridden t i mask) ∧
  (has_flag mask MAY_WRITE = true → IS_IMMUTABLE i = false ∧
     (has_flag (s_flags b) MS_RDONLY = false ∨ special_file (i_mode i) = true)).

Lemma check_mode_granted t i mask :
  0 ≤ mask < 8 → (check_mode t i (class_bits t i) mask = 0 ↔ Z.land (class_bits t i) mask = mask ∨ overridden t i mask) ∧
  check_mode t i (class_bits t i) mask ≤ 0.
Proof.
  intros Hm. unfold check_mode, check_capabilities.
  assert (∀ z, Z.land (Z.land z mask) (Z.lor MAY_READ (Z.lor MAY_WRITE MAY_EXEC)) = Z.land z mask) as ->.
  { intros z. rewrite <-Z.land_assoc. f_equal. change (Z.lor _ _) with (Z.ones 3). rewrite Z.land_ones by lia.
    apply Z.mod_small. lia. }
  destruct (Z.eqb_spec (Z.land (class_bits t i) mask) mask) as [E|E]; [split; [by split; [left|]|done]|].
  unfold overridden. destruct (cap_dac_override t), (cap_dac_read_search t), (has_flag mask MAY_EXEC),
    (has_flag (i_mode i) S_IXUGO), (S_ISDIR (i_mode i)), (has_flag mask MAY_WRITE); simpl;
    destruct (Z.eqb_spec mask MAY_READ); simpl; (split; [|unfold EACCES; lia]); naive_solver.
Qed.

Lemma special_not_plain mode : special_file mode = true →
  S_ISREG mode || S_ISDIR mode || S_ISLNK mode = false.
Proof.
  unfold special_file, S_ISCHR, S_ISBLK, S_ISFIFO, S_ISSOCK, S_ISREG, S_ISDIR, S_ISLNK.
  intros H. repeat (apply orb_true_iff in H as [H|H]); apply Z.eqb_eq in H; by rewrite H.
Qed.

(** The result of the check. *)
Definition permission_result (t : task) (i : inode) (b : super_block) (mask : Z) : Z :=
  let ro := has_flag (s_flags b) MS_RDONLY in
  if has_flag mask MAY_WRITE && ro && (S_ISREG (i_mode i) || S_ISDIR (i_mode i) || S_ISLNK (i_mode i)) then - EROFS
  else if has_flag mask MAY_WRITE && IS_IMMUTABLE i then - EACCES
  else check_mode t i (class_bits t i) mask.

Lemma wp_permission_result x i b mask Q t :
  inodes t !! x = Some i → supers t !! i_sb i = Some b → 0 ≤ mask < 8 →
  Q (permission_result (current t) i b mask) t → wp (permission x mask) Q t.
Proof.
  intros Hi Hb Hm HQ. unfold permission_result in HQ.
  assert (clear_flag mask MAY_APPEND = mask) as Ea.
  { assert (mask = 0 ∨ mask = 1 ∨ mask = 2 ∨ mask = 3 ∨ mask = 4 ∨ mask = 5 ∨ mask = 6 ∨ mask = 7)
      as [->|[->|[->|[->|[->|[->|[->| ->]]]]]]] by lia; done. }
  assert (∀ Q, Q (check_mode (current t) i (class_bits (current t) i) mask) t →
    wp (generic_permission x mask None) Q t) as Hgen.
  { intros Q' HQ'. unfold generic_permission, class_bits in *. wp_run. destruct (fsuid (current t) =? i_uid i); by wp_run. }
  unfold permission, IS_RDONLY. rewrite Ea. wp_step. wp_step; [exact Hi|].
  destruct (has_flag mask MAY_WRITE); cbn [andb] in HQ |- *; [|wp_run; by apply Hgen].
  wp_run. destruct (_ && _); [by wp_run|]. destruct (IS_IMMUTABLE i); wp_run; [done|by apply Hgen].
Qed.

(** On a file system that is mounted for writing. *)
Lemma permission_writable t i b mask :
  IS_IMMUTABLE i = false → has_flag (s_flags b) MS_RDONLY = false → 0 ≤ mask < 8 →
  (granted t i b mask ∧ permission_result t i b mask = 0) ∨
  (¬ granted t i b mask ∧ permission_result t i b mask = - EACCES).
Proof.
  intros Him Hro Hm. destruct (check_mode_granted t i mask Hm) as [Hg Hle].
  unfold permission_result, granted. rewrite Hro, Him, !andb_false_r. cbn [andb].
  assert (check_mode t i (class_bits t i) mask = 0 ∨ check_mode t i (class_bits t i) mask = - EACCES) as [E|E].
  { unfold check_mode, check_capabilities. repeat case_match; auto. }
  - left. split; [|done]. split; [by apply Hg|by auto].
  - right. split; [|done]. intros [H _]. apply Hg in H. rewrite E in H. done.
Qed.
