(* ===== verification/StatSpec.v ===== *)
(** * The space of an inode

    What an inode accounts for, in blocks of 512 bytes and a rest (fs/stat.c). *)

From S2P Require Import Prelude KString Kernel Groups Filesystems Inode Dcache Super Mount Libfs Namei.
From S2P Require Import Attr Path Vfs Aufs Open Stat.

(** The bytes of an inode, and the shape that the functions keep. *)
Definition used (i : inode) : Z := 512 * i_blocks i + i_bytes i.
Definition space_ok (i : inode) : Prop := 0 ≤ i_blocks i < two32 ∧ 0 ≤ i_bytes i < 512.

Lemma split_bytes bytes : Z.shiftr bytes 9 = bytes / 512 ∧ Z.land bytes 511 = bytes mod 512.
Proof.
  split; [by rewrite Z.shiftr_div_pow2|]. change 511 with (Z.ones 9). by rewrite Z.land_ones.
Qed.

Lemma add_bytes_fields bytes i :
  let r := u16 (i_bytes i + Z.land bytes 511) in
  let q := u32 (i_blocks i + Z.shiftr bytes 9) in
  add_bytes bytes i = i <| i_blocks := if r >=? 512 then u32 (q + 1) else q |>
                        <| i_bytes := if r >=? 512 then u16 (r - 512) else r |>.
Proof.
  intros r q. unfold add_bytes. cbv zeta.
  change (i_bytes (_ <| i_bytes ::= _ |>)) with r. by destruct (r >=? 512), i.
Qed.

Lemma sub_bytes_fields bytes i :
  let r := Z.land bytes 511 in
  let q := u32 (i_blocks i - Z.shiftr bytes 9) in
  sub_bytes bytes i = i <| i_blocks := if i_bytes i <? r then u32 (q - 1) else q |>
    <| i_bytes := if i_bytes i <? r then u16 (u16 (i_bytes i + 512) - r) else u16 (i_bytes i - r) |>.
Proof.
  intros r q. unfold sub_bytes. cbv zeta.
  change (i_bytes (_ <| i_blocks ::= _ |>)) with (i_bytes i). fold r. by destruct (i_bytes i <? r), i.
Qed.

Lemma u16_small z : 0 ≤ z < 65536 → u16 z = z.
Proof. apply Z.mod_small. Qed.

Lemma add_bytes_spec bytes i :
  space_ok i → 0 ≤ bytes → used i + bytes < 512 * two32 →
  space_ok (add_bytes bytes i) ∧ used (add_bytes bytes i) = used i + bytes.
Proof.
  intros [Hb Hr] H0 Hmax. destruct (split_bytes bytes) as [E1 E2]. rewrite add_bytes_fields, E1, E2. cbv zeta.
  unfold used, space_ok in *. cbn [i_blocks i_bytes upd].
  pose proof (Z.mod_pos_bound bytes 512). pose proof (Z.div_mod bytes 512). pose proof (Z.div_pos bytes 512).
  set (q := bytes / 512) in *. set (r := bytes mod 512) in *. unfold two32 in *.
  rewrite (u16_small (i_bytes i + r)) by lia. rewrite (u32_small (i_blocks i + q)) by (unfold two32; lia).
  destruct (Z.geb_spec (i_bytes i + r) 512).
  - rewrite (u16_small (i_bytes i + r - 512)) by lia. rewrite (u32_small (i_blocks i + q + 1)) by (unfold two32; lia). lia.
  - lia.
Qed.

Lemma sub_add_bytes bytes i :
  space_ok i → 0 ≤ bytes → used i + bytes < 512 * two32 → sub_bytes bytes (add_bytes bytes i) = i.
Proof.
  intros Hok H0 Hmax. destruct (add_bytes_spec bytes i Hok H0 Hmax) as [Hok' Hu].
  set (j := add_bytes bytes i) in *.
  assert (i = j <| i_blocks := i_blocks i |> <| i_bytes := i_bytes i |>) as Ei.
  { unfold j. rewrite add_bytes_fields. by destruct i. }
  rewrite sub_bytes_fields. destruct (split_bytes bytes) as [-> ->]. cbv zeta. etrans; [|symmetry; exact Ei].
  destruct Hok as [Hb Hr], Hok' as [Hb' Hr']. unfold used, two32 in *.
  pose proof (Z.mod_pos_bound bytes 512). pose proof (Z.div_mod bytes 512). pose proof (Z.div_pos bytes 512).
  set (q := bytes / 512) in *. set (r := bytes mod 512) in *.
  destruct (Z.ltb_spec (i_bytes j) r) as [Hlt|Hge].
  - rewrite (u16_small (i_bytes j + 512)) by lia. rewrite (u16_small (i_bytes j + 512 - r)) by lia.
    rewrite (u32_small (i_blocks j - q)) by (unfold two32; lia).
    rewrite (u32_small (i_blocks j - q - 1)) by (unfold two32; lia).
    replace (i_blocks j - q - 1) with (i_blocks i) by lia. by replace (i_bytes j + 512 - r) with (i_bytes i) by lia.
  - rewrite (u16_small (i_bytes j - r)) by lia. rewrite (u32_small (i_blocks j - q)) by (unfold two32; lia).
    replace (i_blocks j - q) with (i_blocks i) by lia. by replace (i_bytes j - r) with (i_bytes i) by lia.
Qed.

(** C36: the space of an inode is accounted for exactly.  As long as the total
    stays below 2^41 bytes, which is where the 32-bit count of blocks ends,
    [inode_add_bytes] adds the bytes to what [inode_get_bytes] reports and keeps
    the rest below a block, and [inode_sub_bytes] takes them away again, without
    a carry lost. *)
Theorem space_accounting x i bytes s :
  inodes s !! x = Some i → space_ok i → 0 ≤ bytes → used i + bytes < 512 * two32 →
  wp (inode_add_bytes x bytes ;; n ← inode_get_bytes x; j ← get_inode x; inode_sub_bytes x bytes ;; mret (n, j))
    (λ '(n, j) t, n = used i + bytes ∧ space_ok j ∧ t = s) s.
Proof.
  intros Hx Hok H0 Hmax. destruct (add_bytes_spec bytes i Hok H0 Hmax) as [Hok' Hu].
  unfold inode_add_bytes, inode_get_bytes, inode_sub_bytes. wp_run. split_and!.
  - rewrite Z.shiftl_mul_pow2 by lia. change (2 ^ 9) with 512. unfold used in Hu at 1. lia.
  - done.
  - kstate_eq. rewrite insert_insert_eq, sub_add_bytes by done. by apply insert_id.
Qed.
