(* ===== verification/AufsSpec.v ===== *)
(** * Correctness of the aufs node operations

    Every branch of the functions of node.h and dentry.h: the inode that is
    made, the dentry that gets it, the counts that change, the errors and the
    faults. *)

From S2P Require Import Prelude KString Kernel Links Inode InodeInv Dcache DcacheInv DcacheOps.
From S2P Require Import Filesystems Super Mount Libfs Groups Namei LookupSpec Aufs.

(** ** Changes that the caches do not see *)

Lemma vfs_inv_log dext iext l s :
  vfs_inv dext iext s → vfs_inv dext iext (s <| klog ::= (.++ l) |>).
Proof.
  intros [Hd Hi]. split; [by apply (dcache_inv_ext _ _ _ _ Hd)|by apply (inode_inv_ext _ _ _ _ Hi)].
Qed.

(** Attributes of an inode: everything but its links, count and state. *)
Record same_ilinks (i i' : inode) : Prop := mkSameIl {
  si_hash : i_hash i' = i_hash i;
  si_list : i_list i' = i_list i;
  si_sb_list : i_sb_list i' = i_sb_list i;
  si_sb : i_sb i' = i_sb i;
  si_dentry : i_dentry i' = i_dentry i;
  si_count : i_count i' = i_count i;
  si_state : i_state i' = i_state i
}.

Lemma vfs_inv_inode_attr dext iext x i i' s :
  vfs_inv dext iext s → inodes s !! x = Some i → same_ilinks i i' →
  vfs_inv dext iext (s <| inodes ::= <[x := i']> |>).
Proof.
  intros [Hd Hi] Hx [E1 E2 E3 E4 E5 E6 E7]. split.
  - apply (dcache_inv_ext _ _ _ _ Hd); try done. split; try done.
    intros k. unfold aliases. simpl. map_cases; [by rewrite Hx|done].
  - pose proof (ii_ok _ _ Hi _ _ Hx) as [H1 H2 H3 H4 H5 H6].
    eapply (inode_inv_set iext iext s _ x i); [done|done|reflexivity|done..| |done].
    split; rewrite ?E1, ?E3, ?E4, ?E5, ?E6, ?E7; done.
Qed.

Lemma vfs_inv_new_inode dext iext sb b s :
  vfs_inv dext iext s → supers s !! sb = Some b →
  inode_inv (first_ref (slab_next s) iext) (new_inode_state sb b s) →
  vfs_inv dext (first_ref (slab_next s) iext) (new_inode_state sb b s).
Proof.
  intros Hv Hb Hi'. destruct (fresh_none _ _ _ (slab_next s) Hv) as [_ Hn]; [done|].
  split; [|done]. apply (dcache_inv_ext _ _ _ _ (vi_dcache _ _ _ Hv)); try done.
  split; try done.
  - intros k. unfold aliases. simpl. map_cases; [by rewrite Hn|done].
  - intros []; simpl; try done. map_cases; [by rewrite Hb|done].
  - simpl. unfold SLAB_STEP. lia.
Qed.

Lemma wp_set_inode x i f Q s :
  Q tt (s <| inodes ::= <[x := f i]> |>) → wp (mod_inode x f) Q (s <| inodes ::= <[x := i]> |>).
Proof.
  intros HQ. eapply wp_mod_inode; [by simpl; rewrite lookup_insert_eq|]. by rewrite set_inode_twice.
Qed.

Lemma inode_log_comm s x i l :
  s <| inodes ::= <[x := i]> |> <| klog ::= (.++ l) |> =
  s <| klog ::= (.++ l) |> <| inodes ::= <[x := i]> |>.
Proof. by kstate_eq. Qed.

Lemma log_nil s : s <| klog ::= (.++ []) |> = s.
Proof. kstate_eq. by rewrite app_nil_r. Qed.

(** ** node.h *)

Section node.
Variables current_fsuid current_fsgid : task → Z.

(** The type bits of a mode. *)
Definition fmt (mode : Z) : Z := Z.land mode S_IFMT.

(** What [init_special_inode] makes of an inode, and what it logs. *)
Definition special (mode dev : Z) (i : inode) : inode :=
  let m := u16 mode in
  if S_ISCHR m then i <| i_mode := m |> <| i_fop := def_chr_fops |> <| i_rdev := dev |>
  else if S_ISBLK m then i <| i_mode := m |> <| i_fop := def_blk_fops |> <| i_rdev := dev |>
  else if S_ISFIFO m then i <| i_mode := m |> <| i_fop := def_fifo_fops |>
  else if S_ISSOCK m then i <| i_mode := m |> <| i_fop := bad_sock_fops |>
  else i <| i_mode := m |>.

Definition special_log (mode : Z) : list bytes :=
  let m := u16 mode in
  if S_ISCHR m || S_ISBLK m || S_ISFIFO m || S_ISSOCK m then []
  else [cstr "<7>init_special_inode: bogus i_mode (" ++ fmt_o m ++ cstr ")" ++ [10]].

(** The inode of [aufs_get_inode]: owner from the task, the three times equal
    to whatever [i_ctime] the object had, and the methods of its type. *)
Definition aufs_inode (s : kstate) (sb : ptr) (b : super_block) (mode dev : Z) : inode :=
  let f := fresh_inode s sb b in
  let i := f
    <| i_mode := u16 mode |>
    <| i_uid := current_fsuid (current s) |> <| i_gid := current_fsgid (current s) |>
    <| i_blocks := 0 |>
    <| i_mtime := i_ctime f |> <| i_atime := i_ctime f |> in
  if fmt mode =? S_IFREG then i
  else if fmt mode =? S_IFDIR then
    i <| i_op := simple_dir_inode_operations |> <| i_fop := simple_dir_operations |>
      <| i_nlink ::= λ n, u32 (n + 1) |>
  else special mode dev i.

Definition aufs_inode_log (mode : Z) : list bytes :=
  if fmt mode =? S_IFREG then [cstr "create a file \n"]
  else if fmt mode =? S_IFDIR then [cstr "creat a dir file \n"]
  else special_log mode.

Definition aufs_inode_state (sb : ptr) (b : super_block) (mode dev : Z) (s : kstate) : kstate :=
  (new_inode_state sb b s)
    <| inodes ::= <[slab_next s := aufs_inode s sb b mode dev]> |>
    <| klog ::= (.++ aufs_inode_log mode) |>.

Lemma aufs_inode_links s sb b mode dev :
  same_ilinks (fresh_inode s sb b) (aufs_inode s sb b mode dev).
Proof.
  unfold aufs_inode, special. generalize (fresh_inode s sb b). intros [].
  destruct (fmt mode =? S_IFREG); [by split|].
  destruct (fmt mode =? S_IFDIR); [by split|]. simpl.
  destruct (S_ISCHR _); [by split|]. destruct (S_ISBLK _); [by split|].
  destruct (S_ISFIFO _); [by split|]. by destruct (S_ISSOCK _); split.
Qed.

Lemma aufs_inode_state_lookup sb b mode dev s :
  inodes (aufs_inode_state sb b mode dev s) !! slab_next s = Some (aufs_inode s sb b mode dev).
Proof. simpl. by rewrite lookup_insert_eq. Qed.

Lemma aufs_inode_state_dentries sb b mode dev s :
  dentries (aufs_inode_state sb b mode dev s) = dentries s.
Proof. done. Qed.

Lemma wp_aufs_get_inode dext iext sb b mode dev s :
  vfs_inv dext iext s → supers s !! sb = Some b → sb ≠ NULL →
  wp (aufs_get_inode current_fsuid current_fsgid sb mode dev) (λ x s',
    if alloc_fails s then x = NULL ∧ s' = s <| slab_fail ::= tail |>
    else x = slab_next s ∧ s' = aufs_inode_state sb b mode dev s ∧
         vfs_inv dext (first_ref x iext) s') s.
Proof.
  intros Hv Hb Hsb. pose proof (ii_next _ _ (vi_inode _ _ _ Hv)) as Hn.
  unfold aufs_get_inode. wp_run.
  eapply wp_mono; [by apply (wp_new_inode _ _ _ _ (vi_inode _ _ _ Hv) Hb Hsb)|].
  intros x s1 Hx. destruct (alloc_fails s).
  { destruct Hx as [-> ->]. simpl. by wp_run. }
  destruct Hx as (-> & Hi1 & ->).
  rewrite (proj2 (Z.eqb_neq _ NULL)) by (unfold NULL; lia).
  assert (vfs_inv dext (first_ref (slab_next s) iext) (aufs_inode_state sb b mode dev s)) as Hv'.
  { apply vfs_inv_log. eapply vfs_inv_inode_attr;
      [by apply vfs_inv_new_inode| |apply aufs_inode_links].
    simpl. by rewrite lookup_insert_eq. }
  unfold aufs_inode_state in *. set (T := new_inode_state sb b s) in *.
  assert (T = T <| inodes ::= <[slab_next s := fresh_inode s sb b]> |>) as ET.
  { kstate_eq. symmetry. apply insert_id. simpl. by rewrite lookup_insert_eq. }
  assert (current T = current s) as Ec by done.
  apply (wp_start _ _ _ _ ET). clearbody T. clear ET. set (x := slab_next s) in *.
  unfold aufs_inode, aufs_inode_log, fmt in *. rewrite <-Ec in *.
  generalize dependent (fresh_inode s sb b). intros f Hv'.
  wp_step. apply wp_set_inode.
  wp_step. wp_step. change (current T <| inodes ::= _ |>) with (current T).
  wp_step. apply wp_set_inode.
  wp_step. wp_step. change (current T <| inodes ::= _ |>) with (current T).
  wp_step. apply wp_set_inode. wp_step. apply wp_set_inode. wp_step. apply wp_set_inode.
  wp_step.
  destruct (Z.land mode S_IFMT =? S_IFREG); [|destruct (Z.land mode S_IFMT =? S_IFDIR)].
  - by wp_run.
  - wp_step. apply wp_set_inode. wp_step. apply wp_set_inode. wp_step. wp_step.
    apply (wp_start _ _ _ _ (inode_log_comm _ _ _ _)). apply wp_set_inode. wp_step.
    by rewrite <-inode_log_comm.
  - unfold init_special_inode, special, special_log in *. wp_step. apply wp_set_inode.
    destruct (S_ISCHR (u16 mode)); [|destruct (S_ISBLK (u16 mode));
      [|destruct (S_ISFIFO (u16 mode)); [|destruct (S_ISSOCK (u16 mode))]]].
    1-4: apply wp_set_inode; wp_step; cbn [orb] in *; by rewrite log_nil in *.
    by wp_run.
Qed.

(** A negative dentry [x] becomes the name of the new inode, with one
    reference more than its caller had. *)
Definition mknod_state (x : ptr) (d : dentry) (sb : ptr) (b : super_block)
    (mode dev : Z) (s : kstate) : kstate :=
  let i := slab_next s in
  (aufs_inode_state sb b mode dev s)
    <| inodes ::= <[i := (aufs_inode s sb b mode dev) <| i_dentry ::= cons x |>]> |>
    <| dentries ::= <[x := d <| d_alias := i |> <| d_inode := i |> <| d_count ::= Z.add 1 |>]> |>.

(** The new inode is referenced by its dentry only. *)
Definition owned (i : ptr) (iext : refs) : refs := bump i (-1) (first_ref i iext).

Inductive mknod_result (dext iext : refs) (sb : ptr) (b : super_block) (x : ptr) (d : dentry)
    (mode dev : Z) (s : kstate) : Z → kstate → Prop :=
  | mknod_exists :
      d_inode d ≠ NULL → mknod_result dext iext sb b x d mode dev s (- EEXIST) s
  | mknod_nomem :
      d_inode d = NULL → alloc_fails s = true →
      mknod_result dext iext sb b x d mode dev s (- EPERM) (s <| slab_fail ::= tail |>)
  | mknod_done :
      d_inode d = NULL → alloc_fails s = false →
      vfs_inv (bump x 1 dext) (owned (slab_next s) iext) (mknod_state x d sb b mode dev s) →
      mknod_result dext iext sb b x d mode dev s 0 (mknod_state x d sb b mode dev s).

Lemma wp_aufs_mknod dext iext dir di b x d mode dev s :
  vfs_inv dext iext s → inodes s !! dir = Some di → supers s !! i_sb di = Some b →
  dentries s !! x = Some d → d_count d ≠ 0 →
  wp (aufs_mknod current_fsuid current_fsgid dir x mode dev)
    (mknod_result dext iext (i_sb di) b x d mode dev s) s.
Proof.
  intros Hv Hdir Hb Hx Hc. pose proof (ii_next _ _ (vi_inode _ _ _ Hv)) as Hn.
  pose proof (io_sb_nonnull _ _ _ (ii_ok _ _ (vi_inode _ _ _ Hv) _ _ Hdir)) as Hsb.
  unfold aufs_mknod. wp_run.
  destruct (d_inode d =? NULL) eqn:En; bool_to_prop; simpl; [|by wp_run; constructor]. wp_run.
  eapply wp_mono; [by apply (wp_aufs_get_inode dext iext)|].
  intros i s1 Hi. destruct (alloc_fails s) eqn:Ef.
  { destruct Hi as [-> ->]. simpl. wp_run. by constructor. }
  destruct Hi as (-> & -> & Hv1).
  rewrite (proj2 (Z.eqb_neq _ NULL)) by (unfold NULL; lia). simpl. wp_run.
  pose proof (aufs_inode_state_lookup (i_sb di) b mode dev s) as Hi1.
  rewrite <-(aufs_inode_state_dentries (i_sb di) b mode dev s) in Hx.
  pose proof (eq_refl (mknod_state x d (i_sb di) b mode dev s)) as Edone.
  unfold mknod_state in Edone at 2. set (i := slab_next s) in *.
  generalize dependent (aufs_inode s (i_sb di) b mode dev).
  generalize dependent (aufs_inode_state (i_sb di) b mode dev s). intros s1 Hx1 Hv1 ii Hi1 Edone.
  assert (first_ref i iext i = 1) as Hone by (unfold first_ref; by rewrite Z.eqb_refl).
  eapply wp_mono; [apply (wp_d_instantiate _ _ _ _ _ _ _ Hv1 Hx1 En Hi1); lia|].
  intros _ s2 [Hv2 ->]. wp_run.
  eapply wp_mono; [eapply (wp_dget _ _ x _ _ Hv2); [wp_lookup|done]|].
  intros r s3 (-> & E3 & Hv3). wp_run.
  assert (s3 = mknod_state x d (i_sb di) b mode dev s) as Est.
  { rewrite E3, Edone. unfold instantiated. kstate_eq. by rewrite insert_insert_eq. }
  rewrite Est in *. by apply mknod_done.
Qed.

(** A new directory is one more link to its parent. *)
Definition linked_dir (dir : ptr) (di : inode) (s : kstate) : kstate :=
  s <| inodes ::= <[dir := di <| i_nlink ::= λ n, u32 (n + 1) |>]> |>.

Lemma mknod_state_inode x d sb b mode dev s y :
  y ≠ slab_next s → inodes (mknod_state x d sb b mode dev s) !! y = inodes s !! y.
Proof. intros Hy. simpl. by rewrite !lookup_insert_ne by done. Qed.

Lemma wp_aufs_mkdir dext iext dir di b x d mode s :
  vfs_inv dext iext s → inodes s !! dir = Some di → supers s !! i_sb di = Some b →
  dentries s !! x = Some d → d_count d ≠ 0 →
  wp (aufs_mkdir current_fsuid current_fsgid dir x mode) (λ r s',
    ∃ s1, mknod_result dext iext (i_sb di) b x d (Z.lor mode S_IFDIR) 0 s r s1 ∧
      if r =? 0
      then s' = linked_dir dir di s1 ∧
           vfs_inv (bump x 1 dext) (owned (slab_next s) iext) s'
      else s' = s1) s.
Proof.
  intros Hv Hdir Hb Hx Hc. unfold aufs_mkdir. wp_run.
  eapply wp_mono; [by apply (wp_aufs_mknod dext iext dir di b x d)|].
  intros r s1 Hr. destruct Hr as [Hn|Hn Ha|Hn Ha Hv1]; simpl; wp_run.
  - eexists. split; [by apply mknod_exists|done].
  - eexists. split; [by apply mknod_nomem|done].
  - assert (dir ≠ slab_next s) as Hne.
    { intros ->. destruct (fresh_none _ _ _ (slab_next s) Hv) as [_ Hf]; [done|]. congruence. }
    pose proof (mknod_state_inode x d (i_sb di) b (Z.lor mode S_IFDIR) 0 s dir Hne) as Hd1.
    rewrite Hdir in Hd1.
    pose proof (mknod_done dext iext (i_sb di) b x d (Z.lor mode S_IFDIR) 0 s Hn Ha Hv1) as Hr.
    generalize dependent (mknod_state x d (i_sb di) b (Z.lor mode S_IFDIR) 0 s).
    intros s1 Hv1 Hd1 Hr. wp_run. exists s1. split; [done|]. split; [done|].
    by eapply vfs_inv_inode_attr; [|done|].
Qed.
End node.

(** ** What the node operations promise *)

(** C32: [aufs_get_inode] returns NULL when there is no memory, and otherwise a
    new inode of the superblock with the mode asked for (16 bits of it), the
    ids of the current task, no blocks and the methods of its type; the three
    times are equal, but they are whatever the memory held, since nothing
    assigns [i_ctime]; a directory has two links. *)
Theorem aufs_get_inode_correct fu fg dext iext sb b mode dev s :
  vfs_inv dext iext s → supers s !! sb = Some b → sb ≠ NULL →
  wp (aufs_get_inode fu fg sb mode dev) (λ x s',
    if alloc_fails s then x = NULL ∧ vfs_inv dext iext s'
    else x = slab_next s ∧ vfs_inv dext (first_ref x iext) s' ∧
      ∃ i, inodes s' = <[x := i]> (inodes s) ∧ i_mode i = u16 mode ∧ i_sb i = sb ∧
        i_uid i = fu (current s) ∧ i_gid i = fg (current s) ∧ i_blocks i = 0 ∧ i_count i = 1 ∧
        i_ctime i = i_ctime (slab_inode s) ∧ i_mtime i = i_ctime i ∧ i_atime i = i_ctime i ∧
        (fmt mode = S_IFDIR → i_nlink i = 2 ∧ i_op i = simple_dir_inode_operations ∧
                              i_fop i = simple_dir_operations) ∧
        (fmt mode = S_IFREG → i_nlink i = 1 ∧ i_op i = empty_iops ∧ i_fop i = empty_fops)) s.
Proof.
  intros Hv Hb Hsb. eapply wp_mono; [by apply (wp_aufs_get_inode fu fg dext iext sb b)|].
  intros x s' Hx. destruct (alloc_fails s).
  { destruct Hx as [-> ->]. split; [done|]. exact (slab_moved_inv _ _ _ _ Hv (slab_fail_moved s)). }
  destruct Hx as (-> & -> & Hv'). split_and!; [done..|].
  exists (aufs_inode fu fg s sb b mode dev). split; [simpl; by rewrite insert_insert_eq|].
  clear Hv'. unfold aufs_inode, special.
  assert (i_sb (fresh_inode s sb b) = sb ∧ i_count (fresh_inode s sb b) = 1 ∧
          i_ctime (fresh_inode s sb b) = i_ctime (slab_inode s) ∧ i_nlink (fresh_inode s sb b) = 1 ∧
          i_op (fresh_inode s sb b) = empty_iops ∧ i_fop (fresh_inode s sb b) = empty_fops)
    as (E1 & E2 & E3 & E4 & E5 & E6) by done.
  generalize dependent (fresh_inode s sb b). intros f E1 E2 E3 E4 E5 E6.
  destruct (fmt mode =? S_IFREG) eqn:Er; [|destruct (fmt mode =? S_IFDIR) eqn:Ed]; bool_to_prop.
  - simpl. rewrite Er. split_and!; try done.
  - simpl. rewrite Ed. split_and!; try done. intros _. by rewrite E4.
  - simpl. by repeat case_match.
Qed.

(** [aufs_mknod] refuses a dentry that has an inode with -EEXIST and reports
    missing memory as -EPERM, changing nothing in either case; otherwise the
    dentry names the new inode, which only it references, and has one reference
    more than the caller held. *)
Theorem aufs_mknod_correct fu fg dext iext dir di b x d mode dev s :
  vfs_inv dext iext s → inodes s !! dir = Some di → supers s !! i_sb di = Some b →
  dentries s !! x = Some d → d_count d ≠ 0 →
  wp (aufs_mknod fu fg dir x mode dev) (λ r s',
    if d_inode d =? NULL then
      if alloc_fails s then r = - EPERM ∧ s' = s <| slab_fail ::= tail |>
      else r = 0 ∧ vfs_inv (bump x 1 dext) (owned (slab_next s) iext) s' ∧
        dentries s' = <[x := d <| d_alias := slab_next s |> <| d_inode := slab_next s |>
                               <| d_count ::= Z.add 1 |>]> (dentries s) ∧
        i_dentry <$> inodes s' !! slab_next s = Some [x]
    else r = - EEXIST ∧ s' = s) s.
Proof.
  intros Hv Hdir Hb Hx Hc. eapply wp_mono; [by apply (wp_aufs_mknod fu fg dext iext dir di b x d)|].
  intros r s' [Hn|Hn Ha|Hn Ha Hv'].
  - by rewrite (proj2 (Z.eqb_neq _ _) Hn).
  - rewrite Hn, Ha. done.
  - rewrite Hn, Ha. simpl. split_and!; [done|exact Hv'|done|].
    rewrite lookup_insert_eq. simpl. f_equal.
    pose proof (si_dentry _ _ (aufs_inode_links fu fg s (i_sb di) b mode dev)) as ->. done.
Qed.

(** [aufs_mkdir] is [aufs_mknod] of a directory; exactly when that succeeds
    the parent gains a link. *)
Theorem aufs_mkdir_correct fu fg dext iext dir di b x d mode s :
  vfs_inv dext iext s → inodes s !! dir = Some di → supers s !! i_sb di = Some b →
  dentries s !! x = Some d → d_count d ≠ 0 →
  wp (aufs_mkdir fu fg dir x mode) (λ r s',
    (r = 0 ↔ d_inode d = NULL ∧ alloc_fails s = false) ∧
    (if r =? 0 then vfs_inv (bump x 1 dext) (owned (slab_next s) iext) s'
     else vfs_inv dext iext s') ∧
    i_nlink <$> inodes s' !! dir =
      Some (if r =? 0 then u32 (i_nlink di + 1) else i_nlink di)) s.
Proof.
  intros Hv Hdir Hb Hx Hc. eapply wp_mono; [by apply (wp_aufs_mkdir fu fg dext iext dir di b x d)|].
  intros r s' (s1 & Hr & Hs). destruct Hr as [Hn|Hn Ha|Hn Ha Hv1]; simpl in *.
  - subst s'. split_and!; [split; [done|by intros [? _]]|done|by rewrite Hdir].
  - subst s'. split_and!; [split; [done|intros [_ ?]; congruence]| |simpl; by rewrite Hdir].
    exact (slab_moved_inv _ _ _ _ Hv (slab_fail_moved s)).
  - destruct Hs as [-> Hv']. split_and!; [done|exact Hv'|]. unfold linked_dir.
    generalize (mknod_state fu fg x d (i_sb di) b (Z.lor mode S_IFDIR) 0 s). intros t. simpl.
    by rewrite lookup_insert_eq.
Qed.
