(* ===== verification/AufsCreate.v ===== *)
(** * Creation of entries by name (aufs/dentry.h, file.h)

    [aufs_create_by_name] and the functions over it: the entry that appears in
    the directory, the entry that was there already, the memory that runs out,
    and the lookup error that is not noticed. *)

From S2P Require Import Prelude KString Kernel Links Inode InodeInv Dcache DcacheInv DcacheOps.
From S2P Require Import Filesystems Super Mount Libfs Groups Namei LookupSpec Aufs AufsSpec.

(** ** The parent *)

(** The directory in which the entry is made: the argument, or the root of the
    in-kernel mount when it is NULL. *)
Definition resolves (s : kstate) (parent p : ptr) : Prop :=
  p ≠ NULL ∧
  (parent = p ∨
   parent = NULL ∧ ∃ mnt b, aufs_mount s ≠ NULL ∧ mounts s !! aufs_mount s = Some mnt ∧
     mnt_sb mnt ≠ NULL ∧ supers s !! mnt_sb mnt = Some b ∧ s_root b = p).

Lemma resolve_run {A} s parent p (k : ptr → KM A) :
  resolves s parent p →
  (m ← gets aufs_mount;
   parent ← (if (parent =? NULL) && negb (m =? NULL) then
               mnt ← get_mount m;
               if negb (mnt_sb mnt =? NULL) then
                 b ← get_super (mnt_sb mnt); mret (s_root b)
               else mret parent
             else mret parent);
   k parent) s = k p s.
Proof.
  unfold get_mount, get_super, deref, gets, mbind, M_bind, mret, M_ret.
  intros [Hp [->|(-> & mnt & b & Hm & Hmnt & Hsb & Hb & <-)]].
  - by rewrite (proj2 (Z.eqb_neq _ _) Hp).
  - rewrite (proj2 (Z.eqb_neq _ _) Hm). simpl. rewrite Hmnt. simpl.
    rewrite (proj2 (Z.eqb_neq _ _) Hsb). simpl. by rewrite Hb.
Qed.

Lemma wp_resolve {A} s parent p (k : ptr → KM A) Q :
  resolves s parent p → wp (k p) Q s →
  wp (m ← gets aufs_mount;
      parent ← (if (parent =? NULL) && negb (m =? NULL) then
                  mnt ← get_mount m;
                  if negb (mnt_sb mnt =? NULL) then
                    b ← get_super (mnt_sb mnt); mret (s_root b)
                  else mret parent
                else mret parent);
      k parent) Q s.
Proof. intros Hp HQ. unfold wp. by rewrite (resolve_run s parent p). Qed.

(** ** The state after a lookup that made a negative dentry *)

Section lookup_new.
Context (name : qstr) (p : ptr) (bd : dentry) (s : kstate).
Let x := slab_next s.
Let s1 := lookup_new name p bd s.

Definition lookup_dentry : dentry :=
  hashed (d_hash_val (d_hash_shift s) (d_hash_mask s) p (q_hash name)) (negative name p bd s).

(** Everything but the dentry cache and the allocator is as before. *)
Lemma lookup_new_dentries :
  dentries s1 = <[x := lookup_dentry]> (alter (adopt x) p (dentries s)).
Proof.
  unfold s1, lookup_new, rehashed, child_added, home_bucket, lookup_dentry. 
  destruct (d_alloc_slab_moved name s) as (l & n & _ & ->). simpl.
  by rewrite !insert_insert_eq.
Qed.

Lemma lookup_new_same :
  inodes s1 = inodes s ∧ supers s1 = supers s ∧ mounts s1 = mounts s ∧
  current s1 = current s ∧ aufs_mount s1 = aufs_mount s ∧ slab_next s < slab_next s1 ∧
  d_hash_shift s1 = d_hash_shift s ∧ d_hash_mask s1 = d_hash_mask s ∧
  slab_inode s1 = slab_inode s ∧ last_ino s1 = last_ino s ∧ slab_iname s1 = slab_iname s ∧
  klog s1 = klog s.
Proof.
  pose proof (slab_next_moved name s) as Hn. unfold s1, lookup_new, rehashed, child_added.
  destruct (d_alloc_slab_moved name s) as (l & n & _ & E). rewrite E in *. simpl in *. done.
Qed.
End lookup_new.

(** ** Creation *)

Section create.
Variables current_fsuid current_fsgid : task → Z.

(** The mode the inode gets. *)
Definition typed (mode : Z) : Z :=
  Z.lor mode (if fmt mode =? S_IFDIR then S_IFDIR else S_IFREG).

(** The state after the creation of [name] in the directory [p]. *)
Definition entry_state (name : bytes) (mode p : Z) (bd : dentry) (bi : inode)
    (b : super_block) (s : kstate) : kstate :=
  let s1 := lookup_new (key name) p bd s in
  let s2 := mknod_state current_fsuid current_fsgid (slab_next s)
              (lookup_dentry (key name) p bd s) (i_sb bi) b (typed mode) 0 s1 in
  if fmt mode =? S_IFDIR then linked_dir (d_inode bd) bi s2 else s2.

(** What it takes: a directory the caller may search, a proper name that is
    not there yet, and memory for the dentry and the inode. *)
Record can_create (name : bytes) (p : ptr) (bd : dentry) (bi : inode) (b : super_block)
    (s : kstate) : Prop := mkCan {
  cc_dir : dir_ok s p bd bi;
  cc_sb : supers s !! i_sb bi = Some b;
  cc_name : component name;
  cc_len : Z.of_nat (length name) ≤ NAME_MAX;
  cc_exec : may_exec (current s) bi = 0;
  cc_new : lookup_spec s p (key name) NULL;
  cc_mem : d_alloc_ok (key name) s = true
}.

Lemma wp_lookup_new dext iext name p bd bi b s :
  vfs_inv dext iext s → can_create name p bd bi b s →
  wp (lookup_one_len name p (strlen name)) (λ r s', r = slab_next s ∧
    s' = lookup_new (key name) p bd s ∧ vfs_inv (first_ref (slab_next s) dext) iext s') s.
Proof.
  intros Hv []. eapply wp_mono; [by apply (wp_lookup_one_len dext iext name p bd bi)|].
  intros r s' [|r' d bk He Hd Hh Hnm Hv'| |]; [congruence| |congruence|done].
  exfalso. unfold lookup_spec in cc_new0. rewrite decide_True in cc_new0 by done.
  rewrite (cc_new0 r' d bk Hd Hh) in Hnm. done.
Qed.

(** What the creation does after the lookup made [x]. *)
Lemma wp_create_by_name_absent dext iext name mode parent p bd bi b slot old s :
  vfs_inv dext iext s → resolves s parent p → can_create name p bd bi b s → IS_ERR slot = false →
  let x := slab_next s in
  let d := lookup_dentry (key name) p bd s in
  let s1 := lookup_new (key name) p bd s in
  wp (aufs_create_by_name current_fsuid current_fsgid name mode parent slot old)
    (λ '(error, y) s', y = x ∧
       vfs_inv (first_ref x dext) iext s1 ∧
       ∃ s2, mknod_result current_fsuid current_fsgid (first_ref x dext) iext (i_sb bi) b x d
               (typed mode) 0 s1 error s2 ∧
         if (fmt mode =? S_IFDIR) && (error =? 0)
         then s' = linked_dir (d_inode bd) bi s2 ∧
              vfs_inv (bump x 1 (first_ref x dext)) (owned (slab_next s1) iext) s'
         else s' = s2) s.
Proof.
  intros Hv Hp Hcan Hslot x d s1. pose proof Hcan as [Hdir Hsb Hnm Hlen Hex Hnew Hm1].
  pose proof Hdir as [Hb Hc Hi Ho]. unfold aufs_create_by_name.
  apply (wp_resolve s parent p); [done|].
  rewrite (proj2 (Z.eqb_neq _ _) (proj1 Hp)). wp_run.
  eapply wp_mono; [by apply (wp_lookup_new dext iext name p bd bi b)|].
  intros r s1' (-> & E1 & Hv1). rewrite Hslot. cbn [negb].
  pose proof (lookup_new_dentries (key name) p bd s) as Ed.
  destruct (lookup_new_same (key name) p bd s) as (Ei & Es & _).
  destruct (fresh_none _ _ _ x Hv) as [Hfr _]; [done|].
  assert (p ≠ x) as Hpx by (intros ->; congruence).
  subst s1'. fold d s1 x in Ed, Ei, Es, Hv1 |- *.
  assert (d_count d ≠ 0 ∧ d_inode d = NULL) as [Hdc Hdi] by done. clearbody d s1.
  rewrite <-Ei in Hi. rewrite <-Es in Hsb.
  assert (dentries s1 !! x = Some d) as Hx1 by (by rewrite Ed, lookup_insert_eq).
  wp_step. wp_step; [by rewrite Ed, lookup_insert_ne, lookup_alter_eq, Hb by done|].
  change (d_inode (adopt x bd)) with (d_inode bd).
  unfold typed, fmt. destruct (Z.land mode S_IFMT =? S_IFDIR); wp_run; cbn [andb].
  - eapply wp_mono; [by apply (wp_aufs_mkdir _ _ _ _ (d_inode bd) bi b x d _ _ Hv1)|].
    intros r s2 (s3 & Hr & Hs). wp_run. split_and!; [done..|]. by exists s3.
  - eapply wp_mono; [by apply (wp_aufs_mknod _ _ _ _ (d_inode bd) bi b x d _ _ _ Hv1)|].
    intros r s2 Hr. wp_run. split_and!; [done..|]. by exists s2.
Qed.

Lemma wp_create_by_name_new dext iext name mode parent p bd bi b slot old s :
  vfs_inv dext iext s → resolves s parent p → can_create name p bd bi b s → IS_ERR slot = false →
  alloc_fails (lookup_new (key name) p bd s) = false →
  wp (aufs_create_by_name current_fsuid current_fsgid name mode parent slot old)
    (λ '(error, x) s', error = 0 ∧ x = slab_next s ∧
       vfs_inv (bump x 1 (first_ref x dext))
         (owned (slab_next (lookup_new (key name) p bd s)) iext) s' ∧
       s' = entry_state name mode p bd bi b s) s.
Proof.
  intros Hv Hp Hcan Hslot Hmem.
  eapply wp_mono; [by apply (wp_create_by_name_absent dext iext name mode parent p bd bi b)|].
  intros [e x] s' (-> & _ & s2 & Hr & Hs). unfold entry_state.
  destruct Hr; [done|congruence|]. rewrite andb_true_r in Hs.
  destruct (fmt mode =? S_IFDIR); [by destruct Hs as [-> ?]|by subst s'].
Qed.

(** C31: when there is memory for the dentry but not for the inode,
    [aufs_create_by_name] returns -EPERM, and a negative dentry of that name
    stays hashed below the directory with the reference of the lookup, which
    nobody gives up. *)
Theorem create_by_name_nomem dext iext name mode parent p bd bi b slot old s :
  vfs_inv dext iext s → resolves s parent p → can_create name p bd bi b s → IS_ERR slot = false →
  alloc_fails (lookup_new (key name) p bd s) = true →
  wp (aufs_create_by_name current_fsuid current_fsgid name mode parent slot old)
    (λ '(error, x) s', error = - EPERM ∧ x = slab_next s ∧
       vfs_inv (first_ref x dext) iext s' ∧
       s' = (lookup_new (key name) p bd s) <| slab_fail ::= tail |>) s.
Proof.
  intros Hv Hp Hcan Hslot Hmem.
  eapply wp_mono; [by apply (wp_create_by_name_absent dext iext name mode parent p bd bi b)|].
  intros [e x] s' (-> & Hv1 & s2 & Hr & Hs). destruct Hr; [done| |congruence].
  rewrite andb_false_r in Hs. subst s'. split_and!; [done..| |done].
  exact (slab_moved_inv _ _ _ _ Hv1 (slab_fail_moved _)).
Qed.
End create.

(** ** The other outcomes *)

Section outcomes.
Variables current_fsuid current_fsgid : task → Z.
Context (dext iext : refs) (name : bytes) (mode : Z) (parent p : ptr)
  (bd : dentry) (bi : inode) (b : super_block) (slot old : ptr) (s : kstate).
Hypothesis Hv : vfs_inv dext iext s.
Hypothesis Hp : resolves s parent p.
Hypothesis Hdir : dir_ok s p bd bi.
Hypothesis Hname : component name.
Hypothesis Hlen : Z.of_nat (length name) ≤ NAME_MAX.
Hypothesis Hslot : IS_ERR slot = false.

Let create := aufs_create_by_name current_fsuid current_fsgid name mode parent slot old.

(** C30: a name that already names an inode is refused with -EEXIST; the only
    change is the reference that the lookup took on it, which stays. *)
Theorem create_by_name_exists r0 d0 b0 :
  supers s !! i_sb bi = Some b → may_exec (current s) bi = 0 →
  dentries s !! r0 = Some d0 → d_hash_node d0 = InBucket b0 → named p (key name) d0 = true →
  (∀ r d b, dentries s !! r = Some d → d_hash_node d = InBucket b →
     named p (key name) d = true → d_inode d ≠ NULL) →
  wp create (λ '(error, r) s', error = - EEXIST ∧ ∃ d, dentries s !! r = Some d ∧
    named p (key name) d = true ∧ vfs_inv (bump r 1 dext) iext s' ∧
    s' = s <| dentries ::= <[r := d <| d_count ::= Z.add 1 |>]> |>) s.
Proof.
  intros Hsb Hex H1 H2 H3 Hpos. subst create. pose proof Hdir as [Hb Hc Hi Ho].
  unfold aufs_create_by_name. apply (wp_resolve s parent p); [done|].
  rewrite (proj2 (Z.eqb_neq _ _) (proj1 Hp)). wp_run.
  eapply wp_mono; [by apply (wp_lookup_one_len dext iext name p bd bi)|].
  intros r s' [|r' d bk He Hd Hh Hnm Hv'|? ? Hno|? Hno]; [congruence| |exfalso..].
  2-3: unfold lookup_spec in Hno; rewrite decide_True in Hno by done;
    rewrite (Hno r0 d0 b0 H1 H2) in H3; done.
  rewrite Hslot. cbn [negb]. wp_step.
  set (s1 := s <| dentries ::= _ |>) in *.
  assert (∃ bd', dentries s1 !! p = Some bd' ∧ d_inode bd' = d_inode bd) as (bd' & Hb' & Ei).
  { subst s1. simpl. destruct (decide (r' = p)) as [->|]; simplify_eq.
    - rewrite lookup_insert_eq. eauto.
    - rewrite lookup_insert_ne by done. eauto. }
  assert (dentries s1 !! r' = Some (d <| d_count ::= Z.add 1 |>)) as Hx
    by (subst s1; simpl; by rewrite lookup_insert_eq).
  assert (d_inode d ≠ NULL) as Hd0 by eauto.
  wp_step; [done|]. rewrite Ei.
  unfold aufs_mkdir, aufs_create, aufs_mknod.
  destruct (Z.land mode S_IFMT =? S_IFDIR); repeat wp_step; try done; simpl;
    rewrite (proj2 (Z.eqb_neq _ _) Hd0); simpl; wp_run; simpl; wp_run; eauto 10.
Qed.

(** C29: the test of the result of the lookup looks at the address of the caller's
    variable, so a lookup that failed, because the directory may not be searched
    or because there is no memory, is not noticed: the error value is used as a
    dentry and the access faults. *)
Theorem create_by_name_fault e :
  slab_next s ≤ ERR_PTR (-1000) → 0 < e ≤ 1000 →
  may_exec (current s) bi = - e ∨
    (may_exec (current s) bi = 0 ∧ lookup_spec s p (key name) NULL ∧
     d_alloc_ok (key name) s = false ∧ e = ENOMEM) →
  create s = Fault (BadPtr (ERR_PTR (- e))).
Proof.
  intros Hn He Hcase. pose proof Hdir as [Hb Hc Hi Ho].
  assert (∀ s', dentries s' = dentries s →
    dentries s' !! ERR_PTR (- e) = None ∧ dentries s' !! p = Some bd) as Hbad.
  { intros s' ->. split; [|done]. apply eq_None_not_Some.
    intros Hx%(dc_addr _ _ (vi_dcache _ _ _ Hv)). unfold ERR_PTR in *.
    change (u32 (-1000)) with (two32 - 1000) in Hn.
    rewrite u32_neg in Hx by (unfold two32; lia). lia. }
  assert (wp (lookup_one_len name p (strlen name))
            (λ r s', r = ERR_PTR (- e) ∧ dentries s' = dentries s) s) as Hl.
  { eapply wp_mono; [by apply (wp_lookup_one_len dext iext name p bd bi)|].
    intros r s1 [Hne|r' d bk H0 Hd Hh Hnm Hv'|s2 H0 Hno Hal Hm|H0 Hno Hal].
    - destruct Hcase as [->|[? _]]; [done|congruence].
    - exfalso. destruct Hcase as [H1|(_ & Hno & _)]; [lia|].
      unfold lookup_spec in Hno. rewrite decide_True in Hno by done.
      by rewrite (Hno r' d bk Hd Hh) in Hnm.
    - destruct Hcase as [H1|(_ & _ & _ & ->)]; [lia|].
      destruct Hm as (l & n & _ & ->). done.
    - destruct Hcase as [H1|(_ & _ & H1 & _)]; [lia|congruence]. }
  clear Hcase. subst create. unfold aufs_create_by_name.
  rewrite (resolve_run s parent p) by done. rewrite (proj2 (Z.eqb_neq _ _) (proj1 Hp)).
  apply fault_after. eapply wp_mono; [exact Hl|]. intros r s1 [-> Ed].
  destruct (Hbad s1 Ed) as [H1 H2]. rewrite Hslot. cbn [negb].
  apply fault_after. eapply wp_deref; [exact H2|].
  unfold aufs_mkdir, aufs_create, aufs_mknod, get_dentry, deref, mbind, M_bind.
  by destruct (Z.land mode S_IFMT =? S_IFDIR); rewrite H1.
Qed.
End outcomes.

(** With no parent and nothing mounted the creation fails with -EFAULT and a
    message, and the caller's variable keeps its value. *)
Lemma create_by_name_no_parent fu fg name mode slot old s :
  aufs_mount s = NULL →
  aufs_create_by_name fu fg name mode NULL slot old s =
    Ok (- EFAULT, old) (s <| klog ::= (.++ [cstr "Ah! can not find a parent!\n"]) |>).
Proof. intros Hm. unfold aufs_create_by_name, gets, mbind, M_bind. by rewrite Hm. Qed.
