(* ===== verification/AufsTree.v ===== *)
(** * The tree of aufs and its refinement

    The abstract content of the file system: for every object its kind, and for
    a directory its link count and its entries, newest first.  The kernel state
    represents such a tree through dentries, inodes, lists and hash chains;
    [aufs_create_file] and [aufs_create_dir] implement the insertion of an
    entry, and [aufs_populate] builds the tree of the module. *)

From S2P Require Import Prelude KString Kernel Links Inode InodeInv Dcache DcacheInv DcacheOps.
From S2P Require Import Filesystems Super Mount Libfs Groups Namei LookupSpec Aufs AufsSpec.
From S2P Require Import AufsCreate.

(** ** The abstract tree *)

Inductive anode : Type :=
  | ADir (nlink : Z) (entries : list (bytes * ptr))
  | AFile (mode : Z) (fops : file_operations).

Abbreviation atree := (gmap ptr anode).

Definition is_adir (n : anode) : bool := match n with ADir _ _ => true | AFile _ _ => false end.

(** One more entry; a directory is one more link to its parent. *)
Definition add_entry (name : bytes) (x : ptr) (n : anode) (dir : anode) : anode :=
  match dir with
  | ADir k l => ADir (if is_adir n then u32 (k + 1) else k) ((name, x) :: l)
  | AFile mode fops => AFile mode fops
  end.

Definition acreate (p : ptr) (name : bytes) (x : ptr) (n : anode) (A : atree) : atree :=
  <[x := n]> (alter (add_entry name x n) p A).

(** ** Its representation *)

(** The name and the parent of a dentry. *)
Record has_name (p : ptr) (name : bytes) (d : dentry) : Prop := mkHasName {
  hn_parent : d_parent d = p;
  hn_name : d_name d = name;
  hn_len : d_name_len d = Z.of_nat (length name);
  hn_hash : d_name_hash d = q_hash (key name)
}.

Definition is_entry (s : kstate) (p : ptr) (e : bytes * ptr) : Prop :=
  ∃ d b, dentries s !! e.2 = Some d ∧ d_hash_node d = InBucket b ∧ has_name p e.1 d.

Record node_at (s : kstate) (sb x : ptr) (d : dentry) (i : inode) : Prop := mkNodeAt {
  na_dentry : dentries s !! x = Some d;
  na_used : d_count d ≠ 0;
  na_inode : inodes s !! d_inode d = Some i;
  na_alias : i_dentry i = [x];
  na_self : d_parent d = x → d_hash_node d = Unlinked;
  na_sb : i_sb i = sb
}.

(** [P] is what is asked of the directories besides. *)
Definition shows (P : task → inode → Prop) (s : kstate) (x : ptr) (d : dentry) (i : inode) (n : anode) : Prop :=
  match n with
  | ADir k l =>
      i_op i = simple_dir_inode_operations ∧
      (i_fop i = simple_dir_operations ∧ S_ISDIR (i_mode i) = true) ∧
      P (current s) i ∧ i_nlink i = k ∧
      d_subdirs d = l.*2 ∧ Forall (is_entry s x) l
  | AFile mode fops =>
      i_mode i = mode ∧ i_fop i = fops ∧ d_subdirs d = [] ∧ i_op i = empty_iops
  end.

(** The kernel state represents the tree [A] of the superblock [sb], whose root
    is what the module's mount shows, and the allocator does not fail. *)
Record tree_rep (P : task → inode → Prop) (dext iext : refs) (sb root : ptr) (A : atree) (s : kstate) : Prop :=
  mkTreeRep {
    ti_vfs : vfs_inv dext iext s;
    ti_mem : slab_fail s = [];
    ti_sb : is_Some (supers s !! sb);
    ti_root : resolves s NULL root;
    ti_node x n : A !! x = Some n → ∃ d i, node_at s sb x d i ∧ shows P s x d i n
  }.
Arguments ti_vfs {_}.
Arguments ti_mem {_}.
Arguments ti_sb {_}.
Arguments ti_root {_}.
Arguments ti_node {_}.

(** The tree for a task that may search all its directories, as creation needs
    it, and the tree for any task. *)
Definition searchable (t : task) (i : inode) : Prop := may_exec t i = 0.
Definition any_inode (t : task) (i : inode) : Prop := True.
Abbreviation tree_inv := (tree_rep searchable).
Abbreviation tree_shape := (tree_rep any_inode).

(** ** Names *)

(** A name that an entry may have. *)
Definition proper (name : bytes) : Prop := component name ∧ Z.of_nat (length name) ≤ NAME_MAX.

Lemma named_name p name name' d :
  has_name p name d → named p (key name') d = true → name' = name.
Proof.
  intros [Hp Hn Hl Hh] E. unfold named in E. bool_to_prop. simpl in *.
  rewrite Hn in *. assert (length name = length name') as El by lia.
  rewrite Nat2Z.id, <-El in *. by apply memcmp_eq in H0.
Qed.

Lemma name_named p name d : has_name p name d → named p (key name) d = true.
Proof.
  intros [Hp Hn Hl Hh]. unfold named. rewrite Hp, Hn, Hl, Hh. simpl.
  by rewrite !Z.eqb_refl, memcmp_refl.
Qed.

(** A hashed child of a directory is one of its entries. *)
Lemma entry_of {P} dext iext sb root A s p k l x d b :
  tree_rep P dext iext sb root A s → A !! p = Some (ADir k l) →
  dentries s !! x = Some d → d_hash_node d = InBucket b → d_parent d = p →
  ∃ name, (name, x) ∈ l ∧ has_name p name d.
Proof.
  intros [[Hd _] _ _ _ Hn] Hp Hx Hb Hpar.
  destruct (Hn _ _ Hp) as (pd & pi & [N1 N2 N3 N4 N5 N6] & (_ & _ & _ & _ & Hsub & Hl)).
  destruct (do_parent _ _ _ _ (dc_ok _ _ Hd _ _ Hx)) as [(E1 & E2 & _)|[_ E]].
  - assert (x ∈ subdirs s p) as Hin.
    { apply (linked_iff _ _ (dc_sub _ _ Hd)). unfold child_node, on_child. rewrite Hx. simpl.
      rewrite E1, (proj2 (Z.eqb_neq _ _) E2). by rewrite Hpar. }
    unfold subdirs in Hin. rewrite N1 in Hin. simpl in Hin. rewrite Hsub in Hin.
    apply list_elem_of_fmap in Hin as ([name y] & -> & Hin). exists name. split; [done|].
    rewrite Forall_forall in Hl. destruct (Hl _ Hin) as (d' & b' & Hx' & _ & Hnm).
    simpl in *. by simplify_eq.
  - simplify_eq. rewrite N5 in Hb by congruence. done.
Qed.

Lemma absent {P} dext iext sb root A s p k l name :
  tree_rep P dext iext sb root A s → A !! p = Some (ADir k l) → name ∉ l.*1 →
  lookup_spec s p (key name) NULL.
Proof.
  intros Ht Hp Hno. unfold lookup_spec. rewrite decide_True by done. intros x d b Hx Hb.
  destruct (named p (key name) d) eqn:En; [|done]. exfalso. apply Hno.
  assert (d_parent d = p) as Hpar by (unfold named in En; bool_to_prop; done).
  destruct (entry_of _ _ _ _ _ _ _ _ _ _ _ _ Ht Hp Hx Hb Hpar) as (nm & Hin & Hnm).
  rewrite (named_name _ _ _ _ Hnm En). apply list_elem_of_fmap. by exists (nm, x).
Qed.

(** ** The state after a creation, piece by piece *)

Section pieces.
Variables current_fsuid current_fsgid : task → Z.
Context (name : bytes) (mode : Z) (p : ptr) (bd : dentry) (bi : inode)
  (b : super_block) (s : kstate).
Let x := slab_next s.
Let i := slab_next (lookup_new (key name) p bd s).
Let s' := entry_state current_fsuid current_fsgid name mode p bd bi b s.

Definition entry_dentry : dentry :=
  (lookup_dentry (key name) p bd s)
    <| d_alias := slab_next (lookup_new (key name) p bd s) |>
    <| d_inode := slab_next (lookup_new (key name) p bd s) |> <| d_count ::= Z.add 1 |>.

Definition entry_inode : inode :=
  (aufs_inode current_fsuid current_fsgid (lookup_new (key name) p bd s) (i_sb bi) b
     (typed mode) 0) <| i_dentry ::= cons (slab_next s) |>.

Lemma mknod_state_pieces y d sb m dev t :
  let t' := mknod_state current_fsuid current_fsgid y d sb b m dev t in
  dentries t' = <[y := d <| d_alias := slab_next t |> <| d_inode := slab_next t |>
                        <| d_count ::= Z.add 1 |>]> (dentries t) ∧
  inodes t' = <[slab_next t := (aufs_inode current_fsuid current_fsgid t sb b m dev)
                                 <| i_dentry ::= cons y |>]> (inodes t) ∧
  supers t' = <[sb := b <| s_inodes ::= cons (slab_next t) |>]> (supers t) ∧
  current t' = current t ∧ mounts t' = mounts t ∧ aufs_mount t' = aufs_mount t ∧
  slab_fail t' = tail (slab_fail t) ∧ slab_next t < slab_next t'.
Proof. simpl. rewrite !insert_insert_eq. split_and!; try done. unfold SLAB_STEP. lia. Qed.

(** The last step, as a function of the state before it. *)
Let link (t : kstate) : kstate :=
  if fmt mode =? S_IFDIR then linked_dir (d_inode bd) bi t else t.

Lemma link_pieces t :
  dentries (link t) = dentries t ∧
  inodes (link t) = (if fmt mode =? S_IFDIR
                     then <[d_inode bd := bi <| i_nlink ::= λ n, u32 (n + 1) |>]> else id)
                      (inodes t) ∧
  supers (link t) = supers t ∧ current (link t) = current t ∧ mounts (link t) = mounts t ∧
  aufs_mount (link t) = aufs_mount t ∧ slab_fail (link t) = slab_fail t ∧
  slab_next (link t) = slab_next t.
Proof. unfold link. by destruct (fmt mode =? S_IFDIR). Qed.

Lemma lookup_new_fail :
  slab_fail s = [] → slab_fail (lookup_new (key name) p bd s) = [].
Proof.
  intros E. unfold lookup_new, rehashed, child_added. simpl. unfold d_alloc_slab, after_alloc.
  destruct (long_name (key name)); simpl; by rewrite E.
Qed.

Lemma entry_state_pieces :
  dentries s' = <[x := entry_dentry]> (alter (adopt x) p (dentries s)) ∧
  inodes s' = (if fmt mode =? S_IFDIR
               then <[d_inode bd := bi <| i_nlink ::= λ n, u32 (n + 1) |>]> else id)
                (<[i := entry_inode]> (inodes s)) ∧
  supers s' = <[i_sb bi := b <| s_inodes ::= cons i |>]> (supers s) ∧
  current s' = current s ∧ mounts s' = mounts s ∧ aufs_mount s' = aufs_mount s ∧
  (slab_fail s = [] → slab_fail s' = []) ∧ x < i < slab_next s'.
Proof.
  pose proof (mknod_state_pieces x (lookup_dentry (key name) p bd s) (i_sb bi) (typed mode) 0
                (lookup_new (key name) p bd s)) as (E1 & E2 & E3 & E4 & E5 & E6 & E7 & E8).
  destruct (lookup_new_same (key name) p bd s) as (F2 & F3 & F5 & F4 & F6 & F8 & _).
  pose proof lookup_new_fail as F7. pose proof (lookup_new_dentries (key name) p bd s) as F1.
  subst s' i x. unfold entry_state, entry_dentry, entry_inode in *.
  generalize dependent (mknod_state current_fsuid current_fsgid (slab_next s)
    (lookup_dentry (key name) p bd s) (i_sb bi) b (typed mode) 0 (lookup_new (key name) p bd s)).
  generalize dependent (lookup_new (key name) p bd s).
  intros t F2 F3 F5 F4 F6 F8 F7 F1 t' E1 E2 E3 E4 E5 E6 E7 E8.
  destruct (link_pieces t') as (G1 & G2 & G3 & G4 & G5 & G6 & G7 & G8). unfold link in *.
  rewrite G1, G2, G3, G4, G5, G6, G7, G8, E1, E2, E3, E4, E5, E6, E7, F1, F2, F3, F4, F5, F6.
  rewrite insert_insert_eq. split_and!; try done. intros Hf. by rewrite F7.
Qed.
End pieces.

(** ** One more node *)

Section step.
Context (dext iext dext' iext' : refs) (sb root : ptr) (A : atree) (s s' : kstate).
Context (p : ptr) (k : Z) (l : list (bytes * ptr)) (bd : dentry) (bi : inode).
Context (name : bytes) (x i : ptr) (d : dentry) (ii : inode) (b : Z) (n : anode).

Hypothesis Ht : tree_inv dext iext sb root A s.
Hypothesis Hp : A !! p = Some (ADir k l).
Hypothesis Hpn : node_at s sb p bd bi.
Hypothesis Hx : dentries s !! x = None.
Hypothesis Hi : inodes s !! i = None.
Hypothesis Hd' : dentries s' = <[x := d]> (alter (adopt x) p (dentries s)).
Hypothesis Hi' : inodes s' =
  (if is_adir n then <[d_inode bd := bi <| i_nlink ::= λ n, u32 (n + 1) |>]> else id)
    (<[i := ii]> (inodes s)).
Hypothesis Hcur : current s' = current s.
Hypothesis Hv' : vfs_inv dext' iext' s'.
Hypothesis Hb : d_hash_node d = InBucket b.
Hypothesis Hname : has_name p name d.

Lemma step_neq : p ≠ x ∧ d_inode bd ≠ i.
Proof. destruct Hpn as [H1 _ H2 _ _ _]. split; intros E; congruence. Qed.

Lemma step_dentry y e :
  dentries s !! y = Some e →
  dentries s' !! y = Some (if decide (y = p) then adopt x e else e).
Proof.
  intros Hy. rewrite Hd', lookup_insert_ne by congruence.
  destruct (decide (y = p)) as [->|Hne]; [by rewrite lookup_alter_eq, Hy|].
  by rewrite lookup_alter_ne.
Qed.

Lemma step_entry q e : is_entry s q e → is_entry s' q e.
Proof.
  intros (d' & b' & H1 & H2 & [H3 H4 H5 H6]). rewrite (surjective_pairing e) in *.
  exists (if decide (e.2 = p) then adopt x d' else d'), b'. simpl in *.
  split; [by apply step_dentry|]. by destruct (decide (e.2 = p)).
Qed.

Lemma step_old y m :
  y ≠ x → y ≠ p → A !! y = Some m → ∃ d i, node_at s' sb y d i ∧ shows searchable s' y d i m.
Proof.
  intros Hyx Hyp Hy. destruct (ti_node _ _ _ _ _ _ Ht _ _ Hy) as (d' & i' & [N1 N2 N3 N4 N5 N6] & Hs).
  exists d', i'. split.
  - split; try done.
    + rewrite (step_dentry _ _ N1). by destruct (decide (y = p)).
    + rewrite Hi'. destruct step_neq as [_ Hne]. destruct Hpn as [_ _ P3 P4 _ _].
      assert (d_inode d' ≠ i) by congruence.
      destruct (is_adir n); simpl; rewrite ?(lookup_insert_ne _ (d_inode bd)) by congruence;
        by rewrite lookup_insert_ne.
  - destruct m; simpl in *; rewrite ?Hcur; [|done].
    destruct Hs as (? & [? ?] & ? & ? & ? & Hl). split_and!; try done.
    eapply Forall_impl; [done|]. intros e. apply step_entry.
Qed.

Lemma step_parent :
  ∃ d i, node_at s' sb p d i ∧ shows searchable s' p d i (add_entry name x n (ADir k l)).
Proof.
  destruct step_neq as [Hpx Hne]. destruct Hpn as [P1 P2 P3 P4 P5 P6].
  destruct (ti_node _ _ _ _ _ _ Ht _ _ Hp) as (bd' & bi' & [N1 _ N3 _ _ _] & (S1 & [S2 S2m] & S3 & S4 & S5 & S6)).
  rewrite P1 in N1. injection N1 as <-. rewrite P3 in N3. injection N3 as <-.
  pose proof (step_dentry _ _ P1) as P1'. rewrite decide_True in P1' by done.
  exists (adopt x bd), (if is_adir n then bi <| i_nlink ::= λ n, u32 (n + 1) |> else bi).
  assert (is_entry s' p (name, x)) as Hnew.
  { exists d, b. simpl. by rewrite Hd', lookup_insert_eq. }
  split.
  - split; try done.
    + pose proof (vi_dcache _ _ _ Hv') as Hdc. pose proof (dc_ok _ _ Hdc _ _ P1') as Hok.
      pose proof (do_ext _ _ _ _ Hok). rewrite (do_count _ _ _ _ Hok). simpl. lia.
    + rewrite Hi'. simpl. destruct (is_adir n); [by rewrite lookup_insert_eq|].
      simpl. by rewrite lookup_insert_ne by done.
    + by destruct (is_adir n).
    + by destruct (is_adir n).
  - assert (Forall (is_entry s' p) ((name, x) :: l)).
    { constructor; [done|]. eapply Forall_impl; [done|]. intros e. apply step_entry. }
    simpl. rewrite Hcur, S5. destruct (is_adir n); simpl; by rewrite ?S4.
Qed.

Hypothesis Hnew : node_at s' sb x d ii ∧ shows searchable s' x d ii n.

Lemma step_node y m :
  acreate p name x n A !! y = Some m → ∃ d i, node_at s' sb y d i ∧ shows searchable s' y d i m.
Proof.
  destruct step_neq as [Hpx _]. unfold acreate. destruct (decide (y = x)) as [->|Hyx].
  { rewrite lookup_insert_eq. intros [= <-]. eauto. }
  rewrite lookup_insert_ne by done. destruct (decide (y = p)) as [->|Hyp].
  - rewrite lookup_alter_eq, Hp. simpl. intros [= <-]. apply step_parent.
  - rewrite lookup_alter_ne by done. by apply step_old.
Qed.
End step.

(** ** Creation of files and directories *)

Section create_file.
Variables current_fsuid current_fsgid : task → Z.

(** What [aufs_create_file] adds to the inode. *)
Definition finished (data : Z) (fops : option file_operations) (i : inode) : inode :=
  let i := if data =? NULL then i else i <| i_private := data |> in
  match fops with Some f => i <| i_fop := f |> | None => i end.

Definition creating (name : bytes) (s : kstate) : kstate :=
  s <| klog ::= (.++ [cstr "aufs: creating file '" ++ fmt_s name ++ cstr "'"]) |>.

Definition file_state (name : bytes) (mode p : Z) (data : Z) (fops : option file_operations)
    (bd : dentry) (bi : inode) (b : super_block) (s : kstate) : kstate :=
  (entry_state current_fsuid current_fsgid name mode p bd bi b s)
    <| inodes ::= <[slab_next (lookup_new (key name) p bd s) :=
         finished data fops
           (entry_inode current_fsuid current_fsgid name mode p bd bi b s)]> |>.

Lemma file_state_pieces name mode p data fops bd bi b s :
  let s' := file_state name mode p data fops bd bi b s in
  let x := slab_next s in
  let i := slab_next (lookup_new (key name) p bd s) in
  let ii := entry_inode current_fsuid current_fsgid name mode p bd bi b s in
  d_inode bd ≠ i →
  dentries s' = <[x := entry_dentry name p bd s]> (alter (adopt x) p (dentries s)) ∧
  inodes s' = (if fmt mode =? S_IFDIR
               then <[d_inode bd := bi <| i_nlink ::= λ n, u32 (n + 1) |>]> else id)
                (<[i := finished data fops ii]> (inodes s)) ∧
  supers s' = <[i_sb bi := b <| s_inodes ::= cons i |>]> (supers s) ∧
  current s' = current s ∧ mounts s' = mounts s ∧ aufs_mount s' = aufs_mount s ∧
  (slab_fail s = [] → slab_fail s' = []) ∧ x < i.
Proof.
  intros s' x i ii Hne. subst s'. unfold file_state.
  destruct (entry_state_pieces current_fsuid current_fsgid name mode p bd bi b s)
    as (E1 & E2 & E3 & E4 & E5 & E6 & E7 & E8). fold x i ii in E1, E2, E3, E8 |- *.
  clearbody i ii. generalize dependent (entry_state current_fsuid current_fsgid name mode p bd bi b s).
  intros t E1 E2 E3 E4 E5 E6 E7 [E8 _]. split_and!; try assumption.
  simpl. rewrite E2. destruct (fmt mode =? S_IFDIR); unfold id.
  - by rewrite insert_insert_ne, insert_insert_eq by done.
  - by rewrite insert_insert_eq.
Qed.

Lemma finished_links data fops i : same_ilinks i (finished data fops i).
Proof. destruct i, fops; unfold finished; destruct (data =? NULL); by split. Qed.

Lemma wp_finish x d i ii data fops Q s :
  dentries s !! x = Some d → d_inode d = i → i ≠ NULL → inodes s !! i = Some ii →
  Q x (s <| inodes ::= <[i := finished data fops ii]> |>) →
  wp (d ← get_dentry x;
      mwhen (negb (d_inode d =? NULL))
        (mwhen (negb (data =? NULL))
           (mod_inode (d_inode d) (λ i, i <| i_private := data |>)) ;;
         match fops with
         | Some fops => mod_inode (d_inode d) (λ i, i <| i_fop := fops |>)
         | None => mret tt
         end) ;;
      mret x) Q s.
Proof.
  intros Hx Hd Hi Hii HQ. wp_run. rewrite Hd, (proj2 (Z.eqb_neq _ _) Hi). simpl.
  assert (s = s <| inodes ::= <[i := ii]> |>) as Es.
  { kstate_eq. by rewrite insert_id. }
  apply (wp_start _ _ _ _ Es). unfold finished in HQ.
  clear Es Hx Hii. wp_step. apply wp_mwhen; intros E.
  - apply negb_true_iff in E. rewrite E in HQ. apply wp_set_inode.
    destruct fops; [apply wp_set_inode|]; by wp_run.
  - apply negb_false_iff in E. rewrite E in HQ. destruct fops; [apply wp_set_inode|]; by wp_run.
Qed.

Lemma wp_create_file_new dext iext name mode parent p bd bi b data fops s0 :
  let s := creating name s0 in
  vfs_inv dext iext s0 → slab_fail s0 = [] → resolves s0 parent p →
  can_create name p bd bi b s →
  wp (aufs_create_file current_fsuid current_fsgid name mode parent data fops) (λ x s',
    x = slab_next s ∧ s' = file_state name mode p data fops bd bi b s ∧
    vfs_inv (bump x 1 (first_ref x dext))
      (owned (slab_next (lookup_new (key name) p bd s)) iext) s') s0.
Proof.
  intros s Hv Hf Hp Hcan. unfold aufs_create_file. wp_step. wp_step. fold (creating name s0).
  fold s. assert (vfs_inv dext iext s) as Hvs by (by apply vfs_inv_log).
  assert (slab_fail s = []) as Hfs by done. assert (resolves s parent p) as Hps by done.
  clearbody s. clear Hv Hf Hp s0. wp_step.
  eapply wp_mono; [apply (wp_create_by_name_new _ _ dext iext name mode parent p bd bi b); try done|].
  { unfold alloc_fails. by rewrite lookup_new_fail. }
  intros [e x] s' (-> & -> & Hv' & ->). cbn [negb Z.eqb].
  destruct (entry_state_pieces current_fsuid current_fsgid name mode p bd bi b s)
    as (Ed & Ei & _ & _ & _ & _ & _ & Hlt).
  set (s' := entry_state _ _ _ _ _ _ _ _ _) in *.
  set (i := slab_next (lookup_new (key name) p bd s)) in *.
  set (ii := entry_inode _ _ _ _ _ _ _ _ _) in *.
  pose proof (ii_next _ _ (vi_inode _ _ _ Hvs)) as Hn.
  assert (inodes s' !! i = Some ii) as Hi'.
  { rewrite Ei. destruct (fmt mode =? S_IFDIR); [|unfold id; by rewrite lookup_insert_eq].
    rewrite lookup_insert_ne; [by rewrite lookup_insert_eq|].
    intros E. pose proof (dir_inode _ _ _ _ (cc_dir _ _ _ _ _ _ Hcan)) as Hbi.
    destruct (ii_addr _ _ (vi_inode _ _ _ Hvs) (d_inode bd)); [by eauto|]. lia. }
  unfold file_state. fold s' i ii.
  apply (wp_finish _ (entry_dentry name p bd s) i ii); [|done| |done|].
  - by rewrite Ed, lookup_insert_eq.
  - unfold NULL. lia.
  - split_and!; [done..|]. eapply vfs_inv_inode_attr; [done|done|]. apply finished_links.
Qed.
End create_file.

(** ** Refinement *)

Lemma resolves_supers s s' parent p sb b f :
  resolves s parent p → supers s !! sb = Some b →
  aufs_mount s' = aufs_mount s → mounts s' = mounts s →
  supers s' = <[sb := b <| s_inodes ::= f |>]> (supers s) → resolves s' parent p.
Proof.
  intros [Hp [->|(-> & mnt & b' & H1 & H2 & H3 & H4 & H5)]] Hb E1 E2 E3; split; auto.
  right. split; [done|]. rewrite E1, E2, E3. destruct (decide (mnt_sb mnt = sb)) as [E|Hne].
  - exists mnt, (b <| s_inodes ::= f |>). rewrite E in *. simplify_eq.
    by rewrite lookup_insert_eq.
  - exists mnt, b'. by rewrite lookup_insert_ne.
Qed.

Section refines.
Variables current_fsuid current_fsgid : task → Z.

(** The credentials that newer kernels read are those of the task. *)
Hypothesis fsuid_spec : ∀ t, current_fsuid t = fsuid t.

Lemma entry_dentry_facts name p bd s :
  let d := entry_dentry name p bd s in
  has_name p name d ∧ (∃ b, d_hash_node d = InBucket b) ∧ d_count d ≠ 0 ∧ d_subdirs d = [] ∧
  d_inode d = slab_next (lookup_new (key name) p bd s).
Proof.
  unfold entry_dentry, lookup_dentry, hashed, negative, simple_dentry, child_dentry, d_alloc_init.
  generalize (slab_next (lookup_new (key name) p bd s)). intros i.
  split_and!; try done; [|by eexists]. split; try done.
  unfold d_name. simpl. rewrite Nat2Z.id, take_ge by done. by destruct (long_name _).
Qed.

Lemma aufs_inode_facts s sb b mode dev :
  let i := aufs_inode current_fsuid current_fsgid s sb b mode dev in
  i_mode i = u16 mode ∧ i_dentry i = [] ∧ i_sb i = sb ∧
  ((fmt mode =? S_IFDIR) = false → i_op i = empty_iops) ∧
  ((fmt mode =? S_IFDIR) = true →
   i_uid i = fsuid (current s) ∧ i_nlink i = 2 ∧
   i_op i = simple_dir_inode_operations ∧ i_fop i = simple_dir_operations).
Proof.
  unfold aufs_inode, special.
  assert (i_dentry (fresh_inode s sb b) = [] ∧ i_sb (fresh_inode s sb b) = sb ∧
          i_nlink (fresh_inode s sb b) = 1 ∧ i_op (fresh_inode s sb b) = empty_iops)
    as (E1 & E2 & E3 & E4) by done.
  generalize dependent (fresh_inode s sb b). intros f E1 E2 E3 E4. rewrite !fsuid_spec.
  destruct (fmt mode =? S_IFREG) eqn:Er; [|destruct (fmt mode =? S_IFDIR) eqn:Ed].
  - simpl. split_and!; try done. intros Hd. bool_to_prop. unfold S_IFREG, S_IFDIR in *. lia.
  - simpl. split_and!; try done. intros _. by rewrite E3.
  - simpl. by repeat case_match.
Qed.

(** What a creation does to the caches. *)
Record creation (name : bytes) (mode data : Z) (fops : option file_operations) (p : ptr)
    (bd : dentry) (bi : inode) (b : super_block) (s : kstate) (x i : ptr) (d : dentry)
    (ii : inode) (s' : kstate) : Prop := mkCreation {
  cn_dentries : dentries s' = <[x := d]> (alter (adopt x) p (dentries s));
  cn_inodes : inodes s' = (if fmt mode =? S_IFDIR
                           then <[d_inode bd := bi <| i_nlink ::= λ n, u32 (n + 1) |>]> else id)
                            (<[i := ii]> (inodes s));
  cn_supers : supers s' = <[i_sb bi := b <| s_inodes ::= cons i |>]> (supers s);
  cn_current : current s' = current s;
  cn_mounts : mounts s' = mounts s;
  cn_mount : aufs_mount s' = aufs_mount s;
  cn_fail : slab_fail s = [] → slab_fail s' = [];
  cn_name : has_name p name d;
  cn_hash : ∃ bk, d_hash_node d = InBucket bk;
  cn_used : d_count d ≠ 0;
  cn_sub : d_subdirs d = [];
  cn_inode : d_inode d = i;
  cn_alias : i_dentry ii = [x];
  cn_sb : i_sb ii = i_sb bi;
  cn_made : ∃ t, current t = current s ∧
    ii = finished data fops
           ((aufs_inode current_fsuid current_fsgid t (i_sb bi) b (typed mode) 0)
              <| i_dentry ::= cons x |>)
}.

Lemma file_state_creation name mode p data fops bd bi b s :
  let i := slab_next (lookup_new (key name) p bd s) in
  d_inode bd ≠ i →
  creation name mode data fops p bd bi b s (slab_next s) i (entry_dentry name p bd s)
    (finished data fops (entry_inode current_fsuid current_fsgid name mode p bd bi b s))
    (file_state current_fsuid current_fsgid name mode p data fops bd bi b s).
Proof.
  intros i Hne. pose proof (finished_links data fops
    (entry_inode current_fsuid current_fsgid name mode p bd bi b s)) as [_ _ _ L1 L2 _ _].
  destruct (aufs_inode_facts (lookup_new (key name) p bd s) (i_sb bi) b (typed mode) 0)
    as (_ & I2 & I3 & _).
  destruct (entry_dentry_facts name p bd s) as (D1 & D2 & D3 & D4 & D5).
  destruct (lookup_new_same (key name) p bd s) as (_ & _ & _ & Ecur & _).
  destruct (file_state_pieces current_fsuid current_fsgid name mode p data fops bd bi b s)
    as (Ed & Ei & Es & Ecu & Em & Ea & Ef & _); [done|].
  split; try assumption.
  - rewrite L2. unfold entry_inode. simpl. by rewrite I2.
  - rewrite L1. unfold entry_inode. simpl. by rewrite I3.
  - by exists (lookup_new (key name) p bd s).
Qed.

Lemma creation_tree dext iext dext' iext' sb root A s s' p k l bd bi b name mode data fops x i d ii n :
  tree_inv dext iext sb root A s → A !! p = Some (ADir k l) → node_at s sb p bd bi →
  supers s !! sb = Some b → dentries s !! x = None → inodes s !! i = None →
  creation name mode data fops p bd bi b s x i d ii s' → vfs_inv dext' iext' s' →
  is_adir n = (fmt mode =? S_IFDIR) → shows searchable s' x d ii n →
  tree_inv dext' iext' sb root (acreate p name x n A) s'.
Proof.
  intros Ht Hp Hpn Hb Hx Hi [Ed Ei Es Ec Em Ea Ef D1 [bk D2] D3 D4 D5 I1 I2 _] Hv' Hdir Hsh.
  pose proof (na_sb _ _ _ _ _ Hpn) as Esb. rewrite Esb in *.
  split; [done|by apply Ef, (ti_mem _ _ _ _ _ _ Ht)| | |].
  - rewrite Es, lookup_insert_eq. eauto.
  - exact (resolves_supers s s' NULL root sb b _ (ti_root _ _ _ _ _ _ Ht) Hb Ea Em Es).
  - intros y m. eapply (step_node dext iext _ _ sb root A s s' p k l bd bi name _ i _ ii); try done.
    { by rewrite Hdir. }
    pose proof (na_inode _ _ _ _ _ Hpn) as Hpi. pose proof (na_dentry _ _ _ _ _ Hpn) as Hpd.
    split; [|done]. split; try done.
    + by rewrite Ed, lookup_insert_eq.
    + rewrite D5, Ei. destruct (fmt mode =? S_IFDIR); unfold id.
      * by rewrite lookup_insert_ne, lookup_insert_eq by congruence.
      * by rewrite lookup_insert_eq.
    + rewrite (hn_parent _ _ _ D1). intros ->. congruence.
Qed.

Lemma creating_tree dext iext sb root A name s :
  tree_inv dext iext sb root A s → tree_inv dext iext sb root A (creating name s).
Proof.
  intros [H1 H2 H3 H4 H5]. split; [by apply vfs_inv_log|exact H2|exact H3|exact H4|].
  intros x n Hx. destruct (H5 _ _ Hx) as (d & i & [N1 N2 N3 N4 N5 N6] & Hs). exists d, i.
  split; [by split|by destruct n].
Qed.

Lemma create_refines dext iext sb root A s0 parent p k l name mode data fops n :
  tree_inv dext iext sb root A s0 → (parent = p ∨ parent = NULL ∧ p = root) →
  A !! p = Some (ADir k l) → component name → Z.of_nat (length name) ≤ NAME_MAX →
  name ∉ l.*1 → is_adir n = (fmt mode =? S_IFDIR) →
  (∀ t s b x d, current t = current s0 → current s = current s0 → d_subdirs d = [] →
     shows searchable s x d (finished data fops
       ((aufs_inode current_fsuid current_fsgid t sb b (typed mode) 0)
          <| i_dentry ::= cons x |>)) n) →
  wp (aufs_create_file current_fsuid current_fsgid name mode parent data fops) (λ x s',
    A !! x = None ∧ x ≠ NULL ∧ ∃ i, inodes s0 !! i = None ∧
    tree_inv (bump x 1 (first_ref x dext)) (owned i iext) sb root (acreate p name x n A) s') s0.
Proof.
  intros Ht Hpar Hp Hnm Hlen Hno Hdir Hshow. pose proof Ht as [Hv Hf [b Hb] Hr Hn].
  destruct (Hn _ _ Hp) as (bd & bi & Hpn & (S1 & [S2 S2m] & S3 & S4 & S5 & S6)).
  pose proof Hpn as [P1 P2 P3 P4 P5 P6].
  assert (resolves s0 parent p) as Hres.
  { destruct Hpar as [->|[-> ->]]; [|done]. split; [|by left].
    by apply (dentry_addr _ _ _ _ (vi_dcache _ _ _ Hv) P1). }
  assert (lookup_spec s0 p (key name) NULL) as Hnew by (by eapply absent).
  eapply wp_mono.
  { apply (wp_create_file_new _ _ dext iext name mode parent p bd bi b); try done.
    split; [by split|by rewrite P6|done|done|done|done|].
    unfold d_alloc_ok, alloc_fails. simpl. rewrite Hf. simpl. by destruct (long_name _). }
  apply (creating_tree _ _ _ _ _ name) in Ht. clear Hnew Hres.
  assert (current (creating name s0) = current s0) as Ec by done.
  change (inodes s0) with (inodes (creating name s0)).
  assert (node_at (creating name s0) sb p bd bi) as Hpn' by done.
  change (supers s0) with (supers (creating name s0)) in Hb.
  generalize dependent (creating name s0). intros s Ht Hb Ec Hpn' x s' (-> & -> & Hv').
  pose proof (ti_vfs _ _ _ _ _ _ Ht) as Hvs.
  destruct (fresh_none _ _ _ (slab_next s) Hvs) as [Hx _]; [done|].
  destruct (lookup_new_same (key name) p bd s) as (_ & _ & _ & _ & _ & Hlt & _).
  destruct (fresh_none _ _ _ (slab_next (lookup_new (key name) p bd s)) Hvs) as [_ Hi]; [lia|].
  split_and!.
  { destruct (A !! slab_next s) as [m|] eqn:E; [|done].
    destruct (ti_node _ _ _ _ _ _ Ht _ _ E) as (? & ? & [] & _). congruence. }
  { pose proof (ii_next _ _ (vi_inode _ _ _ Hvs)). unfold NULL. lia. }
  exists (slab_next (lookup_new (key name) p bd s)). split; [done|].
  assert (d_inode bd ≠ slab_next (lookup_new (key name) p bd s)) as Hne.
  { pose proof (na_inode _ _ _ _ _ Hpn'). congruence. }
  pose proof (file_state_creation name mode p data fops bd bi b s Hne) as Hc.
  eapply creation_tree; try done.
  destruct Hc as [_ _ _ Ecu _ _ _ _ _ _ D4 _ _ _ (t & Et & ->)]. rewrite P6. apply Hshow; congruence.
Qed.

(** The mode of [aufs_create_dir]. *)
Definition dir_mode : Z := Z.lor S_IFDIR (Z.lor S_IRWXU S_IRUGO).

Lemma dir_shows t s b x d sb :
  current s = current t → d_subdirs d = [] →
  shows searchable s x d (finished NULL None
    ((aufs_inode current_fsuid current_fsgid t sb b (typed dir_mode) 0)
       <| i_dentry ::= cons x |>)) (ADir 2 []).
Proof.
  intros Hc Hd. destruct (aufs_inode_facts t sb b (typed dir_mode) 0) as (E1 & _ & _ & _ & E2).
  destruct (E2 eq_refl) as (E3 & E4 & E5 & E6).
  generalize dependent (aufs_inode current_fsuid current_fsgid t sb b (typed dir_mode) 0).
  intros i E1 _ E3 E4 E5 E6. unfold finished. simpl. split_and!; try done; [by rewrite E1|].
  unfold searchable, may_exec. simpl. rewrite Hc, E3, E1, Z.eqb_refl. done.
Qed.

Lemma create_dir_refines dext iext sb root A s parent p k l name :
  tree_inv dext iext sb root A s → (parent = p ∨ parent = NULL ∧ p = root) →
  A !! p = Some (ADir k l) → component name → Z.of_nat (length name) ≤ NAME_MAX →
  name ∉ l.*1 →
  wp (aufs_create_dir current_fsuid current_fsgid name parent) (λ x s',
    A !! x = None ∧ x ≠ NULL ∧ ∃ i, inodes s !! i = None ∧
    tree_inv (bump x 1 (first_ref x dext)) (owned i iext) sb root
      (acreate p name x (ADir 2 []) A) s') s.
Proof.
  intros Ht Hpar Hp Hnm Hlen Hno. unfold aufs_create_dir.
  apply (create_refines dext iext sb root A s parent p k l); try assumption; [reflexivity|].
  intros t s' b x d Hc1 Hc2 Hd. apply dir_shows; congruence.
Qed.

Lemma reg_not_dir mode : (fmt (Z.lor mode S_IFREG) =? S_IFDIR) = false.
Proof.
  apply Z.eqb_neq. intros E. apply (f_equal (λ z, Z.testbit z 15)) in E. unfold fmt in E.
  rewrite Z.land_spec, Z.lor_spec in E. change (Z.testbit S_IFREG 15) with true in E.
  rewrite orb_true_r in E. done.
Qed.

Lemma file_shows t s b x d sb mode data f :
  d_subdirs d = [] → (fmt mode =? S_IFDIR) = false →
  shows searchable s x d (finished data (Some f)
    ((aufs_inode current_fsuid current_fsgid t sb b mode 0)
       <| i_dentry ::= cons x |>)) (AFile (u16 mode) f).
Proof.
  intros Hd Hm. destruct (aufs_inode_facts t sb b mode 0) as (E1 & _ & _ & E2 & _).
  specialize (E2 Hm). generalize dependent (aufs_inode current_fsuid current_fsgid t sb b mode 0).
  intros i E1 E2. unfold finished. by destruct (data =? NULL).
Qed.

Lemma create_file_refines dext iext sb root A s parent p k l name mode data f :
  tree_inv dext iext sb root A s → (parent = p ∨ parent = NULL ∧ p = root) →
  A !! p = Some (ADir k l) → component name → Z.of_nat (length name) ≤ NAME_MAX →
  name ∉ l.*1 → fmt mode ≠ S_IFDIR →
  wp (aufs_create_file current_fsuid current_fsgid name mode parent data (Some f)) (λ x s',
    A !! x = None ∧ x ≠ NULL ∧ ∃ i, inodes s !! i = None ∧
    tree_inv (bump x 1 (first_ref x dext)) (owned i iext) sb root
      (acreate p name x (AFile (u16 (Z.lor mode S_IFREG)) f) A) s') s.
Proof.
  intros Ht Hpar Hp Hnm Hlen Hno Hm. apply Z.eqb_neq in Hm.
  apply (create_refines dext iext sb root A s parent p k l); try assumption.
  { symmetry. exact Hm. }
  intros t s' b x d _ _ Hd. unfold typed. rewrite Hm. apply file_shows; [done|apply reg_not_dir].
Qed.
End refines.

(** ** Lookup *)

Lemma count_entry s x d q e :
  dentries s !! x = Some d → is_entry s q e →
  is_entry (s <| dentries ::= <[x := d <| d_count ::= Z.add 1 |>]> |>) q e.
Proof.
  destruct e as [nm y]. intros Hx (d' & b & H1 & H2 & [H3 H4 H5 H6]). simpl in *.
  destruct (decide (x = y)) as [->|Hne].
  - simplify_eq. exists (d <| d_count ::= Z.add 1 |>), b. simpl. by rewrite lookup_insert_eq.
  - exists d', b. simpl. by rewrite lookup_insert_ne.
Qed.

(** One reference more does not change the tree. *)
Lemma count_tree {P} dext iext sb root A s x d :
  tree_rep P dext iext sb root A s → dentries s !! x = Some d →
  vfs_inv (bump x 1 dext) iext (s <| dentries ::= <[x := d <| d_count ::= Z.add 1 |>]> |>) →
  tree_rep P (bump x 1 dext) iext sb root A
    (s <| dentries ::= <[x := d <| d_count ::= Z.add 1 |>]> |>).
Proof.
  intros [Hv H2 H3 H4 Hn] Hx Hv'. split; [done|done|done|done|].
  intros y n Hy. destruct (Hn _ _ Hy) as (d' & i & [N1 N2 N3 N4 N5 N6] & Hs).
  exists (if decide (y = x) then d' <| d_count ::= Z.add 1 |> else d'), i.
  assert (∀ l, Forall (is_entry s y) l →
    Forall (is_entry (s <| dentries ::= <[x := d <| d_count ::= Z.add 1 |>]> |>) y) l) as Hl.
  { intros l Hl. eapply Forall_impl; [exact Hl|]. intros e. by apply count_entry. }
  assert (shows P (s <| dentries ::= <[x := d <| d_count ::= Z.add 1 |>]> |>) y d' i n) as Hs'.
  { destruct n; [|done]. destruct Hs as (? & [? ?] & ? & ? & ? & Hl'). repeat split; auto. }
  destruct (decide (y = x)) as [->|Hne]; split; try by destruct n.
  - simplify_eq. split; try done; simpl; [by rewrite lookup_insert_eq|].
    pose proof (dc_ok _ _ (vi_dcache _ _ _ Hv) _ _ Hx) as Hok.
    pose proof (do_ext _ _ _ _ Hok). rewrite (do_count _ _ _ _ Hok). lia.
  - split; try done. simpl. by rewrite lookup_insert_ne.
Qed.

(** The lookup in the cache finds the entry of the tree and no other. *)
Lemma entry_unique {P} dext iext sb root A s p k l name x r :
  tree_rep P dext iext sb root A s → A !! p = Some (ADir k l) → NoDup l.*1 → (name, x) ∈ l →
  lookup_spec s p (key name) r → r = x.
Proof.
  intros Ht Hp Hnd Hin Hspec. pose proof Ht as [Hv _ _ _ Hn].
  destruct (Hn _ _ Hp) as (bd & bi & _ & (_ & _ & _ & _ & _ & S6)).
  rewrite Forall_forall in S6. destruct (S6 _ Hin) as (d & b & Hx & Hb & Hname).
  unfold lookup_spec in Hspec. destruct (decide (r = NULL)) as [_|_].
  { specialize (Hspec x d b Hx Hb). by rewrite (name_named p name d Hname) in Hspec. }
  destruct Hspec as (d' & b' & Hd' & Hh' & Hnm').
  assert (d_parent d' = p) as Hpar by (unfold named in Hnm'; bool_to_prop; done).
  destruct (entry_of _ _ _ _ _ _ _ _ _ _ _ _ Ht Hp Hd' Hh' Hpar) as (nm & Hin' & Hname').
  pose proof (named_name _ _ _ _ Hname' Hnm') as <-.
  apply list_elem_of_lookup in Hin as [i1 Hi1]. apply list_elem_of_lookup in Hin' as [i2 Hi2].
  assert (i1 = i2) as <-; [|congruence].
  apply (NoDup_lookup l.*1 i1 i2 name); [done|by rewrite list_lookup_fmap, Hi1|
    by rewrite list_lookup_fmap, Hi2].
Qed.

(** The lookup of a name of the abstract tree returns the object the tree
    has under that name, with one reference more and the tree unchanged. *)
Theorem lookup_refines dext iext sb root A s p k l name x :
  tree_inv dext iext sb root A s → A !! p = Some (ADir k l) → proper name →
  NoDup l.*1 → (name, x) ∈ l →
  wp (lookup_one_len name p (strlen name)) (λ r s',
    r = x ∧ tree_inv (bump x 1 dext) iext sb root A s') s.
Proof.
  intros Ht Hp [Hnm Hlen] Hnd Hin. pose proof Ht as [Hv _ _ _ Hn].
  destruct (Hn _ _ Hp) as (bd & bi & [P1 P2 P3 P4 P5 P6] & (S1 & S2 & S3 & S4 & S5 & S6)).
  pose proof (entry_unique _ _ _ _ _ _ _ _ _ _ _ NULL Ht Hp Hnd Hin) as Hno.
  assert (x ≠ NULL) as Hx0.
  { rewrite Forall_forall in S6. destruct (S6 _ Hin) as (d & b & Hx & _).
    apply (dentry_addr _ _ _ _ (vi_dcache _ _ _ Hv) Hx). }
  eapply wp_mono; [by apply (wp_lookup_one_len dext iext name p bd bi)|].
  intros r s' [|r' d' b' _ Hd' Hh' Hnm' Hv'|? _ Hnone|_ Hnone]; [congruence| |naive_solver..].
  assert (r' = x) as ->; [|split; [done|by apply count_tree]].
  apply (entry_unique _ _ _ _ _ _ _ _ _ _ _ _ Ht Hp Hnd Hin). unfold lookup_spec.
  rewrite decide_False by (apply (dentry_addr _ _ _ _ (vi_dcache _ _ _ Hv) Hd')). by exists d', b'.
Qed.

(** ** Growth of the tree *)

(** The objects [new] were added, each with two references that no entry of the
    tree accounts for; an object that is not among them and not in [dirs] is as
    it was. *)
Record grown (new dirs : list ptr) (dext : refs) (A : atree) (dext' : refs) (A' : atree) : Prop :=
  mkGrown {
    gr_fresh x : x ∈ new → A !! x = None;
    gr_nodup : NoDup new;
    gr_refs x : dext' x = if decide (x ∈ new) then 2 else dext x;
    gr_some x : is_Some (A' !! x) ↔ x ∈ new ∨ is_Some (A !! x);
    gr_same x : x ∉ new → x ∉ dirs → A' !! x = A !! x
  }.

Lemma acreate_new p name x n A : acreate p name x n A !! x = Some n.
Proof. apply lookup_insert_eq. Qed.

Lemma acreate_parent p name x n k l A :
  A !! p = Some (ADir k l) → A !! x = None →
  acreate p name x n A !! p = Some (add_entry name x n (ADir k l)).
Proof.
  intros Hp Hx. unfold acreate. rewrite lookup_insert_ne by congruence.
  by rewrite lookup_alter_eq, Hp.
Qed.

Lemma acreate_old p name x n y A : y ≠ p → y ≠ x → acreate p name x n A !! y = A !! y.
Proof. intros. unfold acreate. by rewrite lookup_insert_ne, lookup_alter_ne. Qed.

Lemma acreate_grown dext A p name x n :
  A !! x = None → is_Some (A !! p) →
  grown [x] [p] dext A (bump x 1 (first_ref x dext)) (acreate p name x n A).
Proof.
  intros Hx Hp. split.
  - by intros y ->%list_elem_of_singleton.
  - apply NoDup_singleton.
  - intros y. unfold bump, first_ref. destruct (y =? x) eqn:E; bool_to_prop.
    + rewrite decide_True; [done|by apply list_elem_of_singleton].
    + rewrite decide_False; [done|by rewrite list_elem_of_singleton].
  - intros y. rewrite list_elem_of_singleton. unfold acreate. rewrite lookup_insert_is_Some'.
    rewrite lookup_alter_is_Some. naive_solver.
  - intros y Hy1 Hy2. rewrite list_elem_of_singleton in *. by apply acreate_old.
Qed.

Lemma grown_trans new1 dirs1 new2 dirs2 dext1 dext2 dext3 A1 A2 A3 :
  grown new1 dirs1 dext1 A1 dext2 A2 → grown new2 dirs2 dext2 A2 dext3 A3 →
  grown (new2 ++ new1) (dirs2 ++ dirs1) dext1 A1 dext3 A3.
Proof.
  intros [F1 N1 R1 S1 O1] [F2 N2 R2 S2 O2].
  assert (∀ x, x ∈ new2 → A1 !! x = None ∧ x ∉ new1) as Hsep.
  { intros x Hx. specialize (F2 x Hx). assert (¬ (x ∈ new1 ∨ is_Some (A1 !! x))) as Hn.
    { rewrite <-S1, F2. by intros [? ?]. }
    split; [|naive_solver]. apply eq_None_not_Some. naive_solver. }
  split.
  - intros x [Hx|Hx]%elem_of_app; [by apply Hsep|auto].
  - apply NoDup_app. split_and!; [done| |done]. intros x Hx. by apply Hsep.
  - intros x. rewrite R2, R1. repeat destruct (decide _) as [?|?]; rewrite ?elem_of_app in *; naive_solver.
  - intros x. rewrite S2, S1, elem_of_app. naive_solver.
  - intros x. rewrite !elem_of_app. intros H1 H2. rewrite O2, O1 by naive_solver. done.
Qed.

(** ** Populating the file system *)

Section populate.
Variables current_fsuid current_fsgid : task → Z.
Hypothesis fsuid_spec : ∀ t, current_fsuid t = fsuid t.

Let file : anode := AFile (u16 file_mode) aufs_file_operations.
Let create_file name parent :=
  aufs_create_file current_fsuid current_fsgid name file_mode parent NULL (Some aufs_file_operations).

Lemma wp_one_file dext iext sb root A s p k l name Q :
  tree_inv dext iext sb root A s → A !! p = Some (ADir k l) → proper name → name ∉ l.*1 →
  (∀ x s' iext' dext' A', tree_inv dext' iext' sb root A' s' → grown [x] [p] dext A dext' A' →
     A' !! x = Some file → A' !! p = Some (ADir k ((name, x) :: l)) → Q x s') →
  wp (create_file name p) Q s.
Proof.
  intros Ht Hp [Hn Hl] Hno HQ. unfold create_file. eapply wp_mono.
  { apply (create_file_refines _ _ fsuid_spec dext iext sb root A s p p k l); try assumption; [by left|].
    vm_compute. discriminate. }
  intros x s' (Hx & _ & i & _ & Ht'). eapply HQ; [done|apply acreate_grown; eauto| |].
  - apply acreate_new.
  - by rewrite (acreate_parent p name x _ k l).
Qed.

Lemma wp_one_dir dext iext sb root A s k l name Q :
  tree_inv dext iext sb root A s → A !! root = Some (ADir k l) → proper name → name ∉ l.*1 →
  (∀ x s' iext' dext' A', tree_inv dext' iext' sb root A' s' → grown [x] [root] dext A dext' A' →
     x ≠ root → A' !! x = Some (ADir 2 []) →
     A' !! root = Some (ADir (u32 (k + 1)) ((name, x) :: l)) → Q x s') →
  wp (aufs_create_dir current_fsuid current_fsgid name NULL) Q s.
Proof.
  intros Ht Hp [Hn Hl] Hno HQ. eapply wp_mono.
  { apply (create_dir_refines _ _ fsuid_spec dext iext sb root A s NULL root k l);
      try assumption. by right. }
  intros x s' (Hx & _ & i & _ & Ht'). eapply HQ; [done|apply acreate_grown; eauto|congruence| |].
  - apply acreate_new.
  - by rewrite (acreate_parent root name x _ k l).
Qed.

(** A directory of the root with three files. *)
Record star (root : ptr) (k : Z) (l : list (bytes * ptr)) (name n1 n2 n3 : bytes)
    (x f1 f2 f3 : ptr) (A : atree) : Prop := mkStar {
  st_root : A !! root = Some (ADir k ((name, x) :: l));
  st_dir : A !! x = Some (ADir 2 [(n3, f3); (n2, f2); (n1, f1)]);
  st_files : A !! f1 = Some file ∧ A !! f2 = Some file ∧ A !! f3 = Some file;
  st_distinct : root ∉ [f3; f2; f1; x]
}.

Lemma wp_star {B} dext iext sb root A s k l name n1 n2 n3 (m : KM B) Q :
  tree_inv dext iext sb root A s → A !! root = Some (ADir k l) → name ∉ l.*1 →
  Forall proper [name; n1; n2; n3] → NoDup [n1; n2; n3] →
  (∀ x f1 f2 f3 s' iext' dext' A',
     tree_inv dext' iext' sb root A' s' →
     grown [f3; f2; f1; x] [x; x; x; root] dext A dext' A' →
     star root (u32 (k + 1)) l name n1 n2 n3 x f1 f2 f3 A' → wp m Q s') →
  wp (pslot ← aufs_create_dir current_fsuid current_fsgid name NULL;
      create_file n1 pslot ;; create_file n2 pslot ;; create_file n3 pslot ;; m) Q s.
Proof.
  intros Ht Hr Hno Hpr Hnd HQ. rewrite !Forall_cons in Hpr. destruct Hpr as (P0 & P1 & P2 & P3 & _).
  rewrite !NoDup_cons, !not_elem_of_cons in Hnd.
  apply wp_bind, (wp_one_dir dext iext sb root A s k l); [assumption..|].
  intros x s1 iext1 dext1 A1 Ht1 G1 Hxr X1 R1.
  apply wp_bind, (wp_one_file dext1 iext1 sb root A1 s1 x 2 []); [assumption..|set_solver|].
  intros f1 s2 iext2 dext2 A2 Ht2 G2 F2 X2.
  assert (A1 !! f1 = None) as N2 by (apply (gr_fresh _ _ _ _ _ _ G2); set_solver).
  rewrite <-(gr_same _ _ _ _ _ _ G2 root) in R1 by set_solver.
  apply wp_bind, (wp_one_file dext2 iext2 sb root A2 s2 x 2 [(n1, f1)]); [assumption..|set_solver|].
  intros f2 s3 iext3 dext3 A3 Ht3 G3 F3 X3.
  assert (A2 !! f2 = None) as N3 by (apply (gr_fresh _ _ _ _ _ _ G3); set_solver).
  rewrite <-(gr_same _ _ _ _ _ _ G3 root) in R1 by set_solver.
  rewrite <-(gr_same _ _ _ _ _ _ G3 f1) in F2 by set_solver.
  apply wp_bind, (wp_one_file dext3 iext3 sb root A3 s3 x 2 [(n2, f2); (n1, f1)]); [assumption..|set_solver|].
  intros f3 s4 iext4 dext4 A4 Ht4 G4 F4 X4.
  assert (A3 !! f3 = None) as N4 by (apply (gr_fresh _ _ _ _ _ _ G4); set_solver).
  rewrite <-(gr_same _ _ _ _ _ _ G4 root) in R1 by set_solver.
  rewrite <-(gr_same _ _ _ _ _ _ G4 f1) in F2 by set_solver.
  rewrite <-(gr_same _ _ _ _ _ _ G4 f2) in F3 by set_solver.
  pose proof (grown_trans _ _ _ _ _ _ _ _ _ _ (grown_trans _ _ _ _ _ _ _ _ _ _
    (grown_trans _ _ _ _ _ _ _ _ _ _ G1 G2) G3) G4) as G.
  eapply HQ; [done|exact G|]. split; try done.
  intros Hin%(gr_fresh _ _ _ _ _ _ G). congruence.
Qed.

Lemma proper_names :
  Forall proper [cstr "woman_star"; cstr "lbb"; cstr "fbb"; cstr "lj1";
                 cstr "man_star"; cstr "ldh"; cstr "lcw"; cstr "jw"].
Proof.
  repeat constructor; try (vm_compute; done); try (intros Hin; vm_compute in Hin; set_solver).
Qed.

Lemma wp_populate dext iext sb root A s k l :
  tree_inv dext iext sb root A s → A !! root = Some (ADir k l) →
  cstr "woman_star" ∉ l.*1 → cstr "man_star" ∉ l.*1 →
  wp (aufs_populate current_fsuid current_fsgid) (λ _ s',
    ∃ w w1 w2 w3 m m1 m2 m3 dext' iext' A',
      tree_inv dext' iext' sb root A' s' ∧
      grown [m3; m2; m1; m; w3; w2; w1; w] [m; m; m; root; w; w; w; root] dext A dext' A' ∧
      star root (u32 (u32 (k + 1) + 1)) ((cstr "woman_star", w) :: l)
        (cstr "man_star") (cstr "ldh") (cstr "lcw") (cstr "jw") m m1 m2 m3 A' ∧
      A' !! w = Some (ADir 2 [(cstr "lj1", w3); (cstr "fbb", w2); (cstr "lbb", w1)]) ∧
      A' !! w1 = Some file ∧ A' !! w2 = Some file ∧ A' !! w3 = Some file) s.
Proof.
  intros Ht Hr Hw Hm. pose proof proper_names as Hpr. rewrite !Forall_cons in Hpr.
  destruct Hpr as (P1 & P2 & P3 & P4 & P5 & P6 & P7 & P8 & _). unfold aufs_populate.
  apply (wp_star dext iext sb root A s k l); try assumption.
  { rewrite !Forall_cons. split_and!; try assumption. constructor. }
  { vm_compute. repeat constructor; set_solver. }
  intros w w1 w2 w3 s1 iext1 dext1 A1 Ht1 G1 [R1 W1 (F1 & F2 & F3) D1].
  apply (wp_star dext1 iext1 sb root A1 s1 (u32 (k + 1)) ((cstr "woman_star", w) :: l));
    try assumption.
  { rewrite fmap_cons, not_elem_of_cons. done. }
  { rewrite !Forall_cons. split_and!; try assumption. constructor. }
  { vm_compute. repeat constructor; set_solver. }
  intros m m1 m2 m3 s2 iext2 dext2 A2 Ht2 G2 St. apply wp_ret.
  exists w, w1, w2, w3, m, m1, m2, m3, dext2, iext2, A2.
  pose proof (grown_trans _ _ _ _ _ _ _ _ _ _ G1 G2) as G.
  assert (∀ x n, x ∈ [w3; w2; w1; w] → A1 !! x = Some n → A2 !! x = Some n) as Hkeep.
  { intros x n Hx Hn. rewrite (gr_same _ _ _ _ _ _ G2 x); [done| |].
    - intros Hin%(gr_fresh _ _ _ _ _ _ G2). congruence.
    - intros Hin. assert (x = m ∨ x = root) as [->| ->] by set_solver.
      + rewrite (gr_fresh _ _ _ _ _ _ G2) in Hn; [done|set_solver].
      + set_solver. }
  split_and!; [done|exact G|exact St|apply Hkeep; [set_solver|done]..].
Qed.
End populate.

(** ** What creation promises *)

(** C3: [aufs_create_dir] with a proper name that the directory does not have
    implements the insertion of an empty directory into the abstract tree: the
    parent gains the entry and a link, every other object stays as it was, and
    the new object is fresh.  The dentry keeps two references, one more than
    its caller can name. *)
Theorem aufs_create_dir_refines fu fg dext iext sb root A s parent p k l name :
  (∀ t, fu t = fsuid t) →
  tree_inv dext iext sb root A s → (parent = p ∨ parent = NULL ∧ p = root) →
  A !! p = Some (ADir k l) → proper name → name ∉ l.*1 →
  wp (aufs_create_dir fu fg name parent) (λ x s',
    A !! x = None ∧ x ≠ NULL ∧ ∃ dext' iext',
      tree_inv dext' iext' sb root
        (<[x := ADir 2 []]> (<[p := ADir (u32 (k + 1)) ((name, x) :: l)]> A)) s' ∧
      dext' x = 2 ∧ ∀ y, y ≠ x → dext' y = dext y) s.
Proof.
  intros Hfu Ht Hpar Hp [Hn Hlen] Hno. eapply wp_mono.
  { apply (create_dir_refines fu fg Hfu dext iext sb root A s parent p k l); assumption. }
  intros x s' (Hx & Hx0 & i & _ & Ht'). split_and!; [done..|].
  exists (bump x 1 (first_ref x dext)), (owned i iext). split_and!.
  - unfold acreate in Ht'. by rewrite (alter_insert_some p (ADir k l)) in Ht'.
  - unfold bump, first_ref. by rewrite Z.eqb_refl.
  - intros y Hy. unfold bump, first_ref. by rewrite (proj2 (Z.eqb_neq y x)).
Qed.

(** C4: [aufs_create_file] of something that is not a directory, with a proper
    name that the directory does not have, implements the insertion of a file
    with that mode and those methods into the abstract tree. *)
Theorem aufs_create_file_refines fu fg dext iext sb root A s parent p k l name mode data f :
  (∀ t, fu t = fsuid t) →
  tree_inv dext iext sb root A s → (parent = p ∨ parent = NULL ∧ p = root) →
  A !! p = Some (ADir k l) → proper name → name ∉ l.*1 → fmt mode ≠ S_IFDIR →
  wp (aufs_create_file fu fg name mode parent data (Some f)) (λ x s',
    A !! x = None ∧ x ≠ NULL ∧ ∃ dext' iext',
      tree_inv dext' iext' sb root
        (<[x := AFile (u16 (Z.lor mode S_IFREG)) f]> (<[p := ADir k ((name, x) :: l)]> A)) s' ∧
      dext' x = 2 ∧ ∀ y, y ≠ x → dext' y = dext y) s.
Proof.
  intros Hfu Ht Hpar Hp [Hn Hlen] Hno Hm. eapply wp_mono.
  { apply (create_file_refines fu fg Hfu dext iext sb root A s parent p k l); assumption. }
  intros x s' (Hx & Hx0 & i & _ & Ht'). split_and!; [done..|].
  exists (bump x 1 (first_ref x dext)), (owned i iext). split_and!.
  - unfold acreate in Ht'. by rewrite (alter_insert_some p (ADir k l)) in Ht'.
  - unfold bump, first_ref. by rewrite Z.eqb_refl.
  - intros y Hy. unfold bump, first_ref. by rewrite (proj2 (Z.eqb_neq y x)).
Qed.

(** C2: on a mounted file system whose root has neither name, [aufs_populate]
    builds the tree of the module: the root gains the directories woman_star
    and man_star, with three readable files each that have the methods of the
    switch.  Objects that were there before keep their state and references;
    each new dentry keeps two references. *)
Theorem aufs_populate_tree fu fg dext iext sb root A s k l :
  (∀ t, fu t = fsuid t) →
  tree_inv dext iext sb root A s → A !! root = Some (ADir k l) →
  cstr "woman_star" ∉ l.*1 → cstr "man_star" ∉ l.*1 →
  wp (aufs_populate fu fg) (λ _ s', ∃ w w1 w2 w3 m m1 m2 m3 dext' iext' A',
    let new := [m3; m2; m1; m; w3; w2; w1; w] in
    let file := AFile (u16 file_mode) aufs_file_operations in
    tree_inv dext' iext' sb root A' s' ∧ NoDup new ∧
    A' !! root = Some (ADir (u32 (u32 (k + 1) + 1))
                         ((cstr "man_star", m) :: (cstr "woman_star", w) :: l)) ∧
    A' !! w = Some (ADir 2 [(cstr "lj1", w3); (cstr "fbb", w2); (cstr "lbb", w1)]) ∧
    A' !! m = Some (ADir 2 [(cstr "jw", m3); (cstr "lcw", m2); (cstr "ldh", m1)]) ∧
    Forall (λ x, A' !! x = Some file) [w1; w2; w3; m1; m2; m3] ∧
    (∀ x, x ∈ new → A !! x = None ∧ dext' x = 2) ∧
    (∀ x, x ∉ new → dext' x = dext x ∧ (x ≠ root → A' !! x = A !! x))) s.
Proof.
  intros Hfu Ht Hr Hw Hm. eapply wp_mono; [by apply (wp_populate fu fg Hfu dext iext sb root A s k l)|].
  intros _ s' (w & w1 & w2 & w3 & m & m1 & m2 & m3 & dext' & iext' & A' & Ht' & G & St & W & F1 & F2 & F3).
  exists w, w1, w2, w3, m, m1, m2, m3, dext', iext', A'. destruct St as [Sr Sm (M1 & M2 & M3) _].
  cbv zeta. split_and!; try done.
  - apply (gr_nodup _ _ _ _ _ _ G).
  - by repeat constructor.
  - intros x Hx. split; [by apply (gr_fresh _ _ _ _ _ _ G)|].
    by rewrite (gr_refs _ _ _ _ _ _ G), decide_True.
  - intros x Hx. rewrite (gr_refs _ _ _ _ _ _ G), decide_False by done. split; [done|].
    intros Hxr. apply (gr_same _ _ _ _ _ _ G); [done|].
    rewrite !not_elem_of_cons in *. naive_solver.
Qed.
