(* ===== verification/FillSuper.v ===== *)
(** * Filling the superblock

    [d_alloc_root], and [simple_fill_super] with the empty table of aufs: the
    root directory it makes, which is the tree the module starts from, and the
    ways in which it runs out of memory. *)

From S2P Require Import Prelude KString Kernel Links Inode InodeInv Dcache DcacheInv DcacheOps.
From S2P Require Import Filesystems Super Mount Libfs Groups Namei LookupSpec Aufs AufsSpec.
From S2P Require Import AufsCreate AufsTree.

(** ** The root dentry *)

Definition root_name : qstr := {| q_hash := 0; q_len := 1; q_name := cstr "/" |}.

(** The root is its own parent, on no list and in no bucket. *)
Definition root_dentry (x sb : ptr) (junk : list Z) : dentry :=
  (d_alloc_init root_name junk) <| d_sb := sb |> <| d_parent := x |>.

Definition root_added (sb : ptr) (s : kstate) : kstate :=
  (after_alloc s) <| dentries ::= <[slab_next s := root_dentry (slab_next s) sb (slab_iname s)]> |>
    <| nr_dentry ::= Z.add 1 |>.

Lemma root_added_inv dext iext sb s :
  vfs_inv dext iext s → vfs_inv (first_ref (slab_next s) dext) iext (root_added sb s).
Proof.
  intros Hv. destruct (fresh_none _ _ _ (slab_next s) Hv) as [Hx _]; [done|].
  pose proof (ii_next _ _ (vi_inode _ _ _ Hv)) as Hn.
  set (x := slab_next s) in *. set (d := root_dentry x sb (slab_iname s)).
  assert (root_added sb s = child_added x (d_parent d) d (after_alloc s)) as ->.
  { unfold root_added, child_added. kstate_eq. f_equal. symmetry.
    apply map_eq. intros y. destruct (decide (y = x)) as [->|Hy].
    - by rewrite lookup_alter_eq, Hx.
    - by rewrite lookup_alter_ne. }
  apply vfs_inv_add.
  - exact (slab_moved_inv _ _ _ _ Hv (d_alloc_slab_moved root_name s)).
  - simpl. unfold SLAB_STEP. lia.
  - done.
  - split; try done. by right.
  - done.
Qed.

Lemma wp_d_alloc_root dext iext i ii s :
  vfs_inv dext iext s → inodes s !! i = Some ii → 0 < iext i →
  wp (d_alloc_root i) (λ x s',
    if alloc_fails s then x = NULL ∧ slab_moved s s'
    else x = slab_next s ∧ vfs_inv (first_ref x dext) (bump i (-1) iext) s' ∧
         s' = instantiated x (root_dentry x (i_sb ii) (slab_iname s)) i ii
                (root_added (i_sb ii) s)) s.
Proof.
  intros Hv Hi Hext. pose proof (ii_next _ _ (vi_inode _ _ _ Hv)) as Hn.
  pose proof (root_added_inv dext iext (i_sb ii) s Hv) as Hv1.
  unfold d_alloc_root. rewrite (proj2 (Z.eqb_neq _ _) (inode_addr _ _ _ _ (vi_inode _ _ _ Hv) Hi)).
  wp_step. fold root_name. unfold d_alloc. apply wp_d_alloc_slab; [done| |].
  { intros Hf s' Hs'. unfold d_alloc_ok in Hf. simpl in Hf. rewrite andb_true_r in Hf.
    apply negb_false_iff in Hf. rewrite Hf. simpl. by wp_run. }
  intros Hok. unfold d_alloc_ok in Hok. simpl in Hok. rewrite andb_true_r in Hok.
  apply negb_true_iff in Hok. rewrite Hok. change (d_alloc_slab root_name s) with (after_alloc s).
  wp_run. simpl. wp_run. rewrite (proj2 (Z.eqb_neq _ NULL)) by (unfold NULL; lia). wp_run.
  match goal with |- wp _ _ ?st => assert (st = root_added (i_sb ii) s) as -> end.
  { unfold root_added. kstate_eq. by rewrite insert_insert_eq. }
  eapply wp_mono.
  { apply (wp_d_instantiate _ _ (slab_next s) (root_dentry (slab_next s) (i_sb ii) (slab_iname s))
             i ii _ Hv1); [|done|done|done]. simpl. by rewrite lookup_insert_eq. }
  intros _ s' [Hv' ->]. wp_run. done.
Qed.

(** ** Giving up an inode *)

Lemma vfs_inv_iput dext iext s s' x i :
  vfs_inv dext iext s → inodes s !! x = Some i → 0 < iext x →
  inode_inv (bump x (-1) iext) s' → iframe s s' →
  inodes s' = iput_effect s x i → vfs_inv dext (bump x (-1) iext) s'.
Proof.
  intros [Hd Hi] Hx Hext Hi' Hfr E. split; [|done].
  pose proof (λ {A} (f : kstate → A), f_equal f Hfr) as P.
  apply (dcache_inv_ext _ _ _ _ Hd); [exact (P _ dentries)| |done]. split.
  - by apply (iput_effect_aliases iext s s' x i).
  - intros []; [done| |].
    + unfold chain. by rewrite (P _ dentry_hashtable : dentry_hashtable s' = _).
    + by apply (iframe_anon s s').
  - exact (P _ dentry_unused).
  - exact (P _ d_hash_shift).
  - exact (P _ d_hash_mask).
  - exact (P _ nr_dentry).
  - exact (P _ nr_unused_dentry).
  - rewrite (P _ slab_next : slab_next s' = _). done.
Qed.

(** ** The superblock *)

Lemma vfs_inv_super_attr dext iext sb b b' s :
  vfs_inv dext iext s → supers s !! sb = Some b →
  s_inodes b' = s_inodes b → s_anon b' = s_anon b →
  vfs_inv dext iext (s <| supers ::= <[sb := b']> |>).
Proof.
  intros [Hd Hi] Hb E1 E2. split.
  - apply (dcache_inv_ext _ _ _ _ Hd); try done. split; try done.
    intros []; simpl; try done. map_cases; [by rewrite Hb|done].
  - apply (inode_inv_ext _ _ _ _ Hi); try done. split; try done.
    intros k. unfold sb_inodes. simpl. map_cases; [by rewrite Hb|done].
Qed.

(** What simple_fill_super sets in the superblock before it allocates. *)
Definition filled (magic : Z) (b : super_block) : super_block :=
  b <| s_blocksize := PAGE_CACHE_SIZE |> <| s_blocksize_bits := PAGE_CACHE_SHIFT |>
    <| s_magic := magic |> <| s_op := simple_s_ops |> <| s_time_gran := 1 |>.

(** The inode of the root. *)
Definition root_inode (now : Z) (i : inode) : inode :=
  i <| i_mode := u16 (Z.lor S_IFDIR 493) |> <| i_uid := 0 |> <| i_gid := 0 |>
    <| i_blksize := PAGE_CACHE_SIZE |> <| i_blocks := 0 |>
    <| i_ctime := now |> <| i_mtime := now |> <| i_atime := now |>
    <| i_op := simple_dir_inode_operations |> <| i_fop := simple_dir_operations |>.

Lemma root_inode_links now i : same_ilinks i (root_inode now i).
Proof. by destruct i; split. Qed.

Lemma root_inode_facts now i :
  let r := root_inode now i in
  i_sb r = i_sb i ∧ i_dentry r = i_dentry i ∧ i_nlink r = i_nlink i ∧
  i_mode r = u16 (Z.lor S_IFDIR 493) ∧ i_op r = simple_dir_inode_operations ∧
  i_fop r = simple_dir_operations ∧ i_count r = i_count i ∧ i_hash r = i_hash i.
Proof. by destruct i. Qed.

(** Mode 0755: everybody may search the root. *)
Lemma root_may_exec t i : i_mode i = u16 (Z.lor S_IFDIR 493) → may_exec t i = 0.
Proof.
  intros Hm. unfold may_exec, check_mode. rewrite Hm.
  destruct (fsuid t =? i_uid i); [done|]. by destruct (in_group_p t (i_gid i)).
Qed.

(** ** What filling leaves alone

    Everything but the two caches, the superblock and the allocator. *)
Definition erase_fill (k : kstate) : kstate :=
  mkK ∅ ∅ ∅ (mounts k) (fstypes k) (files k) (modules k) (user_mem k) 0 [] (slab_inode k)
    (slab_iname k) (file_systems k) (dentry_hashtable k) (d_hash_shift k) (d_hash_mask k)
    (dentry_unused k) 0 (nr_unused_dentry k) [] [] ∅ (i_hash_shift k) (i_hash_mask k) 0 0 0
    (iunique_counter k) (mount_hashtable k) (mnt_hash_bits k) (mnt_hash_mask k)
    (super_blocks k) (unnamed_dev_idr k) (current k)
    (current_time k) (resched k) (klog k) (aufs_mount k) (enabled k)
    (files_stat k).

Definition outside (s s' : kstate) : Prop := erase_fill s' = erase_fill s.

#[export] Instance outside_preorder : PreOrder outside.
Proof. split; [by intros s|]. intros s1 s2 s3 H1 H2. unfold outside in *. congruence. Qed.

Lemma outside_field {A} (f : kstate → A) s s' :
  outside s s' → f (erase_fill s') = f (erase_fill s).
Proof. by intros ->. Qed.

Lemma iframe_outside s s' : iframe s s' → outside s s'.
Proof.
  assert (∀ k, erase_fill k = erase_fill (erase_inodes k)) as E by done.
  unfold iframe, outside. intros H. by rewrite (E s), (E s'), H.
Qed.

Lemma slab_moved_outside s s' : slab_moved s s' → outside s s'.
Proof. by intros (l & n & _ & ->). Qed.

Lemma vfs_inv_irefs dext iext iext' s :
  vfs_inv dext iext s → (∀ x, is_Some (inodes s !! x) → iext' x = iext x) → vfs_inv dext iext' s.
Proof.
  intros [Hd [Hl Hs Hh Hok Hnr Ha Hn]] E. split; [done|]. split; try done.
  intros x i Hx. destruct (Hok _ _ Hx). split; try done; rewrite E by eauto; done.
Qed.

(** ** The result *)

(** The dentry of the root when it has its inode. *)
Definition root_node (x sb i : ptr) (junk : list Z) : dentry :=
  (root_dentry x sb junk) <| d_alias := i |> <| d_inode := i |>.

(** The superblock with its root. *)
Definition filled_sb (i root : ptr) (b : super_block) : super_block :=
  (filled AUFS_MAGIC b) <| s_inodes ::= cons i |> <| s_root := root |>.

Inductive fill_result (dext iext : refs) (sb : ptr) (b : super_block) (s : kstate) :
    Z → kstate → Prop :=
  | fill_ok root i d ii s' :
      vfs_inv (first_ref root dext) (owned i iext) s' → outside s s' →
      supers s' = <[sb := filled_sb i root b]> (supers s) →
      dentries s' = <[root := d]> (dentries s) → dentries s !! root = None →
      inodes s' = <[i := ii]> (inodes s) → inodes s !! i = None →
      node_at s' sb root d ii → shows searchable s' root d ii (ADir 1 []) →
      d = root_node root sb i (slab_iname s) → i_count ii = 1 → i_hash ii = Unlinked →
      slab_next s' = slab_next s + 2 * SLAB_STEP → slab_fail s' = drop 2 (slab_fail s) →
      fill_result dext iext sb b s 0 s'
  | fill_nomem s' :
      slab_fail s ≠ [] → vfs_inv dext iext s' → outside s s' →
      dentries s' = dentries s → inodes s' = inodes s →
      fill_result dext iext sb b s (- ENOMEM) s'.

(** The state in which the root inode is made and the root dentry is not. *)
Record half_filled (dext iext : refs) (sb i : ptr) (fb : super_block) (ri : inode)
    (s s3 : kstate) : Prop := mkHalf {
  hf_vfs : vfs_inv dext (first_ref i iext) s3;
  hf_outside : outside s s3;
  hf_supers : supers s3 = <[sb := fb <| s_inodes ::= cons i |>]> (supers s);
  hf_dentries : dentries s3 = dentries s;
  hf_inodes : inodes s3 = <[i := ri]> (inodes s);
  hf_fresh : inodes s !! i = None;
  hf_next : slab_next s3 = slab_next s + SLAB_STEP;
  hf_fail : slab_fail s3 = tail (slab_fail s);
  hf_sb : i_sb ri = sb;
  hf_alias : i_dentry ri = [];
  hf_nlink : i_nlink ri = 1;
  hf_count : i_count ri = 1;
  hf_unhashed : i_hash ri = Unlinked;
  hf_mode : i_mode ri = u16 (Z.lor S_IFDIR 493);
  hf_op : i_op ri = simple_dir_inode_operations;
  hf_fop : i_fop ri = simple_dir_operations
}.

Lemma wp_root_inode {A} i fi (m : KM A) Q s :
  inodes s !! i = Some fi →
  wp m Q (s <| inodes ::= <[i := root_inode (current_time s) fi]> |>) →
  wp (fill_inode i (Z.lor S_IFDIR 493) ;;
      mod_inode i (λ i, i
        <| i_op := simple_dir_inode_operations |> <| i_fop := simple_dir_operations |>) ;;
      m) Q s.
Proof.
  intros Hi Hm. unfold fill_inode, CURRENT_TIME.
  eapply (wp_start _ _ _ (s <| inodes ::= <[i := fi]> |>)).
  { kstate_eq. by rewrite insert_id. }
  wp_step. wp_step. wp_step. change (current_time s <| inodes ::= _ |>) with (current_time s).
  apply wp_set_inode. wp_step. apply wp_set_inode. exact Hm.
Qed.

(** The table of aufs has no entry. *)
Lemma fill_no_files sb root i : fill_files sb root i debug_files = mret true.
Proof. done. Qed.

(** No memory for the root dentry: the inode is given back. *)
Lemma wp_fill_undo dext iext sb i b fb ri s s3 s4 :
  half_filled dext iext sb i fb ri s s3 → slab_moved s3 s4 → slab_fail s ≠ [] →
  wp (iput i ;; mret (- ENOMEM)) (fill_result dext iext sb b s) s4.
Proof.
  intros [] Hm Hf. pose proof (slab_moved_inv _ _ _ _ hf_vfs0 Hm) as Hv4.
  pose proof (slab_moved_outside _ _ Hm) as Ho4.
  assert (inodes s4 = inodes s3 ∧ dentries s4 = dentries s3) as [Ei4 Ed4].
  { by destruct Hm as (l & n & _ & ->). }
  assert (inodes s4 !! i = Some ri) as Hi4 by (by rewrite Ei4, hf_inodes0, lookup_insert_eq).
  assert (0 < first_ref i iext i) as Hone by (unfold first_ref; by rewrite Z.eqb_refl).
  clear Hm. wp_step. eapply wp_mono.
  { by apply (wp_iput (first_ref i iext) i ri s4 (vi_inode _ _ _ Hv4) Hi4). }
  intros _ s5 (Hi5 & Hfr & E5).
  assert (inodes s5 = inodes s) as Ein.
  { rewrite E5. unfold iput_effect, drop_frees, i_unhashed. rewrite hf_count0, hf_unhashed0, hf_nlink0.
    cbn [Z.eqb negb orb bool_decide decide]. simpl. rewrite Ei4, hf_inodes0.
    by rewrite delete_insert_id. }
  wp_step. apply fill_nomem; [done| | | |exact Ein].
  - apply (vfs_inv_irefs dext (bump i (-1) (first_ref i iext))).
    + apply (vfs_inv_iput dext (first_ref i iext) s4 s5 i ri); done.
    + intros x Hx. rewrite bump_other; [|intros ->; rewrite Ein, hf_fresh0 in Hx; by destruct Hx].
      unfold first_ref. rewrite (proj2 (Z.eqb_neq _ _)); [done|].
      intros ->. rewrite Ein, hf_fresh0 in Hx. by destruct Hx.
  - etrans; [exact hf_outside0|]. etrans; [exact Ho4|]. by apply iframe_outside.
  - pose proof (f_equal dentries Hfr) as E. change (dentries s5 = dentries s4) in E. congruence.
Qed.

(** The root is in place. *)
Lemma wp_fill_done dext iext sb x i b fb ri d ii s s3 s4 :
  half_filled dext iext sb i fb ri s s3 → fb = filled AUFS_MAGIC b →
  vfs_inv (first_ref x dext) (owned i iext) s4 → outside s3 s4 → supers s4 = supers s3 →
  dentries s4 = <[x := d]> (dentries s) → dentries s !! x = None →
  inodes s4 = <[i := ii]> (inodes s) →
  slab_next s4 = slab_next s3 + SLAB_STEP → slab_fail s4 = tail (slab_fail s3) →
  d = root_node x sb i (slab_iname s) → ii = ri <| i_dentry ::= cons x |> →
  wp (mod_super sb (λ b, b <| s_root := x |>) ;; mret 0) (fill_result dext iext sb b s) s4.
Proof.
  intros [] Hfb Hv Hout Esu Ed Hx Ein Enx Ef Edd Eii.
  assert (filled_sb i x b = fb <| s_inodes ::= cons i |> <| s_root := x |>) as Hfs
    by (by rewrite Hfb).
  set (b1 := fb <| s_inodes ::= cons i |>) in *. clearbody b1.
  assert (supers s4 !! sb = Some b1) as Hb by (by rewrite Esu, hf_supers0, lookup_insert_eq).
  wp_step. wp_step; [exact Hb|]. wp_step.
  apply (fill_ok _ _ _ _ _ x i d ii).
  - apply (vfs_inv_super_attr _ _ _ b1 (b1 <| s_root := x |>) _ Hv Hb); reflexivity.
  - etrans; [exact hf_outside0|]. etrans; [exact Hout|]. done.
  - rewrite Hfs. change (<[sb := b1 <| s_root := x |>]> (supers s4) =
      <[sb := b1 <| s_root := x |>]> (supers s)). by rewrite Esu, hf_supers0, insert_insert_eq.
  - done.
  - done.
  - done.
  - done.
  - split; try done.
    + simpl. by rewrite Ed, lookup_insert_eq.
    + by rewrite Edd.
    + rewrite Edd. simpl. by rewrite Ein, lookup_insert_eq.
    + rewrite Eii. simpl. by rewrite hf_alias0.
    + by rewrite Edd.
    + by rewrite Eii.
  - rewrite Eii, Edd. simpl. split_and!; try done; [by rewrite hf_mode0|by apply root_may_exec].
  - done.
  - by rewrite Eii.
  - by rewrite Eii.
  - simpl. rewrite Enx, hf_next0. lia.
  - simpl. rewrite Ef, hf_fail0. by destruct (slab_fail s) as [|? []].
Qed.

Lemma root_added_pieces sb x d i ii s :
  let s' := instantiated x d i ii (root_added sb s) in
  outside s s' ∧ supers s' = supers s ∧
  inodes s' = <[i := ii <| i_dentry ::= cons x |>]> (inodes s) ∧
  dentries s' = <[x := d <| d_alias := i |> <| d_inode := i |>]>
                  (<[slab_next s := root_dentry (slab_next s) sb (slab_iname s)]> (dentries s)) ∧
  slab_fail s' = tail (slab_fail s) ∧ slab_next s' = SLAB_STEP + slab_next s.
Proof. done. Qed.

(** From the inode of the root on. *)
Lemma wp_fill_root dext iext sb i b fb ri s s3 :
  half_filled dext iext sb i fb ri s s3 → fb = filled AUFS_MAGIC b → vfs_inv dext iext s →
  wp (root ← d_alloc_root i;
      if root =? NULL then iput i ;; mret (- ENOMEM)
      else
        ok ← fill_files sb root 0 debug_files;
        if (ok : bool) then mod_super sb (λ b, b <| s_root := root |>) ;; mret 0
        else d_genocide root ;; dput root ;; mret (- ENOMEM)) (fill_result dext iext sb b s) s3.
Proof.
  intros Hh Hfb Hv0. pose proof Hh as []. pose proof (ii_next _ _ (vi_inode _ _ _ Hv0)) as Hn.
  assert (0 < first_ref i iext i) as Hone by (unfold first_ref; by rewrite Z.eqb_refl).
  assert (inodes s3 !! i = Some ri) as Hi by (by rewrite hf_inodes0, lookup_insert_eq).
  wp_step. eapply wp_mono; [by apply (wp_d_alloc_root _ _ _ _ _ hf_vfs0 Hi)|].
  intros x s4 Hx. destruct (alloc_fails s3) eqn:Ea.
  { destruct Hx as [-> Hm]. simpl. apply (wp_fill_undo dext iext sb i b fb ri s s3 s4 Hh Hm).
    intros E. unfold alloc_fails in Ea. by rewrite hf_fail0, E in Ea. }
  destruct Hx as (-> & Hv4 & ->).
  destruct (root_added_pieces (i_sb ri) (slab_next s3)
    (root_dentry (slab_next s3) (i_sb ri) (slab_iname s3)) i ri s3) as (P1 & P2 & P3 & P4 & P5 & P6).
  set (s4 := instantiated _ _ _ _ _) in *. clearbody s4. rewrite hf_sb0 in *.
  assert (SLAB_STEP > 0) as Hst by done.
  rewrite (proj2 (Z.eqb_neq _ NULL)) by (unfold NULL; lia). rewrite fill_no_files.
  wp_step. wp_step.
  assert (slab_iname s3 = slab_iname s) as Eju by exact (outside_field slab_iname _ _ hf_outside0).
  apply (wp_fill_done dext iext sb (slab_next s3) i b fb ri
    (root_node (slab_next s3) sb i (slab_iname s))
    (ri <| i_dentry ::= cons (slab_next s3) |>) s s3 s4); try assumption; try reflexivity.
  - rewrite P4, hf_dentries0, Eju. by rewrite insert_insert_eq.
  - apply (fresh_none _ _ _ _ Hv0). lia.
  - rewrite P3, hf_inodes0. by rewrite insert_insert_eq.
  - rewrite P6. lia.
Qed.

Lemma new_inode_pieces sb b s :
  let s' := new_inode_state sb b s in
  outside s s' ∧ inodes s' = <[slab_next s := fresh_inode s sb b]> (inodes s) ∧
  supers s' = <[sb := b <| s_inodes ::= cons (slab_next s) |>]> (supers s) ∧
  dentries s' = dentries s ∧
  slab_fail s' = tail (slab_fail s) ∧ slab_next s' = SLAB_STEP + slab_next s.
Proof. done. Qed.

Lemma fresh_inode_facts sb b s :
  let i := fresh_inode s sb b in
  i_sb i = sb ∧ i_dentry i = [] ∧ i_nlink i = 1 ∧ i_count i = 1 ∧ i_hash i = Unlinked.
Proof. done. Qed.

(** The superblock is set up and the inode made. *)
Lemma half_filled_intro dext iext sb fb fi ri i s s1 s2 :
  vfs_inv dext iext s → s1 = s <| supers ::= <[sb := fb]> |> → i = slab_next s1 →
  vfs_inv dext (first_ref i iext) s2 →
  outside s1 s2 ∧ inodes s2 = <[i := fi]> (inodes s1) ∧
    supers s2 = <[sb := fb <| s_inodes ::= cons i |>]> (supers s1) ∧ dentries s2 = dentries s1 ∧
    slab_fail s2 = tail (slab_fail s1) ∧ slab_next s2 = SLAB_STEP + slab_next s1 →
  i_sb fi = sb ∧ i_dentry fi = [] ∧ i_nlink fi = 1 ∧ i_count fi = 1 ∧ i_hash fi = Unlinked →
  ri = root_inode (current_time s2) fi →
  half_filled dext iext sb i fb ri s (s2 <| inodes ::= <[i := ri]> |>).
Proof.
  intros Hv E1 Ei Hv2 (P1 & P2 & P3 & P4 & P5 & P6) (F1 & F2 & F3 & F4 & F5) Eri.
  destruct (root_inode_facts (current_time s2) fi) as (R1 & R2 & R3 & R4 & R5 & R6 & R7 & R8).
  pose proof (root_inode_links (current_time s2) fi) as Hl. rewrite <-Eri in *. clear Eri.
  assert (outside s s1 ∧ inodes s1 = inodes s ∧ dentries s1 = dentries s ∧
          slab_fail s1 = slab_fail s ∧ slab_next s1 = slab_next s ∧
          supers s1 = <[sb := fb]> (supers s)) as (Q1 & Q2 & Q3 & Q4 & Q5 & Q6) by (by rewrite E1).
  clear E1. set (b1 := fb <| s_inodes ::= _ |>) in *. split; try congruence.
  - apply (vfs_inv_inode_attr _ _ _ fi); [exact Hv2|by rewrite P2, lookup_insert_eq|exact Hl].
  - etrans; [exact Q1|]. etrans; [exact P1|]. done.
  - change (supers s2 = <[sb := b1]> (supers s)). rewrite P3, Q6. by rewrite insert_insert_eq.
  - change (dentries s2 = dentries s). congruence.
  - change (<[i := ri]> (inodes s2) = <[i := ri]> (inodes s)).
    rewrite P2, Q2. by rewrite insert_insert_eq.
  - apply (fresh_none _ _ _ _ Hv). lia.
  - change (slab_next s2 = slab_next s + SLAB_STEP). lia.
  - change (slab_fail s2 = tail (slab_fail s)). congruence.
Qed.

Lemma wp_aufs_fill_super dext iext sb b data silent s :
  vfs_inv dext iext s → supers s !! sb = Some b → sb ≠ NULL →
  wp (aufs_fill_super sb data silent) (fill_result dext iext sb b s) s.
Proof.
  intros Hv Hb Hsb. unfold aufs_fill_super, simple_fill_super. wp_run. fold (filled AUFS_MAGIC b).
  pose proof (vfs_inv_super_attr _ _ _ _ (filled AUFS_MAGIC b) _ Hv Hb eq_refl eq_refl) as Hv1.
  set (s1 := s <| supers ::= _ |>) in *.
  assert (supers s1 !! sb = Some (filled AUFS_MAGIC b)) as Hb1 by (simpl; by rewrite lookup_insert_eq).
  pose proof (ii_next _ _ (vi_inode _ _ _ Hv1)) as Hn1.
  eapply wp_mono; [by apply (wp_new_inode iext sb (filled AUFS_MAGIC b) s1 (vi_inode _ _ _ Hv1))|].
  intros i s2 Hi. destruct (alloc_fails s1) eqn:Ea.
  { destruct Hi as [-> ->]. simpl. wp_run. apply fill_nomem; try done.
    - intros E. unfold alloc_fails in Ea. change (slab_fail s1) with (slab_fail s) in Ea.
      by rewrite E in Ea.
    - exact (slab_moved_inv _ _ _ _ Hv1 (slab_fail_moved _)). }
  destruct Hi as (-> & Hi2 & ->). rewrite (proj2 (Z.eqb_neq _ NULL)) by (unfold NULL; lia).
  pose proof (vfs_inv_new_inode _ _ _ _ _ Hv1 Hb1 Hi2) as Hv2.
  apply (wp_root_inode _ (fresh_inode s1 sb (filled AUFS_MAGIC b))).
  { destruct (new_inode_pieces sb (filled AUFS_MAGIC b) s1) as (_ & -> & _).
    by rewrite lookup_insert_eq. }
  eapply (wp_fill_root dext iext sb (slab_next s1) b (filled AUFS_MAGIC b)); [|reflexivity|exact Hv].
  apply (half_filled_intro dext iext sb (filled AUFS_MAGIC b) (fresh_inode s1 sb (filled AUFS_MAGIC b))
           _ _ s s1 _ Hv); [reflexivity|reflexivity|exact Hv2|apply new_inode_pieces|
           apply fresh_inode_facts|reflexivity].
Qed.

(** C22: filling the superblock of aufs makes the tree it starts from: one
    directory without entries, searchable by everybody, that is its own parent
    and in no hash chain, is referenced once, and whose inode only it
    references; its link count is 1, and nothing but the caches, the superblock
    and the allocator changes.  When memory is missing the result is -ENOMEM and
    the caches hold what they held before: the inode that was made is given
    back, and no dentry stays. *)
Theorem aufs_fill_super_correct dext iext sb b data silent s :
  vfs_inv dext iext s → supers s !! sb = Some b → sb ≠ NULL →
  wp (aufs_fill_super sb data silent) (fill_result dext iext sb b s) s.
Proof. apply wp_aufs_fill_super. Qed.
