(* ===== verification/KernMount.v ===== *)
(** * The in-kernel mount of aufs

    The interface the module was written against, made of the vendored kernel's
    own mount path, and that it keeps the promise that the module relies on: the
    mount it returns shows an empty root directory. *)

From S2P Require Import Prelude KString Kernel Links Inode InodeInv Dcache DcacheInv DcacheOps Prune.
From S2P Require Import Filesystems Super Mount SuperSpec Libfs Groups Namei LookupSpec Aufs AufsSpec.
From S2P Require Import AufsCreate AufsTree FillSuper.

(** ** The newer mount interface over the vendored one *)

(** Mount the single instance and return a reference to its root. *)
Definition mount_single_v (fs_type flags data : Z) (fill_super : ptr → Z → Z → KM Z) : KM ptr :=
  s ← get_sb_single fs_type flags data fill_super;
  if IS_ERR s then mret s
  else b ← get_super s; dget (s_root b).

(** A [mount] method returns a root where a [get_sb] method returns its
    superblock, whose root do_kern_mount then pins itself. *)
Definition call_get_sb_v (f : get_sb_fn) (fs_type flags : Z) (name : bytes) (data : Z) : KM ptr :=
  match f with
  | aufs_get_sb_fn =>
      root ← aufs_get_sb mount_single_v fs_type flags name data;
      if IS_ERR root then mret root
      else d ← get_dentry root; dput root ;; mret (d_sb d)
  end.

Definition request_module_v (name : bytes) : KM Z := mret (- ENOENT).
Definition kern_mount_v : ptr → KM ptr := kern_mount call_get_sb_v request_module_v.
Definition kern_unmount_v (mnt : ptr) : KM unit :=
  if (mnt =? NULL) || IS_ERR mnt then mret tt else mntput mnt.

Definition aufs_init_v : KM Z := aufs_init fsuid fsgid kern_mount_v.
Definition aufs_exit_v : KM unit := aufs_exit kern_unmount_v.

(** ** Addresses *)

Lemma not_err x : x ≤ u32 (-1000) → IS_ERR x = false.
Proof. unfold IS_ERR, IS_ERR_VALUE. intros H. rewrite Z.gtb_ltb. by apply Z.ltb_ge. Qed.

(** ** The superblock *)

(** The superblock of a mounted aufs, whose write lock the mount holds. *)
Record sb_facts (i root dev umount : Z) (b : super_block) : Prop := mkSbFacts {
  sf_root : s_root b = root;
  sf_umount : s_umount b = umount;
  sf_active : s_active b = 1;
  sf_count : s_count b = S_BIAS;
  sf_inodes : s_inodes b = [i];
  sf_anon : s_anon b = [];
  sf_type : s_type b = aufs_type;
  sf_instances : s_instances b = aufs_type;
  sf_op : s_op b = simple_s_ops;
  sf_dev : s_dev b = MKDEV 0 (Z.land dev MINORMASK)
}.

(** What [get_sb_single] does for a type without superblocks. *)
Record new_sb (dext iext : refs) (t : file_system_type) (s : kstate) (sb root i : ptr) (d : dentry)
    (ii : inode) (b : super_block) (s' : kstate) : Prop := mkNewSb {
  ns_vfs : vfs_inv (first_ref root dext) (owned i iext) s';
  ns_supers : supers s' = <[sb := b]> (supers s);
  ns_sb_new : supers s !! sb = None;
  ns_facts : sb_facts i root (next_dev s) (-1) b;
  ns_dentries : dentries s' = <[root := d]> (dentries s);
  ns_root_new : dentries s !! root = None;
  ns_inodes : inodes s' = <[i := ii]> (inodes s);
  ns_inode_new : inodes s !! i = None;
  ns_node : node_at s' sb root d ii;
  ns_shows : shows searchable s' root d ii (ADir 1 []);
  ns_dentry : d = root_node root sb i (slab_iname s);
  ns_icount : i_count ii = 1;
  ns_ihash : i_hash ii = Unlinked;
  ns_fstypes : fstypes s' = <[aufs_type := t <| fs_supers ::= cons sb |>]> (fstypes s);
  ns_devs : unnamed_dev_idr s' = {[next_dev s]} ∪ unnamed_dev_idr s;
  ns_blocks : super_blocks s' = super_blocks s ++ [sb];
  ns_mounts : mounts s' = mounts s;
  ns_mem : slab_fail s' = [];
  ns_sb : slab_next s ≤ sb < slab_next s';
  ns_addr : 0 < root < slab_next s';
  ns_next : slab_next s' = slab_next s + 4 * SLAB_STEP
}.

(** What the mount of aufs asks of the machine: the type is registered and has no
    superblock yet, there is memory, and a number for the device is free. *)
Record mountable (dext iext : refs) (l : list ptr) (t : file_system_type) (s : kstate) : Prop :=
    mkMountable {
  mb_vfs : vfs_inv dext iext s;
  mb_table : fs_table s l;
  mb_in : aufs_type ∈ l;
  mb_type : fstypes s !! aufs_type = Some t;
  mb_name : fs_name t = cstr "aufs";
  mb_owner : fs_owner t = NULL;
  mb_kill : fs_kill_sb t = kill_litter_super_fn;
  mb_none : fs_supers t = [];
  mb_mem : slab_fail s = [];
  mb_space : slab_next s + 6 * SLAB_STEP ≤ u32 (-1000);
  mb_devs : Z.of_nat (size (unnamed_dev_idr s)) < 1048576;
  mb_supers x : is_Some (supers s !! x) → x < slab_next s;
  mb_dsb x d : dentries s !! x = Some d → d_sb d < slab_next s
}.

Lemma sget_state_pieces type t s :
  let s' := sget_state type t s in
  supers s' = <[slab_next s := sget_sb type t (next_dev s)]> (supers s) ∧
  fstypes s' = <[type := t <| fs_supers ::= cons (slab_next s) |>]> (fstypes s) ∧
  dentries s' = dentries s ∧ inodes s' = inodes s ∧ mounts s' = mounts s ∧
  dentry_unused s' = dentry_unused s ∧ slab_fail s' = tail (tail (slab_fail s)) ∧
  slab_next s' = SLAB_STEP + (SLAB_STEP + slab_next s) ∧
  unnamed_dev_idr s' = {[next_dev s]} ∪ unnamed_dev_idr s ∧
  super_blocks s' = super_blocks s ++ [slab_next s] ∧ slab_iname s' = slab_iname s.
Proof. done. Qed.

(** The superblock between [sget] and the filling. *)
Record sb_empty (dev : Z) (b : super_block) : Prop := mkSbEmpty {
  se_root : s_root b = NULL;
  se_umount : s_umount b = -1;
  se_active : s_active b = 1;
  se_count : s_count b = S_BIAS;
  se_inodes : s_inodes b = [];
  se_anon : s_anon b = [];
  se_type : s_type b = aufs_type;
  se_instances : s_instances b = aufs_type;
  se_dev : s_dev b = MKDEV 0 (Z.land dev MINORMASK)
}.

Lemma sget_sb_empty t dev : sb_empty dev (sget_sb aufs_type t dev).
Proof. done. Qed.

Lemma filled_sb_facts i root dev b :
  sb_empty dev b → sb_facts i root dev (-1) (filled_sb i root b).
Proof. intros []. destruct b. split; simpl in *; try done. by rewrite se_inodes0. Qed.

Lemma sb_facts_flags i root dev u f b :
  sb_facts i root dev u b → sb_facts i root dev u (b <| s_flags ::= f |>).
Proof. intros []. by destruct b. Qed.

Lemma outside_pieces s s' :
  outside s s' → mounts s' = mounts s ∧ fstypes s' = fstypes s ∧ dentry_unused s' = dentry_unused s ∧
  current s' = current s ∧ unnamed_dev_idr s' = unnamed_dev_idr s ∧
  super_blocks s' = super_blocks s.
Proof.
  intros H. pose proof (λ {A} (f : kstate → A), outside_field f _ _ H) as P.
  split_and!; [apply (P _ mounts)|apply (P _ fstypes)|apply (P _ dentry_unused)|apply (P _ current)|
    apply (P _ unnamed_dev_idr)|apply (P _ super_blocks)].
Qed.

Lemma node_at_ext s s' sb x d i :
  node_at s sb x d i → dentries s' !! x = Some d → inodes s' = inodes s → node_at s' sb x d i.
Proof. intros [] Hd Ei. split; try done. by rewrite Ei. Qed.

Lemma new_sb_flags dext iext t s sb root i d ii b f s' :
  new_sb dext iext t s sb root i d ii b s' →
  new_sb dext iext t s sb root i d ii (b <| s_flags ::= f |>)
    (s' <| supers ::= <[sb := b <| s_flags ::= f |>]> |>).
Proof.
  intros []. split; try done.
  - apply (vfs_inv_super_attr _ _ _ b); try done. by rewrite ns_supers0, lookup_insert_eq.
  - simpl. by rewrite ns_supers0, insert_insert_eq.
  - by apply sb_facts_flags.
  - apply (node_at_ext s'); [done|apply ns_node0|done].
Qed.

(** Filling a superblock that has no root. *)
Lemma wp_fill_or_kill dext iext t s :
  vfs_inv dext iext s → supers s !! slab_next s = None → slab_fail s = [] → 0 < slab_next s →
  wp (fill_or_kill (slab_next s) 0 0 aufs_fill_super) (λ r s', r = 0 ∧ ∃ root i d ii b,
    new_sb dext iext t s (slab_next s) root i d ii b s' ∧ dentry_unused s' = dentry_unused s)
    (sget_state aufs_type t s).
Proof.
  intros Hv Hfresh Hf Hpos. pose proof (vfs_inv_sget dext iext aufs_type t s Hv Hfresh) as Hv2.
  destruct (sget_state_pieces aufs_type t s) as (P1 & P2 & P3 & P4 & P5 & P6 & P7 & P8 & P9 & P10 & P11).
  pose proof (sget_sb_empty t (next_dev s)) as Hemp.
  generalize dependent (sget_sb aufs_type t (next_dev s)). intros b0 P1 Hemp.
  generalize dependent (sget_state aufs_type t s). intros s2 Hv2 P2 P3 P4 P5 P6 P7 P8 P9 P10 P11 P1.
  remember (slab_next s) as sb eqn:Esb.
  assert (supers s2 !! sb = Some b0) as Hb by (by rewrite P1, lookup_insert_eq).
  unfold fill_or_kill. wp_step. wp_step; [exact Hb|].
  assert (∃ b1 s3, sb_empty (next_dev s) b1 ∧ supers s3 = <[sb := b1]> (supers s) ∧
    s3 = s2 <| supers ::= <[sb := b0 <| s_flags := 0 |>]> |> ∧ vfs_inv dext iext s3)
    as (b1 & s3 & Hemp1 & Es3 & E3 & Hv3).
  { exists (b0 <| s_flags := 0 |>). eexists. split; [by destruct Hemp, b0|].
    split; [|split; [reflexivity|by apply (vfs_inv_super_attr _ _ _ b0)]].
    simpl. by rewrite P1, insert_insert_eq. }
  rewrite <-E3. assert (fstypes s3 = fstypes s2 ∧ mounts s3 = mounts s2 ∧ slab_fail s3 = slab_fail s2 ∧
    slab_next s3 = slab_next s2 ∧ dentry_unused s3 = dentry_unused s2 ∧ dentries s3 = dentries s2 ∧
    inodes s3 = inodes s2 ∧ unnamed_dev_idr s3 = unnamed_dev_idr s2 ∧
    super_blocks s3 = super_blocks s2 ∧ slab_iname s3 = slab_iname s2)
    as (E1 & E2 & E4 & E5 & E6 & E7 & E8 & E9 & E10 & E11) by (by rewrite E3).
  clear E3. assert (supers s3 !! sb = Some b1) as Hb3 by (by rewrite Es3, lookup_insert_eq).
  change (has_flag 0 MS_VERBOSE) with false. cbv iota. wp_step.
  eapply wp_mono; [apply (wp_aufs_fill_super dext iext sb b1 0 0 s3 Hv3 Hb3); unfold NULL; lia|].
  intros r s4 Hr.
  destruct Hr as [root i d ii s4 Hv4 Ho Es Ed Hfr Ei Hfi Hnode Hsh Edd Hic Hih Hn4 Hf4|Hbad];
    [|exfalso; rewrite E4, P7, Hf in *; done].
  destruct (outside_pieces _ _ Ho) as (O1 & O2 & O3 & O4 & O5 & O6).
  pose proof (filled_sb_facts i root _ _ Hemp1) as Hsf.
  generalize dependent (filled_sb i root b1). intros fb Es Hsf.
  assert (0 < root < slab_next s4) as Hroot.
  { apply (dc_addr _ _ (vi_dcache _ _ _ Hv4)). eexists. apply (na_dentry _ _ _ _ _ Hnode). }
  change (0 =? 0) with true. cbn [negb]. wp_step. wp_step; [by rewrite Es, lookup_insert_eq|].
  wp_step. split; [done|]. do 5 eexists. split.
  - apply (new_sb_flags dext iext t s sb root i d ii fb). assert (SLAB_STEP > 0) as Hst by done.
    split; try assumption; try congruence.
    + by rewrite Es, Es3, insert_insert_eq.
    + by rewrite Hf4, E4, P7, Hf.
    + lia.
    + lia.
  - change (dentry_unused s4 = dentry_unused s). congruence.
Qed.

(** The first mount of the type makes its superblock. *)
Lemma wp_get_sb_single dext iext t s :
  vfs_inv dext iext s → fstypes s !! aufs_type = Some t → fs_owner t = NULL → fs_supers t = [] →
  slab_fail s = [] → slab_next s + 4 * SLAB_STEP ≤ u32 (-1000) →
  Z.of_nat (size (unnamed_dev_idr s)) < 1048576 →
  (∀ x, is_Some (supers s !! x) → x < slab_next s) →
  (∀ x d, dentries s !! x = Some d → d_sb d < slab_next s) →
  wp (get_sb_single aufs_type 0 0 aufs_fill_super) (λ sb s', ∃ root i d ii b,
    new_sb dext iext t s sb root i d ii b s') s.
Proof.
  intros Hv Ht Hown Hnone Hf Hsp Hdev Hsup Hdsb. pose proof (ii_next _ _ (vi_inode _ _ _ Hv)) as Hpos.
  assert (SLAB_STEP > 0) as Hst by done.
  unfold get_sb_single. wp_step. apply (wp_sget_new aufs_type t); try assumption.
  rewrite not_err by lia.
  assert (supers s !! slab_next s = None) as Hfresh.
  { apply eq_None_not_Some. intros Hx%Hsup. lia. }
  pose proof (wp_fill_or_kill dext iext t s Hv Hfresh Hf Hpos) as Hfill.
  destruct (sget_state_pieces aufs_type t s) as (P1 & _).
  generalize dependent (sget_state aufs_type t s). intros s2 Hfill P1.
  wp_step. wp_step; [by rewrite P1, lookup_insert_eq|].
  rewrite (se_root _ _ (sget_sb_empty t (next_dev s))). change (NULL =? NULL) with true. cbv iota.
  wp_step. eapply wp_mono; [exact Hfill|].
  intros r s5 (-> & root & i & d & ii & b & Hns & Eu). cbn [Z.eqb negb]. wp_step.
  pose proof Hns as []. apply (wp_remount_foreign _ b); [|by rewrite ns_supers0, lookup_insert_eq|done|].
  - unfold foreign. apply Forall_forall. intros x Hx. rewrite Eu in Hx.
    destruct (lru_dentry _ _ _ _ Hv Hx) as (dx & Hdx & _). exists dx. split.
    + rewrite ns_dentries0, lookup_insert_ne; [done|]. intros ->. congruence.
    + specialize (Hdsb _ _ Hdx). lia.
  - wp_step. do 5 eexists. apply new_sb_flags, Hns.
Qed.

(** A count that goes up and down again. *)
Lemma d_count_back (d : dentry) : d <| d_count ::= Z.add 1 |> <| d_count ::= λ c, c - 1 |> = d.
Proof. destruct d. cbv -[Z.add Z.sub]. f_equal. lia. Qed.

Lemma count_back (m : gmap Z dentry) x d :
  m !! x = Some d →
  <[x := d <| d_count ::= Z.add 1 |> <| d_count ::= λ c, c - 1 |>]>
    (<[x := d <| d_count ::= Z.add 1 |>]> m) = m.
Proof.
  intros Hx. by rewrite insert_insert_eq, d_count_back, insert_id.
Qed.

Lemma root_node_facts x sb i junk :
  let d := root_node x sb i junk in
  d_count d = 1 ∧ d_sb d = sb ∧ d_inode d = i ∧ d_alias d = i ∧ d_parent d = x ∧ d_child d = NULL ∧
  d_subdirs d = [] ∧ d_hash_node d = Unlinked ∧ d_unhashed d = true ∧ d_lru d = false ∧ d_op d = None.
Proof. done. Qed.

(** The [mount] method gives the root, of which only the superblock is kept. *)
Lemma wp_call_get_sb dext iext t name s :
  vfs_inv dext iext s → fstypes s !! aufs_type = Some t → fs_owner t = NULL → fs_supers t = [] →
  slab_fail s = [] → slab_next s + 4 * SLAB_STEP ≤ u32 (-1000) →
  Z.of_nat (size (unnamed_dev_idr s)) < 1048576 →
  (∀ x, is_Some (supers s !! x) → x < slab_next s) →
  (∀ x d, dentries s !! x = Some d → d_sb d < slab_next s) →
  wp (call_get_sb_v aufs_get_sb_fn aufs_type 0 name 0) (λ sb s', ∃ root i d ii b,
    new_sb dext iext t s sb root i d ii b s') s.
Proof.
  intros. unfold call_get_sb_v, aufs_get_sb, mount_single_v. wp_step. wp_step.
  eapply wp_mono; [by apply (wp_get_sb_single dext iext t)|].
  intros sb s2 (root & i & d & ii & b & Hns). pose proof Hns as [].
  destruct (root_node_facts root sb i (slab_iname s)) as (D1 & D2 & _).
  rewrite <-ns_dentry0 in D1, D2. pose proof (na_dentry _ _ _ _ _ ns_node0) as Hd.
  rewrite not_err by lia. wp_step. wp_step; [by rewrite ns_supers0, lookup_insert_eq|].
  rewrite (sf_root _ _ _ _ _ ns_facts0).
  eapply wp_mono; [apply (wp_dget _ _ _ _ _ ns_vfs0 Hd); lia|]. intros r s3 (-> & -> & _).
  rewrite not_err by lia. wp_step. wp_step; [simpl; by rewrite lookup_insert_eq|].
  wp_step. eapply (wp_dput_more root (d <| d_count ::= Z.add 1 |>));
    [unfold NULL; lia|simpl; by rewrite lookup_insert_eq|simpl; lia|].
  wp_step. exists root, i, d, ii, b.
  match goal with |- new_sb _ _ _ _ _ _ _ _ _ _ ?st => assert (st = s2) as -> end.
  { kstate_eq. by rewrite count_back. }
  simpl. by rewrite D2.
Qed.

(** ** The mount *)

(** A mount of the new file system with an empty root. *)
Definition mounts_empty (m : ptr) (s2 : kstate) : Prop :=
  IS_ERR m = false ∧ ∃ dext iext sb root,
    tree_inv dext iext sb root {[root := ADir 1 []]} (s2 <| aufs_mount := m |>).

(** What the module relies on. *)
Class KernMount (kern_mount : ptr → KM ptr) : Prop :=
  kern_mount_empty dext iext l t s :
    mountable dext iext l t s → wp (kern_mount aufs_type) mounts_empty s.

Lemma shows_count s s' x d i n :
  shows searchable s x d i (ADir 1 []) → current s' = current s →
  shows searchable s' x (d <| d_count ::= n |>) i (ADir 1 []).
Proof. simpl. intros (? & ? & ? & ? & ? & _) ->. by destruct d. Qed.

(** What the mount makes: the mount, its superblock and its root are new, and
    nothing else changes in their tables. *)
Record fresh_mount (dext iext : refs) (t : file_system_type) (s : kstate) (m sb root i : ptr)
    (d : dentry) (ii : inode) (b : super_block) (mnt : vfsmount) (s' : kstate) : Prop := mkFreshMount {
  fm_vfs : vfs_inv (bump root 1 (first_ref root dext)) (owned i iext) s';
  fm_mounts : mounts s' = <[m := mnt]> (mounts s);
  fm_mnt : mnt_sb mnt = sb ∧ mnt_root mnt = root ∧ mnt_count mnt = 1;
  fm_supers : supers s' = <[sb := b]> (supers s);
  fm_sb_new : supers s !! sb = None;
  fm_facts : sb_facts i root (next_dev s) 0 b;
  fm_dentries : dentries s' = <[root := d <| d_count ::= Z.add 1 |>]> (dentries s);
  fm_root_new : dentries s !! root = None;
  fm_inodes : inodes s' = <[i := ii]> (inodes s);
  fm_inode_new : inodes s !! i = None;
  fm_dentry : d = root_node root sb i (slab_iname s);
  fm_node : node_at s' sb root (d <| d_count ::= Z.add 1 |>) ii;
  fm_shows : shows searchable s' root (d <| d_count ::= Z.add 1 |>) ii (ADir 1 []);
  fm_icount : i_count ii = 1;
  fm_ihash : i_hash ii = Unlinked;
  fm_fstypes : fstypes s' = <[aufs_type := t <| fs_supers ::= cons sb |>]> (fstypes s);
  fm_devs : unnamed_dev_idr s' = {[next_dev s]} ∪ unnamed_dev_idr s;
  fm_blocks : super_blocks s' = super_blocks s ++ [sb];
  fm_mem : slab_fail s' = [];
  fm_nonnull : m ≠ NULL ∧ sb ≠ NULL ∧ root ≠ NULL ∧ IS_ERR m = false
}.

(** The new mount gets its root and superblock. *)
Lemma wp_mount_root dext iext t s sb root i d ii b m mnt s2 :
  new_sb dext iext t s sb root i d ii b s2 → fs_owner t = NULL → 0 < slab_next s →
  mounts s !! m = Some mnt → mnt_count mnt = 1 → m ≠ NULL → IS_ERR m = false →
  wp (b ← get_super sb;
      root ← dget (s_root b);
      mod_mount m (λ m', m'
        <| mnt_sb := sb |> <| mnt_root := root |>
        <| mnt_mountpoint := s_root b |> <| mnt_parent := m |>) ;;
      up_write sb ;;
      put_filesystem aufs_type ;;
      mret m) (λ r s', r = m ∧ ∃ b' mnt',
        fresh_mount dext iext t s m sb root i d ii b' mnt' s') s2.
Proof.
  intros [] Hown Hpos Hm Hmc Hm0 Herr. pose proof (na_dentry _ _ _ _ _ ns_node0) as Hd.
  destruct (root_node_facts root sb i (slab_iname s)) as (D1 & _). rewrite <-ns_dentry0 in D1.
  assert (supers s2 !! sb = Some b) as Hb by (by rewrite ns_supers0, lookup_insert_eq).
  assert (fstypes s2 !! aufs_type = Some (t <| fs_supers ::= cons sb |>)) as Ht
    by (by rewrite ns_fstypes0, lookup_insert_eq).
  wp_step. wp_step; [exact Hb|]. rewrite (sf_root _ _ _ _ _ ns_facts0). wp_step.
  eapply wp_mono; [apply (wp_dget _ _ _ _ _ ns_vfs0 Hd); lia|]. intros r s3 (-> & -> & Hv3).
  rewrite <-ns_mounts0 in Hm. wp_step. wp_step; [exact Hm|]. wp_step. unfold up_write. wp_step.
  wp_step; [exact Hb|]. wp_step. wp_bug; [by rewrite (sf_umount _ _ _ _ _ ns_facts0)|].
  wp_step; [exact Hb|]. wp_step. unfold put_filesystem, module_put. wp_step. wp_step; [exact Ht|].
  change (fs_owner (t <| fs_supers ::= cons sb |>)) with (fs_owner t). rewrite Hown.
  change (NULL =? NULL) with true. cbv iota. wp_step. wp_step. split; [done|].
  do 2 eexists. split; try assumption.
  - apply (vfs_inv_super_attr _ _ _ b); [|exact Hb|done|done]. destruct Hv3 as [Hd' Hi'].
    split; [by apply (dcache_inv_ext _ _ _ _ Hd')|by apply (inode_inv_ext _ _ _ _ Hi')].
  - simpl. by rewrite ns_mounts0.
  - done.
  - simpl. by rewrite ns_supers0, insert_insert_eq.
  - destruct ns_facts0, b. by split.
  - simpl. by rewrite ns_dentries0, insert_insert_eq.
  - destruct ns_node0. split; try done; simpl; [by rewrite lookup_insert_eq|lia].
  - by apply (shows_count s2).
  - unfold NULL in *. split_and!; try done; lia.
Qed.

Lemma alloc_mount_pieces m name s :
  let s' := (after_alloc (after_alloc s)) <| mounts ::= <[m := new_mount name]> |> in
  slab_moved s (after_alloc (after_alloc s)) ∧
  fstypes s' = fstypes s ∧ supers s' = supers s ∧ dentries s' = dentries s ∧
  unnamed_dev_idr s' = unnamed_dev_idr s ∧ mounts s' = <[m := new_mount name]> (mounts s) ∧
  slab_fail s' = tail (tail (slab_fail s)) ∧ slab_next s' = SLAB_STEP + (SLAB_STEP + slab_next s).
Proof.
  split_and!; try done. eexists _, (SLAB_STEP + SLAB_STEP). split; [done|].
  unfold after_alloc. kstate_eq. lia.
Qed.

Lemma wp_kern_mount dext iext l t s :
  mountable dext iext l t s →
  wp (kern_mount_v aufs_type) (λ m s', ∃ s1 sb root i d ii b mnt,
    s1 = (after_alloc (after_alloc s)) <| mounts ::= <[slab_next s := new_mount (fs_name t)]> |> ∧
    vfs_inv dext iext s1 ∧ m = slab_next s ∧ fresh_mount dext iext t s1 m sb root i d ii b mnt s') s.
Proof.
  intros []. assert (cstring (fs_name t)) as Hcs.
  { rewrite mb_name0. vm_compute. repeat constructor; done. }
  assert (SLAB_STEP > 0) as Hst by done.
  pose proof (ii_next _ _ (vi_inode _ _ _ mb_vfs0)) as Hpos.
  unfold kern_mount_v, kern_mount, do_kern_mount. wp_step. wp_step; [exact mb_type0|].
  wp_step. apply (wp_get_fs_type _ l aufs_type t); try assumption.
  change (aufs_type =? NULL) with false. cbv iota. wp_step. apply wp_alloc_vfsmnt; try assumption.
  rewrite (proj2 (Z.eqb_neq (slab_next s) NULL)) by (unfold NULL; lia).
  destruct (alloc_mount_pieces (slab_next s) (fs_name t) s) as (Hm & P1 & P2 & P3 & P4 & P5 & P6 & P7).
  assert (vfs_inv dext iext ((after_alloc (after_alloc s))
    <| mounts ::= <[slab_next s := new_mount (fs_name t)]> |>)) as Hv1.
  { pose proof (slab_moved_inv _ _ _ _ mb_vfs0 Hm) as [Hd Hi].
    split; [by apply (dcache_inv_ext _ _ _ _ Hd)|by apply (inode_inv_ext _ _ _ _ Hi)]. }
  clear Hm. generalize dependent ((after_alloc (after_alloc s))
    <| mounts ::= <[slab_next s := new_mount (fs_name t)]> |>). intros s1 P1 P2 P3 P4 P5 P6 P7 Hv1.
  wp_step. wp_step; [by rewrite P1|]. destruct (fs_get_sb t). wp_step. eapply wp_mono.
  { apply (wp_call_get_sb dext iext t (fs_name t) s1); try assumption.
    - by rewrite P1.
    - by rewrite P6, mb_mem0.
    - lia.
    - by rewrite P4.
    - rewrite P2, P7. intros x Hx%mb_supers0. lia.
    - rewrite P3, P7. intros x d Hx%mb_dsb0. lia. }
  intros sb s2 (root & i & d & ii & b & Hns). pose proof (ns_sb _ _ _ _ _ _ _ _ _ _ _ Hns) as Hsb.
  pose proof (ns_next _ _ _ _ _ _ _ _ _ _ _ Hns) as Hnx. rewrite not_err by lia. eapply wp_mono.
  - apply (wp_mount_root dext iext t s1 sb root i d ii b (slab_next s) (new_mount (fs_name t)) s2 Hns);
      [done|lia|by rewrite P5, lookup_insert_eq|done|unfold NULL; lia|apply not_err; lia].
  - intros r s' (-> & b' & mnt' & Hfm). exists s1, sb, root, i, d, ii, b', mnt'. done.
Qed.

(** A fresh mount shows an empty directory. *)
Lemma fresh_mount_tree dext iext t s m sb root i d ii b mnt s' :
  fresh_mount dext iext t s m sb root i d ii b mnt s' → mounts_empty m s'.
Proof.
  intros [Hv Hmo (M1 & M2 & M3) Hsu _ Hf Hde _ _ _ _ Hn Hs _ _ _ _ _ Hmem (N1 & N2 & N3 & N4)].
  split; [done|]. exists (bump root 1 (first_ref root dext)), (owned i iext), sb, root. split.
  - destruct Hv as [Hd' Hi']. split; [by apply (dcache_inv_ext _ _ _ _ Hd')|
      by apply (inode_inv_ext _ _ _ _ Hi')].
  - done.
  - exists b. simpl. by rewrite Hsu, lookup_insert_eq.
  - split; [done|]. right. split; [done|]. exists mnt, b. simpl.
    rewrite Hmo, M1, Hsu, !lookup_insert_eq. split_and!; try done. apply Hf.
  - intros x n. rewrite lookup_singleton_Some. intros [<- <-]. exists (d <| d_count ::= Z.add 1 |>), ii.
    split; [|exact Hs]. apply (node_at_ext s'); [done|apply Hn|done].
Qed.

(** The vendored mount path keeps the promise. *)
#[export] Instance vendored_mount : KernMount kern_mount_v.
Proof.
  intros dext iext l t s Hm. eapply wp_mono; [by eapply wp_kern_mount|].
  intros m s' (s1 & sb & root & i & d & ii & b & mnt & _ & _ & _ & Hfm). by eapply fresh_mount_tree.
Qed.
