(* ===== verification/PathCount.v ===== *)
(** * References taken and given back

    A path walk moves references from one dentry to the next.  [held m x s] is
    the state [s] with one reference more to the dentry [x] and to the mount
    [m]; the rules below say how the operations on references move between
    such states, and that they keep the tree of a file system. *)

From S2P Require Import Prelude KString Kernel Links Inode InodeInv Dcache DcacheInv DcacheOps Walk.
From S2P Require Import Filesystems Super Mount Libfs Groups Namei LookupSpec Aufs AufsSpec.
From S2P Require Import AufsCreate AufsTree.

(** ** Alterations of a map *)

Lemma alter_alter_eq {A} (f g : A → A) i (m : gmap Z A) : alter f i (alter g i m) = alter (f ∘ g) i m.
Proof.
  apply map_eq. intros j. destruct (decide (i = j)) as [->|Hne].
  - rewrite !lookup_alter_eq. by destruct (m !! j).
  - by rewrite !lookup_alter_ne.
Qed.

Lemma alter_some {A} (f : A → A) i (m : gmap Z A) x :
  m !! i = Some x → alter f i m = <[i := f x]> m.
Proof.
  intros Hx. apply map_eq. intros j. destruct (decide (i = j)) as [->|Hne].
  - by rewrite lookup_alter_eq, Hx, lookup_insert_eq.
  - by rewrite lookup_alter_ne, lookup_insert_ne.
Qed.

Lemma alter_swap {A} (f g : A → A) i j (m : gmap Z A) :
  i ≠ j → alter f i (alter g j m) = alter g j (alter f i m).
Proof.
  intros Hne. apply map_eq. intros k.
  destruct (decide (i = k)) as [->|]; destruct (decide (j = k)) as [->|]; try done;
    rewrite ?lookup_alter_eq, ?lookup_alter_ne, ?lookup_alter_eq, ?lookup_alter_ne by done; done.
Qed.

(** ** Dentry counts *)

Definition recount (n : Z) (d : dentry) : dentry := d <| d_count ::= Z.add n |>.

Definition adj (x : ptr) (n : Z) (s : kstate) : kstate := s <| dentries ::= alter (recount n) x |>.

Lemma recount_recount n m d : recount n (recount m d) = recount (n + m) d.
Proof. destruct d. unfold recount, upd. simpl. f_equal. lia. Qed.

Lemma recount_0 d : recount 0 d = d.
Proof. by destruct d. Qed.

Lemma adj_adj x n m s : adj x n (adj x m s) = adj x (n + m) s.
Proof.
  unfold adj. kstate_eq. rewrite alter_alter_eq. apply alter_ext. intros d _. apply recount_recount.
Qed.

Lemma adj_0 x s : adj x 0 s = s.
Proof. unfold adj. kstate_eq. apply alter_id. intros. apply recount_0. Qed.

Lemma adj_comm x y n m s : adj x n (adj y m s) = adj y m (adj x n s).
Proof.
  destruct (decide (x = y)) as [->|Hne]; [rewrite !adj_adj; f_equal; lia|].
  unfold adj. kstate_eq. by apply alter_swap.
Qed.

Lemma adj_cancel x n s : adj x (- n) (adj x n s) = s.
Proof. rewrite adj_adj, Z.add_opp_diag_l. apply adj_0. Qed.

Lemma adj_lookup_eq x n s : dentries (adj x n s) !! x = recount n <$> dentries s !! x.
Proof. apply lookup_alter_eq. Qed.

Lemma adj_lookup_ne x y n s : y ≠ x → dentries (adj x n s) !! y = dentries s !! y.
Proof. intros Hne. by apply lookup_alter_ne. Qed.

Lemma adj_insert x n s d :
  dentries s !! x = Some d → adj x n s = s <| dentries ::= <[x := recount n d]> |>.
Proof. intros Hx. unfold adj. kstate_eq. by apply alter_some. Qed.

(** ** Mount counts *)

Definition mnt_recount (n : Z) (m : vfsmount) : vfsmount := m <| mnt_count ::= Z.add n |>.

Definition madj (m : ptr) (n : Z) (s : kstate) : kstate := s <| mounts ::= alter (mnt_recount n) m |>.

Lemma madj_madj x n m s : madj x n (madj x m s) = madj x (n + m) s.
Proof.
  unfold madj. kstate_eq. rewrite alter_alter_eq. apply alter_ext. intros [] _.
  unfold mnt_recount, upd. simpl. f_equal. lia.
Qed.

Lemma madj_0 x s : madj x 0 s = s.
Proof. unfold madj. kstate_eq. apply alter_id. by intros []. Qed.

Lemma madj_cancel x n s : madj x (- n) (madj x n s) = s.
Proof. rewrite madj_madj, Z.add_opp_diag_l. apply madj_0. Qed.

Lemma adj_madj x n m k s : adj x n (madj m k s) = madj m k (adj x n s).
Proof. done. Qed.

Definition held (m x : ptr) (s : kstate) : kstate := madj m 1 (adj x 1 s).

(** ** The operations *)

Lemma wp_dget_adj x d Q s :
  x ≠ NULL → dentries s !! x = Some d → d_count d ≠ 0 → Q x (adj x 1 s) → wp (dget x) Q s.
Proof.
  intros Hx0 Hx Hc HQ. unfold dget. rewrite (proj2 (Z.eqb_neq _ _) Hx0). wp_run.
  wp_bug; [by apply Z.eqb_neq|]. wp_run. by rewrite (adj_insert _ _ _ _ Hx) in HQ.
Qed.

(** Giving up a reference that is not the last. *)
Lemma wp_dput_adj x d Q s :
  x ≠ NULL → dentries s !! x = Some d → d_count d ≠ 1 → Q tt (adj x (-1) s) → wp (dput x) Q s.
Proof.
  intros Hx0 Hx Hc HQ. unfold dput. rewrite (proj2 (Z.eqb_neq _ _) Hx0). wp_run.
  rewrite (adj_insert _ _ _ _ Hx) in HQ. simpl. unfold dput_body. wp_run. simpl.
  rewrite (proj2 (Z.eqb_neq _ _)) by lia. simpl. wp_run.
  assert (d <| d_count ::= λ c, c - 1 |> = recount (-1) d) as ->; [|done].
  destruct d. unfold recount, upd. simpl. f_equal. lia.
Qed.

Lemma wp_mntget_adj m mm Q s :
  m ≠ NULL → mounts s !! m = Some mm → Q m (madj m 1 s) → wp (mntget m) Q s.
Proof.
  intros Hm0 Hm HQ. unfold mntget. rewrite (proj2 (Z.eqb_neq _ _) Hm0). simpl. wp_run.
  assert (madj m 1 s = s <| mounts ::= <[m := mm <| mnt_count ::= Z.add 1 |>]> |>) as <-; [|done].
  unfold madj. kstate_eq. by apply alter_some.
Qed.

Lemma wp_mntput_adj m mm Q s :
  m ≠ NULL → mounts s !! m = Some mm → mnt_expiry_mark mm = 0 → mnt_count mm ≠ 1 →
  Q tt (madj m (-1) s) → wp (mntput m) Q s.
Proof.
  intros Hm0 Hm He Hc HQ. unfold mntput, mntput_no_expire.
  rewrite (proj2 (Z.eqb_neq _ _) Hm0). wp_run. simpl. rewrite (proj2 (Z.eqb_neq _ _)) by lia.
  simpl. wp_run. match goal with |- Q _ ?st => assert (st = madj m (-1) s) as ->; [|done] end.
  unfold madj. kstate_eq. rewrite !insert_insert_eq, (alter_some _ _ _ _ Hm). f_equal.
  destruct mm. unfold mnt_recount, upd. simpl in *. subst. f_equal. lia.
Qed.

(** ** The tree under these changes *)

Lemma vfs_inv_madj dext iext m n s : vfs_inv dext iext s → vfs_inv dext iext (madj m n s).
Proof.
  intros [Hd Hi]. split; [by apply (dcache_inv_ext _ _ _ _ Hd)|by apply (inode_inv_ext _ _ _ _ Hi)].
Qed.

Lemma resolves_madj s m n parent p : resolves s parent p → resolves (madj m n s) parent p.
Proof.
  intros [Hp [->|(-> & mnt & b & H1 & H2 & H3 & H4 & H5)]]; split; auto. right. split; [done|].
  exists (if decide (aufs_mount s = m) then mnt_recount n mnt else mnt), b. simpl.
  destruct (decide (aufs_mount s = m)) as [<-|Hne].
  - by rewrite lookup_alter_eq, H2.
  - by rewrite lookup_alter_ne by done.
Qed.

(** References that the outside accounts for do not change the tree. *)
Lemma tree_inv_recount {P} dext iext sb root A x d n s :
  tree_rep P dext iext sb root A s → dentries s !! x = Some d →
  0 ≤ dext x + n → d_count d + n ≠ 0 →
  tree_rep P (bump x n dext) iext sb root A (adj x n s).
Proof.
  intros [H1 H2 H3 H4 H5] Hx Hn Hc.
  assert (∀ y e, dentries s !! y = Some e → dentries (adj x n s) !! y =
    Some (if decide (y = x) then recount n e else e)) as Hl.
  { intros y e He. case_decide as Hy; [subst; by rewrite adj_lookup_eq, He|by rewrite adj_lookup_ne]. }
  split; [|done..|].
  - apply (vfs_inv_count dext iext s _ x d n); [done..|]. rewrite (adj_insert _ _ _ _ Hx).
    assert (recount n d = d <| d_count ::= λ c, c + n |>) as ->; [|done].
    destruct d. unfold recount, upd. simpl. f_equal. lia.
  - intros y k Hy. destruct (H5 _ _ Hy) as (e & i & [N1 N2 N3 N4 N5 N6] & Hs).
    exists (if decide (y = x) then recount n e else e), i. split.
    + split; try done; [by apply Hl|by case_decide; simplify_eq; simpl; [lia|]|by case_decide..].
    + assert (∀ l, Forall (is_entry s y) l → Forall (is_entry (adj x n s) y) l) as Hent.
      { intros l Hf. eapply Forall_impl; [exact Hf|]. intros [nm z] (e' & b & E1 & E2 & [E3 E4 E5 E6]). simpl in *.
        exists (if decide (z = x) then recount n e' else e'), b. simpl. rewrite (Hl _ _ E1).
        by case_decide. }
      destruct k; [|by case_decide]. destruct Hs as (? & [? ?] & ? & ? & ? & Hf). repeat split; auto; by case_decide.
Qed.

Lemma tree_inv_adj {P} dext iext sb root A x d s :
  tree_rep P dext iext sb root A s → dentries s !! x = Some d →
  tree_rep P (bump x 1 dext) iext sb root A (adj x 1 s).
Proof.
  intros Ht Hx. pose proof (dc_ok _ _ (vi_dcache _ _ _ (ti_vfs _ _ _ _ _ _ Ht)) _ _ Hx) as Hok.
  pose proof (do_ext _ _ _ _ Hok). apply (tree_inv_recount _ _ _ _ _ _ d); [done|done|lia|].
  rewrite (do_count _ _ _ _ Hok). lia.
Qed.

Lemma tree_inv_madj {P} dext iext sb root A m k s :
  tree_rep P dext iext sb root A s → tree_rep P dext iext sb root A (madj m k s).
Proof.
  intros [H1 H2 H3 H4 H5]. split.
  - by apply vfs_inv_madj.
  - done.
  - done.
  - by apply resolves_madj.
  - intros y n Hy. destruct (H5 _ _ Hy) as (e & i & [N1 N2 N3 N4 N5 N6] & Hs).
    exists e, i. split; [by split|by destruct n].
Qed.

Lemma tree_inv_held {P} dext iext sb root A m x d s :
  tree_rep P dext iext sb root A s → dentries s !! x = Some d →
  tree_rep P (bump x 1 dext) iext sb root A (held m x s).
Proof. intros Ht Hx. by eapply tree_inv_madj, tree_inv_adj. Qed.

(** Only the allocator moved and empty hash chains appeared. *)
Definition settled (s s' : kstate) : Prop :=
  ∃ n h, slab_next s ≤ n ∧
    (∀ b, default [] (h !! b) = default [] (dentry_hashtable s !! b)) ∧
    s' = s <| slab_next := n |> <| dentry_hashtable := h |>.

#[export] Instance settled_preorder : PreOrder settled.
Proof.
  split.
  - intros s. exists (slab_next s), (dentry_hashtable s). split_and!; [done|done|by destruct s].
  - intros s1 s2 s3 (n & h & Hn & Hh & ->) (n' & h' & Hn' & Hh' & ->). exists n', h'.
    simpl in *. split_and!; [lia| |done]. intros b. by rewrite Hh'.
Qed.

Lemma settled_adj s s' x n : settled s s' → settled (adj x n s) (adj x n s').
Proof. intros (k & h & Hk & Hh & ->). by exists k, h. Qed.

Lemma settled_madj s s' m n : settled s s' → settled (madj m n s) (madj m n s').
Proof. intros (k & h & Hk & Hh & ->). by exists k, h. Qed.

Lemma settled_vfs dext iext s s' : vfs_inv dext iext s → settled s s' → vfs_inv dext iext s'.
Proof.
  intros [Hd Hi] (n & h & Hn & Hh & ->). split.
  - apply (dcache_inv_ext _ _ _ _ Hd); try done. split; try done. intros [|b|sb]; simpl; auto.
  - by apply (inode_inv_ext _ _ _ _ Hi).
Qed.

Lemma settled_tree {P} dext iext sb root A s s' :
  tree_rep P dext iext sb root A s → settled s s' → tree_rep P dext iext sb root A s'.
Proof.
  intros [H1 H2 H3 H4 H5] Hs. pose proof (settled_vfs _ _ _ _ H1 Hs) as Hv.
  destruct Hs as (n & h & Hn & Hh & ->). split; try done.
  intros y k Hy. destruct (H5 _ _ Hy) as (e & i & [N1 N2 N3 N4 N5 N6] & Hsh).
  exists e, i. split; [by split|by destruct k].
Qed.

(** ** The negative dentry of a failed lookup *)

(** A hashed dentry without an inode that only the caller refers to. *)
Record negative_at (t : kstate) (x p b : Z) (d : dentry) : Prop := mkNegativeAt {
  ng_dentry : dentries t !! x = Some d;
  ng_count : d_count d = 1;
  ng_op : d_op d = Some simple_dentry_operations;
  ng_flag : d_unhashed d = false;
  ng_hash : d_hash_node d = InBucket b;
  ng_lru : d_lru d = false;
  ng_inode : d_inode d = NULL;
  ng_child : d_child d = p;
  ng_parent : d_parent d = p
}.

Definition forgotten (x p b : Z) (t : kstate) : kstate :=
  t <| dentries := delete x (alter (λ d, recount (-1) (d <| d_subdirs ::= list_del x |>)) p (dentries t)) |>
    <| dentry_hashtable ::= λ h, <[b := list_del x (default [] (h !! b))]> h |>
    <| nr_dentry ::= λ n, n - 1 |>.

(** [in_map] closes a lookup past updates of other objects; [wp_go] is [wp_run]
    with it. *)
Ltac in_map := cbn -[lookup insert delete]; rewrite ?lookup_insert_eq, ?lookup_insert_ne, ?lookup_insert_eq, ?lookup_insert_ne by done;
  eassumption || reflexivity.
Ltac wp_go := repeat first [wp_step; [solve [wp_lookup | in_map]|] | wp_step; []].

Lemma wp_dput_negative x p b d pd Q t :
  negative_at t x p b d → x ≠ NULL → p ≠ NULL → x ≠ p →
  dentries t !! p = Some pd → d_count pd ≠ 1 →
  Q tt (forgotten x p b t) → wp (dput x) Q t.
Proof.
  intros [H1 H2 H3 H4 H5 H6 H7 H8 H9] Hx0 Hp0 Hne Hp Hc HQ.
  assert (p ≠ x) as Hne' by done.
  unfold dput. rewrite (proj2 (Z.eqb_neq _ _) Hx0). wp_run.
  apply (wp_loop_more _ 2). 2: {
    assert (size (dentries t) ≠ 0)%nat; [|lia]. rewrite map_size_ne_0_lookup. eauto. }
  cbn [loop]. wp_step. unfold dput_body at 1. wp_run. cbn -[lookup insert delete]. rewrite H2. simpl.
  unfold call_d_delete, d_method. simpl. rewrite H3. simpl. unfold __d_drop. wp_run.
  unfold d_unhashed in *. cbn -[lookup insert delete]. rewrite H4. simpl. wp_run.
  unfold d_hash_del. wp_run. cbn -[lookup insert delete]. rewrite H5. wp_run.
  cbn -[lookup insert delete]. rewrite H6. simpl. wp_run.
  unfold kill_dentry, d_child_del. wp_go. cbn -[lookup insert delete]. rewrite H8.
  rewrite (proj2 (Z.eqb_neq _ _) Hp0). wp_go.
  unfold dentry_iput. wp_go. cbn -[lookup insert delete]. rewrite H7. simpl. wp_go.
  unfold d_free. wp_go. cbn -[lookup insert delete]. rewrite H9, (proj2 (Z.eqb_neq _ _) Hne).
  unfold dput_body. wp_step. eapply wp_bind, wp_mod_dentry.
  { cbn -[lookup insert delete]. rewrite lookup_delete_ne by done. in_map. }
  wp_run. cbn -[lookup insert delete]. rewrite (proj2 (Z.eqb_neq _ _)) by lia. simpl. wp_run.
  match goal with |- Q _ ?st => assert (st = forgotten x p b t) as ->; [|done] end.
  unfold forgotten. kstate_eq. apply map_eq. intros y.
  destruct (decide (y = p)) as [->|Hyp].
  - rewrite lookup_insert_eq, lookup_delete_ne, lookup_alter_eq, Hp by done. simpl. f_equal.
    destruct pd. unfold recount, upd. simpl. f_equal. lia.
  - rewrite lookup_insert_ne by done. destruct (decide (y = x)) as [->|Hyx].
    + by rewrite !lookup_delete_eq.
    + by rewrite !lookup_delete_ne, !lookup_insert_ne, lookup_alter_ne by done.
Qed.

(** The bucket of the new dentry. *)
Definition new_bucket (name : qstr) (p : ptr) (s : kstate) : Z :=
  d_hash_val (d_hash_shift s) (d_hash_mask s) p (q_hash name).

Lemma negative_new name p bd n s :
  p ≠ slab_next s →
  negative_at (adj p n (lookup_new name p bd s)) (slab_next s) p (new_bucket name p s)
    (lookup_dentry name p bd s).
Proof.
  intros Hne. split; try done.
  by rewrite adj_lookup_ne, lookup_new_dentries, lookup_insert_eq by done.
Qed.

(** A child that is taken and given back. *)
Lemma recount_subdirs n f d : (recount n d) <| d_subdirs ::= f |> = recount n (d <| d_subdirs ::= f |>).
Proof. by destruct d. Qed.

Lemma adopt_subdirs x f d : (adopt x d) <| d_subdirs ::= f |> = recount 1 (d <| d_subdirs ::= λ l, f (x :: l) |>).
Proof. by destruct d. Qed.

Lemma subdirs_id f d : f (d_subdirs d) = d_subdirs d → d <| d_subdirs ::= f |> = d.
Proof. destruct d. unfold upd. simpl. by intros ->. Qed.

Lemma disowned x n d :
  x ∉ d_subdirs d → recount (-1) ((recount n (adopt x d)) <| d_subdirs ::= list_del x |>) = recount n d.
Proof.
  intros Hx. rewrite recount_subdirs, adopt_subdirs, subdirs_id by (by apply list_del_cons_eq).
  rewrite !recount_recount. f_equal. lia.
Qed.

(** Forgetting it leaves the state before the lookup. *)
Lemma forgotten_new name dext iext p bd n s :
  vfs_inv dext iext s → slab_fail s = [] → dentries s !! p = Some bd →
  settled (adj p n s)
    (forgotten (slab_next s) p (new_bucket name p s) (adj p n (lookup_new name p bd s))).
Proof.
  intros Hv Hf Hp. destruct (fresh_none _ _ _ (slab_next s) Hv) as [Hx _]; [done|].
  assert (p ≠ slab_next s) as Hne by congruence.
  set (b := new_bucket name p s). set (x := slab_next s) in *.
  assert (∀ q, x ∉ chain s q) as Hch.
  { intros q Hq. apply (linked_iff _ _ (dc_chain _ _ (vi_dcache _ _ _ Hv))) in Hq.
    unfold chain_node in Hq. by rewrite Hx in Hq. }
  assert (x ∉ d_subdirs bd) as Hsub.
  { intros Hq. assert (x ∈ subdirs s p) as Hq' by (unfold subdirs; by rewrite Hp).
    apply (linked_iff _ _ (dc_sub _ _ (vi_dcache _ _ _ Hv))) in Hq'.
    unfold child_node in Hq'. by rewrite Hx in Hq'. }
  exists (slab_next (lookup_new name p bd s)),
    (<[b := list_del x (x :: default [] (dentry_hashtable s !! b))]> (dentry_hashtable s)).
  split_and!.
  - destruct (lookup_new_same name p bd s) as (_ & _ & _ & _ & _ & Hlt & _). apply Z.lt_le_incl, Hlt.
  - intros b'. simpl. destruct (decide (b' = b)) as [->|Hb].
    + rewrite lookup_insert_eq. simpl. apply (list_del_cons_eq _ _ (Hch (InBucket b))).
    + by rewrite lookup_insert_ne.
  - unfold lookup_new, rehashed, child_added, forgotten, adj, home_bucket.
    destruct (d_alloc_slab_moved name s) as (l & k & _ & E).
    rewrite E. kstate_eq.
    + fold x. rewrite !insert_insert_eq. apply map_eq. intros y.
      destruct (decide (y = x)) as [->|Hyx].
      { by rewrite lookup_delete_eq, lookup_alter_ne, Hx by done. }
      rewrite lookup_delete_ne by done. destruct (decide (y = p)) as [->|Hyp].
      * rewrite !lookup_alter_eq, lookup_insert_ne, lookup_alter_eq, Hp by done. simpl. f_equal.
        by apply disowned.
      * by rewrite !lookup_alter_ne, lookup_insert_ne, lookup_alter_ne by done.
    + rewrite Hf. unfold d_alloc_slab, after_alloc in E.
      apply (f_equal slab_fail) in E. simpl in E. rewrite <-E. by destruct (long_name name); simpl; rewrite Hf.
    + fold b x. unfold b at 3. unfold new_bucket. by rewrite lookup_insert_eq, insert_insert_eq.
    + lia.
Qed.
