(* ===== verification/PathNames.v ===== *)
(** * The components of a path

    What the scanning loops of [__link_path_walk] find in a path name, against
    a reference definition of its components: the pieces between slashes that
    are not empty. *)

From S2P Require Import Prelude KString Kernel Links Inode InodeInv Dcache DcacheInv DcacheOps.
From S2P Require Import Filesystems Super Mount Libfs Groups Namei LookupSpec Path.

(** ** Reference definition *)

Definition flush (piece : bytes) : list bytes := if piece is [] then [] else [piece].

Fixpoint pieces (piece path : bytes) : list bytes :=
  match path with
  | [] => flush piece
  | c :: path' => if c =? 47 then flush piece ++ pieces [] path' else pieces (piece ++ [c]) path'
  end.

Definition names_of (path : bytes) : list bytes := pieces [] path.

(** The path ends in a slash. *)
Definition trailing (path : bytes) : bool := bool_decide (last path = Some 47).

(** ** The loops *)

Lemma names_of_slash path : names_of (47 :: path) = names_of path.
Proof. done. Qed.

Lemma names_of_skip path : names_of (skip_slashes path) = names_of path.
Proof.
  induction path as [|c path IH]; [done|]. simpl. destruct (c =? 47) eqn:E; [|done].
  apply Z.eqb_eq in E. subst. by rewrite names_of_slash.
Qed.

Lemma skip_slashes_head path : head_byte (skip_slashes path) ≠ 47.
Proof.
  induction path as [|c path IH]; [done|]. simpl. destruct (c =? 47) eqn:E; [done|].
  by apply Z.eqb_neq.
Qed.

Lemma skip_slashes_length path : (length (skip_slashes path) ≤ length path)%nat.
Proof. induction path as [|c path IH]; [done|]. simpl. destruct (c =? 47); simpl; lia. Qed.

Lemma skip_slashes_cstring path : cstring path → cstring (skip_slashes path).
Proof.
  induction 1 as [|c path Hc Hp IH]; simpl; [constructor|].
  destruct (c =? 47); [done|by constructor].
Qed.

Lemma skip_slashes_last path : skip_slashes path ≠ [] → last (skip_slashes path) = last path.
Proof.
  induction path as [|c path IH]; [done|]. simpl. destruct (c =? 47) eqn:E; [|done].
  intros Hne. rewrite IH by done. destruct path; [done|]. done.
Qed.

Lemma skip_slashes_nil path : skip_slashes path = [] → path = [] ∨ last path = Some 47.
Proof.
  induction path as [|c path IH]; [by left|]. simpl. destruct (c =? 47) eqn:E; [|done].
  apply Z.eqb_eq in E. subst. intros [->|Hl]%IH; right; [done|]. by destruct path.
Qed.

Lemma pieces_run c piece rest :
  Forall (λ b, b ≠ 0 ∧ b ≠ 47) c → pieces piece (c ++ rest) = pieces (piece ++ c) rest.
Proof.
  intros Hc. revert piece. induction Hc as [|b c [_ Hb] Hc IH]; intros piece; simpl.
  { by rewrite app_nil_r. }
  rewrite (proj2 (Z.eqb_neq _ _) Hb), IH, <-app_assoc. done.
Qed.

Lemma names_of_component c rest :
  component c → rest = [] ∨ head_byte rest = 47 → names_of (c ++ rest) = c :: names_of rest.
Proof.
  intros Hc Hr. unfold names_of. rewrite pieces_run by (by apply component_bytes). simpl.
  pose proof Hc as (_ & Hne & _). destruct rest as [|b rest]; simpl.
  { by destruct c. }
  destruct Hr as [?|Hr]; [done|]. simpl in Hr. subst b. simpl. by destruct c.
Qed.

(** One run of the hashing loop takes one component off the path. *)
Record scanned (name comp rest : bytes) (len hash : Z) : Prop := mkScanned {
  sc_split : name = comp ++ rest;
  sc_comp : component comp;
  sc_rest : rest = [] ∨ head_byte rest = 47;
  sc_len : len = Z.of_nat (length comp);
  sc_hash : hash = name_hash_loop comp (length comp) init_name_hash
}.

Lemma scan_run name len h :
  cstring name → ∃ comp rest,
    scan_component name len h =
      (len + Z.of_nat (length comp), name_hash_loop comp (length comp) h, rest) ∧
    name = comp ++ rest ∧ Forall (λ b, b ≠ 0 ∧ b ≠ 47) comp ∧ (rest = [] ∨ head_byte rest = 47).
Proof.
  intros Hn. revert len h. induction Hn as [|c name Hc Hn IH]; intros len h; simpl.
  { exists [], []. split_and!; [|done|constructor|by left]. simpl. f_equal. f_equal. lia. }
  rewrite (proj2 (Z.eqb_neq c 0)) by lia. simpl. destruct (c =? 47) eqn:E.
  - apply Z.eqb_eq in E. subst. exists [], (47 :: name). split_and!; [|done|constructor|by right].
    simpl. f_equal. f_equal. lia.
  - apply Z.eqb_neq in E.
    destruct (IH (len + 1) (partial_name_hash c h)) as (comp & rest & E1 & -> & E3 & E4).
    exists (c :: comp), rest. split_and!; [|done| |done].
    + rewrite E1. simpl. f_equal. f_equal. lia.
    + constructor; [|done]. split; [lia|done].
Qed.

Lemma scan_component_spec name :
  cstring name → name ≠ [] → head_byte name ≠ 47 →
  ∃ comp rest len hash, scan_component name 0 init_name_hash = (len, hash, rest) ∧
    scanned name comp rest len hash.
Proof.
  intros Hn Hne Hh. destruct (scan_run name 0 init_name_hash Hn) as (comp & rest & E1 & E2 & E3 & E4).
  exists comp, rest, (0 + Z.of_nat (length comp)), (name_hash_loop comp (length comp) init_name_hash).
  split; [done|]. split; [done| |done|lia|done]. split_and!.
  - unfold cstring in *. rewrite E2 in Hn. by apply Forall_app in Hn as [? _].
  - intros ->. simpl in E2. subst. destruct E4; done.
  - intros Hin. rewrite Forall_forall in E3. by destruct (E3 _ Hin).
Qed.

Lemma names_of_last name :
  cstring name → name ≠ [] → head_byte name ≠ 47 → ∃ init c, names_of name = init ++ [c].
Proof.
  intros Hn Hne Hh. destruct (scan_component_spec name Hn Hne Hh) as (c & rest & len & h & _ & [-> Hc Hr _ _]).
  rewrite names_of_component by done. destruct (exists_last (l := c :: names_of rest)) as (i & x & E); [done|].
  by exists i, x.
Qed.

(** ** The key of a component

    A walk looks up a component with a pointer into the path: the name goes on
    behind its length, and the lookup does not see it. *)

Definition path_key (comp rest : bytes) : qstr :=
  {| q_hash := q_hash (key comp); q_len := q_len (key comp); q_name := comp ++ rest |}.

Lemma scanned_key name comp rest len hash :
  scanned name comp rest len hash →
  {| q_hash := end_name_hash hash; q_len := len; q_name := name |} = path_key comp rest.
Proof.
  intros [-> _ _ -> ->]. unfold path_key, key, full_name_hash. simpl. by rewrite Nat2Z.id.
Qed.

Lemma bind_eq {S A B} (m m' : M S A) (f g : A → M S B) s :
  m s = m' s → (∀ a s, f a s = g a s) → (m ≫= f) s = (m' ≫= g) s.
Proof. intros E H. unfold mbind, M_bind. rewrite E. by destruct (m' s). Qed.

Lemma memcmp_app d comp rest : memcmp d (comp ++ rest) (length comp) = memcmp d comp (length comp).
Proof.
  revert d. induction comp as [|c comp IH]; intros d; simpl; [done|]. by rewrite IH.
Qed.

Lemma d_lookup_in_key l p comp rest s :
  d_lookup_in l p (path_key comp rest) s = d_lookup_in l p (key comp) s.
Proof.
  revert s. induction l as [|x l IH]; intros s; [done|]. simpl. apply bind_eq; [done|]. intros d s1.
  destruct (d_name_hash d =? _); simpl; [|by apply IH].
  destruct (d_parent d =? p); simpl; [|by apply IH]. apply bind_eq; [done|]. intros pd s2.
  rewrite Nat2Z.id, memcmp_app. apply bind_eq; [done|]. intros [] s3; [apply IH|done].
Qed.

Lemma d_lookup_key p comp rest s :
  __d_lookup p (path_key comp rest) s = __d_lookup p (key comp) s.
Proof.
  unfold __d_lookup. apply bind_eq; [done|]. intros h s1. apply bind_eq; [done|]. intros l s2. apply d_lookup_in_key.
Qed.

Lemma d_alloc_key p comp rest s : d_alloc p (path_key comp rest) s = d_alloc p (key comp) s.
Proof.
  assert (∀ junk, d_alloc_init (path_key comp rest) junk = d_alloc_init (key comp) junk) as E.
  { intros junk. unfold d_alloc_init, path_key, key, long_name. simpl.
    by rewrite Nat2Z.id, take_app_length, take_ge by done. }
  unfold d_alloc. change (long_name (path_key comp rest)) with (long_name (key comp)).
  apply bind_eq; [done|]. intros x s1. destruct (x =? NULL); [done|].
  apply bind_eq; [done|]. intros y s2. destruct (y =? NULL); [done|].
  apply bind_eq; [done|]. intros junk s3. by rewrite E.
Qed.

Lemma real_lookup_key p comp rest s :
  real_lookup p (path_key comp rest) s = real_lookup p (key comp) s.
Proof.
  unfold real_lookup, d_lookup. apply bind_eq; [done|]. intros d s1.
  apply bind_eq; [done|]. intros i s2. apply bind_eq; [apply d_lookup_key|]. intros x s3.
  destruct (x =? NULL); [|done]. apply bind_eq; [apply d_alloc_key|done].
Qed.

Lemma do_lookup_key nd comp rest s :
  do_lookup nd (path_key comp rest) s = do_lookup nd (key comp) s.
Proof.
  unfold do_lookup. apply bind_eq; [apply d_lookup_key|]. intros x s1.
  apply bind_eq; [|done]. destruct (x =? NULL); [apply real_lookup_key|done].
Qed.

Lemma lookup_hash_key p comp rest s :
  lookup_hash (path_key comp rest) p s = lookup_hash (key comp) p s.
Proof.
  unfold lookup_hash, __lookup_hash. apply bind_eq; [done|]. intros b s1.
  apply bind_eq; [done|]. intros err s2. destruct (err =? 0); [|done]. simpl.
  apply bind_eq; [done|]. intros u s3. apply bind_eq.
  - unfold cached_lookup, d_lookup. apply bind_eq; [apply d_lookup_key|]. intros x s4.
    apply bind_eq; [|done]. destruct (x =? NULL); [apply d_lookup_key|done].
  - intros x s4. destruct (x =? NULL); [|done]. apply bind_eq; [apply d_alloc_key|done].
Qed.

(** ** Dots *)

Lemma dots_key comp rest :
  component comp →
  dots (path_key comp rest) =
    if bool_decide (comp = [46]) then 1 else if bool_decide (comp = [46; 46]) then 2 else 0.
Proof.
  intros (_ & Hne & _). unfold dots, path_key.
  case_bool_decide as E1; [by subst|]. case_bool_decide as E2; [by subst|].
  destruct comp as [|a comp]; [done|]. cbn -[Z.of_nat length Z.eqb]. destruct (a =? 46) eqn:Ea; [|done].
  apply Z.eqb_eq in Ea. subst a. cbn [negb].
  destruct comp as [|b comp]; [done|]. destruct comp as [|c comp].
  - simpl. destruct (b =? 46) eqn:Eb; [apply Z.eqb_eq in Eb; by subst|done].
  - rewrite (proj2 (Z.eqb_neq _ 2)), (proj2 (Z.eqb_neq _ 1)) by (cbn [length]; lia). done.
Qed.
