(* ===== verification/PathSpec.v ===== *)
(** * Path resolution refines the tree

    A path name is resolved in the abstract tree of a file system by following
    its components from a stack of directories: an entry is pushed, [..] pops,
    [.] does nothing.  [path_lookup] implements this resolution: it returns the
    object with one reference to its dentry and one to its mount, or the error
    of the first component that fails, and changes nothing else. *)

From S2P Require Import Prelude KString Kernel Links Inode InodeInv Dcache DcacheInv DcacheOps Walk.
From S2P Require Import Filesystems Super Mount Libfs Groups Namei LookupSpec Path Aufs AufsSpec.
From S2P Require Import AufsCreate AufsTree KernMount PathCount PathNames.

(** ** Resolution in the abstract tree *)

Fixpoint entry_named (name : bytes) (l : list (bytes * ptr)) : option ptr :=
  match l with
  | [] => None
  | (n, x) :: l' => if decide (n = name) then Some x else entry_named name l'
  end.

Definition dot : bytes := [46].
Definition dotdot : bytes := [46; 46].

(** [..] leaves the top of the stack, except at the root. *)
Definition up (st : list ptr) : list ptr :=
  match st with _ :: ((_ :: _) as anc) => anc | _ => st end.
#[local] Arguments up : simpl never.

(** The directories that the task may search. *)
Definition search (s : kstate) (x : ptr) : bool :=
  match dentries s !! x with
  | Some d => match inodes s !! d_inode d with Some i => may_exec (current s) i =? 0 | None => false end
  | None => false
  end.

(** One component, from the directory on top of the stack, which the task has to
    be allowed to search. *)
Definition astep (may : ptr → bool) (A : atree) (st : list ptr) (name : bytes) : Z + list ptr :=
  match st with
  | [] => inl ENOENT
  | cur :: _ =>
      match A !! cur with
      | Some (ADir _ l) =>
          if negb (may cur) then inl EACCES
          else if bool_decide (name = dot) then inr st
          else if bool_decide (name = dotdot) then inr (up st)
          else match entry_named name l with Some x => inr (x :: st) | None => inl ENOENT end
      | _ => inl ENOTDIR
      end
  end.

Fixpoint aresolve (may : ptr → bool) (A : atree) (st : list ptr) (names : list bytes) : Z + list ptr :=
  match names with
  | [] => inr st
  | name :: names' =>
      match astep may A st name with inl e => inl e | inr st' => aresolve may A st' names' end
  end.

(** The object that a stack leads to, where a directory may be asked for. *)
Definition atop (A : atree) (want_dir : bool) (r : Z + list ptr) : Z + ptr :=
  match r with
  | inl e => inl e
  | inr [] => inl ENOENT
  | inr (x :: _) =>
      if want_dir && negb (from_option is_adir false (A !! x)) then inl ENOTDIR else inr x
  end.

(** Going on behind an object asks for the permission to search it. *)
Definition enter (may : ptr → bool) (r : Z + ptr) : Z + ptr :=
  match r with inl e => inl e | inr x => if may x then inr x else inl EACCES end.

(** A stack of directories from the root, except that the top may be a file. *)
Fixpoint chained (A : atree) (root : ptr) (st : list ptr) : Prop :=
  match st with
  | [] => False
  | [x] => x = root ∧ ∃ k l, A !! x = Some (ADir k l)
  | x :: ((p :: _) as st') =>
      (∃ n, A !! x = Some n) ∧ (∃ k l name, A !! p = Some (ADir k l) ∧ (name, x) ∈ l) ∧
      chained A root st'
  end.

(** ** The state a walk needs *)

(** A tree below the root of a mount, on which nothing else is mounted; the task
    has this root for its own.  Nothing is asked of its rights. *)
Record walkable (dext iext : refs) (sb root : ptr) (A : atree) (m : ptr) (s : kstate) : Prop :=
  mkWalkable {
    wk_tree : tree_shape dext iext sb root A s;
    wk_low : slab_next s ≤ u32 (-1000);
    wk_root : ∃ k l, A !! root = Some (ADir k l);
    wk_dirs p k l : A !! p = Some (ADir k l) →
      NoDup l.*1 ∧ ∀ name x, (name, x) ∈ l → is_Some (A !! x) ∧ x ≠ root;
    wk_plain x n d : A !! x = Some n → dentries s !! x = Some d → d_mounted d = 0 ∧ d_sb d = sb;
    wk_type : ∃ b t, supers s !! sb = Some b ∧ fstypes s !! s_type b = Some t ∧
      has_flag (fs_flags t) FS_REVAL_DOT = false;
    wk_nonnull : m ≠ NULL;
    wk_mnt : ∃ mm, mounts s !! m = Some mm ∧ 1 ≤ mnt_count mm ∧ mnt_expiry_mark mm = 0 ∧
      mnt_root mm = root;
    wk_fs : fs_root (task_fs (current s)) = root ∧ fs_rootmnt (task_fs (current s)) = m;
    wk_top d : dentries s !! root = Some d → d_parent d = root
  }.

(** What an object of the tree is made of. *)
Record object (sb : ptr) (s : kstate) (x : ptr) (n : anode) (d : dentry) (i : inode) : Prop := mkObject {
  ob_node : node_at s sb x d i;
  ob_shows : shows any_inode s x d i n;
  ob_addr : x ≠ NULL;
  ob_low : IS_ERR x = false;
  ob_count : 1 ≤ d_count d;
  ob_plain : d_mounted d = 0;
  ob_sb : d_sb d = sb;
  ob_inode : d_inode d ≠ NULL
}.

Section walk.
Context (dext iext : refs) (sb root : ptr) (A : atree) (m : ptr) (s : kstate).
Hypothesis Hw : walkable dext iext sb root A m s.

Let Ht := wk_tree _ _ _ _ _ _ _ Hw.
Let Hv := ti_vfs _ _ _ _ _ _ Ht.

Lemma walk_object x n : A !! x = Some n → ∃ d i, object sb s x n d i.
Proof.
  intros Hx. destruct (ti_node _ _ _ _ _ _ Ht _ _ Hx) as (d & i & Hn & Hs).
  pose proof Hn as [N1 N2 N3 N4 N5 N6].
  destruct (wk_plain _ _ _ _ _ _ _ Hw _ _ _ Hx N1) as [P1 P2].
  pose proof (vi_dcache _ _ _ Hv) as Hd. pose proof (dc_ok _ _ Hd _ _ N1) as Hok.
  exists d, i. split; try done.
  - by apply (dentry_addr _ _ _ _ Hd N1).
  - apply not_err. pose proof (dc_addr _ _ Hd x (ex_intro _ _ N1)).
    pose proof (wk_low _ _ _ _ _ _ _ Hw). lia.
  - rewrite (do_count _ _ _ _ Hok) in *. pose proof (do_ext _ _ _ _ Hok). lia.
  - apply (inode_addr _ _ _ _ (vi_inode _ _ _ Hv) N3).
Qed.
End walk.

Lemma held_lookup m x s y d :
  dentries s !! y = Some d →
  dentries (held m x s) !! y = Some (if decide (y = x) then recount 1 d else d).
Proof.
  intros Hy. change (dentries (held m x s)) with (dentries (adj x 1 s)).
  destruct (decide (y = x)) as [->|Hne]; [by rewrite adj_lookup_eq, Hy|by rewrite adj_lookup_ne].
Qed.

Lemma walkable_recount dext iext sb root A m x d k s :
  walkable dext iext sb root A m s → dentries s !! x = Some d → 0 ≤ dext x + k → d_count d + k ≠ 0 →
  walkable (bump x k dext) iext sb root A m (adj x k s).
Proof.
  intros Hw Hx Hk Hc. destruct Hw as [Ht Hl Hr Hd Hp Htp Hm0 Hm Hf Htop].
  assert (∀ y e, dentries (adj x k s) !! y = Some e → ∃ e', dentries s !! y = Some e' ∧
    d_mounted e = d_mounted e' ∧ d_sb e = d_sb e' ∧ d_parent e = d_parent e') as Hback.
  { intros y e He. destruct (decide (y = x)) as [->|Hne].
    - rewrite adj_lookup_eq in He. apply fmap_Some in He as (e' & He' & ->). by exists e'.
    - rewrite adj_lookup_ne in He by done. by exists e. }
  split; try done.
  - by apply (tree_inv_recount _ _ _ _ _ _ d).
  - intros y n e Hy He. destruct (Hback _ _ He) as (e' & He' & -> & -> & _). eauto.
  - intros e He. destruct (Hback _ _ He) as (e' & He' & _ & _ & ->). eauto.
Qed.

Lemma walkable_adj dext iext sb root A m x n s :
  walkable dext iext sb root A m s → A !! x = Some n →
  walkable (bump x 1 dext) iext sb root A m (adj x 1 s).
Proof.
  intros Hw Hx. destruct (walk_object _ _ _ _ _ _ _ Hw _ _ Hx) as (d & i & [[N1 _ _ _ _ _] _ _ _ Hc _ _ _]).
  pose proof (do_ext _ _ _ _ (dc_ok _ _ (vi_dcache _ _ _ (ti_vfs _ _ _ _ _ _ (wk_tree _ _ _ _ _ _ _ Hw))) _ _ N1)).
  apply (walkable_recount _ _ _ _ _ _ _ d); [done|done|lia|lia].
Qed.

Lemma walkable_held dext iext sb root A m x n s :
  walkable dext iext sb root A m s → A !! x = Some n →
  walkable (bump x 1 dext) iext sb root A m (held m x s).
Proof.
  intros Hw Hx. destruct (walkable_adj _ _ _ _ _ _ _ _ _ Hw Hx)
    as [Ht Hl Hr Hd Hp Htp Hm0 (mm & Hm & M1 & M2 & M3) Hf Htop]. split; try done.
  - by apply tree_inv_madj.
  - exists (mnt_recount 1 mm). simpl in *. rewrite lookup_alter_eq, Hm. simpl. split_and!; [done|lia|done|done].
Qed.

(** ** Permission *)

(** The quick check grants what the full check grants. *)
Lemma exec_bit mode : (Z.land (Z.land mode MAY_EXEC) (Z.lor MAY_READ (Z.lor MAY_WRITE MAY_EXEC)) =? MAY_EXEC) =
  has_flag mode MAY_EXEC.
Proof.
  unfold has_flag. rewrite <-Z.land_assoc. change (Z.land MAY_EXEC _) with (Z.ones 1).
  change MAY_EXEC with (Z.ones 1). rewrite Z.land_ones by lia. change (2 ^ 1) with 2.
  assert (mode mod 2 = 0 ∨ mode mod 2 = 1) as [-> | ->]; [|done..].
  pose proof (Z.mod_pos_bound mode 2). lia.
Qed.

Lemma wp_exec_permission x i Q s :
  inodes s !! x = Some i → Q (may_exec (current s) i) s → wp (exec_permission_lite x) Q s.
Proof.
  intros Hx HQ. unfold exec_permission_lite. wp_run. simpl. wp_run. unfold may_exec, check_mode in HQ.
  rewrite exec_bit in HQ. destruct (has_flag _ MAY_EXEC); [done|].
  unfold check_capabilities in HQ. cbn [has_flag MAY_EXEC] in HQ.
  change (has_flag MAY_EXEC MAY_EXEC) with true in HQ. change (has_flag MAY_EXEC MAY_WRITE) with false in HQ.
  change (MAY_EXEC =? MAY_READ) with false in HQ. cbn [negb orb andb] in HQ.
  destruct (has_flag (i_mode i) S_IXUGO), (S_ISDIR (i_mode i)), (cap_dac_override (current s)),
    (cap_dac_read_search (current s)); simpl in *; wp_run; done.
Qed.

Lemma may_exec_cases t i : may_exec t i = 0 ∨ may_exec t i = - EACCES.
Proof. unfold may_exec, check_mode, check_capabilities. repeat case_match; auto. Qed.

Lemma search_node sb x d i s : node_at s sb x d i → search s x = (may_exec (current s) i =? 0).
Proof. intros [H1 _ H2 _ _ _]. unfold search. by rewrite H1, H2. Qed.

Lemma search_adj x n y s : search (adj x n s) y = search s y.
Proof.
  unfold search. change (inodes (adj x n s)) with (inodes s). change (current (adj x n s)) with (current s).
  destruct (decide (y = x)) as [->|Hne]; [rewrite adj_lookup_eq; by destruct (dentries s !! x)|by rewrite adj_lookup_ne].
Qed.

Lemma search_held m x y s : search (held m x s) y = search s y.
Proof. exact (search_adj x 1 y s). Qed.

(** ** Steps of the walk *)

Section steps.
Context (dext iext : refs) (sb root : ptr) (A : atree) (m : ptr) (s : kstate).
Hypothesis Hw : walkable dext iext sb root A m s.


(** The caller gives back what it holds. *)
Lemma wp_release x n Q :
  A !! x = Some n → Q tt s → wp (path_release (m, x)) Q (held m x s).
Proof.
  intros Hx HQ. destruct (walk_object _ _ _ _ _ _ _ Hw _ _ Hx) as (d & i & Ho).
  destruct Ho as [[N1 _ _ _ _ _] _ Hx0 _ Hc _ _ _].
  destruct (wk_mnt _ _ _ _ _ _ _ Hw) as (mm & Hm & M1 & M2 & M3).
  unfold path_release. wp_step. simpl.
  eapply wp_dput_adj; [done|by rewrite (held_lookup _ _ _ _ _ N1), decide_True by done|simpl; lia|].
  eapply wp_mntput_adj; [apply (wk_nonnull _ _ _ _ _ _ _ Hw)| | | |].
  - simpl. by rewrite lookup_alter_eq, Hm.
  - done.
  - simpl. lia.
  - unfold held. rewrite adj_madj. change (-1) with (- (1)).
    by rewrite adj_cancel, madj_cancel.
Qed.

(** Giving back [p] once [x] is held, too. *)
Lemma wp_shift p x np Q :
  A !! p = Some np → Q tt (held m x s) → wp (dput p) Q (adj x 1 (held m p s)).
Proof.
  intros Hp HQ. destruct (walk_object _ _ _ _ _ _ _ Hw _ _ Hp) as (d & i & Ho).
  destruct Ho as [[N1 _ _ _ _ _] _ Hp0 _ Hc _ _ _].
  assert (∃ e, dentries (adj x 1 (held m p s)) !! p = Some e ∧ 2 ≤ d_count e) as (e & He & Hce).
  { pose proof (held_lookup m p s p d N1) as E. rewrite decide_True in E by done.
    destruct (decide (p = x)) as [->|Hne].
    - rewrite adj_lookup_eq, E. eexists. split; [done|]. simpl. lia.
    - rewrite adj_lookup_ne, E by done. eexists. split; [done|]. simpl. lia. }
  eapply wp_dput_adj; [done|done|lia|].
  assert (adj p (-1) (adj x 1 (held m p s)) = held m x s) as ->; [|done].
  unfold held. rewrite adj_comm, !adj_madj. change (-1) with (- (1)). by rewrite adj_cancel.
Qed.

(** The walk goes on from [p] to [x]. *)
Lemma wp_move_on p x np nd Q :
  A !! p = Some np → nd_dentry nd = p → nd_mnt nd = m →
  Q (nd <| nd_mnt := m |> <| nd_dentry := x |>) (held m x s) →
  wp (path_to_nameidata (m, x) nd) Q (adj x 1 (held m p s)).
Proof.
  intros Hp E1 E2 HQ. unfold path_to_nameidata. rewrite E1, E2. simpl. rewrite Z.eqb_refl. simpl.
  wp_step. eapply wp_shift; [done|]. by wp_run.
Qed.

Lemma wp_not_mounted x d Q t :
  dentries t !! x = Some d → d_mounted d = 0 → Q (0, (m, x)) t → wp (__follow_mount (m, x)) Q t.
Proof.
  intros Hx Hd HQ. unfold __follow_mount, mnt_fuel. wp_run.
  rewrite Nat.add_comm. cbn [loop Nat.add]. wp_run. unfold d_mountpoint. rewrite Hd. simpl. by wp_run.
Qed.

(** ** The lookup of one component *)

Lemma held_tree p n : A !! p = Some n → tree_shape (bump p 1 dext) iext sb root A (held m p s).
Proof. intros Hp. apply (wk_tree _ _ _ _ _ _ _ (walkable_held _ _ _ _ _ _ _ _ _ Hw Hp)). Qed.

Lemma wp_lookup_entry p k l name x nd Q :
  A !! p = Some (ADir k l) → (name, x) ∈ l → nd_dentry nd = p → nd_mnt nd = m →
  Q (inr (m, x)) (adj x 1 (held m p s)) → wp (do_lookup nd (key name)) Q (held m p s).
Proof.
  intros Hp Hin E1 E2 HQ. destruct (wk_dirs _ _ _ _ _ _ _ Hw _ _ _ Hp) as [Hnd Hcl].
  destruct (Hcl _ _ Hin) as [[nx Hx] _].
  destruct (walk_object _ _ _ _ _ _ _ Hw _ _ Hx) as (d & i & [[N1 _ _ _ _ _] _ Hx0 Hl _ Hpl _ _]).
  destruct (walk_object _ _ _ _ _ _ _ Hw _ _ Hp) as (pd & pi & [[P1 _ _ _ _ _] _ _ _ _ _ _ _]).
  pose proof (held_tree _ _ Hp) as Hth. pose proof (ti_vfs _ _ _ _ _ _ Hth) as Hvh.
  unfold do_lookup. rewrite E1, E2. wp_step.
  eapply wp_mono; [apply (wp_d_lookup _ _ p _ (key name) _ Hvh (held_lookup m p s p pd P1))|].
  intros r t [Hspec Ht'].
  assert (r = x) as -> by (by apply (entry_unique _ _ _ _ _ _ _ _ _ _ _ _ Hth Hp Hnd Hin)).
  rewrite decide_False in Ht' by done. destruct Ht' as [_ Ht'].
  pose proof (held_lookup m p s x d N1) as E. specialize (Ht' _ E).
  assert (t = adj x 1 (held m p s)) as -> by (rewrite (adj_insert _ _ _ _ E); exact Ht').
  rewrite (proj2 (Z.eqb_neq _ _) Hx0). wp_step.
  assert (∃ e, dentries (adj x 1 (held m p s)) !! x = Some e ∧ d_mounted e = 0) as (e & He & Hme).
  { rewrite adj_lookup_eq, E. eexists. split; [done|]. by destruct (decide (x = p)). }
  wp_step. wp_step; [exact He|]. wp_run. rewrite Hl. wp_step.
  by apply (wp_not_mounted x e).
Qed.

Lemma wp_lookup_missing p k l name nd Q :
  A !! p = Some (ADir k l) → name ∉ l.*1 → Z.of_nat (length name) ≤ NAME_MAX →
  nd_dentry nd = p → nd_mnt nd = m →
  (∀ pd, dentries (held m p s) !! p = Some pd →
     Q (inr (m, slab_next s)) (lookup_new (key name) p pd (held m p s))) →
  wp (do_lookup nd (key name)) Q (held m p s).
Proof.
  intros Hp Hno Hlen E1 E2 HQ.
  destruct (walk_object _ _ _ _ _ _ _ Hw _ _ Hp) as (pd & pi & [[P1 P2 P3 _ _ _] (S1 & _) _ _ _ _ _ _]).
  pose proof (held_tree _ _ Hp) as Hth. pose proof (ti_vfs _ _ _ _ _ _ Hth) as Hvh.
  pose proof (held_lookup m p s p pd P1) as P1'. rewrite decide_True in P1' by done.
  pose proof (absent _ _ _ _ _ _ _ _ _ _ Hth Hp Hno) as Habs. specialize (HQ _ P1').
  assert (slab_fail (held m p s) = []) as Hf by apply (ti_mem _ _ _ _ _ _ Hth).
  assert (inodes (held m p s) !! d_inode (recount 1 pd) = Some pi) as P3' by done.
  pose proof (wk_low _ _ _ _ _ _ _ Hw) as Hlow. change (slab_next s) with (slab_next (held m p s)) in *.
  assert (d_count (recount 1 pd) ≠ 0) as Hc.
  { pose proof (dc_ok _ _ (vi_dcache _ _ _ Hvh) _ _ P1') as Hok. rewrite (do_count _ _ _ _ Hok).
    pose proof (do_ext _ _ _ _ Hok). rewrite bump_same in *. simpl.
    pose proof (do_ext _ _ _ _ (dc_ok _ _ (vi_dcache _ _ _ (ti_vfs _ _ _ _ _ _ (wk_tree _ _ _ _ _ _ _ Hw))) _ _ P1)). lia. }
  remember (held m p s) as t eqn:Et. clear Et. remember (recount 1 pd) as pd' eqn:Epd. clear Epd.
  assert (∀ Q, Q NULL t → wp (__d_lookup p (key name)) Q t) as Hl.
  { intros Q' HQ'. eapply wp_mono; [apply (wp_d_lookup _ _ p _ (key name) _ Hvh P1')|].
    intros r t' [Hspec Hr]. destruct (decide (r = NULL)) as [->|Hr0]; [by subst|]. exfalso.
    unfold lookup_spec in *. rewrite decide_True in Habs by done. rewrite decide_False in Hspec by done.
    destruct Hspec as (e & b & He & Hb & Hn). by rewrite (Habs _ _ _ He Hb) in Hn. }
  unfold do_lookup. rewrite E1, E2. wp_step. apply Hl. simpl. unfold real_lookup, d_lookup. wp_run.
  apply Hl. simpl. wp_run.
  eapply wp_mono; [by apply (wp_d_alloc _ iext p pd' (key name) t Hvh)|].
  assert (d_alloc_ok (key name) t = true) as ->.
  { unfold d_alloc_ok, alloc_fails. simpl. rewrite Hf. simpl. by destruct (long_name _). }
  intros x t1 (-> & Hv1 & Et1).
  pose proof (ii_next _ _ (vi_inode _ _ _ Hvh)) as Hn.
  rewrite (proj2 (Z.eqb_neq _ NULL)) by (unfold NULL; lia).
  unfold call_lookup. wp_run.
  wp_step.
  { destruct (d_alloc_slab_moved (key name) t) as (l' & n & _ & E).
    rewrite Et1. unfold child_added. rewrite E. simpl. exact P3'. }
  rewrite S1. eapply wp_mono.
  { apply (wp_simple_lookup _ _ _ _ (child_dentry (key name) (slab_iname t) p (d_sb pd')) t1 Hv1);
      try done. rewrite Et1. simpl. by rewrite lookup_insert_eq. }
  intros r t2 (-> & Hv2 & Et2). simpl. wp_run. rewrite not_err by done. wp_step.
  subst t1. fold (lookup_new (key name) p pd' t) in Et2. subst t2.
  eapply (wp_not_mounted (slab_next t) (lookup_dentry (key name) p pd' t)); [|done|].
  - by rewrite lookup_new_dentries, lookup_insert_eq.
  - wp_run. done.
Qed.

(** ** Dots *)

Lemma wp_follow_mount_none x d Q t :
  dentries t !! x = Some d → d_mounted d = 0 → Q (m, x) t → wp (follow_mount m x) Q t.
Proof.
  intros Hx Hd HQ. unfold follow_mount, mnt_fuel. wp_run.
  rewrite Nat.add_comm. cbn [loop Nat.add]. wp_run. unfold d_mountpoint. rewrite Hd. simpl. by wp_run.
Qed.

Lemma chained_top p st : chained A root (p :: st) → ∃ n, A !! p = Some n.
Proof. destruct st; simpl; [intros (_ & k & l & H); eauto|by intros (H & _)]. Qed.

Lemma held_object p n x :
  A !! p = Some n → ∃ d, dentries (held m x s) !! p = Some d ∧ d_mounted d = 0 ∧ d_sb d = sb.
Proof.
  intros Hp. destruct (walk_object _ _ _ _ _ _ _ Hw _ _ Hp) as (d & i & [[N1 _ _ _ _ _] _ _ _ _ N5 N6 _]).
  exists (if decide (p = x) then recount 1 d else d). split; [by apply held_lookup|].
  by destruct (decide (p = x)).
Qed.

Lemma wp_reval p n nd Q :
  A !! p = Some n → nd_dentry nd = p → Q (0, nd) (held m p s) → wp (return_reval nd) Q (held m p s).
Proof.
  intros Hp E HQ. destruct (held_object p n p Hp) as (d & Hd & _ & Hsb).
  destruct (wk_type _ _ _ _ _ _ _ Hw) as (b & ty & Hb & Hty & Hfl).
  unfold return_reval. rewrite E. destruct (p =? NULL); [by wp_run|].
  wp_step. wp_step; [exact Hd|]. rewrite Hsb. destruct (sb =? NULL); [by wp_run|].
  wp_step. wp_step; [exact Hb|]. wp_step. wp_step; [exact Hty|]. rewrite Hfl. by wp_run.
Qed.

Lemma chained_up st : chained A root st → chained A root (up st).
Proof. destruct st as [|p [|q st]]; [done..|]. by intros (_ & _ & H). Qed.

(** The name of the parent is in the dentry. *)
Lemma wp_dotdot_body p anc q st Q :
  chained A root (p :: anc) → up (p :: anc) = q :: st → Q (inr (m, q)) (held m q s) →
  wp (follow_dotdot_body (m, p)) Q (held m p s).
Proof.
  intros Hch Hup HQ. destruct (wk_fs _ _ _ _ _ _ _ Hw) as [F1 F2].
  destruct (wk_mnt _ _ _ _ _ _ _ Hw) as (mm & Hm & _ & _ & Hr).
  unfold follow_dotdot_body. wp_step. wp_step. change (current (held m p s)) with (current s).
  rewrite F1, F2, Z.eqb_refl, andb_true_r. destruct anc as [|q' anc].
  { destruct Hch as (-> & _). injection Hup as <- <-. rewrite Z.eqb_refl. by wp_run. }
  injection Hup as -> ->. destruct Hch as ([np Hp] & (k & l & name & Hq & Hin) & _).
  destruct (wk_dirs _ _ _ _ _ _ _ Hw _ _ _ Hq) as [_ Hcl]. destruct (Hcl _ _ Hin) as [_ Hpr].
  rewrite (proj2 (Z.eqb_neq _ _) Hpr). wp_step.
  wp_step; [simpl; by rewrite lookup_alter_eq, Hm|]. simpl. rewrite Hr, (proj2 (Z.eqb_neq _ _) Hpr). simpl.
  destruct (walk_object _ _ _ _ _ _ _ Hw _ _ Hp) as (d & i & [[N1 _ _ _ _ _] _ _ _ _ _ _ _]).
  destruct (walk_object _ _ _ _ _ _ _ Hw _ _ Hq)
    as (d2 & i2 & [[O1 _ _ _ _ _] (_ & _ & _ & _ & _ & S6) Hq0 _ Hc2 _ _ _]).
  rewrite Forall_forall in S6. destruct (S6 _ Hin) as (d' & b & Hd' & _ & [Hpar _ _ _]).
  simpl in Hd'. rewrite N1 in Hd'. injection Hd' as <-.
  wp_step. wp_step; [by apply held_lookup|]. wp_step.
  assert (d_parent (if decide (p = p) then recount 1 d else d) = q) as -> by (by rewrite decide_True).
  eapply (wp_dget_adj q); [done|by apply held_lookup|destruct (decide (q = p)); simpl; lia|].
  wp_step. eapply wp_shift; [done|]. by wp_run.
Qed.

Lemma up_dir p anc k l q st :
  chained A root (p :: anc) → A !! p = Some (ADir k l) → up (p :: anc) = q :: st →
  ∃ k l, A !! q = Some (ADir k l).
Proof.
  intros Hch Hp Eup. destruct anc as [|q' anc']; cbn in Eup; injection Eup as <- <-; [by eauto|].
  destruct Hch as (_ & (? & ? & ? & ? & _) & _). eauto.
Qed.

Lemma wp_dotdot p anc q st nd Q :
  chained A root (p :: anc) → up (p :: anc) = q :: st → nd_dentry nd = p → nd_mnt nd = m →
  Q (nd <| nd_mnt := m |> <| nd_dentry := q |>) (held m q s) →
  wp (follow_dotdot nd) Q (held m p s).
Proof.
  intros Hch Hup E1 E2 HQ. assert (∃ nq, A !! q = Some nq) as [nq Hq].
  { apply chained_up in Hch. rewrite Hup in Hch. by eapply chained_top. }
  destruct (held_object q nq q Hq) as (qd & Hqd & Hqm & _).
  unfold follow_dotdot, mnt_fuel. wp_run. unfold nd_path. rewrite E1, E2, Nat.add_comm.
  cbn [loop Nat.add]. wp_step. apply (wp_dotdot_body p anc q st); [done|done|].
  wp_run. eapply wp_follow_mount_none; [exact Hqd|done|]. by wp_run.
Qed.

(** ** A component that is missing *)

(** The same after a lookup that left nothing. *)
Lemma wp_release_settled x n t :
  A !! x = Some n → settled (held m x s) t → wp (path_release (m, x)) (λ _ t', settled s t') t.
Proof.
  intros Hx Hs. destruct (walk_object _ _ _ _ _ _ _ Hw _ _ Hx) as (d & i & Ho).
  destruct Ho as [[N1 _ _ _ _ _] _ Hx0 _ Hc _ _ _].
  destruct (wk_mnt _ _ _ _ _ _ _ Hw) as (mm & Hm & M1 & M2 & M3).
  assert (dentries t = dentries (held m x s) ∧ mounts t = mounts (held m x s)) as [Ed Em].
  { by destruct Hs as (k & h & _ & _ & ->). }
  unfold path_release. wp_step. simpl.
  eapply wp_dput_adj; [done|by rewrite Ed, (held_lookup _ _ _ _ _ N1), decide_True by done|simpl; lia|].
  apply (wp_mntput_adj m (mnt_recount 1 mm)); [apply (wk_nonnull _ _ _ _ _ _ _ Hw)| |done|simpl; lia|].
  - change (mounts (adj x (-1) t)) with (mounts t). rewrite Em. simpl. by rewrite lookup_alter_eq, Hm.
  - apply (settled_adj _ _ x (-1)), (settled_madj _ _ m (-1)) in Hs. etrans; [|exact Hs].
    unfold held. rewrite adj_madj. change (-1) with (- (1)). by rewrite adj_cancel, madj_cancel.
Qed.

Section missing.
Context (p : ptr) (k : Z) (l : list (bytes * ptr)) (pd : dentry) (name : bytes).
Hypothesis Hp : A !! p = Some (ADir k l).
Hypothesis Hpd : dentries (held m p s) !! p = Some pd.
Let t := held m p s.
Let t1 := lookup_new (key name) p pd t.
Let x := slab_next s.

Lemma missing_facts :
  p ≠ NULL ∧ x ≠ NULL ∧ x ≠ p ∧ 2 ≤ d_count pd ∧
  dentries t1 !! x = Some (lookup_dentry (key name) p pd t) ∧
  dentries t1 !! p = Some (adopt x pd).
Proof.
  destruct (walk_object _ _ _ _ _ _ _ Hw _ _ Hp) as (d & i & [[N1 _ _ _ _ _] _ Hp0 _ Hc _ _ _]).
  pose proof (held_lookup m p s p d N1) as E. rewrite decide_True, Hpd in E by done. injection E as ->.
  pose proof (ti_vfs _ _ _ _ _ _ (held_tree _ _ Hp)) as Hvh.
  destruct (fresh_none _ _ _ x Hvh) as [Hx _]; [done|].
  assert (x ≠ p) as Hne by congruence.
  split_and!; [done| |done|simpl; lia| |].
  - pose proof (ii_next _ _ (vi_inode _ _ _ Hvh)). unfold NULL, x. simpl in *. lia.
  - unfold t1. by rewrite lookup_new_dentries, lookup_insert_eq.
  - unfold t1. rewrite lookup_new_dentries, lookup_insert_ne, lookup_alter_eq by done.
    unfold t. by rewrite Hpd.
Qed.

Lemma wp_forget n Q :
  n = 0 ∨ n = -1 → (∀ t', settled (adj p n t) t' → Q tt t') → wp (dput x) Q (adj p n t1).
Proof.
  intros Hn HQ. destruct missing_facts as (Hp0 & Hx0 & Hne & Hc & _ & E2).
  pose proof (held_tree _ _ Hp) as Hth.
  eapply (wp_dput_negative _ p (new_bucket (key name) p t)); [apply negative_new; done|done|done|done| | |].
  - by rewrite adj_lookup_eq, E2.
  - simpl. lia.
  - apply HQ. apply (forgotten_new _ _ _ _ _ _ _ (ti_vfs _ _ _ _ _ _ Hth)); [|done].
    apply (ti_mem _ _ _ _ _ _ Hth).
Qed.

(** The last component: the walk moved to the negative dentry. *)
Lemma wp_missing_last nd Q :
  nd_dentry nd = p → nd_mnt nd = m →
  (∀ nd' t', settled s t' → Q (- ENOENT, nd') t') →
  wp (nd' ← path_to_nameidata (m, x) nd; walk_fail (- ENOENT) nd') Q t1.
Proof.
  intros E1 E2 HQ. destruct missing_facts as (Hp0 & _ & _ & Hc & _ & F2).
  destruct (wk_mnt _ _ _ _ _ _ _ Hw) as (mm & Hm & M1 & M2 & M3).
  unfold path_to_nameidata. rewrite E1, E2. simpl. rewrite Z.eqb_refl. simpl. wp_step. wp_step.
  eapply wp_dput_adj; [done|done|simpl; lia|]. wp_run. unfold walk_fail, path_release. simpl. wp_step. wp_step.
  apply wp_forget; [by right|]. intros t2 Hs.
  assert (mounts t2 = mounts t) as Em by (by destruct Hs as (? & ? & _ & _ & ->)).
  apply (wp_mntput_adj m (mnt_recount 1 mm)); [apply (wk_nonnull _ _ _ _ _ _ _ Hw)| |done|simpl; lia|].
  - rewrite Em. simpl. by rewrite lookup_alter_eq, Hm.
  - wp_run. apply HQ. apply (settled_madj _ _ m (-1)) in Hs. etrans; [|exact Hs].
    unfold t, held. rewrite adj_madj. change (-1) with (- (1)). by rewrite adj_cancel, madj_cancel.
Qed.

(** A component with more behind it. *)
Lemma wp_missing_middle nd Q :
  nd_dentry nd = p → nd_mnt nd = m →
  (∀ t', settled s t' → Q (- ENOENT, nd) t') →
  wp (dput_path (m, x) nd ;; walk_fail (- ENOENT) nd) Q t1.
Proof.
  intros E1 E2 HQ. unfold dput_path. rewrite E2. simpl. rewrite Z.eqb_refl. simpl. wp_step. wp_step.
  rewrite <-(adj_0 p t1). apply wp_forget; [by left|]. rewrite adj_0. intros t2 Hs. wp_run.
  unfold walk_fail, nd_path. rewrite E1, E2. wp_step.
  eapply wp_mono; [by apply (wp_release_settled p (ADir k l))|]. intros [] t3 Ht3. wp_run. auto.
Qed.
End missing.

(** ** Components *)

Lemma entry_named_some name l x : entry_named name l = Some x → (name, x) ∈ l.
Proof.
  induction l as [|[n y] l IH]; [done|]. simpl. destruct (decide (n = name)) as [->|_].
  - intros [= ->]. by left.
  - intros H. right. auto.
Qed.

Lemma entry_named_none name l : entry_named name l = None → name ∉ l.*1.
Proof.
  induction l as [|[n y] l IH]; simpl; [intros _; apply not_elem_of_nil|].
  destruct (decide (n = name)) as [->|Hne]; [done|]. intros H. rewrite not_elem_of_cons. auto.
Qed.

Lemma entry_named_in name l x : NoDup l.*1 → (name, x) ∈ l → entry_named name l = Some x.
Proof.
  induction l as [|[n y] l IH]; [intros _ H; by apply elem_of_nil in H|].
  simpl. intros [Hni Hnd]%NoDup_cons [[= <- <-]|Hin]%elem_of_cons; [by rewrite decide_True|].
  rewrite decide_False; [by apply IH|]. intros ->. apply Hni. apply list_elem_of_fmap. by exists (name, x).
Qed.

Lemma wp_do_lookup_key nd comp rest Q t :
  wp (do_lookup nd (key comp)) Q t → wp (do_lookup nd (path_key comp rest)) Q t.
Proof. unfold wp. by rewrite do_lookup_key. Qed.

Lemma wp_call_d_hash x d Q t : dentries t !! x = Some d → Q tt t → wp (call_d_hash x) Q t.
Proof. intros Hx HQ. unfold call_d_hash. by wp_run. Qed.

(** The result of a walk that resolves to [r]. *)
Definition walk_post (r : Z + ptr) (res : Z * nameidata) (s' : kstate) : Prop :=
  match r with
  | inl e => fst res = - e ∧ settled s s'
  | inr x => fst res = 0 ∧ nd_path (snd res) = (m, x) ∧ s' = held m x s
  end.

Lemma wp_walk_fail x n nd e :
  A !! x = Some n → nd_dentry nd = x → nd_mnt nd = m →
  wp (walk_fail (- e) nd) (walk_post (inl e)) (held m x s).
Proof.
  intros Hx E1 E2. unfold walk_fail, nd_path. rewrite E1, E2. wp_step.
  eapply wp_release; [done|]. wp_run. done.
Qed.

Lemma shows_dir x d i n :
  shows any_inode s x d i n → bool_decide (is_Some (iop_lookup (i_op i))) = is_adir n.
Proof. destruct n; [by intros (-> & _)|by intros (_ & _ & _ & ->)]. Qed.

(** The object that a lookup from [p] found. *)
Lemma found_object p x n d i :
  object sb s x n d i → ∃ e, dentries (adj x 1 (held m p s)) !! x = Some e ∧ d_inode e = d_inode d.
Proof.
  intros [[N1 _ _ _ _ _] _ _ _ _ _ _ _]. rewrite adj_lookup_eq, (held_lookup m p s x d N1).
  eexists. split; [done|]. by destruct (decide (x = p)).
Qed.

Section component.
Context (p : ptr) (anc : list ptr) (k : Z) (l : list (bytes * ptr)) (comp rest : bytes).
Hypothesis Hch : chained A root (p :: anc).
Hypothesis Hp : A !! p = Some (ADir k l).
Hypothesis Hmay : search s p = true.
Hypothesis Hcomp : component comp.
Hypothesis Hlen : Z.of_nat (length comp) ≤ NAME_MAX.

Lemma wp_last_component fl nd :
  has_flag fl LOOKUP_PARENT = false → nd_dentry nd = p → nd_mnt nd = m →
  wp (last_component (path_key comp rest) fl nd)
    (walk_post (atop A (has_flag fl LOOKUP_DIRECTORY) (astep (search s) A (p :: anc) comp))) (held m p s).
Proof.
  intros Hfl E1 E2. unfold last_component. rewrite Hfl, dots_key by done. simpl. rewrite Hp, Hmay. cbn [negb].
  destruct (held_object p _ p Hp) as (pd & Hpd & _).
  unfold dot, dotdot. case_bool_decide as D1; simpl.
  { rewrite Hp. simpl. rewrite andb_false_r. eapply wp_reval; [done|done|].
    split_and!; [done| |done]. unfold nd_path. simpl. by rewrite E1, E2. }
  case_bool_decide as D2; simpl.
  { destruct (up (p :: anc)) as [|q st] eqn:Eup; [by destruct anc|].
    destruct (up_dir _ _ _ _ _ _ Hch Hp Eup) as (kq & lq & Hq).
    simpl. rewrite Hq. simpl. rewrite andb_false_r. wp_step.
    eapply wp_dotdot; [exact Hch|exact Eup|done|done|]. eapply wp_reval; [exact Hq|done|]. done. }
  wp_step. eapply wp_call_d_hash; [by rewrite E1|]. wp_step. apply wp_do_lookup_key.
  destruct (entry_named comp l) as [x|] eqn:Een.
  - apply entry_named_some in Een. apply (wp_lookup_entry p k l comp x); try done.
    destruct (wk_dirs _ _ _ _ _ _ _ Hw _ _ _ Hp) as [_ Hcl]. destruct (Hcl _ _ Een) as [[nx Hx] _].
    destruct (walk_object _ _ _ _ _ _ _ Hw _ _ Hx) as (d & i & Ho).
    destruct (found_object p x nx d i Ho) as (e & He & Ei).
    destruct Ho as [[N1 _ N3 _ _ _] Hsh _ _ _ _ _ Hi0].
    wp_step. wp_step; [exact He|]. rewrite Ei, (proj2 (Z.eqb_neq _ _) Hi0). wp_step. wp_step.
    wp_step; [exact N3|]. wp_run.
    destruct (has_flag fl LOOKUP_FOLLOW); wp_run;
      (eapply wp_move_on; [exact Hp|done|done|]; rewrite (shows_dir _ _ _ _ Hsh); simpl; rewrite Hx; simpl;
       destruct (has_flag fl LOOKUP_DIRECTORY && negb (is_adir nx)); [by apply (wp_walk_fail x nx)|by wp_run]).
  - apply entry_named_none in Een. apply (wp_lookup_missing p k l comp); try done.
    intros pd' Hpd'. destruct (missing_facts p k l pd' comp Hp Hpd') as (_ & _ & _ & _ & F1 & _).
    wp_step. wp_step; [exact F1|]. simpl. wp_run.
    destruct (has_flag fl LOOKUP_FOLLOW); wp_run;
      (apply (wp_bind_inv _ _ _ _); apply (wp_missing_last p k l pd' comp Hp Hpd'); [done..|]; by split).
Qed.

(** A component with more behind it leads to a directory or fails. *)
Definition middle_post (r : Z + list ptr) (res : (Z * nameidata) + (nameidata * ptr)) (s' : kstate) : Prop :=
  match atop A true r with
  | inl e => ∃ nd, res = inl (- e, nd) ∧ settled s s'
  | inr x => ∃ nd d, res = inr (nd, d_inode d) ∧ dentries s !! x = Some d ∧
      nd_dentry nd = x ∧ nd_mnt nd = m ∧ s' = held m x s
  end.

Lemma wp_middle_component nd d0 :
  nd_dentry nd = p → nd_mnt nd = m → dentries s !! p = Some d0 →
  wp (middle_component (path_key comp rest) nd (d_inode d0))
    (middle_post (astep (search s) A (p :: anc) comp)) (held m p s).
Proof.
  intros E1 E2 Hd0. unfold middle_component. rewrite dots_key by done. unfold middle_post. simpl. rewrite Hp, Hmay. cbn [negb].
  destruct (held_object p _ p Hp) as (pd & Hpd & _).
  unfold dot, dotdot. case_bool_decide as D1; simpl.
  { rewrite Hp. simpl. wp_run. eauto 10. }
  case_bool_decide as D2; simpl.
  { destruct (up (p :: anc)) as [|q st] eqn:Eup; [by destruct anc|].
    destruct (up_dir _ _ _ _ _ _ Hch Hp Eup) as (kq & lq & Hq).
    simpl. rewrite Hq. simpl. wp_step. eapply wp_dotdot; [exact Hch|exact Eup|done|done|].
    destruct (walk_object _ _ _ _ _ _ _ Hw _ _ Hq) as (d & i & [[N1 _ _ _ _ _] _ _ _ _ _ _ _]).
    wp_step. wp_step; [by apply held_lookup|]. wp_run.
    exists (nd <| nd_mnt := m |> <| nd_dentry := q |>), d. split_and!; [|done..].
    simpl. by destruct (decide (q = q)). }
  wp_step. eapply wp_call_d_hash; [by rewrite E1|]. wp_step. apply wp_do_lookup_key.
  destruct (entry_named comp l) as [x|] eqn:Een.
  - apply entry_named_some in Een. apply (wp_lookup_entry p k l comp x); try done.
    destruct (wk_dirs _ _ _ _ _ _ _ Hw _ _ _ Hp) as [_ Hcl]. destruct (Hcl _ _ Een) as [[nx Hx] _].
    destruct (walk_object _ _ _ _ _ _ _ Hw _ _ Hx) as (d & i & Ho).
    destruct (found_object p x nx d i Ho) as (e & He & Ei).
    destruct Ho as [[N1 _ N3 _ _ _] Hsh _ _ _ _ _ Hi0].
    wp_step. wp_step; [exact He|]. rewrite Ei, (proj2 (Z.eqb_neq _ _) Hi0). wp_step.
    wp_step; [exact N3|]. wp_run. eapply wp_move_on; [exact Hp|done|done|].
    pose proof (shows_dir _ _ _ _ Hsh) as Hdir. simpl. rewrite Hx. simpl.
    destruct (iop_lookup (i_op i)) as [f|]; simpl in Hdir; rewrite <-Hdir; simpl.
    + wp_run. by eexists _, d.
    + wp_step. eapply wp_mono; [by apply (wp_walk_fail x nx)|]. intros [e' nd'] t [Ee Hs]. simpl in Ee. subst e'.
      wp_run. by exists nd'.
  - apply entry_named_none in Een. apply (wp_lookup_missing p k l comp); try done.
    intros pd' Hpd'. destruct (missing_facts p k l pd' comp Hp Hpd') as (_ & _ & _ & _ & F1 & _).
    wp_step. wp_step; [exact F1|]. simpl.
    match goal with |- context [walk_fail _ ?n] => set (nd1 := n) end. wp_step.
    assert (wp (dput_path (m, slab_next s) nd1 ;; walk_fail (- ENOENT) nd1)
      (λ r t', r = (- ENOENT, nd1) ∧ settled s t') (lookup_new (key comp) p pd' (held m p s))) as Hmm.
    { apply (wp_missing_middle p k l pd' comp Hp Hpd'); [done..|]. by split. }
    apply wp_bind_inv in Hmm. eapply wp_mono; [exact Hmm|]. intros [] t Hwf. wp_step. eapply wp_mono; [exact Hwf|]. intros r t' [-> Hs]. wp_run. eauto.
Qed.
End component.

(** ** The loop *)

Lemma chained_astep st name st' : chained A root st → astep (search s) A st name = inr st' → chained A root st'.
Proof.
  intros Hch E. destruct st as [|p anc]; [done|]. simpl in E.
  destruct (A !! p) as [[k l|]|] eqn:Hp; [|done..].
  destruct (search s p); [cbn [negb] in E|done].
  case_bool_decide; [by injection E as <-|]. case_bool_decide; [injection E as <-; by apply chained_up|].
  destruct (entry_named name l) as [x|] eqn:Een; [|done]. injection E as <-.
  apply entry_named_some in Een. destruct (wk_dirs _ _ _ _ _ _ _ Hw _ _ _ Hp) as [_ Hcl].
  destruct (Hcl _ _ Een) as [[n Hx] _]. simpl. split_and!; [by eauto|by eauto 10|done].
Qed.

(** A prefix that leads to no directory fails whatever follows. *)
Lemma atop_prefix st name names e :
  atop A true (astep (search s) A st name) = inl e → atop A true (aresolve (search s) A st (name :: names)) = inl e.
Proof.
  simpl. destruct (astep (search s) A st name) as [e'|[|x st']]; [done| |].
  - simpl. intros [= <-]. by destruct names.
  - simpl. destruct (A !! x) as [[k l|mo f]|] eqn:Hx; simpl; [done| |]; intros [= <-];
      destruct names; simpl; by rewrite Hx.
Qed.

Definition short (name : bytes) : Prop := Z.of_nat (length name) ≤ NAME_MAX.

(** The flags of the last component: slashes behind it ask for a directory. *)
Definition last_flags (fl : Z) (rest : bytes) : Z :=
  if rest is [] then fl else Z.lor fl (Z.lor LOOKUP_FOLLOW LOOKUP_DIRECTORY).

Lemma head_byte_0 name : cstring name → (head_byte name =? 0) = bool_decide (name = []).
Proof.
  intros [|c name' Hc _]; [done|]. rewrite bool_decide_false by done. apply Z.eqb_neq. simpl. lia.
Qed.

Section loop.
Context (fl : Z) (Q : Z * nameidata → kstate → Prop).

(** What is asked of the last component [comp] of [names], from [st0]. *)
Definition last_ok (st0 : list ptr) (name : bytes) : Prop :=
  ∀ init comp rest p anc k l nd,
    names_of name = init ++ [comp] → aresolve (search s) A st0 init = inr (p :: anc) →
    chained A root (p :: anc) → A !! p = Some (ADir k l) → search s p = true → component comp → short comp →
    (rest = [] ∧ trailing name = false ∨ rest ≠ [] ∧ trailing name = true) → nd_dentry nd = p → nd_mnt nd = m →
    wp (last_component (path_key comp rest) (last_flags fl rest) nd) Q (held m p s).

Definition prefix_ok (st0 : list ptr) (name : bytes) : Prop :=
  ∀ init comp e nd t, names_of name = init ++ [comp] →
    enter (search s) (atop A true (aresolve (search s) A st0 init)) = inl e → settled s t → Q (- e, nd) t.

Lemma wp_walk fuel : ∀ name nd p anc k l d0,
  cstring name → name ≠ [] → head_byte name ≠ 47 → Forall short (names_of name) →
  (length name < fuel)%nat → chained A root (p :: anc) → A !! p = Some (ADir k l) →
  nd_dentry nd = p → nd_mnt nd = m → dentries s !! p = Some d0 →
  last_ok (p :: anc) name → prefix_ok (p :: anc) name →
  wp (loop fuel (walk_body fl) (name, nd, d_inode d0)) Q (held m p s).
Proof.
  induction fuel as [|fuel IH]; [lia|].
  intros name nd p anc k l d0 Hn Hne Hh Hshort Hlen Hch Hp E1 E2 Hd0 Hlast Hpre.
  destruct (walk_object _ _ _ _ _ _ _ Hw _ _ Hp) as (d & i & [Hnode _ _ _ _ _ _ _]).
  pose proof Hnode as [N1 _ N3 _ _ _]. rewrite N1 in Hd0. injection Hd0 as <-. pose proof (search_node sb p d i s Hnode) as Hse.
  cbn [loop]. wp_step. unfold walk_body at 1. wp_step.
  apply (wp_exec_permission _ i); [done|].
  change (current (held m p s)) with (current s).
  destruct (may_exec_cases (current s) i) as [Eme|Eme]; rewrite Eme in *; cbn in Hse; simpl; wp_run; simpl.
  2:{ wp_run. eapply wp_mono; [by apply (wp_walk_fail p (ADir k l) nd EACCES)|].
    intros [e nd'] t [Ee Hst]. simpl in Ee. subst e. wp_run.
    destruct (names_of_last name) as (init & comp & En); [done..|]. eapply (Hpre init comp EACCES); [done| |done].
    destruct init as [|c0 init]; cbn [aresolve astep atop]; rewrite ?Hp; simpl; rewrite ?Hp; simpl; by rewrite Hse. }
  destruct (scan_component_spec name Hn Hne Hh) as (comp & rest & len & hash & -> & Hsc).
  rewrite (scanned_key _ _ _ _ _ Hsc). destruct Hsc as [Ename Hcomp Hrest _ _].
  assert (cstring rest) as Hcr.
  { unfold cstring in *. rewrite Ename in Hn. by apply Forall_app in Hn as [_ ?]. }
  assert (names_of name = comp :: names_of (skip_slashes rest)) as Enames.
  { by rewrite Ename, names_of_component, names_of_skip by done. }
  rewrite Enames in Hshort. apply Forall_cons in Hshort as [Hsc Hsn].
  rewrite head_byte_0 by done. rewrite head_byte_0 by (by apply skip_slashes_cstring).
  case_bool_decide as Er.
  { wp_step. eapply wp_mono; [|intros r t HQ; wp_run; exact HQ].
    subst rest. apply (Hlast [] comp [] p anc k l nd); try done.
    left. split; [done|]. unfold trailing. rewrite Ename, app_nil_r.
        apply bool_decide_false. intros El. apply last_Some in El as (c' & ->).
      destruct Hcomp as (_ & _ & Hc). apply Hc. apply elem_of_app. right. by left. }
  assert (trailing name = trailing rest) as Etr.
  { unfold trailing. rewrite Ename. f_equal. destruct rest; [done|]. by rewrite last_app_cons. }
  case_bool_decide as Ek.
  { wp_step. eapply wp_mono; [|intros r t HQ; wp_run; exact HQ].
    assert (Z.lor fl (Z.lor LOOKUP_FOLLOW LOOKUP_DIRECTORY) = last_flags fl rest) as -> by (by destruct rest).
    apply (Hlast [] comp rest p anc k l); try done.
    - by rewrite Enames, Ek.
    - right. split; [done|]. rewrite Etr. destruct (skip_slashes_nil _ Ek); [done|].
      by apply bool_decide_true. }
  wp_step. eapply wp_mono; [by apply (wp_middle_component p anc k l comp rest Hch Hp Hse Hcomp Hsc nd d)|].
  intros r t Hr. wp_run. unfold middle_post in Hr. destruct (skip_slashes rest) as [|c0 next] eqn:Enx; [done|].
  pose proof (skip_slashes_head rest) as Hnh. pose proof (skip_slashes_length rest) as Hnl.
  pose proof (skip_slashes_cstring rest Hcr) as Hnc. pose proof (skip_slashes_last rest) as Hnla.
  rewrite Enx in *. specialize (Hnla Ek).
  assert (∀ init' c', names_of (c0 :: next) = init' ++ [c'] → names_of name = (comp :: init') ++ [c']) as Hnm.
  { intros init' c' E. by rewrite Enames, E. }
  assert (∃ init' c', names_of (c0 :: next) = init' ++ [c']) as (init' & c' & Ein).
  { by apply names_of_last. }
  destruct (atop A true (astep (search s) A (p :: anc) comp)) as [e|x] eqn:Ea.
  - destruct Hr as (nd' & -> & Hs). wp_run. eapply Hpre; [by apply Hnm| |done]. by rewrite (atop_prefix _ _ _ _ Ea).
  - destruct Hr as (nd' & dx & -> & Hdx & F1 & F2 & ->).
    destruct (astep (search s) A (p :: anc) comp) as [|[|x' anc']] eqn:Eas; [done..|]. simpl in Ea.
    destruct (A !! x') as [[k' l'|]|] eqn:Hx'; simpl in Ea; [|done..]. injection Ea as ->.
    pose proof (chained_astep _ _ _ Hch Eas) as Hch'.
    eapply IH; try done.
    + rewrite Ename, length_app in Hlen. destruct Hcomp as (_ & Hc & _). destruct comp; [done|].
      simpl in *. lia.
    + intros init comp' rest' p' anc2 k2 l2 nd2 G1 G2 G3 G4 G5 G6 G7 G8 G9 G10.
      eapply (Hlast (comp :: init) comp' rest'); try done; [by apply Hnm| |].
      * cbn [aresolve]. by rewrite Eas.
      * rewrite Etr. unfold trailing in *. by rewrite <-Hnla.
    + intros init comp' e nd2 t2 G1 G2 G3. eapply (Hpre (comp :: init)); [by apply Hnm| |done].
      cbn [aresolve]. by rewrite Eas.
Qed.
End loop.
End steps.

(** ** The whole walk *)

Lemma aresolve_app may A st names names' :
  aresolve may A st (names ++ names') =
  match aresolve may A st names with inl e => inl e | inr st' => aresolve may A st' names' end.
Proof.
  revert st. induction names as [|name names IH]; intros st; [done|]. cbn [app aresolve].
  destruct (astep may A st name); [done|apply IH].
Qed.

Lemma atop_last may A want st init comp e :
  enter may (atop A true (aresolve may A st init)) = inl e →
  atop A want (aresolve may A st (init ++ [comp])) = inl e.
Proof.
  rewrite aresolve_app. destruct (aresolve may A st init) as [e'|[|x st']]; [done| |].
  { by intros [= <-]. }
  cbn [atop aresolve astep]. destruct (A !! x) as [[k l|mo f]|]; simpl; [|intros E; by simplify_eq..].
  destruct (may x); [done|]. by intros [= <-].
Qed.

(** The errors of a walk. *)
Definition walk_error (e : Z) : Prop := e = ENOENT ∨ e = ENOTDIR ∨ e = EACCES.

Lemma walk_error_neg e : walk_error e → - e < 0 ∧ - e ≠ - ESTALE.
Proof. by intros [-> | [-> | ->]]. Qed.

Lemma aresolve_error may A st names e : aresolve may A st names = inl e → walk_error e.
Proof.
  revert st. induction names as [|name names IH]; intros st; [done|]. cbn [aresolve].
  destruct (astep may A st name) as [e'|st'] eqn:E; [|apply IH]. intros [= <-]. unfold astep in E.
  unfold walk_error.
  destruct st; [injection E as <-; by left|]. repeat case_match; simplify_eq; auto.
Qed.

Lemma atop_error may A want st names e : atop A want (aresolve may A st names) = inl e → walk_error e.
Proof.
  destruct (aresolve may A st names) as [e'|[|x st']] eqn:Er; simpl.
  - intros [= ->]. by eapply aresolve_error.
  - intros [= <-]. by left.
  - case_match; [|done]. intros [= <-]. by right; left.
Qed.

Lemma enter_error may r e : (∀ e, r = inl e → walk_error e) → enter may r = inl e → walk_error e.
Proof.
  intros Hr. destruct r as [e'|x]; simpl; [intros [= <-]; by apply Hr|]. destruct (may x); [done|].
  intros [= <-]. by right; right.
Qed.

(** A walk to a directory entry, for its name. *)
Definition comp_type (comp : bytes) : last_type :=
  if bool_decide (comp = dot) then LAST_DOT
  else if bool_decide (comp = dotdot) then LAST_DOTDOT else LAST_NORM.

Definition names_parent (path : bytes) (nd : nameidata) : Prop :=
  match last (names_of path) with
  | None => nd_last_type nd = LAST_ROOT
  | Some comp => nd_last_type nd = comp_type comp ∧
      ∃ rest, nd_last nd = path_key comp rest ∧ (rest ≠ [] ↔ trailing path = true)
  end.

(** What a walk with the flags [fl] has to return. *)
Definition walk_target (may : ptr → bool) (A : atree) (fl : Z) (st : list ptr) (path : bytes) : Z + ptr :=
  if has_flag fl LOOKUP_PARENT then
    (if names_of path is [] then id else enter may)
      (atop A true (aresolve may A st (removelast (names_of path))))
  else atop A (trailing path || has_flag fl LOOKUP_DIRECTORY) (aresolve may A st (names_of path)).

Definition walked (A : atree) (m : ptr) (fl : Z) (st : list ptr) (path : bytes) (s : kstate)
    (res : Z * nameidata) (s' : kstate) : Prop :=
  walk_post m s (walk_target (search s) A fl st path) res s' ∧
  (fst res = 0 → has_flag fl LOOKUP_PARENT = true → names_parent path (snd res)).

Lemma last_flags_directory fl rest :
  has_flag (last_flags fl rest) LOOKUP_DIRECTORY =
  (if rest is [] then false else true) || has_flag fl LOOKUP_DIRECTORY.
Proof.
  destruct rest; [done|]. unfold last_flags, has_flag. rewrite Z.land_lor_distr_l.
  change (Z.land (Z.lor LOOKUP_FOLLOW LOOKUP_DIRECTORY) LOOKUP_DIRECTORY) with LOOKUP_DIRECTORY. simpl.
  apply negb_true_iff, Z.eqb_neq. intros E. apply (f_equal (λ z, Z.testbit z 1)) in E.
  rewrite Z.lor_spec in E. change (Z.testbit LOOKUP_DIRECTORY 1) with true in E.
  rewrite orb_true_r in E. done.
Qed.

Lemma last_flags_parent fl rest :
  has_flag (last_flags fl rest) LOOKUP_PARENT = has_flag fl LOOKUP_PARENT.
Proof.
  destruct rest; [done|]. unfold last_flags, has_flag. rewrite Z.land_lor_distr_l.
  change (Z.land (Z.lor LOOKUP_FOLLOW LOOKUP_DIRECTORY) LOOKUP_PARENT) with 0. by rewrite Z.lor_0_r.
Qed.

Lemma wp_lookup_parent dext iext sb root A m s p n comp rest fl nd :
  walkable dext iext sb root A m s → A !! p = Some n →
  has_flag fl LOOKUP_PARENT = true → component comp → nd_dentry nd = p → nd_mnt nd = m →
  wp (last_component (path_key comp rest) fl nd) (λ res s',
    fst res = 0 ∧ nd_path (snd res) = (m, p) ∧ s' = held m p s ∧
    nd_last_type (snd res) = comp_type comp ∧ nd_last (snd res) = path_key comp rest) (held m p s).
Proof.
  intros Hw Hp Hfl Hc E1 E2. unfold last_component. rewrite Hfl. unfold lookup_parent.
  pose proof (dots_key comp rest Hc) as Hd. unfold dots in Hd. unfold comp_type, dot, dotdot.
  set (nd1 := (nd <| nd_flags ::= _ |>) <| nd_last := _ |> <| nd_last_type := LAST_NORM |>).
  assert (∀ t, nd_path (nd1 <| nd_last_type := t |>) = (m, p)) as Ep.
  { intros t. unfold nd_path. simpl. by rewrite E1, E2. }
  destruct (head_byte (q_name (path_key comp rest)) =? 46) eqn:Eh; cbn [negb] in *.
  - case_bool_decide as D1.
    { subst comp. change (q_len (path_key [46] rest) =? 1) with true. cbv iota.
      eapply wp_reval; [done|done|done|]. simpl. by rewrite Ep. }
    case_bool_decide as D2.
    { subst comp. change (q_len (path_key [46; 46] rest) =? 1) with false.
      change (q_len (path_key [46; 46] rest) =? 2) with true. simpl. eapply wp_reval; [done|done|done|].
      simpl. by rewrite Ep. }
    destruct (q_len (path_key comp rest) =? 2) eqn:L2, (q_len (path_key comp rest) =? 1) eqn:L1; try done;
      [apply Z.eqb_eq in L1, L2; lia|..];
      destruct (head_byte (tail_bytes (q_name (path_key comp rest))) =? 46); try done; simpl; wp_run;
      specialize (Ep LAST_NORM); done.
  - assert (comp ≠ [46] ∧ comp ≠ [46; 46]) as [? ?] by (split; intros ->; by vm_compute in Eh).
    rewrite !bool_decide_false by done. wp_run. specialize (Ep LAST_NORM). done.
Qed.

Section whole.
Context (dext iext : refs) (sb root : ptr) (A : atree) (m : ptr) (s : kstate).
Hypothesis Hw : walkable dext iext sb root A m s.
Context (p : ptr) (anc : list ptr) (k : Z) (l : list (bytes * ptr)) (path : bytes).
Hypothesis Hch : chained A root (p :: anc).
Hypothesis Hp : A !! p = Some (ADir k l).
Hypothesis Hpath : cstring path.
Hypothesis Hshort : Forall short (names_of path).

Lemma trailing_skip : skip_slashes path ≠ [] → trailing (skip_slashes path) = trailing path.
Proof. intros H. unfold trailing. by rewrite skip_slashes_last. Qed.

Lemma wp_walk_components nd :
  nd_dentry nd = p → nd_mnt nd = m → nd_depth nd = 0 → nd_last_type nd = LAST_ROOT →
  wp (__link_path_walk path nd) (walked A m (nd_flags nd) (p :: anc) path s) (held m p s).
Proof.
  intros E1 E2 E3 E4. set (fl := nd_flags nd). unfold __link_path_walk.
  rewrite head_byte_0 by (by apply skip_slashes_cstring). case_bool_decide as Ek.
  { assert (names_of path = []) as En by (by rewrite <-names_of_skip, Ek).
    eapply wp_reval; [done|done|done|]. unfold walked, walk_target, names_parent. rewrite En.
    simpl. rewrite Hp, !andb_false_r. simpl. destruct (has_flag fl LOOKUP_PARENT); simpl;
      (split; [|done]); unfold nd_path; by rewrite E1, E2. }
  destruct (walk_object _ _ _ _ _ _ _ Hw _ _ Hp) as (d & i & [[N1 _ _ _ _ _] _ _ _ _ _ _ _]).
  wp_step. wp_step; [rewrite E1; by apply held_lookup|]. rewrite E3. cbn [negb Z.eqb]. fold fl.
  assert (d_inode (if decide (p = p) then recount 1 d else d) = d_inode d) as ->
    by (by destruct (decide (p = p))).
  apply (wp_walk dext iext sb root A m s Hw fl _ _ _ nd p anc k l d); try done.
  - by apply skip_slashes_cstring.
  - apply skip_slashes_head.
  - by rewrite names_of_skip.
  - lia.
  - intros init comp rest q anc' k' l' nd' En Er Hch' Hq Hmay Hc Hs Htr F1 F2.
    rewrite names_of_skip in En. rewrite trailing_skip in Htr by done.
    unfold walked, walk_target. destruct (has_flag fl LOOKUP_PARENT) eqn:Epar.
    + eapply wp_mono; [apply (wp_lookup_parent dext iext sb root A m s q _ comp rest (last_flags fl rest) nd' Hw Hq);
        [by rewrite last_flags_parent|done..]|].
      intros [e nd2] t (R1 & R2 & -> & R3 & R4). simpl in R1. subst e. split.
      * rewrite En, removelast_last, Er. simpl. rewrite Hq.
        destruct (init ++ [comp]) eqn:E; [by destruct init|]. simpl. by rewrite Hmay.
      * intros _ _. unfold names_parent. rewrite En, last_snoc. split; [done|]. exists rest.
        split; [done|]. destruct Htr as [[-> ->]|[? ->]]; done.
    + eapply wp_mono.
      { apply (wp_last_component _ _ _ _ _ _ _ Hw q anc' k' l' comp rest Hch' Hq Hmay Hc Hs (last_flags fl rest) nd');
          [by rewrite last_flags_parent|done..]. }
      intros r t Hr. split; [|done]. rewrite En, aresolve_app, Er. cbn [aresolve].
      rewrite last_flags_directory in Hr. replace (trailing path) with (if rest is [] then false else true).
      * by destruct (astep (search s) A (q :: anc') comp).
      * destruct Htr as [[-> ->]|[? ->]]; [done|]. by destruct rest.
  - intros init comp e nd' t En Er Hs. rewrite names_of_skip in En. unfold walked, walk_target.
    assert (- e < 0) as He0.
    { eapply walk_error_neg, enter_error; [|exact Er]. intros e'. apply atop_error. }
    split; [|simpl; lia]. rewrite En, removelast_last, (atop_last _ _ _ _ _ _ _ Er).
    destruct (has_flag fl LOOKUP_PARENT); [|done]. destruct (init ++ [comp]) eqn:E; [by destruct init|by rewrite Er].
Qed.
End whole.

Lemma held_comm m x y s : held m x (held m y s) = held m y (held m x s).
Proof. unfold held. rewrite !adj_madj. by rewrite (adj_comm x y). Qed.

Lemma walk_target_error may A fl st path e : walk_target may A fl st path = inl e → walk_error e.
Proof.
  unfold walk_target. destruct (has_flag fl LOOKUP_PARENT); [|apply atop_error].
  destruct (names_of path); [apply atop_error|]. apply enter_error. intros e'. apply atop_error.
Qed.

Lemma enter_inr may r x : enter may r = inr x → r = inr x.
Proof. destruct r as [e|y]; [done|]. simpl. by destruct (may y). Qed.

Lemma aresolve_ext may may' A st names :
  (∀ x, may x = may' x) → aresolve may A st names = aresolve may' A st names.
Proof.
  intros E. revert st. induction names as [|name names IH]; intros st; [done|]. cbn [aresolve].
  assert (astep may A st name = astep may' A st name) as -> by (destruct st; [done|]; simpl; by rewrite E).
  destruct (astep may' A st name); [done|apply IH].
Qed.

Lemma walk_target_ext may may' A fl st path :
  (∀ x, may x = may' x) → walk_target may A fl st path = walk_target may' A fl st path.
Proof.
  intros E. unfold walk_target. rewrite !(aresolve_ext may may') by done.
  destruct (has_flag fl LOOKUP_PARENT); [|done]. destruct (names_of path); [done|].
  destruct (atop _ _ _) as [e|x]; [done|]. simpl. by rewrite E.
Qed.

Lemma aresolve_chained dext iext sb root A m s st names st' :
  walkable dext iext sb root A m s → chained A root st → aresolve (search s) A st names = inr st' →
  chained A root st'.
Proof.
  intros Hw. revert st. induction names as [|name names IH]; intros st Hch; [by intros [= <-]|].
  cbn [aresolve]. destruct (astep (search s) A st name) as [|st1] eqn:E1; [done|]. apply IH.
  by apply (chained_astep _ _ _ _ _ _ _ Hw st name).
Qed.

Lemma walk_target_chain dext iext sb root A m s fl st path x :
  walkable dext iext sb root A m s → chained A root st → walk_target (search s) A fl st path = inr x →
  ∃ anc, chained A root (x :: anc).
Proof.
  intros Hw Hch E.
  assert (∀ want names, atop A want (aresolve (search s) A st names) = inr x → ∃ anc, chained A root (x :: anc)) as Htop.
  { intros want names. destruct (aresolve (search s) A st names) as [|[|y st']] eqn:E1; [done..|]. simpl.
    case_match; [done|]. intros [= <-]. exists st'. by apply (aresolve_chained _ _ _ _ _ _ _ _ _ _ Hw Hch E1). }
  unfold walk_target in E. destruct (has_flag fl LOOKUP_PARENT); [|by eapply Htop].
  destruct (names_of path); [by eapply Htop|]. by eapply Htop, enter_inr.
Qed.

Lemma walk_target_some dext iext sb root A m s fl st path x :
  walkable dext iext sb root A m s → chained A root st → walk_target (search s) A fl st path = inr x →
  ∃ n, A !! x = Some n.
Proof.
  intros Hw Hch E. destruct (walk_target_chain _ _ _ _ _ _ _ _ _ _ _ Hw Hch E) as [anc Hx].
  by eapply chained_top.
Qed.

(** The end of a walk to a parent. *)
Lemma walk_target_parent dext iext sb root A m s st path x :
  walkable dext iext sb root A m s → chained A root st → walk_target (search s) A LOOKUP_PARENT st path = inr x →
  ∃ anc k l, chained A root (x :: anc) ∧ A !! x = Some (ADir k l) ∧
    ∀ init comp, names_of path = init ++ [comp] →
      search s x = true ∧ aresolve (search s) A st init = inr (x :: anc).
Proof.
  intros Hw Hch E. change (has_flag LOOKUP_PARENT LOOKUP_PARENT) with true in *. unfold walk_target in E. simpl in E.
  assert (atop A true (aresolve (search s) A st (removelast (names_of path))) = inr x) as E'.
  { destruct (names_of path); [done|by eapply enter_inr]. }
  destruct (aresolve _ _ _ _) as [|[|y anc]] eqn:Er; [done..|]. simpl in E'.
  destruct (A !! y) as [[k l|]|] eqn:Hy; simpl in E'; [|done..]. injection E' as ->.
  exists anc, k, l. split_and!; [exact (aresolve_chained _ _ _ _ _ _ _ _ _ _ Hw Hch Er)|done|]. intros init comp En.
  rewrite En, removelast_last in *. split; [|done]. destruct (init ++ [comp]) eqn:Ei; [by destruct init|].
  simpl in E. rewrite Hy in E. simpl in E. by destruct (search s x).
Qed.

Section lookup.
Context (dext iext : refs) (sb root : ptr) (A : atree) (m : ptr) (s : kstate).
Hypothesis Hw : walkable dext iext sb root A m s.
Context (p : ptr) (anc : list ptr) (k : Z) (l : list (bytes * ptr)) (path : bytes).
Hypothesis Hch : chained A root (p :: anc).
Hypothesis Hp : A !! p = Some (ADir k l).
Hypothesis Hpath : cstring path.
Hypothesis Hshort : Forall short (names_of path).

(** The extra references that the walk starts with are given back. *)
Lemma wp_link_path_walk nd :
  nd_dentry nd = p → nd_mnt nd = m → nd_depth nd = 0 → nd_last_type nd = LAST_ROOT →
  wp (link_path_walk path nd) (walked A m (nd_flags nd) (p :: anc) path s) (held m p s).
Proof.
  intros E1 E2 E3 E4. pose proof (walkable_held _ _ _ _ _ _ _ _ _ Hw Hp) as Hwp.
  destruct (walk_object _ _ _ _ _ _ _ Hwp _ _ Hp) as (d & i & [[N1 N2 _ _ _ _] _ Hp0 _ _ _ _ _]).
  destruct (wk_mnt _ _ _ _ _ _ _ Hwp) as (mm & Hm & _ & _ & _).
  unfold link_path_walk. rewrite E1, E2. wp_step. eapply wp_dget_adj; [done|exact N1|done|].
  wp_step. eapply wp_mntget_adj; [apply (wk_nonnull _ _ _ _ _ _ _ Hw)|exact Hm|].
  change (madj m 1 (adj p 1 (held m p s))) with (held m p (held m p s)). wp_step.
  eapply wp_mono; [by apply (wp_walk_components _ _ _ _ _ _ _ Hwp p anc k l path Hch Hp Hpath Hshort nd)|].
  intros [e nd1] t [Hpost Hpar]. simpl.
  rewrite (walk_target_ext _ (search s)) in Hpost by (intros; apply search_held).
  assert (e ≠ - ESTALE) as He.
  { destruct (walk_target (search s) A (nd_flags nd) (p :: anc) path) as [e'|x] eqn:Et; simpl in Hpost.
    - destruct Hpost as [-> _]. exact (proj2 (walk_error_neg _ (walk_target_error _ _ _ _ _ _ Et))).
    - by destruct Hpost as [-> _]. }
  rewrite (proj2 (Z.eqb_neq _ _) He). wp_step. wp_step.
  enough (wp (path_release (m, p)) (λ _, walked A m (nd_flags nd) (p :: anc) path s (e, nd1)) t) as Hrel.
  { apply wp_bind_inv in Hrel. wp_step. eapply wp_mono; [exact Hrel|]. intros [] t1 Hrel1. wp_step.
    eapply wp_mono; [exact Hrel1|]. intros [] t2 H2. by wp_run. }
  unfold walked. destruct (walk_target (search s) A (nd_flags nd) (p :: anc) path) as [e'|x] eqn:Et; simpl in Hpost, Hpar |- *.
  - destruct Hpost as [-> Hs]. eapply wp_mono; [by apply (wp_release_settled _ _ _ _ _ _ _ Hw p (ADir k l))|].
    intros [] t1 Ht1. done.
  - destruct Hpost as (-> & Hnd & ->). rewrite held_comm.
    destruct (walk_target_some _ _ _ _ _ _ _ _ _ _ _ Hw Hch Et) as [n Hx].
    eapply (wp_release _ _ _ _ _ _ _ (walkable_held _ _ _ _ _ _ _ _ _ Hw Hx) p); done.
Qed.
End lookup.

(** ** Path names *)

(** Where a walk starts. *)
Definition start (root : ptr) (cwd : list ptr) (path : bytes) : list ptr :=
  if head_byte path =? 47 then [root] else cwd.

(** The working directory of the task is a directory of the tree. *)
Record cwd_ok (A : atree) (root m : ptr) (cwd : list ptr) (t : task) : Prop := mkCwdOk {
  cw_chain : chained A root cwd;
  cw_dir : ∃ p anc k l, cwd = p :: anc ∧ A !! p = Some (ADir k l) ∧ fs_pwd (task_fs t) = p;
  cw_mnt : fs_pwdmnt (task_fs t) = m;
  cw_altroot : fs_altroot (task_fs t) = NULL
}.

Lemma wp_path_lookup dext iext sb root A m s cwd path flags nd0 :
  walkable dext iext sb root A m s → cwd_ok A root m cwd (current s) →
  cstring path → Forall short (names_of path) →
  wp (path_lookup path flags nd0) (walked A m flags (start root cwd path) path s) s.
Proof.
  intros Hw [Hc (p & anc & k & l & -> & Hp & Hpwd) Hpm Halt] Hpath Hshort.
  destruct (wk_mnt _ _ _ _ _ _ _ Hw) as (mm & Hm & _). pose proof (wk_nonnull _ _ _ _ _ _ _ Hw) as Hm0.
  destruct (wk_fs _ _ _ _ _ _ _ Hw) as [F1 F2]. destruct (wk_root _ _ _ _ _ _ _ Hw) as (kr & lr & Hr).
  assert (∀ q anc k l, chained A root (q :: anc) → A !! q = Some (ADir k l) → ∀ nd,
    nd_depth nd = 0 → nd_last_type nd = LAST_ROOT → nd_flags nd = flags →
    wp (mnt ← mntget m; dentry ← dget q;
        link_path_walk path (nd <| nd_mnt := mnt |> <| nd_dentry := dentry |>))
      (walked A m flags (q :: anc) path s) s) as Hgo.
  { intros q anc' k' l' Hch Hq nd G1 G2 <-.
    destruct (walk_object _ _ _ _ _ _ _ Hw _ _ Hq) as (d & i & [[N1 N2 _ _ _ _] _ Hq0 _ _ _ _ _]).
    wp_step. eapply wp_mntget_adj; [done|exact Hm|]. wp_step. eapply wp_dget_adj; [done|exact N1|done|].
    rewrite adj_madj.
    exact (wp_link_path_walk _ _ _ _ _ _ _ Hw q anc' k' l' path Hch Hq Hpath Hshort
      (nd <| nd_mnt := m |> <| nd_dentry := q |>) eq_refl eq_refl G1 G2). }
  unfold path_lookup, start. wp_run. rewrite Halt. cbn [Z.eqb negb andb].
  destruct (head_byte path =? 47).
  - wp_run. simpl. rewrite F1, F2. eapply (Hgo root []); [|exact Hr|done..]. split; [done|by eauto].
  - rewrite Hpwd, Hpm. by eapply Hgo.
Qed.

(** C6: the resolution of a path name in a mounted tree implements the resolution
    in the abstract tree.  For every path of bounded components, absolute or
    relative, with any slashes, [.] and [..]: the lookup ends without a fault;
    if the abstract resolution leads to an object, it returns 0 and that object,
    with one reference to its dentry and to the mount added and nothing else
    changed; if it fails, it returns the abstract error and the state is the one
    before, except that the allocator moved and a hash chain may have become
    empty.  Slashes at the end and the flag LOOKUP_DIRECTORY ask for a
    directory. *)
Theorem path_lookup_refines dext iext sb root A m s cwd path flags nd0 :
  walkable dext iext sb root A m s → cwd_ok A root m cwd (current s) →
  cstring path → Forall short (names_of path) → has_flag flags LOOKUP_PARENT = false →
  wp (path_lookup path flags nd0) (λ res s',
    match atop A (trailing path || has_flag flags LOOKUP_DIRECTORY)
            (aresolve (search s) A (start root cwd path) (names_of path)) with
    | inl e => fst res = - e ∧ settled s s'
    | inr x => fst res = 0 ∧ nd_path (snd res) = (m, x) ∧ s' = held m x s
    end) s.
Proof.
  intros Hw Hc Hp Hs Hf. eapply wp_mono; [by apply (wp_path_lookup dext iext sb root A m s cwd)|].
  intros res s' [Hpost _]. unfold walk_target in Hpost. by rewrite Hf in Hpost.
Qed.

(** C7: with the flag LOOKUP_PARENT the lookup stops in front of the last
    component.  If the components before it lead to a directory that the task may
    search, it returns 0, that directory, and the kind and the name of the last
    component, and the state is the one before with exactly one reference to the
    directory and one to the mount added; otherwise it returns the error of the
    walk or -EACCES, and no reference to a dentry or a mount is left. *)
Theorem path_parent_refines dext iext sb root A m s cwd path init comp flags nd0 :
  walkable dext iext sb root A m s → cwd_ok A root m cwd (current s) →
  cstring path → Forall short (names_of path) → has_flag flags LOOKUP_PARENT = true →
  names_of path = init ++ [comp] →
  wp (path_lookup path flags nd0) (λ res s',
    match enter (search s) (atop A true (aresolve (search s) A (start root cwd path) init)) with
    | inl e => fst res = - e ∧ settled s s'
    | inr x => fst res = 0 ∧ nd_path (snd res) = (m, x) ∧ nd_last_type (snd res) = comp_type comp ∧
        (∃ rest, nd_last (snd res) = path_key comp rest ∧ (rest ≠ [] ↔ trailing path = true)) ∧
        s' = held m x s
    end) s.
Proof.
  intros Hw Hc Hp Hs Hf Hn. eapply wp_mono; [by apply (wp_path_lookup dext iext sb root A m s cwd)|].
  intros res s' [Hpost Hpar]. assert (walk_target (search s) A flags (start root cwd path) path =
    enter (search s) (atop A true (aresolve (search s) A (start root cwd path) init))) as Et.
  { unfold walk_target. rewrite Hf, Hn, removelast_last. by destruct (init ++ [comp]) eqn:E; [destruct init|]. }
  rewrite Et in Hpost. destruct (enter _ _) as [e|x]; simpl in Hpost; [done|].
  destruct Hpost as (E0 & Hnd & ->). specialize (Hpar E0 Hf). unfold names_parent in Hpar.
  rewrite Hn, last_snoc in Hpar. by destruct Hpar as [P1 P2].
Qed.
