(* ===== verification/VfsSpec.v ===== *)
(** * The tree is read-only for its users

    The directories of aufs have the libfs table, whose only method is
    [lookup]: every system call that would change a name walks the path, looks
    the last component up, fails, and gives back what it took. *)

From S2P Require Import Prelude KString Kernel Links Inode InodeInv Dcache DcacheInv DcacheOps Walk.
From S2P Require Import Filesystems Super Mount Libfs Groups Namei LookupSpec Attr Path Vfs Aufs AufsSpec.
From S2P Require Import AufsCreate AufsTree KernMount PathCount PathNames PathSpec.

(** ** Permission *)

Lemma wp_permission x i b mask s :
  inodes s !! x = Some i → supers s !! i_sb i = Some b →
  wp (permission x mask) (λ r s', r ≤ 0 ∧ s' = s) s.
Proof.
  intros Hx Hb. unfold permission. wp_run.
  assert (∀ sub, wp (generic_permission x sub None) (λ r s', r ≤ 0 ∧ s' = s) s) as Hgen.
  { intros sub. unfold generic_permission. wp_run.
    assert (∀ mode, check_mode (current s) i mode sub ≤ 0) as Hcm.
    { intros mode. unfold check_mode, check_capabilities. repeat case_match; done. }
    destruct (fsuid (current s) =? i_uid i); wp_run; by split. }
  destruct (has_flag mask MAY_WRITE).
  - unfold IS_RDONLY. wp_run. destruct (has_flag (s_flags b) MS_RDONLY && _); wp_run; [done|].
    destruct (IS_IMMUTABLE i); simpl; [by wp_run|apply Hgen].
  - wp_run. apply Hgen.
Qed.

(** ** The checked operations *)

Section checked.
Context (t : kstate) (dir : ptr) (di : inode) (b : super_block).
Hypothesis Hdir : inodes t !! dir = Some di.
Hypothesis Hsb : supers t !! i_sb di = Some b.

Lemma wp_may_create child d :
  dentries t !! child = Some d → wp (may_create dir child) (λ r s', r ≤ 0 ∧ s' = t) t.
Proof.
  intros Hc. unfold may_create. wp_run. destruct (d_inode d =? NULL); simpl; [|by wp_run].
  wp_run. destruct (IS_DEADDIR di); [by wp_run|]. by eapply wp_permission.
Qed.

Lemma wp_may_delete victim d pd isdir :
  dentries t !! victim = Some d → dentries t !! d_parent d = Some pd → d_inode pd = dir →
  (d_inode d ≠ NULL → is_Some (inodes t !! d_inode d)) →
  wp (may_delete dir victim isdir) (λ r s', r ≤ 0 ∧ s' = t) t.
Proof.
  intros Hv Hp Ep Hi. unfold may_delete. wp_run. destruct (d_inode d =? NULL) eqn:En; [by wp_run|].
  apply Z.eqb_neq in En. destruct (Hi En) as [i Hi'].
  wp_run. wp_bug; [by rewrite Ep, Z.eqb_refl|]. wp_step.
  eapply wp_mono; [by eapply wp_permission|]. intros r t' [Hr ->].
  destruct (r =? 0); simpl; [|by wp_run]. wp_run. split; [|done]. repeat case_match; done.
Qed.

Definition refuses (r : Z) (s' : kstate) : Prop := r < 0 ∧ s' = t.

(** The check fails, or it passes and there is no method to call. *)
Ltac checked L :=
  wp_step; eapply wp_mono; [eapply L; eassumption|];
  let r := fresh in let t' := fresh in let H := fresh in
  intros r t' [H ->]; unfold refuses;
  destruct (r =? 0) eqn:?; simpl; bool_to_prop; [|wp_run; split; [lia|done]].

Lemma wp_vfs_create dentry d mode :
  dentries t !! dentry = Some d → wp (vfs_create vendored_iop dir dentry mode) refuses t.
Proof.
  intros Hd. unfold vfs_create. checked wp_may_create. wp_run. by destruct (i_op di); wp_run.
Qed.

Lemma wp_vfs_mknod dentry d mode dev :
  dentries t !! dentry = Some d → wp (vfs_mknod vendored_iop dir dentry mode dev) refuses t.
Proof.
  intros Hd. unfold vfs_mknod. checked wp_may_create. wp_run.
  destruct (_ && _); wp_run; [done|]. by destruct (i_op di); wp_run.
Qed.

Lemma wp_vfs_mkdir dentry d mode :
  dentries t !! dentry = Some d → wp (vfs_mkdir vendored_iop dir dentry mode) refuses t.
Proof.
  intros Hd. unfold vfs_mkdir. checked wp_may_create. wp_run. by destruct (i_op di); wp_run.
Qed.

Lemma wp_vfs_symlink dentry d from mode :
  dentries t !! dentry = Some d → wp (vfs_symlink vendored_iop dir dentry from mode) refuses t.
Proof.
  intros Hd. unfold vfs_symlink. checked wp_may_create. wp_run. by destruct (i_op di); wp_run.
Qed.

Lemma wp_vfs_link old od new nd :
  dentries t !! old = Some od → (d_inode od ≠ NULL → is_Some (inodes t !! d_inode od)) →
  dentries t !! new = Some nd → wp (vfs_link vendored_iop old dir new) refuses t.
Proof.
  intros Ho Hi Hn. unfold vfs_link. wp_run. destruct (d_inode od =? NULL) eqn:En; [by wp_run|].
  apply Z.eqb_neq in En. destruct (Hi En) as [oi Hoi]. checked wp_may_create. wp_run.
  destruct (i_sb di =? i_sb oi); simpl; wp_run; [|done]. destruct (_ || _); wp_run; [done|].
  by destruct (i_op di); wp_run.
Qed.

Lemma wp_vfs_rmdir victim d pd :
  dentries t !! victim = Some d → dentries t !! d_parent d = Some pd → d_inode pd = dir →
  (d_inode d ≠ NULL → is_Some (inodes t !! d_inode d)) →
  wp (vfs_rmdir vendored_iop dir victim) refuses t.
Proof.
  intros Hv Hp Ep Hi. unfold vfs_rmdir. checked wp_may_delete. wp_run. by destruct (i_op di); wp_run.
Qed.

Lemma wp_vfs_unlink victim d pd :
  dentries t !! victim = Some d → dentries t !! d_parent d = Some pd → d_inode pd = dir →
  (d_inode d ≠ NULL → is_Some (inodes t !! d_inode d)) →
  wp (vfs_unlink vendored_iop dir victim) refuses t.
Proof.
  intros Hv Hp Ep Hi. unfold vfs_unlink. checked wp_may_delete. wp_run. by destruct (i_op di); wp_run.
Qed.
End checked.

(** A rename between two names of one inode does nothing and succeeds; no other
    one does. *)
Lemma wp_vfs_rename t dir di b old od opd new_dir ndi nb new nd npd :
  inodes t !! dir = Some di → supers t !! i_sb di = Some b →
  dentries t !! old = Some od → dentries t !! d_parent od = Some opd → d_inode opd = dir →
  is_Some (inodes t !! d_inode od) →
  inodes t !! new_dir = Some ndi → supers t !! i_sb ndi = Some nb →
  dentries t !! new = Some nd → dentries t !! d_parent nd = Some npd → d_inode npd = new_dir →
  (d_inode nd ≠ NULL → is_Some (inodes t !! d_inode nd)) →
  wp (vfs_rename vendored_iop dir old new_dir new)
    (λ r s', (r < 0 ∨ r = 0 ∧ d_inode od = d_inode nd) ∧ s' = t) t.
Proof.
  intros Hdir Hsb Ho Hop Eop [oi Hoi] Hnd Hnb Hn Hnp Enp Hni. unfold vfs_rename. wp_run.
  destruct (d_inode od =? d_inode nd) eqn:Esame; [apply Z.eqb_eq in Esame; wp_run; by auto|]. wp_step.
  eapply wp_mono; [eapply (wp_may_delete t dir di b); [done..|by exists oi]|]. intros r t' [Hr ->].
  destruct (Z.eqb_spec r 0) as [->|Hr0]; simpl; [|wp_run; split; [left; lia|done]]. wp_step. eapply (wp_mono _ (λ r s', r ≤ 0 ∧ s' = t)).
  { destruct (d_inode nd =? NULL); [by eapply (wp_may_create t new_dir ndi nb)|by eapply (wp_may_delete t new_dir ndi nb)]. }
  intros r' t' [Hr' ->]. destruct (Z.eqb_spec r' 0) as [->|Hr0]; simpl; [|wp_run; split; [left; lia|done]].
  wp_run. destruct (i_op di); wp_run; (split; [by left|done]).
Qed.

(** ** References to an inode *)

Definition iadj (x : ptr) (n : Z) (s : kstate) : kstate :=
  s <| inodes ::= alter (λ i, i <| i_count ::= Z.add n |>) x |>.

Lemma iadj_cancel x n s : iadj x (- n) (iadj x n s) = s.
Proof.
  unfold iadj. kstate_eq. rewrite alter_alter_eq. apply alter_id. intros [] _. unfold upd. simpl. f_equal. lia.
Qed.

Lemma iadj_lookup x n s y i :
  inodes s !! y = Some i → ∃ i', inodes (iadj x n s) !! y = Some i' ∧ i_sb i' = i_sb i ∧ i_op i' = i_op i.
Proof.
  intros Hy. simpl. destruct (decide (x = y)) as [->|Hne].
  - rewrite lookup_alter_eq, Hy. by eexists.
  - rewrite lookup_alter_ne by done. by eexists.
Qed.

Lemma wp_igrab x i Q s :
  inodes s !! x = Some i → Q tt (iadj x 1 s) → wp (mod_inode x (λ i, i <| i_count ::= Z.add 1 |>)) Q s.
Proof.
  intros Hx HQ. eapply wp_mod_inode; [done|].
  assert (s <| inodes ::= <[x := i <| i_count ::= Z.add 1 |>]> |> = iadj x 1 s) as ->; [|done].
  unfold iadj. kstate_eq. by rewrite (alter_some _ _ _ _ Hx).
Qed.

(** Giving up a reference that is not the last. *)
Lemma wp_iput_adj x i b Q s :
  x ≠ NULL → inodes s !! x = Some i → supers s !! i_sb i = Some b → i_state i ≠ I_CLEAR → i_count i ≠ 1 →
  Q tt (iadj x (-1) s) → wp (iput x) Q s.
Proof.
  intros Hx0 Hx Hb Hst Hc HQ. unfold iput. rewrite (proj2 (Z.eqb_neq _ _) Hx0). wp_run.
  wp_bug; [by apply Z.eqb_neq|]. wp_run. rewrite (proj2 (Z.eqb_neq _ _)) by lia. wp_run.
  match goal with |- Q _ ?st => assert (st = iadj x (-1) s) as ->; [|done] end.
  unfold iadj. kstate_eq. rewrite (alter_some _ _ _ _ Hx). f_equal. destruct i. unfold upd. simpl. f_equal. lia.
Qed.

(** ** Error pointers *)

Lemma err_ptr e : 0 < e ≤ 1000 → PTR_ERR (ERR_PTR (- e)) = - e.
Proof.
  intros He. unfold PTR_ERR, ERR_PTR, s32, u32, two32.
  rewrite <-(Z.mod_unique (- e) 4294967296 (-1) (4294967296 - e)) by lia.
  rewrite <-(Z.mod_unique (4294967296 - e + 2147483648) 4294967296 1 (2147483648 - e)) by lia. lia.
Qed.

Lemma is_err_ptr e : 0 < e < 1000 → IS_ERR (ERR_PTR (- e)) = true.
Proof.
  intros He. unfold IS_ERR, IS_ERR_VALUE, ERR_PTR, u32, two32.
  rewrite <-(Z.mod_unique (- e) 4294967296 (-1) (4294967296 - e)) by lia.
  change (-1000 mod 4294967296) with 4294966296. rewrite Z.gtb_ltb. apply Z.ltb_lt. lia.
Qed.

(** ** The last component *)

Section last.
Context (dext iext : refs) (sb root : ptr) (A : atree) (m : ptr) (s : kstate).
Hypothesis Hw : walkable dext iext sb root A m s.
Context (x : ptr) (k : Z) (l : list (bytes * ptr)) (comp rest : bytes).
Hypothesis Hx : A !! x = Some (ADir k l).
Let t := held m x s.

(** What the lookup of the last component below [x] left: an error, an entry of
    the tree with one reference more, or a new negative dentry. *)
Inductive looked : ptr → kstate → Prop :=
  | looked_err e t1 : 0 < e < 1000 → settled t t1 → looked (ERR_PTR (- e)) t1
  | looked_entry y n : A !! y = Some n → (comp, y) ∈ l → looked y (adj y 1 t)
  | looked_new xd : dentries t !! x = Some xd → looked (slab_next s) (lookup_new (key comp) x xd t).

Lemma wp_lookup_last Q :
  short comp → search s x = true → (∀ y n, A !! y = Some n → (comp, y) ∈ l → Q y (adj y 1 t)) →
  (∀ xd, dentries t !! x = Some xd → Q (slab_next s) (lookup_new (key comp) x xd t)) →
  wp (lookup_hash (path_key comp rest) x) Q t.
Proof.
  intros Hshort Hmay Hent Hnew. unfold wp. rewrite lookup_hash_key. fold (wp (lookup_hash (key comp) x) Q t).
  destruct (walk_object _ _ _ _ _ _ _ Hw _ _ Hx) as (xd & xi & [Hnode (S1 & _) _ _ Hc _ _ _]).
  pose proof Hnode as [X1 X2 X3 _ _ _]. rewrite (search_node _ _ _ _ _ Hnode) in Hmay. apply Z.eqb_eq in Hmay.
  pose proof (held_tree _ _ _ _ _ _ _ Hw _ _ Hx) as Hth. fold t in Hth.
  pose proof (held_lookup m x s x xd X1) as X1'. rewrite decide_True in X1' by done. fold t in X1'.
  destruct (wk_dirs _ _ _ _ _ _ _ Hw _ _ _ Hx) as [Hnd Hcl].
  eapply wp_mono; [apply (wp_lookup_hash _ _ (key comp) x (recount 1 xd) xi t (ti_vfs _ _ _ _ _ _ Hth)); [|done]|].
  { split; [done|simpl; lia|done|done]. }
  intros r t' Hr.
  destruct (entry_named comp l) as [y|] eqn:Een.
  - apply entry_named_some in Een. destruct (Hcl _ _ Een) as [[n Hy] _].
    pose proof (λ r, entry_unique _ _ _ _ _ _ _ _ _ _ _ r Hth Hx Hnd Een) as Huniq.
    destruct (walk_object _ _ _ _ _ _ _ Hw _ _ Hy) as (yd & yi & [_ _ Hy0 _ _ _ _ _]).
    destruct Hr as [He|r' d b _ Hd Hh Hnm _|? _ Hno|_ Hno].
    + done.
    + assert (r' = y) as ->.
      { apply Huniq. unfold lookup_spec.
        rewrite decide_False by (apply (dentry_addr _ _ _ _ (vi_dcache _ _ _ (ti_vfs _ _ _ _ _ _ Hth)) Hd)).
        by exists d, b. }
      assert (t <| dentries ::= <[y := d <| d_count ::= Z.add 1 |>]> |> = adj y 1 t) as ->.
      { by rewrite (adj_insert _ _ _ _ Hd). }
      by eapply Hent.
    + destruct (Hy0 (eq_sym (Huniq _ Hno))).
    + destruct (Hy0 (eq_sym (Huniq _ Hno))).
  - apply entry_named_none in Een. pose proof (absent _ _ _ _ _ _ _ _ _ _ Hth Hx Een) as Habs.
    destruct Hr as [He|r' d b _ Hd Hh Hnm _|? _ _ Hok|_ _ _ _].
    + done.
    + unfold lookup_spec in Habs. rewrite decide_True in Habs by done. by rewrite (Habs _ _ _ Hd Hh) in Hnm.
    + unfold d_alloc_ok, alloc_fails in Hok. simpl in Hok.
      rewrite (ti_mem _ _ _ _ _ _ (wk_tree _ _ _ _ _ _ _ Hw)) in Hok. simpl in Hok. by destruct (long_name _).
    + by apply Hnew.
Qed.

Lemma looked_same dentry t1 :
  looked dentry t1 → inodes t1 = inodes s ∧ supers t1 = supers s ∧ current t1 = current s.
Proof.
  intros [e t2 _ (? & ? & _ & _ & ->)|y n _ _|xd Hxd]; [done..|].
  destruct (lookup_new_same (key comp) x xd t) as (-> & -> & _ & -> & _). done.
Qed.

(** The objects of the tree keep their places. *)
Lemma looked_object dentry t1 y d :
  looked dentry t1 → dentries s !! y = Some d →
  ∃ d', dentries t1 !! y = Some d' ∧ d_inode d' = d_inode d ∧ d_parent d' = d_parent d.
Proof.
  intros Hl Hd. pose proof (held_lookup m x s y d Hd) as E. fold t in E.
  set (e := if decide (y = x) then recount 1 d else d) in E.
  assert (d_inode e = d_inode d ∧ d_parent e = d_parent d) as [E1 E2] by (unfold e; by case_decide).
  destruct Hl as [e' t2 _ (? & ? & _ & _ & ->)|z n _ _|xd' Hxd'].
  - by exists e.
  - destruct (decide (y = z)) as [->|Hne].
    + rewrite adj_lookup_eq, E. by eexists.
    + rewrite adj_lookup_ne, E by done. by eexists.
  - assert (y ≠ slab_next t) as Hne.
    { pose proof (ti_vfs _ _ _ _ _ _ (held_tree _ _ _ _ _ _ _ Hw _ _ Hx)) as Hv.
      destruct (fresh_none _ _ _ (slab_next t) Hv) as [Hf _]; [done|]. intros ->. unfold t in *. congruence. }
    rewrite lookup_new_dentries, lookup_insert_ne by done. destruct (decide (y = x)) as [->|Hyx].
    + rewrite lookup_alter_eq, E. by eexists.
    + rewrite lookup_alter_ne, E by done. by eexists.
Qed.

(** The dentry of the component. *)
Record found_child (t1 : kstate) (c : ptr) (d : dentry) : Prop := mkFoundChild {
  fc_dentry : dentries t1 !! c = Some d;
  fc_parent : d_parent d = x;
  fc_inode : d_inode d ≠ NULL → is_Some (inodes t1 !! d_inode d)
}.

Lemma looked_child dentry t1 :
  looked dentry t1 → IS_ERR dentry = false → ∃ d, found_child t1 dentry d.
Proof.
  intros [e t2 He _|y n Hy Hin|xd Hxd] Herr; [by rewrite is_err_ptr in Herr| |].
  - destruct (walk_object _ _ _ _ _ _ _ Hw _ _ Hy) as (d & i & [[N1 _ N3 _ _ _] _ _ _ _ _ _ _]).
    destruct (walk_object _ _ _ _ _ _ _ Hw _ _ Hx) as (? & ? & [_ (_ & _ & _ & _ & _ & S6) _ _ _ _ _ _]).
    rewrite Forall_forall in S6. destruct (S6 _ Hin) as (d' & b & Hd' & _ & [Hpar _ _ _]).
    simpl in Hd'. rewrite N1 in Hd'. injection Hd' as <-.
    eexists. split; [rewrite adj_lookup_eq; unfold t; by rewrite (held_lookup m x s y d N1)| |];
      destruct (decide (y = x)); simpl; by eauto.
  - destruct (missing_facts _ _ _ _ _ _ _ Hw x k l xd comp Hx Hxd) as (_ & _ & _ & _ & E & _).
    eexists. split; [exact E|done|done].
Qed.

(** A name with an inode is an entry of the tree. *)
Lemma looked_positive c t1 d :
  looked c t1 → IS_ERR c = false → dentries t1 !! c = Some d → d_inode d ≠ NULL →
  ∃ n, A !! c = Some n ∧ (comp, c) ∈ l ∧ t1 = adj c 1 t.
Proof.
  intros [e t2 He _|y n Hy Hin|xd Hxd] Herr Hd Hi; [by rewrite is_err_ptr in Herr|by eauto|].
  destruct (missing_facts _ _ _ _ _ _ _ Hw x k l xd comp Hx Hxd) as (_ & _ & _ & _ & E & _).
  assert (d = lookup_dentry (key comp) x xd t) as -> by (unfold t in *; congruence). done.
Qed.

Lemma looked_error c t1 : looked c t1 → IS_ERR c = true → PTR_ERR c < 0 ∧ settled t t1.
Proof.
  intros [e t2 He Hs|y n Hy _|xd Hxd] Herr.
  - rewrite err_ptr by lia. split; [lia|done].
  - destruct (walk_object _ _ _ _ _ _ _ Hw _ _ Hy) as (? & ? & []). congruence.
  - rewrite not_err in Herr; [done|]. apply (wk_low _ _ _ _ _ _ _ Hw).
Qed.

(** Giving the dentry back. *)
Lemma wp_put_child dentry t1 Q :
  looked dentry t1 → IS_ERR dentry = false → (∀ t2, settled t t2 → Q tt t2) → wp (dput dentry) Q t1.
Proof.
  intros [e t2 He _|y n Hy Hin|xd Hxd] Herr HQ; [by rewrite is_err_ptr in Herr| |].
  - destruct (walk_object _ _ _ _ _ _ _ Hw _ _ Hy) as (d & i & [[N1 _ _ _ _ _] _ Hy0 _ Hc _ _ _]).
    pose proof (held_lookup m x s y d N1) as E.
    eapply wp_dput_adj; [done|by rewrite adj_lookup_eq; unfold t; rewrite E| |].
    + destruct (decide (y = x)); simpl; lia.
    + apply HQ. change (-1) with (- (1)). by rewrite adj_cancel.
  - rewrite <-(adj_0 x (lookup_new _ _ _ _)).
    apply (wp_forget _ _ _ _ _ _ _ Hw x k l xd comp Hx Hxd); [by left|]. by rewrite adj_0.
Qed.

Context (nd : nameidata).
Hypothesis Hnd : nd_dentry nd = x.
Hypothesis Hmnt : nd_mnt nd = m.

Lemma wp_i_sem t1 xd Q :
  dentries t1 !! x = Some xd → is_Some (inodes t1 !! d_inode xd) → Q tt t1 → wp (i_sem (nd_dentry nd)) Q t1.
Proof. intros Hxd [i Hi] HQ. unfold i_sem. rewrite Hnd. by wp_run. Qed.

Lemma settled_dir t1 : settled t t1 → ∃ xd, dentries t1 !! x = Some xd ∧ is_Some (inodes t1 !! d_inode xd).
Proof.
  intros (? & ? & _ & _ & ->).
  destruct (walk_object _ _ _ _ _ _ _ Hw _ _ Hx) as (xd & xi & [[X1 _ X3 _ _ _] _ _ _ _ _ _ _]).
  exists (recount 1 xd). split; [|by eauto]. pose proof (held_lookup m x s x xd X1) as E.
  by rewrite decide_True in E.
Qed.

(** The directory is unlocked and left. *)
Lemma wp_leave t1 (error : Z) (Q : Z → kstate → Prop) :
  settled t t1 → (∀ t2, settled s t2 → Q error t2) →
  wp (i_sem (nd_dentry nd) ;; path_release (nd_path nd) ;; mret error) Q t1.
Proof.
  intros Hs HQ. destruct (settled_dir t1 Hs) as (xd & Hxd & Hi). wp_step.
  eapply wp_i_sem; [done|done|]. wp_step. unfold nd_path. rewrite Hnd, Hmnt.
  eapply wp_mono; [by apply (wp_release_settled _ _ _ _ _ _ _ Hw x (ADir k l))|].
  intros [] t2 Ht2. wp_run. by apply HQ.
Qed.

Lemma wp_finish_create dentry t1 error Q :
  looked dentry t1 → (∀ t2, settled s t2 → Q error t2) → wp (finish_create nd dentry error) Q t1.
Proof.
  intros Hl HQ. unfold finish_create. wp_step. destruct (IS_ERR dentry) eqn:Herr; simpl.
  - wp_step. destruct (looked_error _ _ Hl Herr) as [_ Hs]. by apply wp_leave.
  - eapply wp_put_child; [done|done|]. intros t2 Hs. by apply wp_leave.
Qed.

Hypothesis Hlast : is_last_norm nd = true → nd_last nd = path_key comp rest ∧ short comp ∧ search s x = true.

Lemma wp_lookup_create is_dir Q :
  (∀ dentry t1, looked dentry t1 → Q dentry t1) → wp (lookup_create nd is_dir) Q t.
Proof.
  intros HQ. destruct (settled_dir t) as (xd0 & Hxd0 & Hi0); [done|].
  unfold lookup_create. wp_step. eapply wp_i_sem; [done|done|].
  destruct (is_last_norm nd); simpl; [|by wp_run; apply HQ, looked_err].
  destruct Hlast as (El & Hs & Hmay); [done|]. rewrite El, Hnd. wp_step.
  assert (∀ dentry t1, looked dentry t1 → IS_ERR dentry = false →
    wp (if IS_ERR dentry then mret dentry
        else d ← get_dentry dentry;
             if negb is_dir && negb (after_last nd =? 0) && (d_inode d =? NULL)
             then dput dentry ;; mret (ERR_PTR (- ENOENT)) else mret dentry) Q t1) as Hgo.
  { intros dentry t1 Hl Herr. rewrite Herr. destruct (looked_child _ _ Hl Herr) as (d & [Hd _ _]).
    wp_run. destruct (_ && _); [|by wp_run; apply HQ]. wp_step. eapply wp_put_child; [done|done|].
    intros t2 Ht2. wp_run. by apply HQ, looked_err. }
  apply wp_lookup_last; [done|done| |].
  - intros y n Hy Hin. apply Hgo; [by eapply looked_entry|].
    destruct (walk_object _ _ _ _ _ _ _ Hw _ _ Hy) as (? & ? & []). done.
  - intros xd Hxd. apply Hgo; [by apply looked_new|]. apply not_err, (wk_low _ _ _ _ _ _ _ Hw).
Qed.

(** The inode of the directory, and what the checks need of it. *)
Lemma looked_checks dentry t1 :
  looked dentry t1 → ∃ dir di b, inodes t1 !! dir = Some di ∧ supers t1 !! i_sb di = Some b ∧
    (∀ Q, Q dir t1 → wp (nd_dir nd) Q t1) ∧
    (∀ mode (Q : Z → kstate → Prop), (∀ mode', Q mode' t1) → wp (umask_mode dir mode) Q t1) ∧
    (∃ xd, dentries t1 !! x = Some xd ∧ d_inode xd = dir).
Proof.
  intros Hl. destruct (looked_same _ _ Hl) as (Ei & Es & _).
  destruct (walk_object _ _ _ _ _ _ _ Hw _ _ Hx) as (xd & xi & [[X1 _ X3 _ _ X6] _ _ _ _ _ _ _]).
  destruct (looked_object _ _ _ _ Hl X1) as (xd' & Hxd' & Exd & _).
  destruct (ti_sb _ _ _ _ _ _ (wk_tree _ _ _ _ _ _ _ Hw)) as [b Hb].
  assert (inodes t1 !! d_inode xd = Some xi) as Hi by (by rewrite Ei).
  assert (supers t1 !! i_sb xi = Some b) as Hb' by (by rewrite Es, X6).
  exists (d_inode xd), xi, b. split_and!; [done|done| | |by eauto].
  - intros Q HQ. unfold nd_dir. rewrite Hnd. wp_run. by rewrite Exd.
  - intros mode Q HQ. unfold umask_mode, IS_POSIXACL. wp_run. apply HQ.
Qed.

(** An operation on a looked-up name that refuses leaves the state before the
    system call. *)
Lemma wp_refused (op : KM Z) dentry t1 Q :
  looked dentry t1 → (∀ r t2, r < 0 → settled s t2 → Q r t2) →
  (IS_ERR dentry = false → wp op (refuses t1) t1) →
  wp (error ← (if IS_ERR dentry then mret (PTR_ERR dentry) else op); finish_create nd dentry error) Q t1.
Proof.
  intros Hl HQ Hop. wp_step. eapply (wp_mono _ (λ r s', r < 0 ∧ s' = t1)).
  - destruct (IS_ERR dentry) eqn:Herr; [|by apply Hop]. wp_run. by destruct (looked_error _ _ Hl Herr).
  - intros r t2 [Hr ->]. eapply wp_finish_create; [done|]. by intros; apply HQ.
Qed.
End last.

(** ** The system calls *)

Definition path_ok (path : bytes) : Prop := cstring path ∧ Forall short (names_of path).

(** Where the walk to a parent ends: [st] is where the path starts. *)
Record at_parent (may : ptr → bool) (root : ptr) (A : atree) (m : ptr) (st : list ptr) (path : bytes)
    (nd : nameidata) (x : ptr) (anc : list ptr) (k : Z) (l : list (bytes * ptr)) (comp rest : bytes) : Prop :=
  mkAtParent {
    ap_chain : chained A root (x :: anc);
    ap_dir : A !! x = Some (ADir k l);
    ap_dentry : nd_dentry nd = x;
    ap_mnt : nd_mnt nd = m;
    ap_type : nd_last_type nd ≠ LAST_BIND;
    ap_last : is_last_norm nd = true → nd_last nd = path_key comp rest ∧ short comp ∧ may x = true;
    ap_path : is_last_norm nd = true → comp ≠ dot ∧ comp ≠ dotdot ∧
      aresolve may A st (names_of path) = astep may A (x :: anc) comp
  }.
Arguments ap_chain {_ _ _ _ _ _ _ _ _ _ _ _ _}.
Arguments ap_dir {_ _ _ _ _ _ _ _ _ _ _ _ _}.
Arguments ap_dentry {_ _ _ _ _ _ _ _ _ _ _ _ _}.
Arguments ap_mnt {_ _ _ _ _ _ _ _ _ _ _ _ _}.

Lemma at_parent_ext may may' root A m st path nd x anc k l comp rest :
  (∀ y, may y = may' y) → at_parent may root A m st path nd x anc k l comp rest →
  at_parent may' root A m st path nd x anc k l comp rest.
Proof.
  intros E [H1 H2 H3 H4 H5 H6 H7]. split; try done.
  - intros Hn. rewrite <-E. auto.
  - intros Hn. rewrite <-(aresolve_ext may may') by done. destruct (H7 Hn) as (D1 & D2 & ->).
    split_and!; [done..|]. simpl. by rewrite E.
Qed.

(** The entry that the path names, if the last lookup found one. *)
Lemma at_parent_entry may root A m st path nd x anc k l comp rest y :
  at_parent may root A m st path nd x anc k l comp rest → is_last_norm nd = true → NoDup l.*1 → (comp, y) ∈ l →
  aresolve may A st (names_of path) = inr (y :: x :: anc).
Proof.
  intros [_ Hx _ _ _ Hl Hp] Hn Hnd Hin. destruct (Hl Hn) as (_ & _ & Hm). destruct (Hp Hn) as (D1 & D2 & ->).
  simpl. rewrite Hx, Hm, !bool_decide_false by done. simpl. by rewrite (entry_named_in comp l y).
Qed.

Section calls.
Context (dext iext : refs) (sb root : ptr) (A : atree) (m : ptr) (s : kstate) (cwd : list ptr).
Hypothesis Hw : walkable dext iext sb root A m s.
Hypothesis Hcwd : cwd_ok A root m cwd (current s).

Lemma start_chained path : chained A root (start root cwd path).
Proof.
  unfold start. destruct (head_byte path =? 47); [|apply (cw_chain _ _ _ _ _ Hcwd)].
  split; [done|]. apply (wk_root _ _ _ _ _ _ _ Hw).
Qed.

Local Abbreviation parent_of path := (at_parent (search s) root A m (start root cwd path) path).

Lemma names_parent_last path nd :
  Forall short (names_of path) → names_parent path nd →
  nd_last_type nd ≠ LAST_BIND ∧
  ∃ comp rest, is_last_norm nd = true → nd_last nd = path_key comp rest ∧ short comp ∧
    comp ≠ dot ∧ comp ≠ dotdot ∧ ∃ init, names_of path = init ++ [comp].
Proof.
  intros Hs Hn. unfold names_parent in Hn. destruct (last (names_of path)) as [comp|] eqn:El.
  - destruct Hn as (Hty & rest & Hl & _). split; [rewrite Hty; unfold comp_type; by repeat case_bool_decide|].
    exists comp, rest. intros Hno. unfold is_last_norm in Hno. rewrite Hty in Hno. unfold comp_type in Hno.
    apply last_Some in El as [init E]. rewrite E in Hs. apply Forall_app in Hs as [_ [Hs _]%Forall_cons].
    case_bool_decide; [done|]. case_bool_decide; [done|]. split_and!; [done..|by exists init].
  - unfold is_last_norm. rewrite Hn. split; [done|]. by exists [], [].
Qed.

Lemma wp_parent path nd0 (Q : Z * nameidata → kstate → Prop) :
  path_ok path → (∀ e nd s', e < 0 → settled s s' → Q (e, nd) s') →
  (∀ nd x anc k l comp rest, parent_of path nd x anc k l comp rest → Q (0, nd) (held m x s)) →
  wp (path_lookup path LOOKUP_PARENT nd0) Q s.
Proof.
  intros [Hp Hs] Herr Hok. eapply wp_mono; [by apply (wp_path_lookup dext iext sb root A m s cwd)|].
  intros [e nd] s' [Hpost Hpar]. pose proof (start_chained path) as Hch.
  destruct (walk_target (search s) A LOOKUP_PARENT (start root cwd path) path) as [e'|x] eqn:Et; simpl in *.
  - destruct Hpost as [-> Hst]. apply Herr; [|done].
    by destruct (walk_error_neg _ (walk_target_error _ _ _ _ _ _ Et)).
  - destruct Hpost as (-> & Hnd & ->). injection Hnd as Hm Hx.
    destruct (names_parent_last path nd Hs) as (Hty & comp & rest & Hl); [by apply Hpar|].
    destruct (walk_target_parent _ _ _ _ _ _ _ _ _ _ Hw Hch Et) as (anc & k & l & Hanc & Hd & Hres).
    apply (Hok nd x anc k l comp rest). split; try done.
    + intros Hn. destruct (Hl Hn) as (? & ? & _ & _ & init & E). by destruct (Hres _ _ E).
    + intros Hn. destruct (Hl Hn) as (_ & _ & D1 & D2 & init & E). destruct (Hres _ _ E) as [_ Er].
      rewrite E, aresolve_app, Er. split_and!; [done..|]. cbn [aresolve].
      by destruct (astep (search s) A (x :: anc) comp).
Qed.

(** What every call promises. *)
Definition denied (r : Z) (s' : kstate) : Prop := r < 0 ∧ settled s s'.

(** A call that makes a name: it walks to the parent, looks the name up for
    creation, and the operation on it refuses. *)
Lemma wp_make path (k : nameidata → KM Z) :
  path_ok path →
  (∀ nd x anc kx l comp rest, parent_of path nd x anc kx l comp rest → wp (k nd) denied (held m x s)) →
  wp ('(error, nd) ← path_lookup path LOOKUP_PARENT nd_init;
      if negb (error =? 0) then mret error else k nd) denied s.
Proof.
  intros Hp Hk. wp_step. eapply wp_parent; [done| |].
  - intros e nd s' He Hst. rewrite (proj2 (Z.eqb_neq e 0)) by lia. by wp_run.
  - intros nd x anc kx l comp rest Hat. simpl. by eapply Hk.
Qed.

(** What an operation on the looked-up name runs from. *)
Record ready (nd : nameidata) (x c : ptr) (t1 : kstate) (dir : ptr) (di : inode) (b : super_block)
    (d xd : dentry) : Prop := mkReady {
  rd_dir : inodes t1 !! dir = Some di;
  rd_sb : supers t1 !! i_sb di = Some b;
  rd_nd_dir Q : Q dir t1 → wp (nd_dir nd) Q t1;
  rd_umask mode (Q : Z → kstate → Prop) : (∀ mode', Q mode' t1) → wp (umask_mode dir mode) Q t1;
  rd_dentry : dentries t1 !! c = Some d;
  rd_place : d_parent d = x;
  rd_parent : dentries t1 !! d_parent d = Some xd;
  rd_inode : d_inode xd = dir;
  rd_target : d_inode d ≠ NULL → is_Some (inodes t1 !! d_inode d);
  rd_inodes : inodes t1 = inodes s;
  rd_objects y e : dentries s !! y = Some e → ∃ e', dentries t1 !! y = Some e' ∧
    d_inode e' = d_inode e ∧ d_parent e' = d_parent e
}.

Lemma looked_ready {path} nd x anc kx l comp rest c t1 :
  parent_of path nd x anc kx l comp rest → looked A m s x l comp c t1 → IS_ERR c = false →
  ∃ dir di b d xd, ready nd x c t1 dir di b d xd.
Proof.
  intros [_ Hx Hnd Hmnt Hty _ _] Hl Herr.
  destruct (looked_checks _ _ _ _ _ _ _ Hw x kx l comp Hx nd Hnd c t1 Hl)
    as (dir & di & b & Hi & Hb & Hdir & Hum & xd & Hxd & Exd).
  destruct (looked_child _ _ _ _ _ _ _ Hw _ _ _ _ Hx _ _ Hl Herr) as (d & [Hd Hpar Hino]).
  exists dir, di, b, d, xd. split; try done.
  - by rewrite Hpar.
  - by destruct (looked_same _ _ _ _ _ _ _ _ Hl).
  - intros y e Hy. destruct (looked_object _ _ _ _ _ _ _ Hw _ _ _ _ Hx _ _ _ _ Hl Hy) as (e' & H1 & H2 & H3). eauto.
Qed.

(** The lookup for creation and an operation that refuses. *)
Lemma wp_create_refused {path} nd x anc kx l comp rest is_dir (op : ptr → KM Z) :
  parent_of path nd x anc kx l comp rest →
  (∀ c t1 dir di b d xd, ready nd x c t1 dir di b d xd → wp (op c) (refuses t1) t1) →
  wp (dentry ← lookup_create nd is_dir;
      error ← (if IS_ERR dentry then mret (PTR_ERR dentry) else op dentry);
      finish_create nd dentry error) denied (held m x s).
Proof.
  intros Hat Hop. pose proof Hat as [_ Hx Hnd Hmnt _ Hlast _]. wp_step.
  apply (wp_lookup_create _ _ _ _ _ _ _ Hw x kx l comp rest Hx nd Hnd Hlast). intros c t1 Hl.
  eapply wp_refused; [done..| |]; [by split|]. intros Herr.
  destruct (looked_ready _ _ _ _ _ _ _ _ _ Hat Hl Herr) as (dir & di & b & d & xd & Hr). by eapply Hop.
Qed.

Lemma wp_sys_mkdir path mode : path_ok path → wp (sys_mkdir vendored_iop path mode) denied s.
Proof.
  intros Hp. apply wp_make; [done|]. intros nd x anc kx l comp rest Hat.
  eapply wp_create_refused; [done|]. intros c t1 dir di b d xd [].
  wp_step. apply rd_nd_dir0. wp_step. apply rd_umask0. intros mode'. by eapply wp_vfs_mkdir.
Qed.

Lemma wp_sys_symlink from to : path_ok to → wp (sys_symlink vendored_iop from to) denied s.
Proof.
  intros Hp. apply wp_make; [done|]. intros nd x anc kx l comp rest Hat.
  eapply wp_create_refused; [done|]. intros c t1 dir di b d xd [].
  wp_step. apply rd_nd_dir0. by eapply wp_vfs_symlink.
Qed.

Lemma wp_sys_mknod path mode dev : path_ok path → wp (sys_mknod vendored_iop path mode dev) denied s.
Proof.
  intros Hp. unfold sys_mknod. destruct (S_ISDIR mode); [by wp_run|].
  apply wp_make; [done|]. intros nd x anc kx l comp rest Hat. pose proof Hat as [_ Hx Hnd Hmnt _ Hlast _].
  wp_step. apply (wp_lookup_create _ _ _ _ _ _ _ Hw x kx l comp rest Hx nd Hnd Hlast). intros c t1 Hl.
  destruct (looked_checks _ _ _ _ _ _ _ Hw x kx l comp Hx nd Hnd c t1 Hl)
    as (dir & di & b & Hi & Hb & Hdir & Hum & _).
  wp_step. apply Hdir. wp_step. apply Hum. intros mode'.
  eapply wp_refused; [done..| |]; [by split|]. intros Herr.
  destruct (looked_child _ _ _ _ _ _ _ Hw _ _ _ _ Hx _ _ Hl Herr) as (d & [Hd _ _]).
  cbv zeta. repeat case_match; try (by wp_run); by first [eapply wp_vfs_create|eapply wp_vfs_mknod].
Qed.

(** Looking up a name that exists already. *)
Lemma wp_lookup_name {path} nd x anc kx l comp rest Q :
  parent_of path nd x anc kx l comp rest → is_last_norm nd = true →
  (∀ c t1, looked A m s x l comp c t1 → Q c t1) →
  wp (lookup_hash (nd_last nd) (nd_dentry nd)) Q (held m x s).
Proof.
  intros [_ Hx Hnd Hmnt _ Hlast _] Hn HQ. destruct (Hlast Hn) as (-> & Hs & Hmay). rewrite Hnd.
  apply (wp_lookup_last _ _ _ _ _ _ _ Hw x kx l comp rest Hx); [done|done| |].
  - intros y n Hy Hin. by apply HQ, (looked_entry _ _ _ _ _ _ y n).
  - intros xd Hxd. by apply HQ, looked_new.
Qed.

(** The end of a call that removes a name. *)
Lemma wp_release_denied {path} nd x anc kx l comp rest t1 error :
  parent_of path nd x anc kx l comp rest → settled (held m x s) t1 → error < 0 →
  wp (path_release (nd_path nd) ;; mret error) denied t1.
Proof.
  intros [_ Hx Hnd Hmnt Hty _ _] Hst He. unfold nd_path. rewrite Hnd, Hmnt. wp_step.
  eapply wp_mono; [by apply (wp_release_settled _ _ _ _ _ _ _ Hw x (ADir kx l))|].
  intros [] t2 Ht2. by wp_run.
Qed.

Lemma wp_sys_rmdir path : path_ok path → wp (sys_rmdir vendored_iop path) denied s.
Proof.
  intros Hp. apply wp_make; [done|]. intros nd x anc kx l comp rest Hat. pose proof Hat as [_ Hx Hnd Hmnt Hty _ _].
  assert (∀ error, error < 0 → wp (error ← mret error; path_release (nd_path nd) ;; mret error) denied (held m x s)) as Hno.
  { intros e He. wp_step. by eapply wp_release_denied. }
  destruct (nd_last_type nd) eqn:Elast; [|by apply Hno..|done].
  destruct (settled_dir _ _ _ _ _ _ _ Hw x kx l Hx (held m x s)) as (xd0 & Hxd0 & Hi0); [done|].
  wp_step. wp_step. eapply wp_i_sem; [done..|]. wp_step.
  eapply wp_lookup_name; [done|by unfold is_last_norm; rewrite Elast|]. intros c t1 Hl.
  eapply wp_mono.
  { wp_step. eapply (wp_mono _ (λ r t2, r < 0 ∧ settled (held m x s) t2)).
    - destruct (IS_ERR c) eqn:Herr; [wp_run; by eapply looked_error|].
      destruct (looked_ready _ _ _ _ _ _ _ _ _ Hat Hl Herr) as (dir & di & b & d & xd & []).
      wp_step. apply rd_nd_dir0. wp_step. eapply wp_mono; [by eapply wp_vfs_rmdir|]. intros r t2 [Hr ->].
      wp_step. eapply wp_put_child; [done..|]. intros t2 Ht2. by wp_run.
    - intros r t2 [Hr Ht2]. destruct (settled_dir _ _ _ _ _ _ _ Hw x kx l Hx t2 Ht2) as (xd & Hxd & Hi).
      wp_step. eapply wp_i_sem; [done..|]. wp_run. exact (conj Hr Ht2). }
  intros r t2 [Hr Ht2]. by eapply wp_release_denied.
Qed.

(** *** unlink *)

(** The inode that the call keeps until the directory is unlocked. *)
Record kept (p : ptr) (i : inode) (b : super_block) : Prop := mkKept {
  kp_addr : p ≠ NULL;
  kp_inode : inodes s !! p = Some i;
  kp_sb : supers s !! i_sb i = Some b;
  kp_state : i_state i ≠ I_CLEAR;
  kp_count : 1 ≤ i_count i
}.

Lemma object_kept y n d :
  A !! y = Some n → dentries s !! y = Some d → ∃ i b, kept (d_inode d) i b.
Proof.
  intros Hy Hd. pose proof (wk_tree _ _ _ _ _ _ _ Hw) as [[_ Hi] _ [b Hb] _ _].
  destruct (walk_object _ _ _ _ _ _ _ Hw _ _ Hy) as (d' & i & [[N1 _ N3 N4 _ N6] _ _ _ _ _ _ N0]).
  rewrite Hd in N1. injection N1 as <-. destruct (ii_ok _ _ Hi _ _ N3) as [_ _ I1 I2 I3 _].
  exists i, b. split; [done|done|by rewrite N6| |].
  - intros E. by rewrite E in I3.
  - rewrite I2, N4. simpl. lia.
Qed.

(** What the part of the call on a dentry leaves: an error, and perhaps a
    reference to the inode. *)
Definition unlinking (x : ptr) (r : Z * ptr) (t2 : kstate) : Prop :=
  fst r < 0 ∧ (snd r = NULL ∧ settled (held m x s) t2 ∨
               ∃ i b, kept (snd r) i b ∧ t2 = iadj (snd r) 1 (held m x s)).

Lemma wp_slashes_error d t1 :
  (d_inode d ≠ NULL → is_Some (inodes t1 !! d_inode d)) →
  wp (slashes_error d) (λ e t2, e < 0 ∧ t2 = t1) t1.
Proof.
  intros Hi. unfold slashes_error. destruct (d_inode d =? NULL) eqn:En; [by wp_run|].
  apply Z.eqb_neq in En. destruct (Hi En) as [i Hi']. wp_run. by destruct (S_ISDIR _).
Qed.

Lemma wp_unlink_dentry {path} nd x anc kx l comp rest c t1 :
  parent_of path nd x anc kx l comp rest → looked A m s x l comp c t1 → IS_ERR c = false →
  wp (unlink_dentry vendored_iop nd c) (unlinking x) t1.
Proof.
  intros Hat Hl Herr. pose proof Hat as [_ Hx Hnd Hmnt Hty _ _].
  destruct (looked_ready _ _ _ _ _ _ _ _ _ Hat Hl Herr) as (dir & di & b & d & xd & [D1 D2 D3 _ D4 Dx D5 D6 D7 _ _]).
  unfold unlink_dentry. wp_step. wp_step; [exact D4|].
  assert (∀ error, error < 0 → wp (dput c ;; mret (error, NULL)) (unlinking x) t1) as Hput.
  { intros e He. wp_step. eapply wp_put_child; [done..|]. intros t2 Ht2. wp_run. split; [done|by left]. }
  destruct (negb (after_last nd =? 0)).
  { wp_step. wp_step. eapply wp_mono; [by apply wp_slashes_error|]. intros e t2 [He ->]. wp_step. by apply Hput. }
  destruct (d_inode d =? NULL) eqn:En; simpl.
  - wp_step. wp_step. wp_step. wp_step. apply D3. wp_step.
    eapply wp_mono; [by eapply wp_vfs_unlink|]. intros r t2 [Hr ->]. wp_step.
    apply Z.eqb_eq in En. rewrite En. by apply Hput.
  - apply Z.eqb_neq in En. destruct (looked_positive _ _ _ _ _ _ _ Hw x kx l comp Hx _ _ _ Hl Herr D4 En) as (n & Hc & _ & ->).
    destruct (D7 En) as [i Hi].
    destruct (walk_object _ _ _ _ _ _ _ Hw _ _ Hc) as (yd & yi & [[N1 _ _ _ _ _] _ Hc0 _ Hcnt _ _ _]).
    pose proof (held_lookup m x s c yd N1) as E.
    wp_step. wp_step. eapply wp_igrab; [done|]. set (t1 := adj c 1 (held m x s)) in *.
    destruct (iadj_lookup (d_inode d) 1 t1 dir di D1) as (di' & Hdi & Esb & _).
    assert (d_inode d ≠ NULL → is_Some (inodes (iadj (d_inode d) 1 t1) !! d_inode d)) as Hino.
    { intros _. destruct (iadj_lookup (d_inode d) 1 t1 _ _ Hi) as (i' & Hi' & _). by exists i'. }
    assert (dentries t1 !! x = Some xd) as D5' by (by rewrite Dx in D5).
    wp_step. unfold nd_dir. rewrite Hnd. wp_step. wp_step; [exact D5'|].
    wp_step. rewrite D6. wp_step.
    eapply wp_mono; [eapply (wp_vfs_unlink (iadj (d_inode d) 1 t1) dir di' b Hdi); [by rewrite Esb|exact D4|exact D5|done|done]|].
    intros r t2 [Hr ->]. wp_step. wp_step.
    eapply wp_dput_adj; [done|exact D4| |].
    + unfold t1 in D4. rewrite adj_lookup_eq, E in D4. injection D4 as <-. destruct (decide (c = x)); simpl; lia.
    + wp_step. split; [done|]. right. cbn [snd].
      destruct (object_kept c n yd Hc N1) as (i0 & b0 & Hk). exists i0, b0.
      assert (d_inode d = d_inode yd) as ->.
      { unfold t1 in D4. rewrite adj_lookup_eq, E in D4. injection D4 as <-. by destruct (decide (c = x)). }
      split; [done|]. change (adj c (-1) (iadj (d_inode yd) 1 t1)) with (iadj (d_inode yd) 1 (adj c (- (1)) t1)).
      unfold t1. by rewrite adj_cancel.
Qed.

Lemma wp_sys_unlink path : path_ok path → wp (sys_unlink vendored_iop path) denied s.
Proof.
  intros Hp. apply wp_make; [done|]. intros nd x anc kx l comp rest Hat. pose proof Hat as [_ Hx Hnd Hmnt Hty _ _].
  destruct (is_last_norm nd) eqn:Elast; simpl.
  2: { wp_step. wp_step. by eapply wp_release_denied. }
  destruct (settled_dir _ _ _ _ _ _ _ Hw x kx l Hx (held m x s)) as (xd0 & Hxd0 & Hi0); [done|].
  wp_step. wp_step. eapply wp_i_sem; [done..|]. wp_step.
  eapply wp_lookup_name; [done..|]. intros c t1 Hl.
  eapply wp_mono.
  { wp_step. eapply (wp_mono _ (unlinking x)).
    - destruct (IS_ERR c) eqn:Herr; [|by eapply wp_unlink_dentry].
      wp_step. destruct (looked_error _ _ _ _ _ _ _ Hw _ _ _ _ _ Hl Herr) as [H1 H2]. split; [done|by left].
    - intros [e p] t2 [He [[E0 Hst]|(i & b & [K1 K2 K3 K4 K5] & ->)]]; simpl in *.
      + destruct (settled_dir _ _ _ _ _ _ _ Hw x kx l Hx t2 Hst) as (xd & Hxd & Hi).
        wp_step. eapply wp_i_sem; [done..|]. rewrite E0. simpl. wp_run. exact (conj He Hst).
      + wp_step. destruct Hi0 as [xi0 Hi0]. destruct (iadj_lookup p 1 _ _ _ Hi0) as (i' & Hi' & _).
        eapply wp_i_sem; [exact Hnd|exact Hxd0|by exists i'|]. rewrite (proj2 (Z.eqb_neq _ _) K1). simpl. wp_step.
        eapply (wp_iput_adj p (i <| i_count ::= Z.add 1 |>) b); [done| |done|done|simpl; lia|].
        * simpl. by rewrite lookup_alter_eq, K2.
        * wp_step. split; [exact He|]. change (-1) with (- (1)). by rewrite iadj_cancel. }
  intros r t2 [Hr Ht2]. by eapply wp_release_denied.
Qed.
End calls.

(** *** link *)

Section two.
Context (dext iext : refs) (sb root : ptr) (A : atree) (m : ptr) (s : kstate) (cwd : list ptr).
Hypothesis Hw : walkable dext iext sb root A m s.
Hypothesis Hcwd : cwd_ok A root m cwd (current s).

(** The second walk of a call runs while the end of the first one is held, and
    the call gives it back. *)
Lemma wp_second nd y n t1 (error : Z) :
  A !! y = Some n → nd_dentry nd = y → nd_mnt nd = m → settled (held m y s) t1 →
  wp (path_release (nd_path nd) ;; mret error) (λ r t2, r = error ∧ settled s t2) t1.
Proof.
  intros Hy Hd Hm Hst. unfold nd_path. rewrite Hd, Hm. wp_step.
  eapply wp_mono; [by apply (wp_release_settled _ _ _ _ _ _ _ Hw y n)|].
  intros [] t2 Ht2. by wp_run.
Qed.

Lemma wp_sys_link from to :
  path_ok from → path_ok to → wp (sys_link vendored_iop from to) (denied s) s.
Proof.
  intros [Hf Hfs] Ht. unfold sys_link. wp_step.
  eapply wp_mono; [by apply (wp_path_lookup dext iext sb root A m s cwd)|].
  intros [e old] s' [Hpost _]. pose proof (start_chained _ _ _ _ _ _ _ _ Hw Hcwd from) as Hch.
  destruct (walk_target (search s) A 0 (start root cwd from) from) as [e'|y] eqn:Et; simpl in *.
  { destruct Hpost as [-> Hst]. destruct (walk_error_neg _ (walk_target_error _ _ _ _ _ _ Et)) as [He _].
    rewrite (proj2 (Z.eqb_neq _ 0)) by lia. by wp_run. }
  destruct Hpost as (-> & Hnd & ->). injection Hnd as Hm Hy. simpl.
  destruct (walk_target_some _ _ _ _ _ _ _ _ _ _ _ Hw Hch Et) as [n Hn].
  pose proof (walkable_held _ _ _ _ _ _ _ _ _ Hw Hn) as Hw1. set (s1 := held m y s) in *.
  wp_step. eapply (wp_parent _ _ _ _ _ _ _ cwd Hw1 Hcwd); [done| |].
  - intros e nd t1 He Hst. rewrite (proj2 (Z.eqb_neq e 0)) by lia. cbn [negb]. wp_step. wp_step.
    eapply wp_mono; [by eapply wp_second|]. intros r t2 [-> Hs2]. done.
  - intros nd x anc k l comp rest Hat. rewrite Hm, (ap_mnt Hat), (Z.eqb_refl m).
    cbn [negb Z.eqb]. wp_step. eapply wp_mono.
    { eapply (wp_create_refused _ _ _ _ _ _ _ _ Hw1); [done|]. intros c t1 dir di b d xd [].
      wp_step. apply rd_nd_dir0. rewrite Hy.
      destruct (walk_object _ _ _ _ _ _ _ Hw1 _ _ Hn) as (yd & yi & [[N1 _ N3 _ _ _] _ _ _ _ _ _ _]).
      destruct (rd_objects0 _ _ N1) as (yd' & Hyd & Eyd & _).
      eapply wp_vfs_link; [done|done|exact Hyd| |done]. intros _. rewrite Eyd, rd_inodes0. by exists yi. }
    intros r t1 [Hr Hst]. eapply wp_mono; [by eapply wp_second|]. intros r' t2 [-> Hs2]. done.
Qed.
End two.
