(* ===== verification/RenameSpec.v ===== *)
(** * Renaming, and all calls that change names

    [do_rename] locks two directories, for which it walks from each of them
    towards the root; the walk ends because the directories of the tree form
    chains without a repetition.  The calls on names together: none of them
    changes the tree. *)

From S2P Require Import Prelude KString Kernel Links Inode InodeInv Dcache DcacheInv DcacheOps Walk.
From S2P Require Import Filesystems Super Mount Libfs Groups Namei LookupSpec Attr Path Vfs Aufs AufsSpec.
From S2P Require Import AufsCreate AufsTree KernMount PathCount PathNames PathSpec VfsSpec.

(** ** Chains of directories *)

Section chains.
Context (dext iext : refs) (sb root : ptr) (A : atree) (m : ptr) (s : kstate).
Hypothesis Hw : walkable dext iext sb root A m s.

Lemma chained_parent x p anc d :
  chained A root (x :: p :: anc) → dentries s !! x = Some d → x ≠ root ∧ d_parent d = p.
Proof.
  intros (_ & (k & l & name & Hp & Hin) & _) Hd.
  destruct (wk_dirs _ _ _ _ _ _ _ Hw _ _ _ Hp) as [_ Hcl]. split; [by apply (Hcl name)|].
  destruct (walk_object _ _ _ _ _ _ _ Hw _ _ Hp) as (pd & pi & [_ (_ & _ & _ & _ & _ & S6) _ _ _ _ _ _]).
  rewrite Forall_forall in S6. destruct (S6 _ Hin) as (d' & b & Hd' & _ & [Hpar _ _ _]).
  simpl in Hd'. congruence.
Qed.

Lemma chained_dentry x anc : chained A root (x :: anc) → is_Some (dentries s !! x).
Proof.
  intros Hch. destruct (chained_top _ _ _ _ Hch) as [n Hx].
  destruct (walk_object _ _ _ _ _ _ _ Hw _ _ Hx) as (d & i & [[N1 _ _ _ _ _] _ _ _ _ _ _ _]). by exists d.
Qed.

Lemma chained_tail l x anc : chained A root (l ++ x :: anc) → chained A root (x :: anc).
Proof.
  induction l as [|y [|z l] IH]; [done| |].
  - by intros (_ & _ & H).
  - intros (_ & _ & H). by apply IH.
Qed.

(** The ancestors of an object are determined by the parents. *)
Lemma chained_det anc1 : ∀ x anc2,
  chained A root (x :: anc1) → chained A root (x :: anc2) → anc1 = anc2.
Proof.
  induction anc1 as [|p anc1 IH]; intros x [|q anc2] H1 H2; [done| | |].
  - destruct H1 as [-> _]. destruct (chained_dentry _ _ H2) as [d Hd]. by destruct (chained_parent _ _ _ _ H2 Hd).
  - destruct H2 as [-> _]. destruct (chained_dentry _ _ H1) as [d Hd]. by destruct (chained_parent _ _ _ _ H1 Hd).
  - destruct (chained_dentry _ _ H1) as [d Hd].
    destruct (chained_parent _ _ _ _ H1 Hd) as [_ <-]. destruct (chained_parent _ _ _ _ H2 Hd) as [_ <-].
    f_equal. apply (IH (d_parent d)); [by destruct H1 as (_ & _ & ?)|by destruct H2 as (_ & _ & ?)].
Qed.

Lemma chained_nodup st : chained A root st → NoDup st.
Proof.
  induction st as [|x st IH]; intros Hch; [constructor|]. constructor.
  - intros Hin. apply list_elem_of_split in Hin as (l1 & l2 & ->).
    pose proof (chained_tail (x :: l1) x l2 Hch) as Ht. pose proof (chained_det _ _ _ Hch Ht) as E.
    apply (f_equal length) in E. rewrite length_app in E. simpl in E. lia.
  - destruct st as [|y st]; [constructor|]. apply IH. by destruct Hch as (_ & _ & ?).
Qed.

Lemma chained_short x anc : chained A root (x :: anc) → (length anc < size (dentries s))%nat.
Proof.
  intros Hch. pose proof (chained_nodup _ Hch) as Hnd.
  assert (length (x :: anc) ≤ size (dentries s))%nat; [|done].
  rewrite <-size_dom, <-(size_list_to_set (C := gset Z) _ Hnd). apply subseteq_size.
  intros y Hy%elem_of_list_to_set. apply list_elem_of_split in Hy as (l1 & l2 & E). rewrite E in Hch.
  apply chained_tail, chained_dentry in Hch. by apply elem_of_dom.
Qed.

(** An inode belongs to one object. *)
Lemma inode_object x nx y ny d :
  A !! x = Some nx → A !! y = Some ny → dentries s !! y = Some d →
  (∀ e, dentries s !! x = Some e → d_inode e = d_inode d) → x = y.
Proof.
  intros Hx Hy Hd E. destruct (walk_object _ _ _ _ _ _ _ Hw _ _ Hx) as (e & i & [[X1 _ X3 X4 _ _] _ _ _ _ _ _ _]).
  destruct (walk_object _ _ _ _ _ _ _ Hw _ _ Hy) as (d' & j & [[Y1 _ Y3 Y4 _ _] _ _ _ _ _ _ _]).
  assert (d' = d) as -> by congruence. rewrite <-(E _ X1), X3 in Y3. congruence.
Qed.

(** ** The locks of two directories *)

Lemma wp_child_loop p2 (Q : option ptr → kstate → Prop) :
  (∀ r, Q r s) →
  ∀ anc x n, chained A root (x :: anc) → (length anc < n)%nat →
  wp (loop n (λ p,
    d ← get_dentry p;
    if d_parent d =? p then mret (inr None)
    else if d_parent d =? p2 then mret (inr (Some p))
    else mret (inl (d_parent d))) x) Q s.
Proof.
  intros HQ. induction anc as [|p anc IH]; intros x n Hch Hn; (destruct n as [|n]; [simpl in Hn; lia|]);
    destruct (chained_dentry _ _ Hch) as [d Hd]; cbn [loop]; wp_step; wp_step; (wp_step; [exact Hd|]).
  - destruct Hch as [-> _]. rewrite (wk_top _ _ _ _ _ _ _ Hw _ Hd), Z.eqb_refl. wp_run. by apply HQ.
  - destruct (chained_parent _ _ _ _ Hch Hd) as [Hx Hp]. destruct (d_parent d =? x); [wp_run; by apply HQ|].
    destruct (d_parent d =? p2).
    + wp_run. by apply HQ.
    + wp_step. rewrite Hp. apply IH; [by destruct Hch as (_ & _ & ?)|simpl in Hn; lia].
Qed.

Lemma wp_child_towards x anc p2 (Q : option ptr → kstate → Prop) :
  chained A root (x :: anc) → (∀ r, Q r s) →
  wp (child_towards x p2) Q s.
Proof.
  intros Hch HQ. unfold child_towards. wp_step. wp_step.
  apply (wp_child_loop p2 Q HQ anc); [done|]. pose proof (chained_short _ _ Hch). lia.
Qed.

Lemma wp_i_sem_object x n Q : A !! x = Some n → Q tt s → wp (i_sem x) Q s.
Proof.
  intros Hx HQ. destruct (walk_object _ _ _ _ _ _ _ Hw _ _ Hx) as (d & i & [[N1 _ N3 _ _ _] _ _ _ _ _ _ _]).
  unfold i_sem. by wp_run.
Qed.

Lemma wp_lock_rename p1 anc1 p2 anc2 (Q : ptr → kstate → Prop) :
  chained A root (p1 :: anc1) → chained A root (p2 :: anc2) →
  (∀ r, Q r s) → wp (lock_rename p1 p2) Q s.
Proof.
  intros H1 H2 HQ. destruct (chained_top _ _ _ _ H1) as [n1 Hn1]. destruct (chained_top _ _ _ _ H2) as [n2 Hn2].
  unfold lock_rename. destruct (p1 =? p2).
  { wp_step. eapply wp_i_sem_object; [done|]. by wp_run. }
  wp_step. eapply wp_child_towards; [done|]. intros [p|].
  - wp_step. eapply wp_i_sem_object; [exact Hn2|]. wp_step. eapply wp_i_sem_object; [exact Hn1|]. by wp_run.
  - wp_step. eapply wp_child_towards; [done|]. intros r.
    wp_step. eapply wp_i_sem_object; [exact Hn1|]. wp_step. eapply wp_i_sem_object; [exact Hn2|]. by wp_run.
Qed.
End chains.

(** ** rename *)

Lemma adj_held c m x s : adj c 1 (held m x s) = held m x (adj c 1 s).
Proof. unfold held. rewrite adj_madj. f_equal. apply adj_comm. Qed.

Lemma held_place m x s y d :
  dentries (held m x s) !! y = Some d →
  ∃ e, dentries s !! y = Some e ∧ d_inode e = d_inode d ∧ d_parent e = d_parent d.
Proof.
  change (dentries (held m x s)) with (dentries (adj x 1 s)). intros Hy.
  destruct (decide (y = x)) as [->|Hne].
  - rewrite adj_lookup_eq in Hy. apply fmap_Some in Hy as (e & He & ->). by exists e.
  - rewrite adj_lookup_ne in Hy by done. by exists d.
Qed.

Section rename.
Context (dext iext : refs) (sb root : ptr) (A : atree) (m : ptr) (s : kstate) (cwd : list ptr).
Hypothesis Hw : walkable dext iext sb root A m s.
Hypothesis Hcwd : cwd_ok A root m cwd (current s).
Context (old new : nameidata) (x1 x2 : ptr) (anc1 anc2 : list ptr) (k1 k2 : Z).
Context (l1 l2 : list (bytes * ptr)) (comp1 rest1 comp2 rest2 : bytes).
Context (from to : bytes).
Hypothesis H1 : at_parent (search s) root A m (start root cwd from) from old x1 anc1 k1 l1 comp1 rest1.
Hypothesis H2 : at_parent (search s) root A m (start root cwd to) to new x2 anc2 k2 l2 comp2 rest2.

(** Both directories are held. *)
Let T := held m x1 (held m x2 s).
Context (trap : ptr).

(** The two names are names of one entry, which no tree but one with hard links
    has unless they are the same name. *)
Definition same_entry : Prop := ∃ y, (comp1, y) ∈ l1 ∧ (comp2, y) ∈ l2.

Definition at_most (r : Z) (t : kstate) : Prop := (r < 0 ∨ r = 0 ∧ same_entry) ∧ settled T t.

Lemma both_walkable : walkable (bump x1 1 (bump x2 1 dext)) iext sb root A m T.
Proof.
  eapply walkable_held; [|exact (ap_dir H1)].
  eapply walkable_held; [done|exact (ap_dir H2)].
Qed.

Lemma new_walkable : walkable (bump x2 1 dext) iext sb root A m (held m x2 s).
Proof. eapply walkable_held; [done|exact (ap_dir H2)]. Qed.

(** The old name gives its dentry back. *)
Lemma wp_put_old c n t (error : Z) :
  A !! c = Some n → settled (adj c 1 T) t → error < 0 ∨ error = 0 ∧ same_entry → wp (dput c ;; mret error) at_most t.
Proof.
  intros Hc Hst He. destruct (walk_object _ _ _ _ _ _ _ both_walkable _ _ Hc) as (d & i & [[N1 _ _ _ _ _] _ Hc0 _ Hcnt _ _ _]).
  wp_step. apply (wp_dput_adj c (recount 1 d)); [done| |simpl; lia|].
  - destruct Hst as (? & ? & _ & _ & ->). change (dentries (adj c 1 T) !! c = Some (recount 1 d)).
    by rewrite adj_lookup_eq, N1.
  - wp_run. split; [done|]. apply (settled_adj _ _ c (-1)) in Hst. change (-1) with (- (1)) in Hst.
    by rewrite adj_cancel in Hst.
Qed.

Lemma wp_rename_new c n dir1 di1 b1 d1 xd1 :
  A !! c = Some n → (comp1, c) ∈ l1 → is_last_norm new = true →
  ready (held m x2 s) old x1 c (adj c 1 T) dir1 di1 b1 d1 xd1 → d_inode d1 ≠ NULL →
  wp (new_dentry ← lookup_hash (nd_last new) (nd_dentry new);
      if IS_ERR new_dentry then mret (PTR_ERR new_dentry)
      else
        error ← (if new_dentry =? trap then mret (- ENOTEMPTY)
                 else odir ← nd_dir old; ndir ← nd_dir new; vfs_rename vendored_iop odir c ndir new_dentry);
        dput new_dentry ;;
        mret error) (λ r t, (r < 0 ∨ r = 0 ∧ same_entry) ∧ settled (adj c 1 T) t) (adj c 1 T).
Proof.
  intros Hc Hin1 Hn [D1 D2 D3 _ D4 Dx D5 D6 D7 Ei _] Hpos.
  assert (adj c 1 T = held m x2 (adj c 1 (held m x1 s))) as ET.
  { unfold T. rewrite held_comm. apply adj_held. }
  assert (walkable (bump c 1 (bump x1 1 dext)) iext sb root A m (adj c 1 (held m x1 s))) as Hw2.
  { eapply walkable_adj; [|exact Hc]. eapply walkable_held; [done|exact (ap_dir H1)]. }
  rewrite ET in *. set (s2 := adj c 1 (held m x1 s)) in *.
  destruct (held_place _ _ _ _ _ D4) as (e & He & E1 & E2).
  destruct (held_place _ _ _ _ _ D5) as (xe & Hxe & E3 & _).
  assert (∀ y, search s y = search s2 y) as Hse.
  { intros y. unfold s2. by rewrite search_adj, search_held. }
  pose proof (at_parent_ext _ _ _ _ _ _ _ _ _ _ _ _ _ _ Hse H2) as H2'.
  wp_step. eapply (wp_lookup_name _ _ _ _ _ _ _ _ Hw2); [exact H2'|done|]. intros c2 t2 Hl.
  destruct (IS_ERR c2) eqn:Herr.
  { wp_run. destruct (looked_error _ _ _ _ _ _ _ Hw2 _ _ _ _ _ Hl Herr). split; [by left|done]. }
  wp_step. eapply (wp_mono _ (λ r t, (r < 0 ∨ r = 0 ∧ same_entry) ∧ t = t2)).
  - destruct (c2 =? trap); [wp_run; split; [by left|done]|].
    destruct (looked_ready _ _ _ _ _ _ _ _ Hw2 _ _ _ _ _ _ _ _ _ H2' Hl Herr)
      as (dir2 & di2 & b2 & d2 & xd2 & [F1 F2 F3 _ F4 _ F5 F6 F7 Ei2 Fo]).
    destruct (Fo _ _ He) as (e' & He' & G1 & G2). destruct (Fo _ _ Hxe) as (xe' & Hxe' & G3 & _).
    assert (inodes t2 = inodes (held m x2 s)) as Ein by done.
    wp_step. unfold nd_dir at 1. rewrite (ap_dentry H1). rewrite Dx in Hxe'.
    wp_step. wp_step; [exact Hxe'|]. wp_step. rewrite G3, E3, D6. wp_step. apply F3.
    eapply wp_mono; [eapply (wp_vfs_rename t2 dir1 di1 b1 c e' xe' dir2 di2 b2 c2 d2 xd2); try done|].
    6:{ intros r t3 [[Hr|[-> Esame]] ->]; [by auto|]. split; [right; split; [done|]|done].
      exists c. split; [done|]. assert (d_inode d2 ≠ NULL) as Hpos2 by congruence.
      destruct (looked_positive _ _ _ _ _ _ _ Hw2 x2 k2 l2 comp2 (ap_dir H2) _ _ _ Hl Herr F4 Hpos2) as (n2 & Hc2 & Hin2 & Et2).
      assert (c2 = c) as <-; [|done].
      apply (inode_object _ _ _ _ _ _ _ Hw2 _ _ _ _ _ Hc2 Hc He). intros e2 He2.
      rewrite Et2, adj_lookup_eq in F4. destruct (held_place _ _ _ _ _ (held_lookup m x2 s2 c2 e2 He2)) as (e3 & He3 & E7 & _).
      rewrite (held_lookup m x2 s2 c2 e2 He2) in F4. injection F4 as <-. rewrite E1. simpl in Esame.
      rewrite <-G1, Esame in E1. rewrite <-E1. simpl. by destruct (decide (c2 = x2)). }
    + by rewrite Ein, <-Ei.
    + destruct (looked_same _ _ _ _ _ _ _ _ Hl) as (_ & -> & _). exact D2.
    + by rewrite G2, E2, Dx.
    + congruence.
    + rewrite G1, E1, Ein, <-Ei. by apply D7.
  - intros r t3 [Hr ->]. wp_step. eapply (wp_put_child _ _ _ _ _ _ _ Hw2); [|done..|].
    + exact (ap_dir H2).
    + intros t3 Ht3. by wp_run.
Qed.

(** The part of the call on the old dentry. *)
Lemma wp_rename_old c t1 :
  looked A m (held m x2 s) x1 l1 comp1 c t1 → IS_ERR c = false → is_last_norm new = true →
  wp (od ← get_dentry c;
      error ←
        (if d_inode od =? NULL then mret (- ENOENT)
         else
           oi ← get_inode (d_inode od);
           if negb (S_ISDIR (i_mode oi)) && (negb (after_last old =? 0) || negb (after_last new =? 0))
           then mret (- ENOTDIR)
           else if c =? trap then mret (- EINVAL)
           else
             new_dentry ← lookup_hash (nd_last new) (nd_dentry new);
             if IS_ERR new_dentry then mret (PTR_ERR new_dentry)
             else
               error ← (if new_dentry =? trap then mret (- ENOTEMPTY)
                        else odir ← nd_dir old; ndir ← nd_dir new; vfs_rename vendored_iop odir c ndir new_dentry);
               dput new_dentry ;;
               mret error);
      dput c ;;
      mret error) at_most t1.
Proof.
  intros Hl Herr Hn. pose proof (ap_dir H1) as Hx1.
  pose proof (at_parent_ext _ _ _ _ _ _ _ _ _ _ _ _ _ _ (λ y, eq_sym (search_held m x2 y s)) H1) as H1'.
  destruct (looked_ready _ _ _ _ _ _ _ _ new_walkable _ _ _ _ _ _ _ _ _ H1' Hl Herr) as (dir & di & b & d & xd & Hr).
  pose proof (rd_dentry _ _ _ _ _ _ _ _ _ _ Hr) as Hd. pose proof (rd_target _ _ _ _ _ _ _ _ _ _ Hr) as Ht.
  wp_step. wp_step; [exact Hd|]. destruct (d_inode d =? NULL) eqn:En.
  { wp_step. wp_step. wp_step. eapply (wp_put_child _ _ _ _ _ _ _ new_walkable); [exact Hx1|done..|].
    intros t2 Ht2. wp_run. split; [by left|done]. }
  apply Z.eqb_neq in En. destruct (Ht En) as [oi Hoi].
  destruct (looked_positive _ _ _ _ _ _ _ new_walkable x1 k1 l1 comp1 Hx1 _ _ _ Hl Herr Hd En) as (n & Hc & Hin & ->).
  wp_step. eapply (wp_mono _ (λ r t, (r < 0 ∨ r = 0 ∧ same_entry) ∧ settled (adj c 1 T) t)); [|intros r t [Hr0 Hst]; by eapply (wp_put_old c n)].
  wp_step. wp_step; [exact Hoi|]. destruct (_ && _); [wp_run; split; [by left|done]|].
  destruct (c =? trap); [wp_run; split; [by left|done]|]. by eapply wp_rename_new.
Qed.
End rename.

Lemma wp_i_sem_settled dext iext sb root A m T x n t Q :
  A !! x = Some n → settled T t → walkable dext iext sb root A m T → Q tt t → wp (i_sem x) Q t.
Proof.
  intros Hx (? & ? & _ & _ & ->) HT HQ.
  destruct (walk_object _ _ _ _ _ _ _ HT _ _ Hx) as (d & i & [[N1 _ N3 _ _ _] _ _ _ _ _ _ _]).
  unfold i_sem. by wp_run.
Qed.

(** Two paths that lead to one object of the tree. *)
Definition same_object (may : ptr → bool) (root : ptr) (A : atree) (cwd : list ptr) (from to : bytes) : Prop :=
  ∃ y anc1 anc2, aresolve may A (start root cwd from) (names_of from) = inr (y :: anc1) ∧
    aresolve may A (start root cwd to) (names_of to) = inr (y :: anc2).

Section renamed.
Context (dext iext : refs) (sb root : ptr) (A : atree) (m : ptr) (s : kstate) (cwd : list ptr).
Hypothesis Hw : walkable dext iext sb root A m s.
Hypothesis Hcwd : cwd_ok A root m cwd (current s).

Lemma wp_rename_locked from to old new x1 x2 anc1 anc2 k1 k2 l1 l2 comp1 rest1 comp2 rest2 :
  at_parent (search s) root A m (start root cwd from) from old x1 anc1 k1 l1 comp1 rest1 →
  at_parent (search s) root A m (start root cwd to) to new x2 anc2 k2 l2 comp2 rest2 →
  is_last_norm old = true → is_last_norm new = true →
  wp (rename_locked vendored_iop old new) (at_most m s x1 x2 l1 l2 comp1 comp2) (held m x1 (held m x2 s)).
Proof.
  intros H1 H2 Hn1 Hn2. pose proof (both_walkable _ _ _ _ _ _ _ _ Hw _ _ _ _ _ _ _ _ _ _ _ _ _ _ _ _ H1 H2) as HT.
  pose proof H1 as [C1 X1 E1 _ _ _ _]. pose proof H2 as [C2 X2 E2 _ _ _ _].
  rewrite <-E1 in C1, X1. rewrite <-E2 in C2, X2.
  unfold rename_locked. wp_step. eapply (wp_lock_rename _ _ _ _ _ _ _ HT); [exact C2|exact C1|]. intros trap.
  wp_step. pose proof (new_walkable _ _ _ _ _ _ _ _ Hw _ _ _ _ _ _ _ _ H2) as Hwn.
  pose proof (at_parent_ext _ _ _ _ _ _ _ _ _ _ _ _ _ _ (λ y, eq_sym (search_held m x2 y s)) H1) as H1'.
  eapply (wp_lookup_name _ _ _ _ _ _ _ _ Hwn); [exact H1'|done|].
  intros c t1 Hl. wp_step. eapply (wp_mono _ (at_most m s x1 x2 l1 l2 comp1 comp2)).
  - destruct (IS_ERR c) eqn:Herr; [|by eapply (wp_rename_old _ _ _ _ _ _ _ _ Hw old new)].
    wp_run. destruct (looked_error _ _ _ _ _ _ _ Hwn _ _ _ _ _ Hl Herr). split; [by left|done].
  - intros r t2 [Hr Ht2]. wp_step. unfold unlock_rename. wp_step.
    eapply wp_i_sem_settled; [exact X2|exact Ht2|exact HT|].
    destruct (nd_dentry new =? nd_dentry old); simpl; [by wp_run|].
    eapply wp_i_sem_settled; [exact X1|exact Ht2|exact HT|]. by wp_run.
Qed.

Lemma wp_do_rename from to :
  path_ok from → path_ok to →
  wp (do_rename vendored_iop from to) (λ r t, (r < 0 ∨ r = 0 ∧ same_object (search s) root A cwd from to) ∧ settled s t) s.
Proof.
  intros Hf Ht. unfold do_rename. wp_step. eapply (wp_parent _ _ _ _ _ _ _ cwd Hw Hcwd); [done| |].
  { intros e nd t1 He Hst. rewrite (proj2 (Z.eqb_neq e 0)) by lia. wp_run. split; [by left|done]. }
  intros old x1 anc1 k1 l1 comp1 rest1 H1. cbn [Z.eqb negb]. pose proof H1 as [_ X1 E1 M1 _ _ _].
  pose proof (walkable_held _ _ _ _ _ _ _ _ _ Hw X1) as Hw1.
  wp_step. eapply (wp_parent _ _ _ _ _ _ _ cwd Hw1 Hcwd); [done| |].
  - intros e nd t1 He Hst. rewrite (proj2 (Z.eqb_neq e 0)) by lia. cbn [negb]. wp_step. wp_step.
    eapply wp_mono; [by eapply (wp_second _ _ _ _ _ _ _ Hw)|]. intros r t2 [-> Hs2]. split; [by left|done].
  - intros new x2 anc2 k2 l2 comp2 rest2 H2'. cbn [Z.eqb negb].
    pose proof (at_parent_ext _ _ _ _ _ _ _ _ _ _ _ _ _ _ (λ y, search_held m x1 y s) H2') as H2.
    pose proof H2 as [_ X2 E2 M2 _ _ _]. destruct (wk_dirs _ _ _ _ _ _ _ Hw _ _ _ X1) as [N1 _].
    destruct (wk_dirs _ _ _ _ _ _ _ Hw _ _ _ X2) as [N2 _].
    set (ok := λ r, r < 0 ∨ r = 0 ∧ same_object (search s) root A cwd from to).
    wp_step. eapply (wp_mono _ (λ r t, ok r ∧ settled (held m x1 s) t)).
    + wp_step. eapply (wp_mono _ (λ r t, ok r ∧ settled (held m x2 (held m x1 s)) t)).
      * rewrite M1, M2, (Z.eqb_refl m). cbn [negb]. rewrite held_comm.
        destruct (is_last_norm old) eqn:Hn1, (is_last_norm new) eqn:Hn2; cbn [negb orb];
          [|wp_run; split; [by left|done]..].
        eapply wp_mono; [by eapply wp_rename_locked|]. intros r t [[Hr|[-> (y & Hy1 & Hy2)]] Hst]; (split; [|done]);
          [by left|right; split; [done|]].
        exists y, (x1 :: anc1), (x2 :: anc2). split; [by eapply at_parent_entry|by eapply at_parent_entry].
      * intros r t [Hr Hst].
        eapply wp_mono; [by eapply (wp_second _ _ _ _ _ _ _ Hw1)|]. intros r' t2 [-> Hs2]. done.
    + intros r t [Hr Hst]. eapply wp_mono; [by apply (wp_second _ _ _ _ _ _ _ Hw old x1 (ADir k1 l1))|].
      intros r' t2 [-> Hs2]. done.
Qed.
End renamed.

(** ** All calls on names *)

Inductive name_call : Type :=
  | Mknod (path : bytes) (mode dev : Z)
  | Mkdir (path : bytes) (mode : Z)
  | Symlink (from to : bytes)
  | Link (from to : bytes)
  | Rmdir (path : bytes)
  | Unlink (path : bytes)
  | Rename (from to : bytes).

Definition run_call (c : name_call) : KM Z :=
  match c with
  | Mknod path mode dev => sys_mknod vendored_iop path mode dev
  | Mkdir path mode => sys_mkdir vendored_iop path mode
  | Symlink from to => sys_symlink vendored_iop from to
  | Link from to => sys_link vendored_iop from to
  | Rmdir path => sys_rmdir vendored_iop path
  | Unlink path => sys_unlink vendored_iop path
  | Rename from to => do_rename vendored_iop from to
  end.

(** The paths that a call resolves; the target of a symbolic link is not one. *)
Definition call_paths (c : name_call) : list bytes :=
  match c with
  | Mknod path _ _ | Mkdir path _ | Symlink _ path | Rmdir path | Unlink path => [path]
  | Link from to | Rename from to => [from; to]
  end.

(** The only call that may succeed: a rename between two names of one object. *)
Definition no_change (may : ptr → bool) (root : ptr) (A : atree) (cwd : list ptr) (c : name_call) : Prop :=
  match c with Rename from to => same_object may root A cwd from to | _ => False end.

Lemma wp_run_call dext iext sb root A m s cwd c :
  walkable dext iext sb root A m s → cwd_ok A root m cwd (current s) →
  Forall path_ok (call_paths c) →
  wp (run_call c) (λ r s', (r < 0 ∨ r = 0 ∧ no_change (search s) root A cwd c) ∧ settled s s') s.
Proof.
  intros Hw Hc Hp. destruct c as [path mode dev|path mode|from to|from to|path|path|from to]; cbn [call_paths run_call] in *;
    [..|apply Forall_cons in Hp as [Hf [Ht _]%Forall_cons]; exact (wp_do_rename _ _ _ _ _ _ _ cwd Hw Hc _ _ Hf Ht)];
    apply Forall_cons in Hp as [Hf Hp]; (apply (wp_mono _ (denied s)); [|intros r t [Hr Hst]; split; [by left|exact Hst]]).
  - exact (wp_sys_mknod _ _ _ _ _ _ _ cwd Hw Hc _ _ _ Hf).
  - exact (wp_sys_mkdir _ _ _ _ _ _ _ cwd Hw Hc _ _ Hf).
  - exact (wp_sys_symlink _ _ _ _ _ _ _ cwd Hw Hc _ _ Hf).
  - apply Forall_cons in Hp as [Ht _]. exact (wp_sys_link _ _ _ _ _ _ _ cwd Hw Hc _ _ Hf Ht).
  - exact (wp_sys_rmdir _ _ _ _ _ _ _ cwd Hw Hc _ Hf).
  - exact (wp_sys_unlink _ _ _ _ _ _ _ cwd Hw Hc _ Hf).
Qed.

(** C5: a user of the mounted file system, whatever rights it has, cannot change
    its tree.  mknod, mkdir, symlink, link, rmdir, unlink and rename on any paths
    of bounded components end without a fault; they return an error, except that
    a rename returns 0 only if both of its paths lead to one and the same object,
    and then does nothing; and every reference they took on the way is given
    back: dentries, inodes, mounts and superblocks are the ones before the call,
    which represent the same tree. *)
Theorem tree_readonly dext iext sb root A m s cwd c :
  walkable dext iext sb root A m s → cwd_ok A root m cwd (current s) →
  Forall path_ok (call_paths c) →
  wp (run_call c) (λ r s', (r < 0 ∨ r = 0 ∧ no_change (search s) root A cwd c) ∧ settled s s' ∧
    tree_shape dext iext sb root A s') s.
Proof.
  intros Hw Hc Hp. eapply wp_mono; [by eapply wp_run_call|]. intros r t [Hr Hst]. split_and!; [done..|].
  exact (settled_tree _ _ _ _ _ _ _ (wk_tree _ _ _ _ _ _ _ Hw) Hst).
Qed.
