(* ===== verification/Typed.v ===== *)
(** * Pointers and their types

    A C pointer carries the type of what it points to, and nothing else makes
    sure of it.  Here a heap is typed if every pointer in the two caches, in
    the fields of their structures and in the global lists, leads to a
    structure of its type that points back.  The invariants imply it. *)

From S2P Require Import Prelude KString Kernel Links Inode InodeInv Dcache DcacheInv DcacheOps Walk.
From S2P Require Import Filesystems Super Mount Libfs Groups Namei LookupSpec Attr Path Vfs Aufs AufsSpec.
From S2P Require Import AufsCreate AufsTree KernMount PathCount PathNames PathSpec VfsSpec RenameSpec.

Record heap_typed (s : kstate) : Prop := mkTyped {
  (* struct dentry *)
  ty_parent x d : dentries s !! x = Some d →
    ∃ e, dentries s !! d_parent d = Some e ∧ (d_parent d = x ∨ x ∈ d_subdirs e);
  ty_inode x d : dentries s !! x = Some d →
    d_inode d = NULL ∨ ∃ i, inodes s !! d_inode d = Some i ∧ x ∈ i_dentry i;
  ty_subdirs x d y : dentries s !! x = Some d → y ∈ d_subdirs d →
    ∃ e, dentries s !! y = Some e ∧ d_parent e = x;
  (* struct inode *)
  ty_aliases x i y : inodes s !! x = Some i → y ∈ i_dentry i → ∃ d, dentries s !! y = Some d ∧ d_inode d = x;
  ty_super x i : inodes s !! x = Some i → ∃ b, supers s !! i_sb i = Some b ∧ x ∈ s_inodes b;
  (* struct super_block *)
  ty_sb_inodes sb b x : supers s !! sb = Some b → x ∈ s_inodes b → ∃ i, inodes s !! x = Some i ∧ i_sb i = sb;
  (* the hash tables and lists *)
  ty_hash b x : x ∈ default [] (dentry_hashtable s !! b) →
    ∃ d, dentries s !! x = Some d ∧ d_hash_node d = InBucket b ∧ d_unhashed d = false;
  ty_lru x : x ∈ dentry_unused s → ∃ d, dentries s !! x = Some d ∧ d_lru d = true;
  ty_ihash b x : x ∈ default [] (inode_hashtable s !! b) → ∃ i, inodes s !! x = Some i ∧ i_hash i = InBucket b;
  ty_in_use x : x ∈ inode_in_use s → ∃ i, inodes s !! x = Some i ∧ i_list i = OnInUse;
  ty_unused x : x ∈ inode_unused s → ∃ i, inodes s !! x = Some i ∧ i_list i = OnUnused
}.

(** A member of a list carries the link of that list. *)
Lemma linked_member {T K} (heap : gmap Z T) (H : K → list Z) (link : T → option K) k x :
  linked H (λ x, heap !! x ≫= link) → x ∈ H k → ∃ o, heap !! x = Some o ∧ link o = Some k.
Proof. intros Hl Hx. apply (linked_iff _ _ Hl) in Hx. by apply bind_Some in Hx. Qed.

Lemma linked_link {T K} (heap : gmap Z T) (H : K → list Z) (link : T → option K) x o k :
  linked H (λ x, heap !! x ≫= link) → heap !! x = Some o → link o = Some k → x ∈ H k.
Proof. intros Hl Hx Ho. apply (linked_iff _ _ Hl). by rewrite Hx. Qed.

Lemma vfs_typed dext iext s : vfs_inv dext iext s → heap_typed s.
Proof.
  intros [[D1 D2 D3 D4 D5 D6 D7 D8] [I1 I2 I3 I4 I5 I6 I7]]. split.
  - intros x d Hx. destruct (do_parent _ _ _ _ (D5 _ _ Hx)) as [(E1 & E2 & _)|[_ ->]]; [|by eauto].
    assert (x ∈ subdirs s (d_parent d)) as Hin.
    { apply (linked_link (dentries s) _ on_child x d); [done|done|]. unfold on_child. by rewrite E1, (proj2 (Z.eqb_neq _ _) E2). }
    unfold subdirs in Hin. destruct (dentries s !! d_parent d) as [e|]; [by eauto|by apply elem_of_nil in Hin].
  - intros x d Hx. destruct (decide (d_inode d = NULL)) as [E|E]; [by left|right].
    assert (x ∈ aliases s (d_inode d)) as Hin.
    { apply (linked_link (dentries s) _ on_alias x d); [done|done|]. unfold on_alias.
      by rewrite (do_alias _ _ _ _ (D5 _ _ Hx)), (proj2 (Z.eqb_neq _ _) E). }
    unfold aliases in Hin. destruct (inodes s !! d_inode d) as [i|]; [by eauto|by apply elem_of_nil in Hin].
  - intros x d y Hx Hy. destruct (linked_member (dentries s) (subdirs s) on_child x y) as (e & He & Hl); [done| |].
    { unfold subdirs. by rewrite Hx. }
    exists e. split; [done|]. unfold on_child in Hl. destruct (d_child e =? NULL) eqn:E; [done|]. apply Z.eqb_neq in E.
    destruct (do_parent _ _ _ _ (D5 _ _ He)) as [(E1 & _)|[E1 _]]; [|done]. rewrite <-E1. by injection Hl.
  - intros x i y Hx Hy. destruct (linked_member (dentries s) (aliases s) on_alias x y) as (d & Hd & Hl); [done| |].
    { unfold aliases. by rewrite Hx. }
    exists d. split; [done|]. unfold on_alias in Hl. destruct (d_alias d =? NULL); [done|].
    rewrite <-(do_alias _ _ _ _ (D5 _ _ Hd)). by injection Hl.
  - intros x i Hx. destruct (I4 _ _ Hx) as [O1 O2 _ _ _ _]. assert (x ∈ sb_inodes s (i_sb i)) as Hin.
    { apply (linked_link (inodes s) _ on_sb_list x i); [done|done|]. unfold on_sb_list. by rewrite O1, (proj2 (Z.eqb_neq _ _) O2). }
    unfold sb_inodes in Hin. destruct (supers s !! i_sb i) as [b|]; [by eauto|by apply elem_of_nil in Hin].
  - intros sb b x Hb Hx. destruct (linked_member (inodes s) (sb_inodes s) on_sb_list sb x) as (i & Hi & Hl); [done| |].
    { unfold sb_inodes. by rewrite Hb. }
    exists i. split; [done|]. unfold on_sb_list in Hl. destruct (i_sb_list i =? NULL); [done|].
    rewrite <-(io_sb _ _ _ (I4 _ _ Hi)). by injection Hl.
  - intros b x Hx. destruct (linked_member (dentries s) (chain s) on_chain (InBucket b) x) as (d & Hd & Hl); [done|done|].
    assert (d_hash_node d = InBucket b) as Eh by (unfold on_chain in Hl; destruct (d_hash_node d); congruence).
    exists d. split_and!; [done|done|]. rewrite (do_flag _ _ _ _ (D5 _ _ Hd)). apply bool_decide_eq_false_2. by rewrite Eh.
  - intros x Hx. destruct (linked_member (dentries s) (lru s) on_lru tt x) as (d & Hd & Hl); [done|done|].
    exists d. split; [done|]. unfold on_lru in Hl. by destruct (d_lru d).
  - intros b x Hx. destruct (linked_member (inodes s) (ihash_head s) on_bucket b x) as (i & Hi & Hl); [done..|].
    exists i. split; [done|]. unfold on_bucket in Hl. destruct (i_hash i); congruence.
  - intros x Hx. destruct (linked_member (inodes s) (ilist_head s) on_ilist OnInUse x) as (i & Hi & Hl); [done..|].
    exists i. split; [done|]. unfold on_ilist in Hl. destruct (i_list i); congruence.
  - intros x Hx. destruct (linked_member (inodes s) (ilist_head s) on_ilist OnUnused x) as (i & Hi & Hl); [done..|].
    exists i. split; [done|]. unfold on_ilist in Hl. destruct (i_list i); congruence.
Qed.
