(* ===== verification/Unmount.v ===== *)
(** * Unmounting an aufs without files

    The release of a mount whose root has no children: the last reference to the
    mount takes the root, its inode, the superblock and the device number with
    it, so that mounting and unmounting is a round trip. *)

From S2P Require Import Prelude KString Kernel Links Inode InodeInv Dcache DcacheInv DcacheOps.
From S2P Require Import Filesystems Super Mount SuperSpec Libfs Groups Namei LookupSpec Aufs AufsSpec.
From S2P Require Import AufsCreate AufsTree FillSuper KernMount.

(** ** A root without children *)

Lemma wp_genocide_leaf x d Q s :
  dentries s !! x = Some d → d_subdirs d = [] → Q tt s → wp (d_genocide x) Q s.
Proof.
  intros Hx Hsub HQ. unfold d_genocide, walk_fuel. wp_step. wp_step; [exact Hx|]. rewrite Hsub.
  wp_step. wp_step. replace (2 * size (dentries s) + 2)%nat with (S (2 * size (dentries s) + 1)) by lia.
  cbn [loop]. unfold d_genocide_body. rewrite Z.eqb_refl. cbn [negb]. wp_run. exact HQ.
Qed.

Lemma wp_shrink_leaf x d Q s :
  dentries s !! x = Some d → d_subdirs d = [] → Q tt s → wp (shrink_dcache_parent x) Q s.
Proof.
  intros Hx Hsub HQ. unfold shrink_dcache_parent, shrink_fuel. wp_step. wp_step.
  replace (4 * size (dentries s) + 4)%nat with (S (4 * size (dentries s) + 3)) by lia. cbn [loop].
  unfold select_parent, walk_fuel. wp_step. wp_step. wp_step. wp_step; [exact Hx|]. rewrite Hsub.
  wp_step. wp_step. replace (2 * size (dentries s) + 2)%nat with (S (2 * size (dentries s) + 1)) by lia.
  cbn [loop]. unfold select_parent_body. rewrite Z.eqb_refl. cbn [negb]. wp_run. exact HQ.
Qed.

Lemma wp_shrink_anon_none sb b Q s :
  supers s !! sb = Some b → s_anon b = [] → Q tt s → wp (shrink_dcache_anon sb) Q s.
Proof.
  intros Hb Ha HQ. unfold shrink_dcache_anon, shrink_fuel. wp_step. wp_step.
  replace (4 * size (dentries s) + 4)%nat with (S (4 * size (dentries s) + 3)) by lia. cbn [loop].
  wp_step. wp_step. wp_step; [exact Hb|]. rewrite Ha. cbn [select_anon]. wp_run.
  unfold prune_dcache. simpl. wp_run. exact HQ.
Qed.

Lemma wp_invalidate_none sb b Q s :
  supers s !! sb = Some b → s_inodes b = [] → Q false s → wp (invalidate_inodes sb) Q s.
Proof.
  intros Hb Hi HQ. unfold invalidate_inodes, invalidate_list, dispose_list. wp_step.
  wp_step; [exact Hb|]. rewrite Hi. cbn [invalidate_scan]. wp_run. simpl. wp_run.
  match goal with |- Q _ ?st => assert (st = s) as -> end; [|exact HQ].
  kstate_eq; simpl; lia.
Qed.

(** The last reference to a root takes it and its inode with it. *)
Lemma wp_dput_root dext iext x d s :
  vfs_inv dext iext s → dentries s !! x = Some d → dext x = 1 → d_parent d = x → d_subdirs d = [] →
  d_hash_node d = Unlinked → d_lru d = false → d_op d = None →
  wp (dput x) (λ _ s', vfs_inv (bump x (-1) dext) iext s' ∧ vframe s s' ∧
    dentries s' = delete x (dentries s) ∧ inodes s' = let_go x (d_inode d) s) s.
Proof.
  intros Hv Hx Hext Hp Hsub Hh Hl Hop. unfold dput.
  pose proof (dc_ok _ _ (vi_dcache _ _ _ Hv) _ _ Hx) as [Hfl _ _ _ _ Hc].
  assert (d_count d = 1) as Hone by (rewrite Hc, Hsub, Hext; done).
  assert (d_unhashed d = true) as Hun by (rewrite Hfl, Hh; done).
  rewrite (proj2 (Z.eqb_neq _ _) (dentry_addr _ _ _ _ (vi_dcache _ _ _ Hv) Hx)). wp_step. wp_step.
  cbn [loop]. unfold dput_body. wp_step. wp_step. wp_step; [exact Hx|].
  assert (∃ d1 s1, d1 = d <| d_count ::= λ c, c - 1 |> ∧ s1 = s <| dentries ::= <[x := d1]> |> ∧
    d_count d1 = 0 ∧ d_parent d1 = x ∧ d_subdirs d1 = [] ∧ d_hash_node d1 = Unlinked ∧
    d_lru d1 = false ∧ d_op d1 = None ∧ d_unhashed d1 = true ∧ d_inode d1 = d_inode d ∧
    vfs_inv (bump x (-1) dext) iext s1) as (d1 & s1 & Ed & Es & F0 & F1 & F2 & F3 & F4 & F5 & F6 & F7 & Hv1).
  { eexists _, _. split; [reflexivity|]. split; [reflexivity|].
    split; [simpl; lia|]. split_and!; try done.
    apply (vfs_inv_count dext iext s _ x d (-1)); [done|done|lia|done]. }
  rewrite <-Ed, <-Es. assert (dentries s1 !! x = Some d1) as Hx1 by (rewrite Es; by apply lookup_insert_eq).
  assert (vframe s s1 ∧ delete x (dentries s1) = delete x (dentries s) ∧
    let_go x (d_inode d) s1 = let_go x (d_inode d) s) as (G1 & G2 & G3).
  { rewrite Es. split_and!; [done| |done]. apply delete_insert_eq. }
  clear Ed Es. wp_step. wp_step; [exact Hx1|]. rewrite F0. cbn [Z.eqb negb].
  unfold call_d_delete, d_method. rewrite F5, F6. wp_run. rewrite F4. apply wp_mwhen; [done|intros _].
  wp_run. eapply wp_mono; [by apply (wp_kill_dentry _ _ x d1 s1 Hv1)|].
  intros p s2 (-> & Hv2 & Hf2 & E2 & E3). rewrite F1, Z.eqb_refl. wp_step. wp_step.
  rewrite F1 in Hv2, E2. unfold inherit in Hv2. rewrite decide_True in Hv2 by done.
  split_and!; [done|by etrans| |congruence].
  rewrite E2, <-G2. unfold pruned. by rewrite delete_alter_eq.
Qed.

(** ** Shutting the superblock down *)

Definition erase_sb (b : super_block) : super_block := b <| s_inodes := [] |> <| s_anon := [] |>.

(** A state that has, beside what [s] has, the superblock [sb] with a root that
    only the superblock references. *)
Record lone_root (dext iext : refs) (s : kstate) (sb root i : ptr) (b : super_block) (s' : kstate)
    : Prop := mkLoneRoot {
  lr_base : vfs_inv dext iext s;
  lr_vfs : vfs_inv (first_ref root dext) (owned i iext) s';
  lr_supers : supers s' = <[sb := b]> (supers s);
  lr_sb_new : supers s !! sb = None;
  lr_dentry : ∃ junk, dentries s' = <[root := root_node root sb i junk]> (dentries s);
  lr_root_new : dentries s !! root = None;
  lr_inode : ∃ ii, inodes s' = <[i := ii]> (inodes s) ∧ i_count ii = 1 ∧ i_hash ii = Unlinked;
  lr_inode_new : inodes s !! i = None
}.

Lemma lone_root_attr dext iext s sb root i b b' s' :
  lone_root dext iext s sb root i b s' → s_inodes b' = s_inodes b → s_anon b' = s_anon b →
  lone_root dext iext s sb root i b' (s' <| supers ::= <[sb := b']> |>).
Proof.
  intros [] E1 E2. split; try done.
  - apply (vfs_inv_super_attr _ _ _ b); try done. by rewrite lr_supers0, lookup_insert_eq.
  - simpl. by rewrite lr_supers0, insert_insert_eq.
Qed.

(** What the shutdown leaves of the caches. *)
Record root_gone (dext iext : refs) (s : kstate) (sb : ptr) (b : super_block) (s1 s' : kstate) : Prop :=
    mkRootGone {
  rg_vfs : vfs_inv dext iext s';
  rg_dentries : dentries s' = dentries s;
  rg_inodes : inodes s' = inodes s;
  rg_super : ∃ b', supers s' !! sb = Some b' ∧ erase_sb b' = erase_sb b ∧ s_inodes b' = [] ∧ s_anon b' = [];
  rg_others : erase_sb <$> delete sb (supers s') = erase_sb <$> supers s;
  rg_frame : vframe s1 s'
}.

Lemma vfs_inv_drefs dext dext' iext s :
  vfs_inv dext iext s → (∀ x, is_Some (dentries s !! x) → dext' x = dext x) → vfs_inv dext' iext s.
Proof.
  intros [[H1 H2 H3 H4 Hok H6 H7 H8] Hi] E. split; [|done]. split; try done.
  intros x d Hx. destruct (Hok _ _ Hx). split; try done; rewrite E by eauto; done.
Qed.

(** Nothing of the caches belongs to a superblock that does not exist. *)
Lemma no_super_no_inodes dext iext s s' sb :
  vfs_inv dext iext s → supers s !! sb = None → vfs_inv dext iext s' →
  dentries s' = dentries s → inodes s' = inodes s →
  sb_inodes s' sb = [] ∧ chain s' (InAnon sb) = [].
Proof.
  intros [Hd Hi] Hb [Hd' Hi'] Ed Ei. split.
  - destruct (sb_inodes s' sb) as [|x l] eqn:E; [done|]. exfalso.
    assert (x ∈ sb_inodes s' sb) as Hx by (rewrite E; left).
    apply (linked_iff _ _ (ii_sb _ _ Hi')) in Hx. unfold sb_node in Hx. rewrite Ei in Hx.
    apply (linked_iff _ _ (ii_sb _ _ Hi)) in Hx. unfold sb_inodes in Hx. rewrite Hb in Hx.
    by apply not_elem_of_nil in Hx.
  - destruct (chain s' (InAnon sb)) as [|x l] eqn:E; [done|]. exfalso.
    assert (x ∈ chain s' (InAnon sb)) as Hx by (rewrite E; left).
    apply (linked_iff _ _ (dc_chain _ _ Hd')) in Hx. unfold chain_node in Hx. rewrite Ed in Hx.
    apply (linked_iff _ _ (dc_chain _ _ Hd)) in Hx. simpl in Hx. rewrite Hb in Hx.
    by apply not_elem_of_nil in Hx.
Qed.

Lemma wp_dput_lone dext iext s sb root i b s1 :
  lone_root dext iext s sb root i b s1 →
  wp (dput root) (λ _ s', root_gone dext iext s sb b s1 s') s1.
Proof.
  intros []. destruct lr_dentry0 as [junk Ed], lr_inode0 as (ii & Ei & Hic & Hih).
  destruct (root_node_facts root sb i junk) as (D1 & D2 & D3 & D4 & D5 & D6 & D7 & D8 & D9 & D10 & D11).
  generalize dependent (root_node root sb i junk). intros d Ed D1 D2 D3 D4 D5 D6 D7 D8 D9 D10 D11.
  assert (dentries s1 !! root = Some d) as Hd by (by rewrite Ed, lookup_insert_eq).
  eapply wp_mono; [apply (wp_dput_root _ _ root d s1 lr_vfs0 Hd); try done|].
  { unfold first_ref. by rewrite Z.eqb_refl. }
  intros _ s2 (Hv2 & Hf2 & Ed2 & Ei2). rewrite D3 in Ei2.
  assert (dentries s2 = dentries s) as Ed3.
  { rewrite Ed2, Ed, delete_insert_eq. by apply delete_id. }
  assert (inodes s2 = inodes s) as Ei3.
  { rewrite Ei2. unfold let_go. rewrite Ei, lookup_insert_eq. unfold iput_effect, drop_frees, i_unhashed.
    cbn -[insert delete lookup]. rewrite Hic, Hih. cbn -[insert delete lookup].
    rewrite orb_true_r. cbn -[insert delete lookup]. rewrite Ei, insert_insert_eq, delete_insert_eq.
    by apply delete_id. }
  assert (vfs_inv dext iext s2) as Hv.
  { apply (vfs_inv_drefs (bump root (-1) (first_ref root dext))).
    - apply (vfs_inv_irefs _ (owned i iext)); [done|]. intros x [xi Hx]. rewrite Ei3 in Hx.
      unfold owned, bump, first_ref. destruct (x =? i) eqn:E; [|done]. bool_to_prop. congruence.
    - intros x [xd Hx]. rewrite Ed3 in Hx. unfold bump, first_ref.
      destruct (x =? root) eqn:E; [|done]. bool_to_prop. congruence. }
  destruct (no_super_no_inodes _ _ _ _ sb lr_base0 lr_sb_new0 Hv Ed3 Ei3) as [N1 N2].
  destruct (vframe_super s1 s2 sb b Hf2) as (b' & Hb' & Eb'); [by rewrite lr_supers0, lookup_insert_eq|].
  split; try done.
  - exists b'. unfold sb_inodes in N1. simpl in N2. rewrite Hb' in N1, N2. done.
  - pose proof (f_equal supers Hf2) as E. simpl in E. rewrite lr_supers0 in E.
    apply (f_equal (delete sb)) in E. rewrite <-!fmap_delete in E.
    rewrite delete_insert_id in E by done. exact E.
Qed.

(** What the shutdown of a superblock leaves of the machine. *)
Record sb_down (dext iext : refs) (s : kstate) (sb fs : ptr) (t : file_system_type) (count : Z)
    (s1 s' : kstate) : Prop := mkSbDown {
  dn_vfs : vfs_inv dext iext s';
  dn_dentries : dentries s' = dentries s;
  dn_inodes : inodes s' = inodes s;
  dn_super : ∃ b', supers s' !! sb = Some b' ∧ s_count b' = count ∧ s_inodes b' = [] ∧ s_anon b' = [];
  dn_others : erase_sb <$> delete sb (supers s') = erase_sb <$> supers s;
  dn_fstypes : fstypes s' = <[fs := t <| fs_supers ::= list_del sb |>]> (fstypes s1);
  dn_blocks : super_blocks s' = list_del sb (super_blocks s1);
  dn_mounts : mounts s' = mounts s1;
  dn_devs : unnamed_dev_idr s' = unnamed_dev_idr s1
}.

Lemma vframe_pieces s s' :
  vframe s s' → fstypes s' = fstypes s ∧ super_blocks s' = super_blocks s ∧ mounts s' = mounts s ∧
  unnamed_dev_idr s' = unnamed_dev_idr s.
Proof.
  intros H. split_and!; [apply (f_equal fstypes H)|apply (f_equal super_blocks H)|
    apply (f_equal mounts H)|apply (f_equal unnamed_dev_idr H)].
Qed.

Lemma erase_sb_facts b b' :
  erase_sb b' = erase_sb b → s_count b' = s_count b ∧ s_umount b' = s_umount b ∧
  s_instances b' = s_instances b.
Proof. intros E. by injection E. Qed.

(** The end of the shutdown, for which the superblock has no inode left. *)
Lemma wp_shutdown_end dext iext s sb fs t b s1 s2 :
  root_gone dext iext s sb b s1 s2 → fs ≠ NULL → s_instances b = fs → s_umount b = -1 →
  fstypes s1 !! fs = Some t →
  wp (mod_super sb (λ b, b <| s_flags ::= λ f, clear_flag f MS_ACTIVE |>) ;;
      invalidate_inodes sb ;;
      mret tt ;;
      mret tt ;;
      busy ← invalidate_inodes sb;
      mwhen busy (printk busy_inodes_message))
     (λ _, wp (s_list_del sb ;; s_instances_del sb ;; up_write sb)
              (λ _ s', sb_down dext iext s sb fs t (s_count b) s1 s')) s2.
Proof.
  intros [] Hfs Hin Hum Ht. destruct rg_super0 as (b2 & Hb2 & E2 & Hi2 & Ha2).
  destruct (vframe_pieces _ _ rg_frame0) as (F1 & F2 & F3 & F4).
  destruct (erase_sb_facts _ _ E2) as (C1 & C2 & C3). rewrite <-F1 in Ht.
  assert (∀ f b', b' = b2 <| s_flags ::= f |> → s_inodes b' = [] ∧ s_instances b' = fs ∧
    s_umount b' = -1 ∧ s_anon b' = [] ∧ s_count b' = s_count b) as Hb'.
  { intros f b' ->. simpl. split_and!; congruence. }
  wp_step. wp_step; [exact Hb2|]. wp_step.
  destruct (Hb' (λ f, clear_flag f MS_ACTIVE) _ eq_refl) as (G1 & G2 & G3 & G4 & G5). clear Hb'.
  generalize dependent (b2 <| s_flags ::= λ f, clear_flag f MS_ACTIVE |>). intros b3 G1 G2 G3 G4 G5.
  apply (wp_invalidate_none sb b3); [simpl; by rewrite lookup_insert_eq|done|]. wp_step.
  wp_step. wp_step. wp_step. wp_step.
  apply (wp_invalidate_none sb b3); [simpl; by rewrite lookup_insert_eq|done|].
  unfold mwhen, s_list_del, s_instances_del, up_write. wp_step. wp_step. wp_step. wp_step.
  wp_step; [wp_lookup|]. wp_step. wp_step. wp_step; [wp_lookup|].
  change (s_instances b3 <| s_list := false |>) with (s_instances b3). rewrite G2.
  rewrite (proj2 (Z.eqb_neq _ _) Hfs). wp_step. wp_step; [exact Ht|]. wp_step; [wp_lookup|].
  wp_step. wp_step; [wp_lookup|]. wp_step. wp_bug; [simpl; by rewrite G3|]. wp_step; [wp_lookup|].
  match goal with |- sb_down _ _ _ _ _ _ _ _ ?st =>
    assert (∃ b4, supers st = <[sb := b4]> (supers s2) ∧ s_inodes b4 = [] ∧ s_anon b4 = [] ∧
      s_count b4 = s_count b) as (b4 & E4 & I4 & A4 & K4) end.
  { eexists. simpl. rewrite !insert_insert_eq. done. }
  split; try (simpl; congruence).
  - destruct (vfs_inv_super_attr dext iext sb b2 b4 s2) as [Hd Hi]; try congruence.
    split; [apply (dcache_inv_ext _ _ _ _ Hd)|apply (inode_inv_ext _ _ _ _ Hi)]; try done; split; try done.
    + intros []; try done. unfold chain. by rewrite E4.
    + intros k. unfold sb_inodes. by rewrite E4.
  - rewrite E4, lookup_insert_eq. eauto.
  - by rewrite E4, delete_insert_eq.
Qed.

Lemma wp_shutdown dext iext s sb root i fs t b s1 :
  lone_root dext iext s sb root i b s1 → root ≠ NULL → fs ≠ NULL → s_root b = root →
  s_anon b = [] → s_op b = simple_s_ops → s_instances b = fs → s_umount b = -1 →
  fstypes s1 !! fs = Some t →
  wp (generic_shutdown_super sb) (λ _ s', sb_down dext iext s sb fs t (s_count b) s1 s') s1.
Proof.
  intros Hl Hr Hfs Hroot Ha Hop Hin Hum Ht. unfold generic_shutdown_super.
  assert (supers s1 !! sb = Some b) as Hb by (by rewrite (lr_supers _ _ _ _ _ _ _ _ Hl), lookup_insert_eq).
  wp_step. wp_step; [exact Hb|]. rewrite Hroot, Hop, (proj2 (Z.eqb_neq _ _) Hr). wp_step.
  wp_step. wp_step; [exact Hb|].
  assert (∃ b1 s2, b1 = b <| s_root := NULL |> ∧ s2 = s1 <| supers ::= <[sb := b1]> |> ∧
    lone_root dext iext s sb root i b1 s2 ∧ s_anon b1 = [] ∧ s_instances b1 = fs ∧ s_umount b1 = -1 ∧
    s_count b1 = s_count b) as (b1 & s2 & Eb & Es & Hl2 & G1 & G2 & G3 & G4).
  { eexists _, _. split; [reflexivity|]. split; [reflexivity|]. split; [|done]. by apply (lone_root_attr _ _ _ _ _ _ b). }
  rewrite <-Eb, <-Es. assert (fstypes s2 = fstypes s1 ∧ super_blocks s2 = super_blocks s1 ∧
    mounts s2 = mounts s1 ∧ unnamed_dev_idr s2 = unnamed_dev_idr s1) as (F1 & F2 & F3 & F4) by (by rewrite Es).
  clear Eb Es. destruct (lr_dentry _ _ _ _ _ _ _ _ Hl2) as [junk Ed].
  assert (supers s2 !! sb = Some b1) as Hb2 by (by rewrite (lr_supers _ _ _ _ _ _ _ _ Hl2), lookup_insert_eq).
  wp_step. apply (wp_shrink_leaf root (root_node root sb i junk)); [by rewrite Ed, lookup_insert_eq|done|].
  wp_step. apply (wp_shrink_anon_none sb b1); [done|done|].
  wp_step. eapply wp_mono; [exact (wp_dput_lone _ _ _ _ _ _ _ _ Hl2)|]. intros [] s3 Hg.
  unfold fsync_super. destruct (rg_super _ _ _ _ _ _ _ Hg) as (b3 & Hb3 & _).
  wp_step. wp_step. wp_step; [exact Hb3|]. wp_step.
  rewrite <-F1 in Ht. eapply wp_mono; [exact (wp_shutdown_end dext iext s sb fs t b1 s2 s3 Hg Hfs G2 G3 Ht)|].
  intros [] s4 W. eapply wp_mono; [exact W|]. intros _ s5 []. rewrite <-G4. split; first [assumption|congruence].
Qed.

(** ** The last reference to the superblock *)

Lemma minor_mkdev dev : 0 ≤ dev < 1048576 → MINOR (MKDEV 0 (Z.land dev MINORMASK)) = dev.
Proof.
  intros H. unfold MINOR, MKDEV. change MINORMASK with (Z.ones 20). rewrite Z.shiftl_0_l, Z.lor_0_l.
  rewrite !Z.land_ones by done. rewrite Z.mod_mod by done. by apply Z.mod_small.
Qed.

Lemma vfs_inv_super_del dext iext sb b s :
  vfs_inv dext iext s → supers s !! sb = Some b → s_inodes b = [] → s_anon b = [] →
  vfs_inv dext iext (s <| supers ::= delete sb |>).
Proof.
  intros [Hd Hi] Hb E1 E2. split.
  - apply (dcache_inv_ext _ _ _ _ Hd); try done. split; try done.
    intros [| |k]; simpl; try done. destruct (decide (k = sb)) as [->|].
    + by rewrite lookup_delete_eq, Hb.
    + by rewrite lookup_delete_ne.
  - apply (inode_inv_ext _ _ _ _ Hi); try done. split; try done.
    intros k. unfold sb_inodes. simpl. destruct (decide (k = sb)) as [->|].
    + by rewrite lookup_delete_eq, Hb.
    + by rewrite lookup_delete_ne.
Qed.

(** What is left when the superblock is gone. *)
Record torn_down (dext iext : refs) (s : kstate) (sb fs : ptr) (t : file_system_type) (dev : Z)
    (s1 s' : kstate) : Prop := mkTornDown {
  td_vfs : vfs_inv dext iext s';
  td_dentries : dentries s' = dentries s;
  td_inodes : inodes s' = inodes s;
  td_supers : erase_sb <$> supers s' = erase_sb <$> supers s;
  td_fstypes : fstypes s' = <[fs := t <| fs_supers ::= list_del sb |>]> (fstypes s1);
  td_blocks : super_blocks s' = list_del sb (super_blocks s1);
  td_mounts : mounts s' = mounts s1;
  td_devs : unnamed_dev_idr s' = unnamed_dev_idr s1 ∖ {[dev]}
}.

Lemma wp_put_super_last dext iext s sb fs t dev s1 s2 :
  sb_down dext iext s sb fs t 1 s1 s2 →
  wp (put_super sb) (λ _ s', torn_down dext iext s sb fs t dev s1 s')
    (s2 <| unnamed_dev_idr ::= λ u, u ∖ {[dev]} |>).
Proof.
  intros []. destruct dn_super0 as (b & Hb & Hc & Hi & Ha). unfold put_super, __put_super, destroy_super.
  wp_step. wp_step. wp_step; [exact Hb|]. wp_step. wp_step; [wp_lookup|].
  change (s_count b <| s_count ::= λ c, c - 1 |>) with (s_count b - 1). rewrite Hc. change (1 - 1 =? 0) with true. cbv iota.
  wp_run.
  match goal with |- torn_down _ _ _ _ _ _ _ _ ?st =>
    assert (supers st = delete sb (supers s2)) as Es end.
  { simpl. by rewrite delete_insert_eq. }
  split; first [simpl; congruence|rewrite Es; congruence|idtac].
  destruct (vfs_inv_super_del dext iext sb b s2) as [Hd' Hi']; try done.
  split; [apply (dcache_inv_ext _ _ _ _ Hd')|apply (inode_inv_ext _ _ _ _ Hi')]; try done; split; try done.
  - intros []; try done. unfold chain. by rewrite Es.
  - intros k. unfold sb_inodes. by rewrite Es.
Qed.

(** A superblock whose last active reference is gone. *)
Record dying (root : ptr) (dev : Z) (b : super_block) : Prop := mkDying {
  dy_root : s_root b = root;
  dy_umount : s_umount b = -1;
  dy_anon : s_anon b = [];
  dy_instances : s_instances b = aufs_type;
  dy_op : s_op b = simple_s_ops;
  dy_dev : s_dev b = MKDEV 0 (Z.land dev MINORMASK)
}.

Lemma wp_kill_litter dext iext s sb root i dev t b s1 :
  lone_root dext iext s sb root i b s1 → dying root dev b →
  root ≠ NULL → fstypes s1 !! aufs_type = Some t → 0 ≤ dev < 1048576 →
  wp (kill_litter_super sb) (λ _ s', ∃ s2, sb_down dext iext s sb aufs_type t (s_count b) s1 s2 ∧
    s' = s2 <| unnamed_dev_idr ::= λ u, u ∖ {[dev]} |>) s1.
Proof.
  intros Hl [S1 S2 S3 S4 S5 S6] Hr Ht Hdev. unfold kill_litter_super, kill_anon_super, idr_remove.
  assert (supers s1 !! sb = Some b) as Hb
    by (by rewrite (lr_supers _ _ _ _ _ _ _ _ Hl), lookup_insert_eq).
  destruct (lr_dentry _ _ _ _ _ _ _ _ Hl) as [junk Ed].
  wp_step. wp_step; [exact Hb|]. rewrite S1, (proj2 (Z.eqb_neq _ _) Hr). cbn [negb mwhen]. wp_step.
  apply (wp_genocide_leaf root (root_node root sb i junk)); [by rewrite Ed, lookup_insert_eq|done|].
  wp_step. wp_step; [exact Hb|]. rewrite S6, minor_mkdev by done. wp_step.
  eapply wp_mono; [by apply (wp_shutdown dext iext s sb root i aufs_type t b s1)|].
  intros [] s2 Hd. wp_step. by exists s2.
Qed.

Lemma wp_deactivate_last dext iext s sb root i dev t b s1 :
  lone_root dext iext s sb root i b s1 → sb_facts i root dev 0 b → root ≠ NULL →
  fstypes s1 !! aufs_type = Some t → fs_kill_sb t = kill_litter_super_fn → fs_owner t = NULL →
  0 ≤ dev < 1048576 →
  wp (deactivate_super sb) (λ _ s', torn_down dext iext s sb aufs_type t dev s1 s') s1.
Proof.
  intros Hl [S1 S2 S3 S4 _ S5 S6 S7 S8 S9] Hr Ht Hk Hown Hdev. unfold deactivate_super, down_write.
  assert (supers s1 !! sb = Some b) as Hb by (by rewrite (lr_supers _ _ _ _ _ _ _ _ Hl), lookup_insert_eq).
  wp_step. wp_step; [exact Hb|]. rewrite S3, S6. wp_step. wp_step; [exact Hb|].
  change (1 - 1 =? 0) with true. cbv iota. wp_step. wp_step; [wp_lookup|]. wp_step. wp_step.
  wp_step; [wp_lookup|]. simpl s_umount. rewrite S2. change (0 =? 0) with true. cbv iota.
  wp_step; [wp_lookup|]. wp_step. wp_step; [exact Ht|]. rewrite Hk. cbn [call_kill_sb]. wp_step.
  match goal with |- wp _ _ ?st => assert (∃ b2 s2, s2 = st ∧ lone_root dext iext s sb root i b2 s2 ∧
    dying root dev b2 ∧ s_count b2 = 1) as (b2 & s2 & E & Hl2 & Hdy & Hc) end.
  { eexists _, _. split; [reflexivity|]. split; [by repeat eapply lone_root_attr|].
    split; [by split|]. simpl. by rewrite S4. }
  assert (fstypes s2 = fstypes s1 ∧ super_blocks s2 = super_blocks s1 ∧ mounts s2 = mounts s1 ∧
    unnamed_dev_idr s2 = unnamed_dev_idr s1) as (F1 & F2 & F3 & F4) by (by rewrite E).
  rewrite <-E. clear E. rewrite <-F1 in Ht.
  eapply wp_mono; [by apply (wp_kill_litter dext iext s sb root i dev t b2 s2)|].
  rewrite Hc. intros [] s3 (s4 & Hd & ->). unfold put_filesystem, module_put. wp_step. wp_step.
  wp_step; [simpl; by rewrite (dn_fstypes _ _ _ _ _ _ _ _ _ Hd), lookup_insert_eq|].
  change (fs_owner (t <| fs_supers ::= list_del sb |>)) with (fs_owner t). rewrite Hown.
  change (NULL =? NULL) with true. cbv iota. wp_step.
  eapply wp_mono; [by apply (wp_put_super_last _ _ _ _ _ _ _ _ _ Hd)|].
  intros [] s5 []. split; first [assumption|congruence].
Qed.

(** ** The last reference to the mount *)

Lemma wp_unmount_fresh dext iext t s m sb root i d ii b mnt s1 :
  fresh_mount dext iext t s m sb root i d ii b mnt s1 → vfs_inv dext iext s →
  fs_kill_sb t = kill_litter_super_fn → fs_owner t = NULL → 0 ≤ next_dev s < 1048576 →
  wp (mntput m) (λ _ s', ∃ s2,
    torn_down dext iext s sb aufs_type (t <| fs_supers ::= cons sb |>) (next_dev s) s2 s' ∧
    mounts s2 = delete m (mounts s) ∧ fstypes s2 = fstypes s1 ∧ super_blocks s2 = super_blocks s1 ∧
    unnamed_dev_idr s2 = unnamed_dev_idr s1) s1.
Proof.
  intros [Hv1 Hmo (M1 & M2 & M3) Hsu Hsn Hf Hde Hdn Hin Hinn Hd _ _ Hic Hih Hft _ _ _ (N1 & N2 & N3 & N4)].
  intros Hv Hk Hown Hdev.
  assert (mounts s1 !! m = Some mnt) as Hm by (by rewrite Hmo, lookup_insert_eq).
  unfold mntput, mntput_no_expire, __mntput, free_vfsmnt. rewrite (proj2 (Z.eqb_neq _ _) N1).
  wp_step. wp_step; [exact Hm|]. wp_step. wp_step; [wp_lookup|]. wp_step. wp_step; [wp_lookup|].
  simpl mnt_count. rewrite M3. change (1 - 1 =? 0) with true. cbn [mwhen].
  wp_step. wp_step; [wp_lookup|]. simpl mnt_root. simpl mnt_sb. rewrite M1, M2. wp_step.
  destruct (root_node_facts root sb i (slab_iname s)) as (D1 & _). rewrite <-Hd in D1.
  apply (wp_dput_more root (d <| d_count ::= Z.add 1 |>)); [done|..].
  { simpl. by rewrite Hde, lookup_insert_eq. }
  { simpl. lia. }
  wp_step. wp_step. wp_step; [wp_lookup|]. wp_step.
  match goal with |- wp _ _ ?st => assert (∃ s2, s2 = st) as [s2 E] by eauto end. rewrite <-E.
  assert (lone_root dext iext s sb root i b s2) as Hl.
  { split; try done.
    - assert (vfs_inv (bump root (-1) (bump root 1 (first_ref root dext))) (owned i iext) (s1
        <| dentries ::= <[root := d <| d_count ::= Z.add 1 |> <| d_count ::= λ c, c - 1 |>]> |>)) as [Hd' Hi'].
      { apply (vfs_inv_count _ _ s1 _ root (d <| d_count ::= Z.add 1 |>) (-1) Hv1);
          [by rewrite Hde, lookup_insert_eq|unfold bump, first_ref; rewrite Z.eqb_refl; lia|done]. }
      rewrite E. split; [apply (dcache_inv_ext _ _ _ _ Hd')|apply (inode_inv_ext _ _ _ _ Hi')]; try done.
      intros x. unfold bump. destruct (x =? root); lia.
    - by rewrite E.
    - exists (slab_iname s). rewrite E. simpl. by rewrite Hde, insert_insert_eq, d_count_back, Hd.
    - exists ii. by rewrite E. }
  assert (mounts s2 = delete m (mounts s) ∧ fstypes s2 = fstypes s1 ∧ super_blocks s2 = super_blocks s1 ∧
    unnamed_dev_idr s2 = unnamed_dev_idr s1) as (F1 & F2 & F3 & F4).
  { rewrite E. split_and!; [|done..]. simpl. by rewrite Hmo, !delete_insert_eq. }
  clear E. eapply wp_mono;
    [apply (wp_deactivate_last _ _ _ _ _ _ _ (t <| fs_supers ::= cons sb |>) _ _ Hl Hf N3); try done|].
  { by rewrite F2, Hft, lookup_insert_eq. }
  intros [] s3 Htd. exists s2. done.
Qed.

Lemma list_del_snoc x l : x ∉ l → list_del x (l ++ [x]) = l.
Proof.
  intros Hx. unfold list_del. rewrite filter_app, filter_cons_False by (by intros []).
  rewrite app_nil_r. by apply list_del_notin.
Qed.

(** The machine after an unmount, as far as it can be told from the one before
    the mount. *)
Record restored (dext iext : refs) (s s' : kstate) : Prop := mkRestored {
  re_vfs : vfs_inv dext iext s';
  re_dentries : dentries s' = dentries s;
  re_inodes : inodes s' = inodes s;
  re_mounts : mounts s' = mounts s;
  re_supers : erase_sb <$> supers s' = erase_sb <$> supers s;
  re_blocks : super_blocks s' = super_blocks s;
  re_fstypes : fstypes s' = fstypes s;
  re_devs : unnamed_dev_idr s' = unnamed_dev_idr s
}.

(** C19: Mounting aufs in the kernel and releasing the mount is a round trip: no
    operation of it faults, and when the last reference to the mount is dropped
    the mount, the superblock, its root dentry and inode and the device number
    are gone, the superblock is off the list of all superblocks and off its
    type's, and the caches are in order with exactly the references from before. *)
Theorem mount_unmount dext iext l t s :
  mountable dext iext l t s → mounts s !! slab_next s = None →
  (∀ x, x ∈ super_blocks s → is_Some (supers s !! x)) →
  wp (m ← kern_mount_v aufs_type; mntput m) (λ _ s', restored dext iext s s') s.
Proof.
  intros Hm Hfree Hblocks. pose proof Hm as [_ _ _ Ht _ Hown Hk Hnone _ _ Hsz _ _]. wp_step.
  eapply wp_mono; [by eapply wp_kern_mount|].
  intros m s2 (s1 & sb & root & i & d & ii & b & mnt & E1 & Hv1 & -> & Hfm).
  assert (next_dev s1 = next_dev s ∧ dentries s1 = dentries s ∧ inodes s1 = inodes s ∧
    supers s1 = supers s ∧ fstypes s1 = fstypes s ∧ super_blocks s1 = super_blocks s ∧
    unnamed_dev_idr s1 = unnamed_dev_idr s ∧ delete (slab_next s) (mounts s1) = mounts s)
    as (P1 & P2 & P3 & P4 & P5 & P6 & P7 & P8).
  { rewrite E1. split_and!; [done..|]. simpl. by rewrite delete_insert_id. }
  clear E1. destruct (least_free_least (unnamed_dev_idr s)) as (L1 & _ & L2).
  fold (next_dev s) in L1, L2.
  eapply wp_mono; [apply (wp_unmount_fresh _ _ _ _ _ _ _ _ _ _ _ _ _ Hfm Hv1 Hk Hown); lia|].
  intros [] s3 (s4 & [] & F1 & F2 & F3 & F4).
  assert (sb ∉ super_blocks s) as Hsb.
  { intros Hin%Hblocks. rewrite <-P4, (fm_sb_new _ _ _ _ _ _ _ _ _ _ _ _ _ Hfm) in Hin. by destruct Hin. }
  split; try congruence.
  - rewrite td_blocks0, F3, (fm_blocks _ _ _ _ _ _ _ _ _ _ _ _ _ Hfm), P6. by apply list_del_snoc.
  - rewrite td_fstypes0, F2, (fm_fstypes _ _ _ _ _ _ _ _ _ _ _ _ _ Hfm), insert_insert_eq, P5.
    apply insert_id. rewrite Ht. f_equal. destruct t. simpl in *. subst. cbv -[list_del].
    f_equal. by rewrite list_del_cons_eq by apply not_elem_of_nil.
  - rewrite td_devs0, F4, (fm_devs _ _ _ _ _ _ _ _ _ _ _ _ _ Hfm), P7, P1. set_solver.
Qed.
