(* ===== verification/TreeCheck.v ===== *)
(** * A checker for the abstract tree

    A boolean test of the representation relation between a kernel state and an
    abstract tree, and its soundness, so that a concrete machine can be shown to
    hold a tree by evaluation. *)

From S2P Require Import Prelude KString Kernel Links Inode InodeInv Dcache DcacheInv DcacheOps.
From S2P Require Import VfsCheck Filesystems Super Mount Libfs Groups Namei LookupSpec.
From S2P Require Import Aufs AufsSpec AufsCreate AufsTree Attr Path PathCount PathNames PathSpec.

Definition entry_check (s : kstate) (p : ptr) (e : bytes * ptr) : bool :=
  match dentries s !! e.2 with
  | Some d =>
      negb (d_unhashed d) && (d_parent d =? p) && bool_decide (d_name d = e.1) &&
      (d_name_len d =? Z.of_nat (length e.1)) && (d_name_hash d =? q_hash (key e.1)) &&
      match d_hash_node d with InBucket _ => true | _ => false end
  | None => false
  end.

Lemma entry_check_sound s p e : entry_check s p e = true → is_entry s p e.
Proof.
  unfold entry_check, is_entry. destruct (dentries s !! e.2) as [d|]; [|done].
  intros Hc. bool_to_prop. destruct (d_hash_node d) eqn:Eh; try done.
  eexists d, _. split; [done|]. split; [done|]. by split.
Qed.

(** The checks are relative to what is required of the inodes of directories: a
    test [ok] that is sound for [P]. *)
Section checks.
Context (ok : task → inode → bool) (P : task → inode → Prop).
Hypothesis ok_sound : ∀ t i, ok t i = true → P t i.

Definition shows_check (s : kstate) (x : ptr) (d : dentry) (i : inode) (n : anode) : bool :=
  match n with
  | ADir k l =>
      bool_decide (i_op i = simple_dir_inode_operations) &&
      bool_decide (i_fop i = simple_dir_operations) && S_ISDIR (i_mode i) &&
      ok (current s) i && (i_nlink i =? k) &&
      bool_decide (d_subdirs d = l.*2) && forallb (entry_check s x) l
  | AFile mode fops => (i_mode i =? mode) && bool_decide (i_fop i = fops) &&
      bool_decide (d_subdirs d = []) && bool_decide (i_op i = empty_iops)
  end.

Lemma shows_check_sound s x d i n : shows_check s x d i n = true → shows P s x d i n.
Proof.
  destruct n; simpl; intros Hc; bool_to_prop; [|done]. split_and!; try done; [by apply ok_sound|].
  apply Forall_forall. intros e He. apply entry_check_sound. rewrite forallb_forall in H0.
  apply H0. by apply list_elem_of_In.
Qed.

Definition node_check (s : kstate) (sb x : ptr) (n : anode) : bool :=
  match dentries s !! x with
  | Some d =>
      match inodes s !! d_inode d with
      | Some i =>
          negb (d_count d =? 0) && bool_decide (i_dentry i = [x]) && (i_sb i =? sb) &&
          (negb (d_parent d =? x) || bool_decide (d_hash_node d = Unlinked)) &&
          shows_check s x d i n
      | None => false
      end
  | None => false
  end.

Lemma node_check_sound s sb x n :
  node_check s sb x n = true → ∃ d i, node_at s sb x d i ∧ shows P s x d i n.
Proof.
  unfold node_check. destruct (dentries s !! x) as [d|] eqn:Hd; [|done].
  destruct (inodes s !! d_inode d) as [i|] eqn:Hi; [|done]. intros Hc. bool_to_prop.
  exists d, i. split; [|by apply shows_check_sound]. split; try done.
  intros E. rewrite E, Z.eqb_refl in *. simpl in *. by bool_to_prop.
Qed.

Definition root_check (root : ptr) (s : kstate) : bool :=
  negb (root =? NULL) && negb (aufs_mount s =? NULL) &&
  match mounts s !! aufs_mount s with
  | Some m => negb (mnt_sb m =? NULL) &&
      match supers s !! mnt_sb m with Some b => s_root b =? root | None => false end
  | None => false
  end.

Lemma root_check_sound root s : root_check root s = true → resolves s NULL root.
Proof.
  unfold root_check, resolves. destruct (mounts s !! aufs_mount s) as [m|];
    [|by rewrite andb_false_r]. destruct (supers s !! mnt_sb m) as [b|] eqn:Eb;
    [|by rewrite !andb_false_r]. intros Hc. bool_to_prop. split; [done|]. right. eauto 10.
Qed.

Definition tree_check (sb root : ptr) (A : atree) (s : kstate) : bool :=
  vfs_check s && bool_decide (slab_fail s = []) && bool_decide (is_Some (supers s !! sb)) &&
  root_check root s && all_check (node_check s sb) A.

Lemma tree_check_sound sb root A s :
  tree_check sb root A s = true → tree_rep P (dext_of s) (iext_of s) sb root A s.
Proof.
  unfold tree_check. intros Hc. bool_to_prop. split; try done.
  - by apply vfs_check_sound.
  - by apply root_check_sound.
  - intros x n Hx. apply node_check_sound. by apply (all_check_sound _ _ _ _ H0).
Qed.

End checks.

Lemma search_sound t i : (may_exec t i =? 0) = true → searchable t i.
Proof. apply Z.eqb_eq. Qed.

(** ** A mounted tree that a task can walk *)

Definition dirs_check (root : ptr) (A : atree) (n : anode) : bool :=
  match n with
  | ADir _ l => bool_decide (NoDup l.*1) &&
      forallb (λ e, bool_decide (is_Some (A !! e.2)) && negb (e.2 =? root)) l
  | AFile _ _ => true
  end.

Lemma dirs_check_sound root A k l :
  dirs_check root A (ADir k l) = true →
  NoDup l.*1 ∧ ∀ name x, (name, x) ∈ l → is_Some (A !! x) ∧ x ≠ root.
Proof.
  simpl. intros Hc. bool_to_prop. split; [done|]. intros name x Hx.
  rewrite forallb_forall in H0. specialize (H0 (name, x)). rewrite <-list_elem_of_In in H0.
  specialize (H0 Hx). simpl in H0. by bool_to_prop.
Qed.

Definition mount_check (root m : ptr) (s : kstate) : bool :=
  match mounts s !! m with
  | Some mm => (1 <=? mnt_count mm) && (mnt_expiry_mark mm =? 0) && (mnt_root mm =? root)
  | None => false
  end.

Definition type_check (sb : ptr) (s : kstate) : bool :=
  match supers s !! sb with
  | Some b => match fstypes s !! s_type b with
              | Some t => negb (has_flag (fs_flags t) FS_REVAL_DOT)
              | None => false
              end
  | None => false
  end.

Definition place_check (sb root : ptr) (s : kstate) (x : ptr) : bool :=
  match dentries s !! x with
  | Some d => (d_mounted d =? 0) && (d_sb d =? sb) && (negb (x =? root) || (d_parent d =? root))
  | None => true
  end.

Definition walk_check (sb root : ptr) (A : atree) (m : ptr) (s : kstate) : bool :=
  tree_check (λ _ _, true) sb root A s && (slab_next s <=? u32 (-1000)) &&
  match A !! root with Some (ADir _ _) => true | _ => false end &&
  all_check (λ _, dirs_check root A) A && all_check (λ x _, place_check sb root s x) A &&
  type_check sb s && negb (m =? NULL) && mount_check root m s &&
  (fs_root (task_fs (current s)) =? root) && (fs_rootmnt (task_fs (current s)) =? m).

Lemma walk_check_sound sb root A m s :
  walk_check sb root A m s = true → walkable (dext_of s) (iext_of s) sb root A m s.
Proof.
  unfold walk_check. destruct (A !! root) as [[kr lr|]|] eqn:Er; [|by rewrite !andb_false_r..].
  intros Hc. bool_to_prop. split.
  - by apply (tree_check_sound (λ _ _, true)).
  - done.
  - eauto.
  - intros p k l Hp. apply dirs_check_sound with k. by apply (all_check_sound _ _ _ _ H6 Hp).
  - intros x n d Hx Hd. pose proof (all_check_sound _ _ _ _ H5 Hx) as Hpl. unfold place_check in Hpl.
    rewrite Hd in Hpl. by bool_to_prop.
  - unfold type_check in H4. destruct (supers s !! sb) as [b|]; [|done].
    destruct (fstypes s !! s_type b) as [t|] eqn:Et; [|done]. exists b, t. by bool_to_prop.
  - done.
  - unfold mount_check in H2. destruct (mounts s !! m) as [mm|]; [|done]. exists mm. by bool_to_prop.
  - by split.
  - intros d Hd. pose proof (all_check_sound _ _ _ _ H5 Er) as Hpl. unfold place_check in Hpl.
    rewrite Hd, Z.eqb_refl in Hpl. simpl in Hpl. by bool_to_prop.
Qed.
