(* ===== verification/AufsInit.v ===== *)
(** * Loading the module (aufs/aufs.c)

    [aufs_init] on top of the interfaces it uses: the table of file systems, the
    in-kernel mount through the class [KernMount], and the creation of the tree.
    The mount path of the vendored kernel is an instance of the class. *)

From S2P Require Import Prelude KString Kernel Links Inode InodeInv Dcache DcacheInv DcacheOps.
From S2P Require Import Filesystems Super Mount Libfs Groups Namei LookupSpec Aufs AufsSpec.
From S2P Require Import AufsCreate AufsTree FillSuper KernMount.

(** The tree of the module below [root]: two directories of three files. *)
Definition star_file : anode := AFile (u16 file_mode) aufs_file_operations.

Definition aufs_tree (root : ptr) (k : Z) (A : atree) : Prop :=
  ∃ w m,
    A !! root = Some (ADir k [(cstr "man_star", m); (cstr "woman_star", w)]) ∧
    (∃ l b j, A !! w = Some (ADir 2 [(cstr "lj1", j); (cstr "fbb", b); (cstr "lbb", l)]) ∧
       A !! l = Some star_file ∧ A !! b = Some star_file ∧ A !! j = Some star_file) ∧
    (∃ l c j, A !! m = Some (ADir 2 [(cstr "jw", j); (cstr "lcw", c); (cstr "ldh", l)]) ∧
       A !! l = Some star_file ∧ A !! c = Some star_file ∧ A !! j = Some star_file).

Lemma grown_size root new n dirs dext dext' A' :
  grown new dirs dext {[root := n]} dext' A' → size A' = S (length new).
Proof.
  intros G. assert (root ∉ new) as Hr.
  { intros Hin%(gr_fresh _ _ _ _ _ _ G). by rewrite lookup_singleton_eq in Hin. }
  assert (dom A' = list_to_set (root :: new)) as Hdom.
  { apply set_eq. intros x. rewrite elem_of_dom, elem_of_list_to_set, elem_of_cons.
    rewrite (gr_some _ _ _ _ _ _ G), lookup_singleton_is_Some. naive_solver. }
  rewrite <-size_dom, Hdom, size_list_to_set; [done|].
  constructor; [done|]. apply (gr_nodup _ _ _ _ _ _ G).
Qed.

Definition aufs_loaded (r : Z) (s' : kstate) : Prop :=
  r = 0 ∧ ∃ dext iext sb root A,
    tree_inv dext iext sb root A s' ∧ aufs_tree root 3 A ∧
    size A = 9%nat ∧ ∀ x, x ≠ root → is_Some (A !! x) → dext x = 2.

(** A machine on which the module can be loaded: the caches are in order, its
    structure is as the module declares it and not linked, there is memory below
    the error values, and a device number is free. *)
Record loadable (dext iext : refs) (l : list ptr) (t : file_system_type) (s : kstate) : Prop :=
    mkLoadable {
  lo_vfs : vfs_inv dext iext s;
  lo_table : fs_table s l;
  lo_type : fstypes s !! aufs_type = Some t;
  lo_next : fs_next t = NULL;
  lo_name : fs_name t = cstr "aufs";
  lo_owner : fs_owner t = NULL;
  lo_kill : fs_kill_sb t = kill_litter_super_fn;
  lo_mem : slab_fail s = [];
  lo_space : slab_next s + 6 * SLAB_STEP ≤ u32 (-1000);
  lo_devs : Z.of_nat (size (unnamed_dev_idr s)) < 1048576;
  lo_supers x : is_Some (supers s !! x) → x < slab_next s;
  lo_dsb x d : dentries s !! x = Some d → d_sb d < slab_next s
}.

Lemma aufs_name_cstring : cstring (cstr "aufs").
Proof. vm_compute. repeat constructor; done. Qed.

Lemma vfs_inv_table dext iext s s' :
  vfs_inv dext iext s → table_frame s s' → vfs_inv dext iext s'.
Proof.
  intros [Hd Hi] ->. split; [by apply (dcache_inv_ext _ _ _ _ Hd)|by apply (inode_inv_ext _ _ _ _ Hi)].
Qed.

(** Registration makes the type mountable. *)
Lemma loadable_mountable dext iext l t s s' :
  loadable dext iext l t s → fs_table s' (l ++ [aufs_type]) → table_frame s s' →
  fstypes s' !! aufs_type = Some (t <| fs_supers := [] |>) →
  mountable dext iext (l ++ [aufs_type]) (t <| fs_supers := [] |>) s'.
Proof.
  intros [] Htab Hfr Ht. pose proof (vfs_inv_table _ _ _ _ lo_vfs0 Hfr) as Hv.
  pose proof (λ {A} (f : kstate → A), f_equal f Hfr) as P. split; try done.
  - set_solver.
  - by rewrite (P _ slab_fail : slab_fail s' = slab_fail s).
  - by rewrite (P _ slab_next : slab_next s' = slab_next s).
  - by rewrite (P _ unnamed_dev_idr : unnamed_dev_idr s' = unnamed_dev_idr s).
  - by rewrite (P _ supers : supers s' = supers s), (P _ slab_next : slab_next s' = slab_next s).
  - by rewrite (P _ dentries : dentries s' = dentries s), (P _ slab_next : slab_next s' = slab_next s).
Qed.

(** ** Success *)

Section init.
Context (current_fsuid current_fsgid : task → Z) (kern_mount : ptr → KM ptr) `{!KernMount kern_mount}.
Hypothesis fsuid_spec : ∀ t, current_fsuid t = fsuid t.

Lemma wp_aufs_init dext iext l t s :
  loadable dext iext l t s → cstr "aufs" ∉ name_of (fstypes s) <$> l →
  wp (aufs_init current_fsuid current_fsgid kern_mount) aufs_loaded s.
Proof.
  intros Hlo Hnew. pose proof Hlo as []. unfold aufs_init. wp_step.
  apply (wp_register_filesystem s l aufs_type t); try done; rewrite lo_name0; [apply aufs_name_cstring|done|].
  intros _ s1 Htab Hfr Ht. cbn [negb Z.eqb]. wp_step.
  eapply wp_mono; [by eapply kern_mount_empty, loadable_mountable|].
  intros m s2 (Herr & dext1 & iext1 & sb & root & Htree). wp_step. wp_step. rewrite Herr.
  wp_step. eapply wp_mono.
  { apply (wp_populate _ _ fsuid_spec dext1 iext1 sb root {[root := ADir 1 []]} _ 1 []); [exact Htree|
      by rewrite lookup_singleton_eq|simpl; apply not_elem_of_nil..]. }
  intros _ s3 (w & w1 & w2 & w3 & m' & m1 & m2 & m3 & dext' & iext' & A' & Ht' & G & St & W & F1 & F2 & F3).
  wp_step. split; [done|]. exists dext', iext', sb, root, A'.
  destruct St as [Hr Hm (M1 & M2 & M3) Hd]. split_and!; [done| | |].
  - exists w, m'. split_and!; [exact Hr|by exists w1, w2, w3|by exists m1, m2, m3].
  - by apply (grown_size root _ (ADir 1 []) _ _ _ _ G).
  - intros x Hx HA. apply (gr_some _ _ _ _ _ _ G) in HA as [Hin|[n Hn]].
    + rewrite (gr_refs _ _ _ _ _ _ G), decide_True by done. done.
    + apply lookup_singleton_Some in Hn as [? _]. done.
Qed.

(** C17: loading the module on a machine where no file system has its name, over
    any in-kernel mount that gives a registered type without superblocks an empty
    root, returns 0 and leaves the tree of nine objects: the root, with a link
    count of 3, two directories and six files.  Every dentry below the root holds
    two references that nothing in the module gives up. *)
Theorem init_builds dext iext l t s :
  loadable dext iext l t s → cstr "aufs" ∉ name_of (fstypes s) <$> l →
  wp (aufs_init current_fsuid current_fsgid kern_mount) aufs_loaded s.
Proof. apply wp_aufs_init. Qed.
End init.

(** C18: the in-kernel mount of the vendored kernel is such a mount: on every
    machine where the type is registered and has no superblock, where there is
    memory and a free device number, it returns a mount whose root is an empty
    directory, and the caches keep their invariant. *)
Theorem kern_mount_correct dext iext l t s :
  mountable dext iext l t s → wp (kern_mount_v aufs_type) mounts_empty s.
Proof. apply vendored_mount. Qed.

(** C1: so on the vendored kernel the module loads and shows its tree, with no
    assumption about any code. *)
Theorem aufs_loads dext iext l t s :
  loadable dext iext l t s → cstr "aufs" ∉ name_of (fstypes s) <$> l →
  wp aufs_init_v aufs_loaded s.
Proof. apply (wp_aufs_init fsuid fsgid kern_mount_v (λ _, eq_refl)). Qed.

(** ** Failure *)

Section init_fails.
Variables current_fsuid current_fsgid : task → Z.
Variable kern_mount : ptr → KM ptr.
Let init := aufs_init current_fsuid current_fsgid kern_mount.

(** The file systems registered before, and the module's own structure. *)
Context (s : kstate) (l : list ptr) (t : file_system_type).
Hypothesis Htab : fs_table s l.
Hypothesis Htype : fstypes s !! aufs_type = Some t.
Hypothesis Hnext : fs_next t = NULL.
Hypothesis Hname : fs_name t = cstr "aufs".

(** When a file system of that name is registered the module is refused with
    -EBUSY and the table keeps its members and their order. *)
Theorem init_busy :
  cstr "aufs" ∈ name_of (fstypes s) <$> l →
  wp init (λ r s', r = - EBUSY ∧ fs_table s' l) s.
Proof.
  intros Hin. unfold init, aufs_init. wp_step.
  apply (wp_register_filesystem s l aufs_type t); try done; rewrite Hname; [apply aufs_name_cstring| |done].
  intros _ s' Hs' _. cbn [negb Z.eqb Z.opp EBUSY]. wp_run. split; [done|].
  eapply fs_table_ext; [done|done|]. eauto.
Qed.

(** C34: when the mount fails the file system is unregistered again, but the value
    returned is that of the registration, which succeeded: the module stays
    loaded without a file system. *)
Theorem init_mount_fails :
  cstr "aufs" ∉ name_of (fstypes s) <$> l →
  (∀ s1, register_filesystem aufs_type s = Ok 0 s1 → fs_table s1 (l ++ [aufs_type]) →
     wp (kern_mount aufs_type) (λ m s2, IS_ERR m = true ∧ fs_table s2 (l ++ [aufs_type])) s1) →
  wp init (λ r s', r = 0 ∧ fs_table s' l) s.
Proof.
  intros Hnew Hmount. unfold init, aufs_init. wp_step.
  assert (wp (register_filesystem aufs_type) (λ r s1, r = 0 ∧ fs_table s1 (l ++ [aufs_type])) s) as Hreg.
  { apply (wp_register_filesystem s l aufs_type t); try done; rewrite Hname; [apply aufs_name_cstring|done..]. }
  unfold wp in Hreg |- *. destruct (register_filesystem aufs_type s) as [r s1|] eqn:Erun; [|done].
  destruct Hreg as [-> Htab1]. specialize (Hmount s1 eq_refl Htab1). cbn [negb Z.eqb].
  change (wp (m ← kern_mount aufs_type;
    modify (λ s, s <| aufs_mount := m |>) ;;
    if IS_ERR m then
      printk (KERN_ERR ++ cstr "aufs: cannot mount file system\n") ;;
      unregister_filesystem aufs_type ;; mret 0
    else aufs_populate current_fsuid current_fsgid ;; mret 0) (λ r s', r = 0 ∧ fs_table s' l) s1).
  wp_step. eapply wp_mono; [exact Hmount|]. intros m s2 [Herr Htab2].
  wp_step. wp_step. rewrite Herr. wp_step. wp_step. wp_step.
  assert (fs_table (s2 <| aufs_mount := m |> <| klog ::= (.++ [KERN_ERR ++
    cstr "aufs: cannot mount file system\n"]) |>) (l ++ [aufs_type])) as Htab3.
  { eapply fs_table_ext; [done|done|]. eauto. }
  apply (wp_unregister_filesystem _ (l ++ [aufs_type])); [exact Htab3|set_solver|].
  intros l1 l2 t1 Heq _ s4 Htab4 _ _. wp_step. split; [done|].
  pose proof (fs_table_nodup _ _ Htab3) as Hnd.
  destruct (snoc_split _ _ _ _ Hnd Heq) as [-> ->]. by rewrite app_nil_r in Htab4.
Qed.
End init_fails.
