(* ===== verification/Unload.v ===== *)
(** * What unloading leaves behind

    The module's tree is a litter whose dentries have two references each: the
    one that keeps it in memory, and the one of its lookup that the creating
    functions do not give up.  Killing the litter takes one, so that all of the
    tree stays. *)

From stdpp Require Import relations.
From S2P Require Import Prelude KString Kernel Links Inode InodeInv Dcache DcacheInv DcacheOps Prune Walk Shrink.
From S2P Require Import Filesystems Super Mount Libfs Groups Namei LookupSpec Aufs AufsSpec.
From S2P Require Import AufsCreate AufsTree FillSuper KernMount AufsInit.

(** The objects of a set that is closed under the entries of the tree. *)
Lemma tree_child dext iext sb root A s x n y :
  tree_inv dext iext sb root A s → A !! x = Some n → child s x y →
  ∃ k l, n = ADir k l ∧ y ∈ l.*2 ∧ ∃ d b, dentries s !! y = Some d ∧ d_hash_node d = InBucket b.
Proof.
  intros Ht Hx Hc. destruct (ti_node _ _ _ _ _ _ Ht _ _ Hx) as (d & i & Hn & Hs).
  unfold child, subdirs in Hc. rewrite (na_dentry _ _ _ _ _ Hn) in Hc. simpl in Hc.
  destruct n as [k l|mode fops]; simpl in Hs.
  - destruct Hs as (_ & _ & _ & _ & E & Hl). exists k, l. rewrite E in Hc. split_and!; [done|done|].
    apply list_elem_of_fmap in Hc as (e & -> & He). rewrite Forall_forall in Hl.
    destruct (Hl _ He) as (d' & b & ? & ? & _). eauto.
  - destruct Hs as (_ & _ & E & _). rewrite E in Hc. by apply elem_of_nil in Hc.
Qed.

(** Whatever is below the root of the tree is in it. *)
Lemma tree_below dext iext sb root A s (R : list ptr) z :
  tree_inv dext iext sb root A s → root ∈ R →
  (∀ x, x ∈ R → ∃ n, A !! x = Some n ∧ match n with ADir _ l => l.*2 ⊆ R | AFile _ _ => True end) →
  rtc (child s) root z → z ∈ R.
Proof.
  intros Ht Hr Hcl. revert z. apply rtc_ind_r; [done|]. intros x y _ Hc Hx.
  destruct (Hcl x Hx) as (n & Hn & Hl).
  destruct (tree_child _ _ _ _ _ _ _ _ _ Ht Hn Hc) as (k & l & -> & Hy & _). by apply Hl.
Qed.

Lemma aufs_tree_closed root k A :
  aufs_tree root k A → ∃ R, root ∈ R ∧
    ∀ x, x ∈ R → ∃ n, A !! x = Some n ∧ match n with ADir _ l => l.*2 ⊆ R | AFile _ _ => True end.
Proof.
  intros (w & m & Hr & (l & b & j & Hw & Hl & Hb & Hj) & (l' & c & j' & Hm & Hl' & Hc & Hj')).
  exists [root; w; m; l; b; j; l'; c; j']. split; [left|]. intros x Hx.
  repeat (apply elem_of_cons in Hx as [->|Hx]; [by eexists; split; [eassumption|]; simpl; set_solver|]).
  by apply elem_of_nil in Hx.
Qed.

Lemma wp_kill_tree dext iext sb root k A s :
  tree_inv dext iext sb root A s → aufs_tree root k A → is_root s root → 0 < dext root →
  (∀ x, x ≠ root → is_Some (A !! x) → dext x = 2) →
  wp (d_genocide root ;; shrink_dcache_parent root) (λ _ s', ∃ l,
    (∀ z, z ∈ l ↔ tc (child s) root z) ∧ vfs_inv (spend l dext) iext s' ∧
    ∀ x, rtc (child s) root x → is_Some (dentries s' !! x)) s.
Proof.
  intros Ht Htree Hroot He Htwo. destruct (aufs_tree_closed _ _ _ Htree) as (R & HrR & Hcl).
  pose proof Ht as [Hv _ _ _ _]. pose proof (vi_dcache _ _ _ Hv) as Hd.
  assert (∀ z, tc (child s) root z → live s z = true ∧ dext z = 2) as Hall.
  { intros z Hz. destruct (Hcl z) as (n & Hn & _).
    { eapply tree_below; eauto. by apply tc_rtc. }
    split.
    - apply tc_last in Hz as (x & Hx & Hc).
      destruct (Hcl x) as (nx & Hnx & _); [by eapply tree_below|].
      destruct (tree_child _ _ _ _ _ _ _ _ _ Ht Hnx Hc) as (? & ? & _ & _ & d & b & Hz & Hh).
      destruct (ti_node _ _ _ _ _ _ Ht _ _ Hn) as (d' & i & Hnode & _).
      pose proof (na_dentry _ _ _ _ _ Hnode) as Hz'.
      assert (d' = d) as -> by congruence.
      pose proof (ii_addr _ _ (vi_inode _ _ _ Hv) _ ltac:(exists i; apply (na_inode _ _ _ _ _ Hnode))) as Ha.
      unfold live. rewrite Hz, (do_flag _ _ _ _ (dc_ok _ _ Hd _ _ Hz)), Hh.
      rewrite (proj2 (Z.eqb_neq (d_inode d) NULL)) by (unfold NULL; lia). done.
    - apply Htwo; [|by exists n]. intros ->. by eapply below_acyclic. }
  destruct Hroot as (d & Hr & Hp).
  eapply wp_mono; [apply (wp_drop_tree dext iext root d s Hv Hr Hp He)|].
  { intros z Hz. destruct (Hall z Hz) as [? ->]. done. }
  intros _ s' (l & Hl & Hv' & _ & Hr' & Hs & _). exists l. split_and!; [done|done|].
  intros x Hx. apply rtc_inv_r in Hx as [<-|(y & Hy & Hyx)]; [done|].
  pose proof (rtc_snoc _ _ _ _ Hy Hyx) as Hx. apply Hs; [by apply Hl|].
  by rewrite (proj2 (Hall x Hx)).
Qed.

(** C21: Killing the tree of the loaded module frees none of it.  On every machine
    that shows the module's tree, with the two references per object that loading
    leaves, [d_genocide] takes one of them and the shrinking finds nothing unused:
    the root and every dentry below it stay in memory, each with a reference that
    nobody will give up. *)
Theorem unload_frees_nothing dext iext sb root k A s :
  tree_inv dext iext sb root A s → aufs_tree root k A → is_root s root → 0 < dext root →
  (∀ x, x ≠ root → is_Some (A !! x) → dext x = 2) →
  wp (d_genocide root ;; shrink_dcache_parent root) (λ _ s', ∃ l,
    (∀ z, z ∈ l ↔ tc (child s) root z) ∧ vfs_inv (spend l dext) iext s' ∧
    ∀ x, rtc (child s) root x → is_Some (dentries s' !! x)) s.
Proof. apply wp_kill_tree. Qed.
