(* ===== verification/AufsFile.v ===== *)
(** * The switch of aufs (aufs/file.h)

    Every file of the tree shows one switch, [enabled]: reading gives a fixed
    text, writing sets it from the first byte. *)

From S2P Require Import Prelude KString Kernel Links Inode InodeInv Dcache DcacheInv DcacheOps.
From S2P Require Import Super Mount Libfs LibfsSpec Namei Aufs.

Definition switch_text (e : Z) : bytes :=
  if e =? 0 then cstr "aufs read disabled\n" else cstr "aufs read enabled\n".

Lemma switch_text_cstring e : cstring (switch_text e).
Proof. unfold switch_text. destruct (e =? 0); vm_compute; repeat constructor; done. Qed.

Lemma switch_text_length e : 19 ≤ Z.of_nat (length (switch_text e)) ≤ 20.
Proof. unfold switch_text. destruct (e =? 0); vm_compute; split; discriminate. Qed.

(** A read is a read of the text. *)
Lemma aufs_file_read_text fle buf n pos s :
  aufs_file_read fle buf n pos s =
  simple_read_from_buffer buf n pos (switch_text (enabled s))
    (Z.of_nat (length (switch_text (enabled s)))) s.
Proof.
  unfold aufs_file_read, gets, mbind, M_bind. cbv beta iota zeta.
  assert ((if negb (enabled s =? 0) then cstr "aufs read enabled\n" else cstr "aufs read disabled\n")
          = switch_text (enabled s)) as -> by (unfold switch_text; by destruct (enabled s =? 0)).
  by rewrite strlen_cstring by apply switch_text_cstring.
Qed.

Lemma wp_aufs_file_write file buffer count ppos c Q s :
  user_mem s !! buffer = Some c → is_byte c →
  Q (s32 count) (s <| enabled := if c =? 48 then 0 else 1 |>) →
  wp (aufs_file_write file buffer count ppos) Q s.
Proof.
  intros Hc Hb HQ. unfold aufs_file_write, load_user. wp_step. eapply wp_deref; [done|].
  assert ((s8 c - 48 =? 0) = (c =? 48)) as ->.
  { unfold s8, is_byte in *. destruct (c =? 48) eqn:E; bool_to_prop; [by subst|].
    apply Z.eqb_neq. intros E'. apply E.
    pose proof (Z.div_mod (c + 128) 256). pose proof (Z.mod_pos_bound (c + 128) 256). lia. }
  destruct (c =? 48); simpl; by wp_run.
Qed.

(** After a write whose first byte is [c], a reader in chunks of any size gets
    the text for disabled if [c] is the digit 0 and the text for enabled for
    every other byte, whatever was written before and whatever count and
    position the writer gave. *)
Theorem write_then_read file fle buffer c count ppos buf n fuel s :
  user_mem s !! buffer = Some c → is_byte c → 0 < n → mapped (user_mem s) buf n → (21 ≤ fuel)%nat →
  wp (aufs_file_write file buffer count ppos ;;
      read_all (aufs_file_read fle buf n) buf fuel 0)
    (λ r s', r = Some (if c =? 48 then cstr "aufs read disabled\n" else cstr "aufs read enabled\n") ∧
             enabled s' = if c =? 48 then 0 else 1) s.
Proof.
  intros Hc Hb Hn Hm Hf. wp_step. apply (wp_aufs_file_write _ _ _ _ c); [done..|].
  set (e := if c =? 48 then 0 else 1). pose proof (switch_text_length e).
  eapply wp_mono; [apply (wp_read_all (λ s, enabled s = e) _ _ _ n (switch_text e)); try done|].
  - intros pos s' <-. apply aufs_file_read_text.
  - lia.
  - change (Z.to_nat 0) with O. rewrite drop_0. lia.
  - intros r s' (-> & m & ->). unfold e, switch_text. by destruct (c =? 48).
Qed.
