(* ===== verification/OpenSpec.v ===== *)
(** * Files of the tree through open, read, write and close

    A user program reaches a file of aufs by its path.  Opening it takes one
    reference to its dentry and to the mount, and closing it gives them back;
    in between reads and writes reach the switch of aufs. *)

From S2P Require Import Prelude KString Kernel Links Inode InodeInv Dcache DcacheInv DcacheOps Walk.
From S2P Require Import Filesystems Super Mount SuperSpec Libfs LibfsSpec Groups Namei LookupSpec Attr Path Vfs Aufs Open.
From S2P Require Import Stat Calls PermSpec AufsSpec AufsCreate AufsTree KernMount PathCount PathNames PathSpec VfsSpec.
From S2P Require Import AufsFile.

(** ** The state with an open file *)

(** Room for one more file. *)
Record file_room (sb : ptr) (s : kstate) : Prop := mkFileRoom {
  fr_max : nr_files (files_stat s) < max_files (files_stat s) ∨ cap_sys_admin (current s) = true;
  fr_low : slab_next s + SLAB_STEP ≤ u32 (-1000);
  fr_fresh : files s !! slab_next s = None;
  fr_list b : supers s !! sb = Some b → slab_next s ∉ s_files b
}.

(** The state after the file is allocated. *)
Definition allocated (s : kstate) : kstate :=
  (after_alloc s)
    <| files ::= <[slab_next s := mkFile NULL NULL NULL None 1 0 0 0 (fsuid (current s)) (fsgid (current s)) 0 0]> |>
    <| files_stat ::= λ st, st <| nr_files ::= Z.add 1 |> |>.

Lemma wp_get_empty_filp sb Q s :
  file_room sb s → slab_fail s = [] → 0 < slab_next s →
  Q (slab_next s) (allocated s) → wp get_empty_filp Q s.
Proof.
  intros [Hmax Hlow _ _] Hmem Hpos HQ. unfold get_empty_filp. wp_step. wp_step. wp_step. wp_step.
  assert ((nr_files (files_stat s) >=? max_files (files_stat s)) && negb (cap_sys_admin (current s)) = false) as ->.
  { destruct Hmax as [Hmax| ->]; [|by rewrite andb_false_r].
    rewrite Z.geb_leb, (proj2 (Z.leb_gt _ _) Hmax). done. }
  wp_step. apply wp_alloc; [done|]. rewrite (proj2 (Z.eqb_neq (slab_next s) NULL)) by (unfold NULL; lia).
  unfold filp_ctor. by wp_run.
Qed.

Lemma after_alloc_settled s : slab_fail s = [] → settled s (after_alloc s).
Proof.
  intros Hm. exists (SLAB_STEP + slab_next s), (dentry_hashtable s). split_and!; [unfold SLAB_STEP; lia|done|].
  unfold after_alloc. kstate_eq. by rewrite Hm.
Qed.

(** Nothing of the tree depends on the table of open files. *)
Lemma allocated_walkable dext iext sb root A m s :
  walkable dext iext sb root A m s → file_room sb s → walkable dext iext sb root A m (allocated s).
Proof.
  intros [Ht Hl Hr Hd Hp Htp Hm0 Hm Hf Htop] [_ Hlow _ _].
  pose proof (settled_tree _ _ _ _ _ _ _ Ht (after_alloc_settled _ (ti_mem _ _ _ _ _ _ Ht))) as [T1 T2 T3 T4 T5].
  split; try done.
  - split; [|done..|].
    + destruct T1 as [D I]. split; [by apply (dcache_inv_ext _ _ _ _ D)|by apply (inode_inv_ext _ _ _ _ I)].
    + intros x n Hx. destruct (T5 _ _ Hx) as (d & i & [N1 N2 N3 N4 N5 N6] & Hs). exists d, i.
      split; [by split|by destruct n].
  - simpl. lia.
Qed.

(** ** Opening *)

(** A regular file of aufs, without flags, on a file system that is mounted for
    writing. *)
Record openable (sb x : ptr) (mode : Z) (d : dentry) (i : inode) (b : super_block) (s : kstate) : Prop := mkOpenable {
  op_dentry : dentries s !! x = Some d;
  op_inode : inodes s !! d_inode d = Some i;
  op_null : d_inode d ≠ NULL;
  op_super : supers s !! sb = Some b;
  op_sb : i_sb i = sb;
  op_mode : i_mode i = mode;
  op_fop : i_fop i = aufs_file_operations;
  op_iop : i_op i = empty_iops;
  op_regular : S_ISREG mode = true;
  op_plain : i_flags i = 0;
  op_cdev : i_cdev i = NULL;
  op_writers : 0 ≤ i_writecount i;
  op_rw : has_flag (s_flags b) MS_RDONLY = false;
  op_sb_addr : sb ≠ NULL
}.

(** The flags of a plain open: read, write, or both, and the rights they take. *)
Definition access_flags (flags : Z) : Prop := flags = 0 ∨ flags = 1 ∨ flags = 2.

Definition wanted (flags : Z) : Z :=
  if flags =? 0 then MAY_READ else if flags =? 1 then MAY_WRITE else Z.lor MAY_READ MAY_WRITE.

Lemma wp_may_open nd sb x mode d i b acc flag Q s :
  openable sb x mode d i b s → nd_dentry nd = x → 0 ≤ acc < 8 →
  has_flag flag O_TRUNC = false → has_flag flag O_NOATIME = false →
  (granted (current s) i b acc → Q 0 s) → (¬ granted (current s) i b acc → Q (- EACCES) s) →
  wp (may_open nd acc flag) Q s.
Proof.
  intros [H1 H2 H3 H4 H5 H6 H7 H8 H9 H11 H12 H13 H14 H15] Hnd Hacc Ht Hn HQ HQ'.
  assert (S_ISLNK mode = false ∧ S_ISDIR mode = false ∧ S_ISFIFO mode = false ∧ S_ISSOCK mode = false ∧
    S_ISBLK mode = false ∧ S_ISCHR mode = false) as (M1 & M2 & M3 & M4 & M5 & M6).
  { unfold S_ISREG, S_ISLNK, S_ISDIR, S_ISFIFO, S_ISSOCK, S_ISBLK, S_ISCHR in *. apply Z.eqb_eq in H9. by rewrite H9. }
  unfold may_open. rewrite Hnd. wp_step. wp_step; [exact H1|]. rewrite (proj2 (Z.eqb_neq _ _) H3).
  wp_step. wp_step; [exact H2|]. rewrite H6, M1, M2. cbn [andb]. wp_step.
  apply (wp_permission_result _ i b); [exact H2|by rewrite H5|done|].
  destruct (permission_writable (current s) i b acc) as [[Hg ->]|[Hg ->]];
    [unfold IS_IMMUTABLE; by rewrite H11|done|done| |]; cbn [Z.eqb negb]; [|wp_run; by apply HQ'].
  unfold open_checks, IS_RDONLY, IS_APPEND. rewrite H6, M3, M4, M5, M6, H5, H11. cbn [orb]. wp_run. rewrite H14. cbn [andb].
  change (has_flag 0 S_APPEND) with false. cbn [andb]. rewrite Hn. cbn [andb]. wp_run. rewrite Ht. wp_run. by apply HQ.
Qed.

Definition writers (flags : Z) : Z := if has_flag (open_mode flags) FMODE_WRITE then 1 else 0.

Section files.
Context (special : file_operations → fop_methods) (cdev_put : ptr → KM unit).

(** An open file in the tables. *)
Definition attached (f : ptr) (fl : file) (ino sb n : Z) (s : kstate) : kstate :=
  s <| files ::= <[f := fl]> |>
    <| inodes ::= alter (λ i, i <| i_writecount ::= Z.add n |>) ino |>
    <| supers ::= alter (λ b, b <| s_files ::= cons f |>) sb |>.

Definition count_writers (n : Z) (i : inode) : inode := i <| i_writecount ::= Z.add n |>.

Lemma wp_write_access ino i flags Q t :
  inodes t !! ino = Some i → 0 ≤ i_writecount i →
  Q 0 (t <| inodes ::= <[ino := count_writers (writers flags) i]> |>) →
  wp (if has_flag (open_mode flags) FMODE_WRITE then get_write_access ino else mret 0) Q t.
Proof.
  intros Hi Hw HQ. unfold writers in HQ. destruct (has_flag (open_mode flags) FMODE_WRITE).
  - unfold get_write_access. wp_run. rewrite (proj2 (Z.ltb_ge _ _) Hw). by wp_run.
  - wp_run. assert (t <| inodes ::= <[ino := count_writers 0 i]> |> = t) as <-; [|done].
    kstate_eq. rewrite insert_id; [done|]. rewrite Hi. by destruct i.
Qed.

Lemma wp_dentry_open sb x m mode d i b f fl flags Q t :
  openable sb x mode d i b t → files t !! f = Some fl → f_list fl = NULL → access_flags flags →
  f_count fl = 1 → f_version fl = 0 → f_private_data fl = 0 →
  Q f (attached f (mkFile sb x m (Some aufs_file_operations) 1 flags (open_mode flags) 0 (f_uid fl) (f_gid fl) 0 0)
         (d_inode d) sb (writers flags) t) →
  wp (__dentry_open special cdev_put x m flags f) Q t.
Proof.
  intros [H1 H2 H3 H4 H5 H6 H7 H8 H9 H11 H12 H13 H14 H15] Hf El Hfl Ec Ev Ep HQ.
  destruct fl. simpl in *. subst.
  unfold __dentry_open, fops_get, try_module_get, file_move, file_kill.
  wp_step. wp_step; [exact Hf|]. wp_step. wp_step; [exact H1|]. wp_step.
  eapply wp_write_access; [exact H2|done|]. cbn [Z.eqb negb]. wp_step.
  wp_step; [simpl; by rewrite lookup_insert_eq|]. cbn -[lookup insert delete alter]. wp_go. rewrite H7.
  cbn -[lookup insert delete alter]. wp_go. cbn -[lookup insert delete alter open_mode]. wp_go.
  unfold f_method. cbn -[lookup insert delete alter open_mode]. wp_go.
  cbn -[lookup insert delete alter open_mode].
  assert (clear_flag flags (Z.lor O_CREAT (Z.lor O_EXCL (Z.lor O_NOCTTY O_TRUNC))) = flags ∧
    has_flag flags O_DIRECT = false) as [Efl Edir] by (by destruct Hfl as [-> |[-> | ->]]).
  rewrite Efl, Edir. cbn [andb]. wp_run.
  match goal with |- Q _ ?st => assert (st = attached f (mkFile (i_sb i) x m (Some aufs_file_operations) 1 flags
    (open_mode flags) 0 f_uid f_gid 0 0) (d_inode d) (i_sb i) (writers flags) t) as ->; [|done] end.
  unfold attached. kstate_eq.
  - by rewrite (alter_some _ _ _ _ H2).
  - by rewrite (alter_some _ _ _ _ H4).
  - rewrite !insert_insert_eq. f_equal. destruct Hfl as [-> |[-> | ->]]; reflexivity.
Qed.

(** ** Closing *)

Lemma wp_end_write ino i flags Q t :
  inodes t !! ino = Some (count_writers (writers flags) i) →
  Q tt (t <| inodes ::= <[ino := i]> |>) →
  wp (mwhen (has_flag (open_mode flags) FMODE_WRITE) (put_write_access ino)) Q t.
Proof.
  intros Hi HQ. unfold writers in Hi. destruct (has_flag (open_mode flags) FMODE_WRITE).
  - simpl. unfold put_write_access. eapply wp_mod_inode; [exact Hi|].
    assert ((count_writers 1 i) <| i_writecount ::= λ c, c - 1 |> = i) as ->; [|done].
    destruct i. unfold count_writers, upd. simpl. f_equal. lia.
  - simpl. wp_run. assert (t <| inodes ::= <[ino := i]> |> = t) as <-; [|done].
    kstate_eq. rewrite insert_id; [done|]. rewrite Hi. by destruct i.
Qed.

Definition released (f x m : ptr) (s : kstate) : kstate :=
  madj m (-1) (adj x (-1) (s <| files ::= delete f |>
    <| files_stat ::= λ st, st <| nr_files ::= λ n, n - 1 |> |>)).

Lemma wp_filp_close sb x m mode d i b mm f flags u g pos Q t :
  openable sb x mode d i b t → x ≠ NULL → 2 ≤ d_count d → f ∉ s_files b →
  m ≠ NULL → mounts t !! m = Some mm → mnt_expiry_mark mm = 0 → 2 ≤ mnt_count mm →
  Q 0 (released f x m t) →
  wp (filp_close special cdev_put f) Q
    (attached f (mkFile sb x m (Some aufs_file_operations) 1 flags (open_mode flags) pos u g 0 0)
       (d_inode d) sb (writers flags) t).
Proof.
  intros [H1 H2 H3 H4 H5 H6 H7 H8 H9 H11 H12 H13 H14 H15] Hx0 Hc Hl Hm0 Hm He Hmc HQ.
  unfold filp_close, attached. set (fl := mkFile _ _ _ _ _ _ _ _ _ _ _ _).
  set (t1 := t <| files ::= _ |> <| inodes ::= _ |> <| supers ::= _ |>).
  assert (t1 = t <| files ::= <[f := fl]> |> <| inodes ::= <[d_inode d := count_writers (writers flags) i]> |>
    <| supers ::= <[sb := b <| s_files ::= cons f |>]> |>) as ->.
  { unfold t1. kstate_eq; by erewrite alter_some. }
  wp_step. wp_step; [simpl; by rewrite lookup_insert_eq|]. unfold f_method. cbn -[lookup insert delete alter open_mode]. wp_run.
  unfold fput. wp_go. cbn -[lookup insert delete alter open_mode]. wp_go.
  change (1 - 1 =? 0) with true. cbn [mwhen].
  change (fl <| f_count ::= λ c, c - 1 |>) with (mkFile sb x m (Some aufs_file_operations) 0 flags (open_mode flags) pos u g 0 0).
  unfold __fput, f_method. wp_step. wp_step; [simpl; by rewrite lookup_insert_eq|].
  cbn [f_dentry f_op f_mode f_vfsmnt fops fm_release]. wp_go.
  change (i_cdev (count_writers (writers flags) i)) with (i_cdev i). rewrite H12. cbn [negb Z.eqb NULL mwhen].
  wp_step. wp_step. wp_step; [simpl; by rewrite lookup_insert_eq|]. cbn [f_op f_mode fops_put fops fm_owner].
  unfold module_put. wp_step. cbn [Z.eqb NULL]. wp_step. wp_step.
  eapply wp_end_write; [simpl; by rewrite lookup_insert_eq|]. unfold file_kill.
  wp_step. wp_step. wp_step; [simpl; by rewrite lookup_insert_eq|]. cbn [f_list].
  rewrite (proj2 (Z.eqb_neq _ _) H15). cbn [negb mwhen].
  wp_step. wp_step; [simpl; by rewrite lookup_insert_eq|]. wp_step; [simpl; by rewrite lookup_insert_eq|].
  wp_step. wp_step; [simpl; by rewrite lookup_insert_eq|].
  unfold file_free, filp_dtor. wp_step. wp_step. wp_step; [simpl; by rewrite lookup_insert_eq|]. wp_step. wp_step. wp_step.
  match goal with |- wp _ _ ?u => assert (u = t <| files ::= delete f |>
    <| files_stat ::= λ st, st <| nr_files ::= λ n, n - 1 |> |>) as -> end.
  { kstate_eq.
    - by rewrite insert_insert_eq, insert_id.
    - rewrite insert_insert_eq, insert_id; [done|]. rewrite H4. f_equal. destruct b. unfold upd. simpl. f_equal.
      symmetry. by apply list_del_cons_eq.
    - by rewrite !delete_insert_eq. }
  wp_step. eapply wp_dput_adj; [done|exact H1|lia|]. eapply wp_mntput_adj; [done|exact Hm|done|lia|]. exact HQ.
Qed.

(** ** Reads and writes of an open file *)

(** What the methods of aufs and the accounting of the task may change. *)
Definition user_change (e : Z) (um : gmap Z Z) (c : task) (t : kstate) : kstate :=
  t <| enabled := e |> <| user_mem := um |> <| current := c |>.

Lemma user_change_id e um c t :
  enabled t = e → user_mem t = um → current t = c → user_change e um c t = t.
Proof. intros <- <- <-. by destruct t. Qed.

(** The task, up to its counters. *)
Definition same_task (c c' : task) : Prop :=
  ∃ rc wc sr sw, c' = c <| rchar := rc |> <| wchar := wc |> <| syscr := sr |> <| syscw := sw |>.

Lemma same_task_counters c c' :
  c' = c <| rchar := rchar c' |> <| wchar := wchar c' |> <| syscr := syscr c' |> <| syscw := syscw c' |> →
  same_task c c'.
Proof. intros E. by exists (rchar c'), (wchar c'), (syscr c'), (syscw c'). Qed.

#[export] Instance same_task_preorder : PreOrder same_task.
Proof.
  split.
  - intros c. exists (rchar c), (wchar c), (syscr c), (syscw c). by destruct c.
  - intros c ? ? (? & ? & ? & ? & ->) (rc & wc & sr & sw & ->). by exists rc, wc, sr, sw.
Qed.

(** A file of aufs that is open. *)
Record open_on (f : ptr) (fl : file) (d : dentry) (i : inode) (t : kstate) : Prop := mkOpenOn {
  oo_file : files t !! f = Some fl;
  oo_op : f_op fl = Some aufs_file_operations;
  oo_dentry : dentries t !! f_dentry fl = Some d;
  oo_inode : inodes t !! d_inode d = Some i
}.

Lemma attached_on f fl sb n d i t :
  f_op fl = Some aufs_file_operations → dentries t !! f_dentry fl = Some d → inodes t !! d_inode d = Some i →
  open_on f fl d (count_writers n i) (attached f fl (d_inode d) sb n t).
Proof.
  intros H1 H2 H3. split; simpl; [by rewrite lookup_insert_eq|done|done|]. by rewrite lookup_alter_eq, H3.
Qed.

Lemma open_on_change f fl d i e um c t : open_on f fl d i t → open_on f fl d i (user_change e um c t).
Proof. intros []. by split. Qed.

(** An area inside the user space and the range of file positions. *)
Definition area_ok (buf count pos : Z) : Prop :=
  0 ≤ count ≤ INT_MAX ∧ buf + count ≤ TASK_SIZE ∧ 0 ≤ pos ∧ pos + count < 9223372036854775808.

Lemma s64_id z : -9223372036854775808 ≤ z < 9223372036854775808 → s64 z = z.
Proof. intros Hz. unfold s64. rewrite Z.mod_small; lia. Qed.

Lemma wp_verify f fl d i buf count pos (Q : Z → kstate → Prop) t :
  open_on f fl d i t → area_ok buf count pos → Q 0 t → wp (rw_verify_area f pos count) Q t.
Proof.
  intros [O1 O2 O3 O4] (H1 & H2 & H3 & H4) HQ.
  unfold rw_verify_area. rewrite Z.gtb_ltb, (proj2 (Z.ltb_ge _ _)) by lia.
  rewrite (proj2 (Z.ltb_ge pos 0)) by lia. rewrite s64_id by lia.
  rewrite (proj2 (Z.ltb_ge (pos + count) 0)) by lia. cbn [orb]. by wp_run.
Qed.

(** A write of the switch. *)
Lemma wp_vfs_write f fl d i buf count pos ch (Q : Z * Z → kstate → Prop) t :
  open_on f fl d i t → area_ok buf count pos → has_flag (f_mode fl) FMODE_WRITE = true →
  user_mem t !! buf = Some ch → is_byte ch →
  (∀ c, same_task (current t) c → Q (count, pos) (user_change (if ch =? 48 then 0 else 1) (user_mem t) c t)) →
  wp (vfs_write special f buf count pos) Q t.
Proof.
  intros Ho Ha Hmode Hch Hb HQ. pose proof Ha as (H1 & H2 & H3 & H4). pose proof Ho as [O1 O2 O3 O4].
  unfold vfs_write, f_method. wp_step. wp_step; [exact O1|]. rewrite Hmode, O2.
  cbn [fops fm_write fm_aio_write negb].
  unfold access_ok. rewrite (proj2 (Z.leb_le _ _) H2). cbn [negb]. wp_step. eapply wp_verify; [exact Ho|exact Ha|].
  cbn [Z.eqb negb]. wp_step. wp_step. eapply wp_aufs_file_write; [exact Hch|done|].
  assert (s32 count = count) as -> by (unfold s32, INT_MAX, two32 in *; rewrite Z.mod_small; lia).
  destruct (count >? 0) eqn:E; wp_run; rewrite E; cbn [mwhen]; wp_run;
    (match goal with |- Q _ ?u => replace u with (user_change (if ch =? 48 then 0 else 1) (user_mem t) (current u) t)
       by (unfold user_change; kstate_eq) end);
    apply HQ, same_task_counters; cbn; by destruct (current t).
Qed.

(** A read of the whole text. *)
Lemma wp_vfs_read f fl d i buf count (Q : Z * Z → kstate → Prop) t :
  open_on f fl d i t → area_ok buf count 0 → has_flag (f_mode fl) FMODE_READ = true →
  mapped (user_mem t) buf 20 → 20 ≤ count →
  let text := switch_text (enabled t) in
  (∀ um c, same_task (current t) c → written (user_mem t) buf text um →
     Q (Z.of_nat (length text), Z.of_nat (length text)) (user_change (enabled t) um c t)) →
  wp (vfs_read special f buf count 0) Q t.
Proof.
  intros Ho Ha Hmode Hm Hc text HQ. pose proof Ha as (H1 & H2 & H3 & H4). pose proof Ho as [O1 O2 O3 O4].
  unfold vfs_read, f_method. wp_step. wp_step; [exact O1|]. rewrite Hmode, O2.
  cbn [fops fm_read fm_aio_read negb].
  unfold access_ok. rewrite (proj2 (Z.leb_le _ _) H2). cbn [negb]. wp_step. eapply wp_verify; [exact Ho|exact Ha|].
  cbn [Z.eqb negb]. wp_step. unfold wp at 1. rewrite aufs_file_read_text. fold text.
  pose proof (switch_text_length (enabled t)) as Hlen. fold text in Hlen.
  assert (slice text 0 count = text) as Esl by (rewrite slice_all; [done|lia..]).
  eapply wp_mono; [apply wp_read_from_buffer; [lia|lia|lia|rewrite Esl; intros a Ha'; apply Hm; lia]|].
  rewrite Esl. cbv zeta. rewrite Z.add_0_l. intros r u (-> & um & -> & Hwr).
  rewrite (proj2 (Z.gtb_lt _ _)) by lia. cbn [mwhen]. wp_run.
  match goal with |- Q _ ?u => replace u with (user_change (enabled t) um (current u) t)
    by (unfold user_change; kstate_eq) end.
  apply HQ; [|done]. apply same_task_counters. cbn. by destruct (current t).
Qed.

(** ** The path of a file *)

(** Where a path leads a task that may search the directories [may]. *)
Definition target (may : ptr → bool) (root : ptr) (A : atree) (cwd : list ptr) (path : bytes) : Z + ptr :=
  atop A (trailing path) (aresolve may A (start root cwd path) (names_of path)).

Section path.
Context (dext iext : refs) (sb root : ptr) (A : atree) (m : ptr) (s : kstate) (cwd : list ptr).
Hypothesis Hw : walkable dext iext sb root A m s.
Hypothesis Hcwd : cwd_ok A root m cwd (current s).
Hypothesis Hroom : file_room sb s.
Context (path : bytes) (flags : Z).
Hypothesis Hpath : path_ok path.
Hypothesis Hflags : access_flags flags.

(** Where the path leads. *)
Local Abbreviation target := (target (search s) root A cwd path).

(** A failed open frees the file again. *)
Lemma wp_open_failed t (e : Z) (Q : ptr → kstate → Prop) :
  settled (allocated s) t → (∀ t', settled s t' → Q (ERR_PTR e) t') →
  wp (put_filp (slab_next s) ;; mret (ERR_PTR e)) Q t.
Proof.
  intros (n & h & Hn & Hh & ->) HQ. unfold put_filp, file_kill, file_free, filp_dtor.
  wp_go. cbn -[lookup insert delete alter]. wp_go. cbn -[lookup insert delete alter]. wp_go.
  change (1 - 1 =? 0) with true. cbn [mwhen]. wp_go. cbn -[lookup insert delete alter]. wp_go. apply HQ.
  exists n, h. simpl in Hn. split_and!; [unfold SLAB_STEP in *; lia|done|].
  kstate_eq.
  - rewrite delete_insert_eq, delete_insert_eq, delete_id; [done|]. apply (fr_fresh _ _ Hroom).
  - by rewrite (ti_mem _ _ _ _ _ _ (wk_tree _ _ _ _ _ _ _ Hw)).
  - destruct (files_stat s). unfold upd. simpl. f_equal. lia.
Qed.

(** The file that the path leads to, in the state of the call. *)
Definition file_at (x : ptr) (d : dentry) (i : inode) (b : super_block) : Prop :=
  ∃ mode, A !! x = Some (AFile mode aufs_file_operations) ∧ openable sb x mode d i b s.

Lemma file_at_det x d i b d' i' b' : file_at x d i b → file_at x d' i' b' → d = d' ∧ i = i' ∧ b = b'.
Proof.
  intros (? & _ & [H1 H2 _ H4 _ _ _ _ _ _ _ _ _ _]) (? & _ & [G1 G2 _ G4 _ _ _ _ _ _ _ _ _ _]).
  assert (d = d') as <- by congruence. split_and!; congruence.
Qed.

Lemma openable_held x mode d i b :
  openable sb x mode d i b s → openable sb x mode (recount 1 d) i b (held m x (allocated s)).
Proof.
  intros []. split; try done. pose proof (held_lookup m x (allocated s) x d op_dentry0) as E.
  by rewrite decide_True in E.
Qed.

(** What open leaves behind. *)
Definition open_state (x : ptr) (d : dentry) : kstate :=
  attached (slab_next s) (mkFile sb x m (Some aufs_file_operations) 1 flags (open_mode flags) 0
    (fsuid (current s)) (fsgid (current s)) 0 0) (d_inode d) sb (writers flags) (held m x (allocated s)).

Lemma wp_filp_open mode (Q : ptr → kstate → Prop) :
  (∀ x, target = inr x → ∃ d i b, file_at x d i b) →
  (∀ e t, target = inl e → settled s t → Q (ERR_PTR (- e)) t) →
  (∀ x d i b, target = inr x → file_at x d i b → granted (current s) i b (wanted flags) →
     Q (slab_next s) (open_state x d)) →
  (∀ x d i b t, target = inr x → file_at x d i b → ¬ granted (current s) i b (wanted flags) → settled s t →
     Q (ERR_PTR (- EACCES)) t) →
  wp (filp_open special cdev_put vendored_iop path flags mode) Q s.
Proof.
  intros Hfile Herr Hok Hno. pose proof (wk_tree _ _ _ _ _ _ _ Hw) as Ht.
  unfold filp_open. wp_step. eapply wp_get_empty_filp; [exact Hroom|by apply (ti_mem _ _ _ _ _ _ Ht)|..].
  { apply (ii_next _ _ (vi_inode _ _ _ (ti_vfs _ _ _ _ _ _ Ht))). }
  rewrite (proj2 (Z.eqb_neq (slab_next s) NULL)).
  2: { pose proof (ii_next _ _ (vi_inode _ _ _ (ti_vfs _ _ _ _ _ _ Ht))). unfold NULL. lia. }
  pose proof (allocated_walkable _ _ _ _ _ _ _ Hw Hroom) as Hwa. set (fl := namei_flags flags).
  assert (has_flag fl O_CREAT = false ∧ has_flag fl O_APPEND = false ∧ has_flag fl O_TRUNC = false ∧
    has_flag fl O_NOATIME = false ∧ ACC_MODE fl = wanted flags ∧
    has_flag (Z.lor (lookup_flags fl) LOOKUP_OPEN) LOOKUP_PARENT = false ∧
    has_flag (Z.lor (lookup_flags fl) LOOKUP_OPEN) LOOKUP_DIRECTORY = false)
    as (F1 & F2 & F3 & F4 & F5 & F6 & F7).
  { unfold fl. clear -Hflags. by destruct Hflags as [-> |[-> | ->]]. }
  wp_step. unfold open_namei. rewrite F1, F2. cbn [negb]. wp_step. destruct Hpath as [Hp Hs].
  eapply wp_mono; [by apply (wp_path_lookup dext iext sb root A m (allocated s) cwd)|].
  intros [e nd] t [Hpost _]. unfold walk_target in Hpost. rewrite F6, F7, orb_false_r in Hpost.
  match type of Hpost with walk_post _ _ ?r _ _ => change r with target in Hpost end.
  destruct target as [e'|x] eqn:Et; simpl in Hpost.
  - destruct Hpost as [-> Hst]. assert (- e' ≠ 0) as He. { destruct (walk_error_neg _ (atop_error _ _ _ _ _ _ Et)). lia. }
    rewrite (proj2 (Z.eqb_neq _ _) He). cbn [negb]. wp_step. rewrite (proj2 (Z.eqb_neq _ _) He).
    apply wp_open_failed; [done|]. intros t' Ht'. by eapply Herr.
  - destruct Hpost as (-> & Hnd & ->). injection Hnd as Hm Hx. cbn [Z.eqb negb].
    destruct (Hfile x eq_refl) as (d & i & b & Hat). pose proof Hat as (md & HA & Ho).
    pose proof (openable_held _ _ _ _ _ Ho) as Hh.
    unfold open_ok. wp_step. rewrite F5.
    eapply wp_may_open; [exact Hh|done|by clear -Hflags; destruct Hflags as [-> |[-> | ->]]|done|done|..].
    + intros Hg. cbn [Z.eqb negb]. wp_step.
      rewrite Hx, Hm. eapply wp_dentry_open; [exact Hh|simpl; by rewrite lookup_insert_eq|done..|].
      exact (Hok x d i b eq_refl Hat Hg).
    + intros Hg. change (- EACCES =? 0) with false. cbn [negb]. unfold nd_path. rewrite Hx, Hm. wp_step.
      eapply (wp_release _ _ _ _ _ _ _ Hwa); [exact HA|]. wp_step. change (- EACCES =? 0) with false. cbv iota.
      apply wp_open_failed; [done|]. intros t' Ht'. by eapply Hno.
Qed.

Lemma openable_change x md d i b e um c t :
  openable sb x md d i b t → openable sb x md d i b (user_change e um c t).
Proof. intros []. by split. Qed.

Lemma user_change_attached e um c f fl ino n t :
  user_change e um c (attached f fl ino sb n t) = attached f fl ino sb n (user_change e um c t).
Proof. unfold user_change, attached. kstate_eq. Qed.

Lemma wp_close_path x d i b e um c Q :
  file_at x d i b →
  (∀ t, settled (user_change e um c s) t → Q 0 t) →
  wp (filp_close special cdev_put (slab_next s)) Q (user_change e um c (open_state x d)).
Proof.
  intros (md & HA & Ho) HQ. destruct (walk_object _ _ _ _ _ _ _ Hw _ _ HA) as (d' & i' & [[N1 _ _ _ _ _] _ Hx0 _ Hcnt _ _ _]).
  assert (d' = d) as -> by (pose proof (op_dentry _ _ _ _ _ _ _ Ho); congruence).
  destruct (wk_mnt _ _ _ _ _ _ _ Hw) as (mm & Hm & M1 & M2 & M3).
  pose proof (openable_change _ _ _ _ _ e um c _ (openable_held _ _ _ _ _ Ho)) as Hh.
  unfold open_state. rewrite user_change_attached. change (d_inode d) with (d_inode (recount 1 d)).
  apply (wp_filp_close sb x m md (recount 1 d) i b (mnt_recount 1 mm)); [exact Hh|done|simpl; lia| |apply (wk_nonnull _ _ _ _ _ _ _ Hw)| |done|simpl; lia|].
  - apply (fr_list _ _ Hroom). apply (op_super _ _ _ _ _ _ _ Ho).
  - simpl. by rewrite lookup_alter_eq, Hm.
  - apply HQ. exists (SLAB_STEP + slab_next s), (dentry_hashtable s).
    split_and!; [simpl; unfold SLAB_STEP; lia|done|]. unfold released, user_change, held, madj, adj. kstate_eq.
    + exact (f_equal dentries (adj_cancel x 1 s)).
    + exact (f_equal mounts (madj_cancel m 1 s)).
    + rewrite delete_insert_eq, delete_id; [done|]. apply (fr_fresh _ _ Hroom).
    + by rewrite (ti_mem _ _ _ _ _ _ (wk_tree _ _ _ _ _ _ _ Hw)).
    + destruct (files_stat s). unfold upd. simpl. f_equal. lia.
Qed.

Lemma open_state_on x d i b :
  file_at x d i b → ∃ fl i',
  open_on (slab_next s) fl (recount 1 d) i' (open_state x d) ∧
  f_dentry fl = x ∧ f_vfsmnt fl = m ∧ f_mode fl = open_mode flags ∧ f_pos fl = 0 ∧ f_count fl = 1.
Proof.
  intros (md & _ & [O1 O2 _ _ _ _ _ _ _ _ _ _ _ _]). do 2 eexists. split.
  - unfold open_state. change (d_inode d) with (d_inode (recount 1 d)). apply attached_on; [done| |exact O2].
    pose proof (held_lookup m x (allocated s) x d O1) as E. by rewrite decide_True in E.
  - done.
Qed.
End path.
End files.

(** C9: opening and closing a file by its path is balanced, and open grants what
    the permissions grant.  Let the path, if it leads to an object, lead to a
    regular file of aufs without flags, on a file system mounted for writing.  If
    the path leads to no object, open returns the error of the path and leaves no
    file behind.  If it leads to a file and the bits of the caller's class or a
    capability grant what the flags ask for, open returns a file on that object,
    at position 0 and with the mode that the flags ask for, and closing it
    returns 0 and gives back every reference: dentries, inodes with their counts
    of writers, mounts, superblocks with their lists of files, and the number of
    open files are the ones before.  If they do not grant it, open returns
    -EACCES and leaves nothing behind. *)
Theorem open_close special cdev_put dext iext sb root A m s cwd path flags mode :
  walkable dext iext sb root A m s → cwd_ok A root m cwd (current s) → file_room sb s →
  path_ok path → access_flags flags →
  (∀ x, target (search s) root A cwd path = inr x → ∃ d i b, file_at sb A s x d i b) →
  wp (filp_open special cdev_put vendored_iop path flags mode) (λ f t,
    match target (search s) root A cwd path with
    | inl e => f = ERR_PTR (- e) ∧ settled s t
    | inr x => ∃ d i b, file_at sb A s x d i b ∧
        ((granted (current s) i b (wanted flags) ∧ IS_ERR f = false ∧
          (∃ fl d i, open_on f fl d i t ∧ f_dentry fl = x ∧ f_vfsmnt fl = m ∧
             f_mode fl = open_mode flags ∧ f_pos fl = 0 ∧ f_count fl = 1) ∧
          wp (filp_close special cdev_put f) (λ r t', r = 0 ∧ settled s t') t) ∨
         (¬ granted (current s) i b (wanted flags) ∧ f = ERR_PTR (- EACCES) ∧ settled s t))
    end) s.
Proof.
  intros Hw Hc Hr Hp Hf Hfile. apply (wp_filp_open _ _ dext iext sb root A m s cwd Hw Hc Hr path flags Hp Hf).
  - done.
  - intros e t -> Hst. done.
  - intros x d i b Et Hat Hg. rewrite Et. exists d, i, b. split; [done|]. left. split_and!; [done|..].
    + apply not_err. apply (wk_low _ _ _ _ _ _ _ Hw).
    + destruct (open_state_on sb A m s flags x d i b Hat) as (fl & i0 & H1 & H2). by exists fl, (recount 1 d), i0.
    + rewrite <-(user_change_id (enabled s) (user_mem s) (current s) (open_state _ _ _ _ _ _)) by reflexivity.
      eapply (wp_close_path _ _ dext iext sb root A m s Hw Hr flags x); [exact Hat|].
      intros t Ht. split; [done|]. by rewrite user_change_id in Ht.
  - intros x d i b t Et Hat Hg Hst. rewrite Et. exists d, i, b. split; [done|]. by right.
Qed.

(** C8: a session of a user program with a file of the mounted tree that the bits
    of its class or a capability let it read and write.  It opens the
    file by its path for reading and writing, writes bytes of which the first
    is [ch], reads and closes.  The write reports all its bytes; the read
    delivers the text for disabled if [ch] is the digit 0 and the text for
    enabled otherwise; afterwards the switch is set, the buffer holds the text,
    the counters of the task moved, and nothing else changed: in particular no
    reference and no open file is left. *)
Theorem switch_session special cdev_put dext iext sb root A m s cwd path x d i b mode wbuf count ch rbuf n :
  walkable dext iext sb root A m s → cwd_ok A root m cwd (current s) → file_room sb s →
  path_ok path → target (search s) root A cwd path = inr x → file_at sb A s x d i b →
  granted (current s) i b (Z.lor MAY_READ MAY_WRITE) →
  area_ok wbuf count 0 → user_mem s !! wbuf = Some ch → is_byte ch →
  area_ok rbuf n 0 → 20 ≤ n → mapped (user_mem s) rbuf 20 →
  wp (f ← filp_open special cdev_put vendored_iop path 2 mode;
      '(w, _) ← vfs_write special f wbuf count 0;
      '(r, _) ← vfs_read special f rbuf n 0;
      e ← filp_close special cdev_put f;
      mret (w, r, e)) (λ res t,
    let on := if ch =? 48 then 0 else 1 in
    res = (count, Z.of_nat (length (switch_text on)), 0) ∧
    user_bytes (user_mem t) rbuf (Z.of_nat (length (switch_text on))) = switch_text on ∧
    ∃ c, same_task (current s) c ∧ settled (user_change on (user_mem t) c s) t) s.
Proof.
  intros Hw Hc Hr Hp Et Hat Hg Ha1 Hch Hb Ha2 Hn Hm. wp_step.
  apply (wp_filp_open _ _ dext iext sb root A m s cwd Hw Hc Hr path 2 Hp); [by right; right|..].
  { intros y Ey. assert (y = x) as -> by congruence. eauto. }
  { intros e t Ey. congruence. }
  2: { intros y d' i' b' t Ey Hat' Hno. assert (y = x) as -> by congruence.
    by destruct (file_at_det _ _ _ _ _ _ _ _ _ _ Hat Hat') as (<- & <- & <-). }
  intros y d' i' b' Ey Hat' _. assert (y = x) as -> by congruence.
  destruct (file_at_det _ _ _ _ _ _ _ _ _ _ Hat Hat') as (<- & <- & <-).
  destruct (open_state_on sb A m s 2 x d i b Hat) as (fl & i0 & Hon & _ & _ & Hmode & _).
  assert (enabled (open_state sb m s 2 x d) = enabled s ∧ user_mem (open_state sb m s 2 x d) = user_mem s ∧
    current (open_state sb m s 2 x d) = current s) as (E1 & E2 & E3) by (split_and!; reflexivity).
  pose proof (λ e um c, wp_close_path special cdev_put dext iext sb root A m s Hw Hr 2 x d i b e um c) as Hclose.
  generalize dependent (open_state sb m s 2 x d). intros u Hon E1 E2 E3 Hclose.
  set (on := if ch =? 48 then 0 else 1). wp_step.
  eapply wp_vfs_write; [exact Hon|exact Ha1|by rewrite Hmode|by rewrite E2|done|]. intros c1 Hc1. fold on.
  rewrite E3 in Hc1. wp_step.
  eapply wp_vfs_read; [apply open_on_change; exact Hon|exact Ha2|by rewrite Hmode| |done|].
  { simpl. by rewrite E2. }
  intros um c2 Hc2 Hwr. wp_step.
  change (user_change (enabled (user_change on (user_mem u) c1 u)) um c2 (user_change on (user_mem u) c1 u))
    with (user_change on um c2 u).
  change (current (user_change on (user_mem u) c1 u)) with c1 in Hc2.
  change (enabled (user_change on (user_mem u) c1 u)) with on in *.
  apply Hclose; [done|].
  intros t Ht. wp_run. assert (user_mem t = um) as Eum by (by destruct Ht as (? & ? & _ & _ & ->)).
  rewrite Eum. split_and!; [done|by eapply user_bytes_written|]. exists c2. split; [by etrans|done].
Qed.

(** ** Files in closed directories *)

(** Rights only take away. *)
Lemma aresolve_restrict may A st names :
  aresolve may A st names = inl EACCES ∨ aresolve may A st names = aresolve (λ _, true) A st names.
Proof.
  revert st. induction names as [|name names IH]; intros st; [by right|]. simpl. destruct st as [|cur st]; [by right|].
  simpl. destruct (A !! cur) as [[k l|]|]; [|by right..]. destruct (may cur); [|by left]. cbn [negb].
  destruct (bool_decide (name = dot)); [apply IH|]. destruct (bool_decide (name = dotdot)); [apply IH|].
  destruct (entry_named name l); [apply IH|by right].
Qed.

(** The last step to a file is a step from a directory that has it. *)
Lemma astep_file may A root st comp x anc md fops :
  chained A root st → A !! x = Some (AFile md fops) → astep may A st comp = inr (x :: anc) →
  ∃ p k l, A !! p = Some (ADir k l) ∧ (comp, x) ∈ l ∧ may p = true.
Proof.
  intros Hch Hx E. destruct st as [|cur st]; [done|]. simpl in E.
  destruct (A !! cur) as [[k l|]|] eqn:Hcur; [|done..]. destruct (may cur) eqn:Hm; [|done]. cbn [negb] in E.
  case_bool_decide; [injection E as -> _; congruence|]. case_bool_decide.
  - injection E as E. destruct st as [|p st]; simpl in E; [injection E as -> _; congruence|]. injection E as -> _.
    destruct Hch as (_ & (k' & l' & nm & Hp & _) & _). congruence.
  - destruct (entry_named comp l) as [y|] eqn:En; [|done]. injection E as -> _. apply entry_named_some in En.
    by exists cur, k, l.
Qed.

(** The directory lets only its owner search, and the task is somebody else
    without the capabilities to override that. *)
Definition closed_to (t : task) (i : inode) : Prop :=
  fsuid t ≠ i_uid i ∧ has_flag (Z.shiftr (i_mode i) 3) MAY_EXEC = false ∧ has_flag (i_mode i) MAY_EXEC = false ∧
  cap_dac_override t = false ∧ cap_dac_read_search t = false.

Definition closed_above (A : atree) (s : kstate) (x : ptr) : Prop :=
  ∀ p k l name d i, A !! p = Some (ADir k l) → (name, x) ∈ l → dentries s !! p = Some d →
    inodes s !! d_inode d = Some i → closed_to (current s) i.

Lemma closed_to_exec t i : closed_to t i → may_exec t i = - EACCES.
Proof.
  intros (H1 & H2 & H3 & H4 & H5). unfold may_exec, check_mode, check_capabilities.
  rewrite (proj2 (Z.eqb_neq _ _) H1), H4, H5, !andb_false_r.
  assert (∀ v, has_flag v MAY_EXEC = false → 
    (Z.land (Z.land v MAY_EXEC) (Z.lor MAY_READ (Z.lor MAY_WRITE MAY_EXEC)) =? MAY_EXEC) = false) as Hno.
  { intros v Hv. unfold has_flag in Hv. apply negb_false_iff, Z.eqb_eq in Hv. by rewrite Hv. }
  destruct (in_group_p t (i_gid i)); [by rewrite (Hno _ H2)|by rewrite (Hno _ H3)].
Qed.

Section closed.
Context (dext iext : refs) (sb root : ptr) (A : atree) (m : ptr) (s : kstate) (cwd : list ptr) (path : bytes).
Context (x : ptr) (md : Z) (fops : file_operations).
Hypothesis Hw : walkable dext iext sb root A m s.
Hypothesis Hcwd : cwd_ok A root m cwd (current s).
Hypothesis Hx : A !! x = Some (AFile md fops).
Hypothesis Hclosed : closed_above A s x.

Lemma closed_search p k l name : A !! p = Some (ADir k l) → (name, x) ∈ l → search s p = false.
Proof.
  intros Hp Hin. destruct (walk_object _ _ _ _ _ _ _ Hw _ _ Hp) as (d & i & [Hnode _ _ _ _ _ _ _]).
  rewrite (search_node _ _ _ _ _ Hnode). destruct Hnode as [N1 _ N3 _ _ _].
  by rewrite (closed_to_exec _ _ (Hclosed _ _ _ _ _ _ Hp Hin N1 N3)).
Qed.

Lemma start_dir : ∃ p st k l, start root cwd path = p :: st ∧ A !! p = Some (ADir k l).
Proof.
  unfold start. destruct (head_byte path =? 47).
  - destruct (wk_root _ _ _ _ _ _ _ Hw) as (k & l & Hr). by exists root, [], k, l.
  - destruct (cw_dir _ _ _ _ _ Hcwd) as (p & anc & k & l & -> & Hp & _). by exists p, anc, k, l.
Qed.

Lemma closed_target : target (λ _, true) root A cwd path = inr x → target (search s) root A cwd path = inl EACCES.
Proof.
  unfold target. intros E. destruct (aresolve_restrict (search s) A (start root cwd path) (names_of path)) as [->|Er]; [done|].
  exfalso. destruct (aresolve (λ _, true) A (start root cwd path) (names_of path)) as [|[|y anc]]; [done..|].
  simpl in E. case_match; [done|]. injection E as ->. destruct (names_of path) as [|comp init _] using rev_ind.
  - destruct start_dir as (p & st & k & l & Es & Hp). rewrite Es in Er. injection Er as -> _. congruence.
  - rewrite aresolve_app in Er. destruct (aresolve (search s) A (start root cwd path) init) as [|st] eqn:Ei; [done|].
    cbn [aresolve] in Er. destruct (astep (search s) A st comp) as [|st'] eqn:Ea; [done|]. injection Er as ->.
    assert (chained A root st) as Hch.
    { eapply aresolve_chained; [exact Hw|exact (start_chained _ _ _ _ _ _ _ _ Hw Hcwd path)|exact Ei]. }
    destruct (astep_file _ _ _ _ _ _ _ _ _ Hch Hx Ea) as (p & k & l & Hp & Hin & Hs).
    rewrite (closed_search _ _ _ _ Hp Hin) in Hs. done.
Qed.
End closed.

(** C33: who cannot use the files of the module.  The module makes its directories
    with the mode 0744: everybody may read them, but only the owner may search
    them.  Let a file lie in directories that only the owner may search.  A task
    that is not the owner and has neither CAP_DAC_OVERRIDE nor
    CAP_DAC_READ_SEARCH cannot reach it by any path of the tree: the walk, and
    open, whatever the mode of the file, return -EACCES and change nothing. *)
Theorem files_unreachable special cdev_put dext iext sb root A m s cwd path x md fops flags mode fl nd0 :
  walkable dext iext sb root A m s → cwd_ok A root m cwd (current s) → file_room sb s → path_ok path →
  A !! x = Some (AFile md fops) → closed_above A s x → target (λ _, true) root A cwd path = inr x →
  access_flags flags → has_flag fl LOOKUP_PARENT = false → has_flag fl LOOKUP_DIRECTORY = false →
  wp (path_lookup path fl nd0) (λ res t, fst res = - EACCES ∧ settled s t) s ∧
  wp (filp_open special cdev_put vendored_iop path flags mode) (λ f t, f = ERR_PTR (- EACCES) ∧ settled s t) s.
Proof.
  intros Hw Hc Hr Hp Hx Hcl Ht Hfl F1 F2. pose proof (closed_target _ _ _ _ _ _ _ _ _ _ _ _ Hw Hc Hx Hcl Ht) as E. split.
  - destruct Hp as [Hp1 Hp2]. eapply wp_mono; [by apply (wp_path_lookup dext iext sb root A m s cwd)|].
    intros res t [Hpost _]. unfold walk_target in Hpost. rewrite F1, F2, orb_false_r in Hpost.
    unfold target in E. by rewrite E in Hpost.
  - apply (wp_filp_open _ _ dext iext sb root A m s cwd Hw Hc Hr path flags Hp Hfl); try congruence.
    intros e t Ee Hst. by assert (e = EACCES) as -> by congruence.
Qed.
