(* ===== verification/CallSpec.v ===== *)
(** * The calls that take a path from user memory

    The calls of fs/stat.c and of the first half of fs/open.c on the mounted
    tree: the walk of a path that lies in user memory; what stat reports; the
    working directory; the credentials of access. *)

From S2P Require Import Prelude KString Kernel Links Inode InodeInv Dcache DcacheInv DcacheOps Walk.
From S2P Require Import Filesystems Super Mount SuperSpec Libfs LibfsSpec Groups Namei LookupSpec Attr Path Vfs Aufs.
From S2P Require Import Open Stat Calls AufsSpec AufsCreate AufsTree KernMount PathCount PathNames PathSpec VfsSpec.
From S2P Require Import PermSpec AufsFile OpenSpec.

(** ** Names in user memory *)

(** The string [path], ended by a NUL, lies at [a] inside user space. *)
Record user_string (um : gmap Z Z) (a : Z) (path : bytes) : Prop := mkUserString {
  us_bytes k c : (path ++ [0]) !! k = Some c → um !! (a + Z.of_nat k) = Some c;
  us_some : path ≠ [];
  us_short : Z.of_nat (length path) < PATH_MAX;
  us_inside : a + Z.of_nat (length path) < TASK_SIZE
}.

Lemma strncpy_string um path : ∀ a n,
  cstring path → (length path < n)%nat →
  (∀ k c, (path ++ [0]) !! k = Some c → um !! (a + Z.of_nat k) = Some c) →
  strncpy_from_user um a n = Some path.
Proof.
  induction path as [|c path IH]; intros a n Hc Hn Hb; (destruct n as [|n]; [simpl in Hn; lia|]); simpl.
  - pose proof (Hb 0%nat 0 eq_refl) as H0. rewrite Z.add_0_r in H0. by rewrite H0.
  - pose proof (Hb 0%nat c eq_refl) as H0. rewrite Z.add_0_r in H0. rewrite H0.
    apply Forall_cons in Hc as [Hc1 Hc]. rewrite (proj2 (Z.eqb_neq c 0)) by lia.
    rewrite (IH (a + 1) n); [done|done|simpl in Hn; lia|].
    intros k c' Hk. pose proof (Hb (S k) c' Hk) as H1. by replace (a + 1 + Z.of_nat k) with (a + Z.of_nat (S k)) by lia.
Qed.

Lemma wp_getname a path Q s :
  slab_fail s = [] → 0 < slab_next s → user_string (user_mem s) a path → cstring path →
  Q (inr path) (after_alloc s) → wp (getname a) Q s.
Proof.
  intros Hm Hpos [Hb Hne Hl Hi] Hc HQ. unfold getname. wp_step. apply wp_alloc; [done|].
  rewrite (proj2 (Z.eqb_neq (slab_next s) NULL)) by (unfold NULL; lia). unfold do_getname.
  rewrite Z.geb_leb, (proj2 (Z.leb_gt _ _)) by lia. wp_step. wp_step.
  assert (0 < Z.of_nat (length path)) as Hp by (destruct path; [done|simpl; lia]).
  set (len := if _ <? _ then _ else _).
  assert (Z.of_nat (length path) < len) as Hlen by (unfold len; case_match; lia).
  change (user_mem (after_alloc s)) with (user_mem s). rewrite (strncpy_string _ path); [|done|lia|done].
  rewrite (proj2 (Z.gtb_lt _ 0)) by lia. rewrite (proj2 (Z.ltb_lt _ _)) by lia. by wp_run.
Qed.

(** ** Where such a path leads *)

(** The object, where [dir] says whether it has to be a directory. *)
Definition reached (may : ptr → bool) (root : ptr) (A : atree) (cwd : list ptr) (path : bytes) (dir : bool) : Z + ptr :=
  atop A (trailing path || dir) (aresolve may A (start root cwd path) (names_of path)).

Lemma reached_target may root A cwd path : reached may root A cwd path false = target may root A cwd path.
Proof. unfold reached, target. by rewrite orb_false_r. Qed.

Section call.
Context (dext iext : refs) (sb root : ptr) (A : atree) (m : ptr) (s : kstate) (cwd : list ptr).
Hypothesis Hw : walkable dext iext sb root A m s.
Hypothesis Hcwd : cwd_ok A root m cwd (current s).
Hypothesis Hroom : slab_next s + SLAB_STEP ≤ u32 (-1000).
Context (name : Z) (path : bytes).
Hypothesis Hname : user_string (user_mem s) name path.
Hypothesis Hpath : path_ok path.

Let Ht := wk_tree _ _ _ _ _ _ _ Hw.
Let Hmem := ti_mem _ _ _ _ _ _ Ht.

Lemma walkable_alloc : walkable dext iext sb root A m (after_alloc s).
Proof.
  pose proof Hw as [_ Hl Hr Hd Hp Htp Hm0 Hm Hf Htop].
  split; try done.
  - exact (settled_tree _ _ _ _ _ _ _ Ht (after_alloc_settled _ Hmem)).
  - simpl. lia.
Qed.

Local Abbreviation reached := (reached (search s) root A cwd path).

Lemma wp_user_walk flags Q :
  has_flag flags LOOKUP_PARENT = false →
  (∀ e nd t, reached (has_flag flags LOOKUP_DIRECTORY) = inl e → walk_error e →
     settled s t → Q (- e, nd) t) →
  (∀ x n nd, reached (has_flag flags LOOKUP_DIRECTORY) = inr x → A !! x = Some n →
     (∃ anc, chained A root (x :: anc)) → nd_path nd = (m, x) → Q (0, nd) (held m x (after_alloc s))) →
  wp (__user_walk name flags) Q s.
Proof.
  intros Hf Herr Hok. destruct Hpath as [Hc Hs]. unfold __user_walk. wp_step.
  eapply wp_getname; [exact Hmem| |exact Hname|exact Hc|].
  { apply (ii_next _ _ (vi_inode _ _ _ (ti_vfs _ _ _ _ _ _ Ht))). }
  eapply wp_mono; [by apply (wp_path_lookup dext iext sb root A m (after_alloc s) cwd); [apply walkable_alloc|..]|].
  intros [e nd] t [Hpost _].
  assert (walk_target (search s) A flags (start root cwd path) path = reached (has_flag flags LOOKUP_DIRECTORY)) as Et.
  { unfold walk_target. by rewrite Hf. }
  change (search (after_alloc s)) with (search s) in Hpost. rewrite Et in Hpost. destruct (reached _) as [e'|x] eqn:E; simpl in Hpost.
  - destruct Hpost as [-> Hst]. apply Herr; [done|by eapply walk_target_error|].
    etrans; [apply (after_alloc_settled _ Hmem)|exact Hst].
  - destruct Hpost as (-> & Hnd & ->).
    destruct (walk_target_some _ _ _ _ _ _ _ _ _ _ _ Hw (start_chained _ _ _ _ _ _ _ _ Hw Hcwd path) Et) as [n Hx].
    apply (Hok x n nd); [done|done| |done]. by eapply walk_target_chain; [exact Hw|exact (start_chained _ _ _ _ _ _ _ _ Hw Hcwd path)|].
Qed.
End call.

(** ** stat *)

Lemma le_value_bytes n z : le_value (le_bytes n z) = z mod 256 ^ Z.of_nat n.
Proof.
  revert z. induction n as [|n IH]; intros z.
  { simpl. by rewrite Z.mod_1_r. }
  cbn [le_bytes le_value]. rewrite IH, Nat2Z.inj_succ, Z.pow_succ_r by lia.
  rewrite Z.rem_mul_r; [done|lia|]. apply Z.pow_pos_nonneg; lia.
Qed.

(** An integer of [n] bytes in user memory. *)
Definition user_field (um : gmap Z Z) (a n : Z) : Z := le_value (user_bytes um a n).

Lemma user_bytes_part um a src um' off n :
  written um a src um' → 0 ≤ off → 0 ≤ n → off + n ≤ Z.of_nat (length src) →
  user_bytes um' (a + off) n = take (Z.to_nat n) (drop (Z.to_nat off) src).
Proof.
  intros Hw Ho Hn Hl. apply list_eq. intros k. unfold user_bytes. rewrite list_lookup_fmap.
  destruct (decide (k < Z.to_nat n)%nat) as [Hk|Hk].
  - rewrite lookup_seq_lt by done. rewrite lookup_take_lt, lookup_drop by done. simpl.
    rewrite Hw, decide_True by lia. replace (Z.to_nat (a + off + Z.of_nat k - a)) with (Z.to_nat off + k)%nat by lia.
    destruct (src !! (Z.to_nat off + k)%nat) eqn:E; [done|]. apply lookup_ge_None in E. lia.
  - rewrite lookup_seq_ge by lia. simpl. symmetry. apply lookup_ge_None. rewrite length_take. lia.
Qed.

(** What the kernel collects about an inode. *)
Record attributes (i : inode) (b : super_block) (k : kstat) : Prop := mkAttributes {
  at_ino : st_ino k = i_ino i;
  at_dev : st_dev k = s_dev b;
  at_mode : st_mode k = i_mode i;
  at_nlink : st_nlink k = i_nlink i;
  at_uid : st_uid k = i_uid i;
  at_gid : st_gid k = i_gid i;
  at_rdev : st_rdev k = i_rdev i;
  at_size : st_size k = i_size i;
  at_times : st_atime k = i_atime i ∧ st_mtime k = i_mtime i ∧ st_ctime k = i_ctime i;
  at_blocks : i_blksize i ≠ 0 → st_blksize k = i_blksize i ∧ st_blocks k = i_blocks i
}.

Lemma wp_vfs_getattr mnt x d i b Q s :
  dentries s !! x = Some d → inodes s !! d_inode d = Some i → supers s !! i_sb i = Some b →
  (∀ k, attributes i b k → Q (0, k) s) → wp (vfs_getattr mnt x) Q s.
Proof.
  intros Hx Hi Hb HQ. unfold vfs_getattr, generic_fillattr. wp_go. simpl.
  destruct (i_blksize i =? 0) eqn:E; wp_go; apply HQ; split; try done.
  intros Hne. by apply Z.eqb_eq in E.
Qed.

(** The fields of struct stat64 that a program reads. *)
Record stat64_shows (um : gmap Z Z) (buf : Z) (i : inode) (b : super_block) : Prop := mkShows {
  s64_dev : user_field um buf 8 = new_encode_dev (s_dev b);
  s64_mode : user_field um (buf + 16) 4 = u32 (i_mode i);
  s64_nlink : user_field um (buf + 20) 4 = u32 (i_nlink i);
  s64_uid : user_field um (buf + 24) 4 = u32 (i_uid i);
  s64_gid : user_field um (buf + 28) 4 = u32 (i_gid i);
  s64_size : user_field um (buf + 44) 8 = i_size i mod 2 ^ 64;
  s64_mtime : user_field um (buf + 72) 4 = u32 (tv_sec (i_mtime i));
  s64_ino : user_field um (buf + 88) 8 = i_ino i mod 2 ^ 64
}.

Lemma stat64_length k : length (layout (stat64_fields k)) = 96%nat.
Proof. reflexivity. Qed.

Lemma stat64_written um buf k um' i b :
  written um buf (layout (stat64_fields k)) um' → attributes i b k → stat64_shows um' buf i b.
Proof.
  intros Hw [A1 A2 A3 A4 A5 A6 A7 A8 [_ [A9 _]] _].
  assert (∀ off n, 0 ≤ off → 0 ≤ n → off + n ≤ 96 → user_field um' (buf + off) n =
    le_value (take (Z.to_nat n) (drop (Z.to_nat off) (layout (stat64_fields k))))) as Hf.
  { intros off n H1 H2 H3. unfold user_field. f_equal. apply (user_bytes_part um); [done..|].
    by rewrite stat64_length. }
  assert (∀ z, le_value (le_bytes 4 z) = u32 z) as L4 by (intros z; apply le_value_bytes).
  assert (∀ z, le_value (le_bytes 8 z) = z mod 2 ^ 64) as L8 by (intros z; apply le_value_bytes).
  split.
  - rewrite <-(Z.add_0_r buf), Hf by lia. transitivity (le_value (le_bytes 8 (huge_encode_dev (st_dev k)))); [done|].
    rewrite L8, A2. apply Z.mod_small. pose proof (u32_range (Z.lor (Z.land (MINOR (s_dev b)) 255)
      (Z.lor (Z.shiftl (MAJOR (s_dev b)) 8) (Z.shiftl (clear_flag (MINOR (s_dev b)) 255) 12)))).
    unfold huge_encode_dev, new_encode_dev, two32 in *. lia.
  - rewrite Hf by lia. rewrite <-A3, <-L4. done.
  - rewrite Hf by lia. rewrite <-A4, <-L4. done.
  - rewrite Hf by lia. rewrite <-A5, <-L4. done.
  - rewrite Hf by lia. rewrite <-A6, <-L4. done.
  - rewrite Hf by lia. rewrite <-A8, <-L8. done.
  - rewrite Hf by lia. rewrite <-A9, <-L4. done.
  - rewrite Hf by lia. rewrite <-A1, <-L8. done.
Qed.

(** What the abstract tree says about these fields. *)
Definition node_stat (n : anode) (um : gmap Z Z) (buf : Z) : Prop :=
  match n with
  | ADir k _ => user_field um (buf + 20) 4 = u32 k
  | AFile mode _ => user_field um (buf + 16) 4 = u32 mode
  end.

Lemma wp_sys_stat64 dext iext sb root A m s cwd name path buf :
  walkable dext iext sb root A m s → cwd_ok A root m cwd (current s) →
  slab_next s + SLAB_STEP ≤ u32 (-1000) →
  user_string (user_mem s) name path → path_ok path → mapped (user_mem s) buf 96 →
  wp (sys_stat64 name buf) (λ r t,
    match target (search s) root A cwd path with
    | inl e => r = - e ∧ settled s t
    | inr x => r = 0 ∧ settled (s <| user_mem := user_mem t |>) t ∧
        (∀ a, ¬ (buf ≤ a < buf + 96) → user_mem t !! a = user_mem s !! a) ∧
        ∃ n d i b, A !! x = Some n ∧ node_stat n (user_mem t) buf ∧
          dentries s !! x = Some d ∧ inodes s !! d_inode d = Some i ∧ supers s !! sb = Some b ∧
          stat64_shows (user_mem t) buf i b
    end) s.
Proof.
  intros Hw Hc Hr Hn Hp Hm. pose proof (walkable_alloc _ _ _ _ _ _ _ Hw Hr) as Hwa.
  unfold sys_stat64, vfs_stat, user_path_walk. wp_step. wp_step.
  apply (wp_user_walk dext iext sb root A m s cwd Hw Hc Hr name path Hn Hp); [done|..];
    change (has_flag LOOKUP_FOLLOW LOOKUP_DIRECTORY) with false; rewrite reached_target.
  - intros e nd t -> He Hst. assert (- e ≠ 0) as E0 by (destruct (walk_error_neg _ He); lia).
    unfold stat_walked. rewrite (proj2 (Z.eqb_neq _ _) E0). wp_step. rewrite (proj2 (Z.eqb_neq _ _) E0). by wp_run.
  - intros x n nd -> Hx _ Hnd. injection Hnd as Hm' Hx'. unfold stat_walked. cbn [Z.eqb].
    destruct (walk_object _ _ _ _ _ _ _ Hw _ _ Hx) as (d & i & [[N1 _ N3 _ _ N6] Hsh _ _ _ _ _ _]).
    destruct (wk_type _ _ _ _ _ _ _ Hw) as (b & ty & Hb & _). rewrite <-N6 in Hb.
    pose proof (held_lookup m x (after_alloc s) x d N1) as Eh. rewrite decide_True in Eh by done.
    wp_step. rewrite Hm', Hx'. eapply (wp_vfs_getattr _ _ _ i b); [exact Eh|done|done|]. intros k Hk.
    wp_step. unfold nd_path. rewrite Hm', Hx'. apply (wp_release _ _ _ _ _ _ _ Hwa _ _ _ Hx). wp_step. cbn [Z.eqb].
    unfold cp_new_stat64. wp_step. unfold wp at 1, copy_to_user.
    destruct (copy_out_mapped (user_mem (after_alloc s)) buf (layout (stat64_fields k))) as (um & -> & Hwr).
    { rewrite stat64_length. exact Hm. }
    cbn [Z.eqb]. wp_run. pose proof (stat64_written _ _ _ _ _ _ Hwr Hk) as Hst. split_and!.
    + done.
    + exists (SLAB_STEP + slab_next s), (dentry_hashtable s). split_and!; [simpl; unfold SLAB_STEP; lia|done|].
      unfold after_alloc. kstate_eq. by rewrite (ti_mem _ _ _ _ _ _ (wk_tree _ _ _ _ _ _ _ Hw)).
    + intros a Ha. simpl. rewrite Hwr, stat64_length. by rewrite decide_False.
    + exists n, d, i, b. rewrite N6 in Hb. split_and!; try done.
      destruct n as [k' l|mode fops]; simpl.
      * destruct Hsh as (_ & _ & _ & <- & _). apply (s64_nlink _ _ _ _ Hst).
      * destruct Hsh as (<- & _). apply (s64_mode _ _ _ _ Hst).
Qed.

(** C10: what stat tells about the mounted tree.  For a path in user memory,
    [sys_stat64] ends without a fault and gives back every reference; it
    returns the error of the walk in the abstract tree and writes nothing, or
    returns 0 and the 96 bytes of the buffer hold the device, mode, link count,
    owner, size, time and number of the inode of the object that the path leads
    to, and with them the mode or the link count that the abstract tree says;
    no other byte of user memory and nothing else of the kernel changes. *)
Theorem stat_refines dext iext sb root A m s cwd name path buf :
  walkable dext iext sb root A m s → cwd_ok A root m cwd (current s) →
  slab_next s + SLAB_STEP ≤ u32 (-1000) →
  user_string (user_mem s) name path → path_ok path → mapped (user_mem s) buf 96 →
  wp (sys_stat64 name buf) (λ r t,
    match target (search s) root A cwd path with
    | inl e => r = - e ∧ settled s t
    | inr x => r = 0 ∧ settled (s <| user_mem := user_mem t |>) t ∧
        (∀ a, ¬ (buf ≤ a < buf + 96) → user_mem t !! a = user_mem s !! a) ∧
        ∃ n d i b, A !! x = Some n ∧ node_stat n (user_mem t) buf ∧
          dentries s !! x = Some d ∧ inodes s !! d_inode d = Some i ∧ supers s !! sb = Some b ∧
          stat64_shows (user_mem t) buf i b
    end) s.
Proof. apply wp_sys_stat64. Qed.

(** ** The working directory *)

Definition with_pwd (m x : ptr) (t : task) : task :=
  t <| task_fs ::= λ f, f <| fs_pwdmnt := m |> <| fs_pwd := x |> |>.

(** The reference of the working directory moved from [p] to [x]. *)
Definition pwd_moved (m p x : ptr) (s : kstate) : kstate :=
  adj x 1 (adj p (-1) (s <| current ::= with_pwd m x |>)).

(** Nothing of the tree depends on the rights of the task. *)
Lemma walkable_creds dext iext sb root A m s c :
  walkable dext iext sb root A m s → task_fs c = task_fs (current s) →
  walkable dext iext sb root A m (s <| current := c |>).
Proof.
  intros [[T1 T2 T3 T4 T5] Hl Hr Hd Hp Htp Hm0 Hm Hf Htop] Ec. split; try done; [|by simpl; rewrite Ec]. split; try done.
  - destruct T1 as [D I]. split; [by apply (dcache_inv_ext _ _ _ _ D)|by apply (inode_inv_ext _ _ _ _ I)].
  - intros y n Hy. destruct (T5 _ _ Hy) as (d & i & [N1 N2 N3 N4 N5 N6] & Hs). exists d, i.
    split; [by split|by destruct n].
Qed.

Lemma walkable_pwd dext iext sb root A m x s :
  walkable dext iext sb root A m s → walkable dext iext sb root A m (s <| current ::= with_pwd m x |>).
Proof.
  intros [[T1 T2 T3 T4 T5] Hl Hr Hd Hp Htp Hm0 Hm Hf Htop]. split; try done. split; try done.
  - destruct T1 as [D I]. split; [by apply (dcache_inv_ext _ _ _ _ D)|by apply (inode_inv_ext _ _ _ _ I)].
  - intros y n Hy. destruct (T5 _ _ Hy) as (d & i & [N1 N2 N3 N4 N5 N6] & Hs). exists d, i.
    split; [by split|by destruct n].
Qed.

Lemma wp_set_fs_pwd dext iext sb root A m p x n np Q s :
  walkable dext iext sb root A m s → A !! x = Some n → A !! p = Some np → 2 ≤ dext p →
  fs_pwd (task_fs (current s)) = p → fs_pwdmnt (task_fs (current s)) = m →
  Q tt (held m x (pwd_moved m p x s)) →
  wp (set_fs_pwd m x) Q (held m x s).
Proof.
  intros Hw Hx Hpp Hext E1 E2 HQ. pose proof (walkable_held _ _ _ _ _ _ _ _ _ Hw Hx) as Hwh.
  destruct (walk_object _ _ _ _ _ _ _ Hwh _ _ Hx) as (d & i & [[N1 N2 _ _ _ _] _ Hx0 _ _ _ _ _]).
  destruct (walk_object _ _ _ _ _ _ _ Hw _ _ Hpp) as (dp & ip & [[P1 _ _ _ _ _] _ Hp0 _ _ _ _ _]).
  destruct (wk_mnt _ _ _ _ _ _ _ Hw) as (mm & Hm & M1 & M2 & _). pose proof (wk_nonnull _ _ _ _ _ _ _ Hw) as Hm0.
  pose proof (dc_ok _ _ (vi_dcache _ _ _ (ti_vfs _ _ _ _ _ _ (wk_tree _ _ _ _ _ _ _ Hw))) _ _ P1) as Hok.
  unfold set_fs_pwd. wp_step. wp_step. wp_step.
  eapply (wp_mntget_adj m (mnt_recount 1 mm)); [done|simpl; by rewrite lookup_alter_eq, Hm|].
  wp_step. eapply wp_dget_adj; [done|exact N1|done|]. wp_step. wp_step.
  change (fs_pwd (task_fs (current (held m x s)))) with (fs_pwd (task_fs (current s))).
  change (fs_pwdmnt (task_fs (current (held m x s)))) with (fs_pwdmnt (task_fs (current s))).
  rewrite E1, E2, (proj2 (Z.eqb_neq _ _) Hp0). cbn [negb mwhen].
  set (s2 := s <| current ::= with_pwd m x |>).
  match goal with |- wp _ _ ?u => change u with (held m x (held m x s2)) end.
  wp_step. apply (wp_dput_adj p (if decide (p = x) then recount 1 (recount 1 dp) else dp)); [done| | |].
  - change (dentries (adj x 1 (adj x 1 s)) !! p = Some (if decide (p = x) then recount 1 (recount 1 dp) else dp)).
    case_decide; [subst; by rewrite !adj_lookup_eq, P1|by rewrite !adj_lookup_ne].
  - pose proof (do_count _ _ _ _ Hok). case_decide; simpl; lia.
  - eapply (wp_mntput_adj m (mnt_recount 1 (mnt_recount 1 mm))); [done| |done|simpl; lia|].
    + simpl. by rewrite !lookup_alter_eq, Hm.
    + assert (madj m (-1) (adj p (-1) (held m x (held m x s2))) = held m x (pwd_moved m p x s)) as ->; [|done].
      unfold held, pwd_moved. fold s2. rewrite !adj_madj, !madj_madj. apply (f_equal (madj m 1)).
      rewrite (adj_comm p x). f_equal. apply adj_comm.
Qed.

Lemma wp_sys_chdir dext iext sb root A m s p anc name path :
  walkable dext iext sb root A m s → cwd_ok A root m (p :: anc) (current s) →
  slab_next s + SLAB_STEP ≤ u32 (-1000) →
  user_string (user_mem s) name path → path_ok path → 2 ≤ dext p →
  wp (sys_chdir name) (λ r t,
    match enter (search s) (reached (search s) root A (p :: anc) path true) with
    | inl e => r = - e ∧ settled s t
    | inr x => r = 0 ∧ settled (pwd_moved m p x s) t ∧
        walkable (bump x 1 (bump p (-1) dext)) iext sb root A m t ∧
        ∃ anc', cwd_ok A root m (x :: anc') (current t)
    end) s.
Proof.
  intros Hw Hc Hr Hn Hp Hext. pose proof (walkable_alloc _ _ _ _ _ _ _ Hw Hr) as Hwa.
  unfold sys_chdir. wp_step.
  apply (wp_user_walk dext iext sb root A m s (p :: anc) Hw Hc Hr name path Hn Hp); [done|..];
    change (has_flag (Z.lor LOOKUP_FOLLOW LOOKUP_DIRECTORY) LOOKUP_DIRECTORY) with true.
  - intros e nd t -> He Hst. assert (- e ≠ 0) as E0 by (destruct (walk_error_neg _ He); lia).
    rewrite (proj2 (Z.eqb_neq _ _) E0). cbn [negb]. by wp_run.
  - intros x n nd E Hx [anc' Hch] Hnd. rewrite E. injection Hnd as Hm' Hx'. cbn [Z.eqb negb enter].
    assert (is_adir n = true) as Hdir.
    { unfold reached in E. rewrite orb_true_r in E. destruct (aresolve _ _ _ _) as [|[|y st]]; simpl in E; [done..|].
      destruct (from_option is_adir false (A !! y)) eqn:E'; simpl in E; [|done]. injection E as ->. by rewrite Hx in E'. }
    destruct n as [k l|]; [|done].
    destruct (walk_object _ _ _ _ _ _ _ Hwa _ _ Hx) as (d & i & [Hnode _ _ _ _ _ _ _]).
    pose proof Hnode as [N1 _ N3 _ _ _].
    pose proof (held_lookup m x (after_alloc s) x d N1) as Eh. rewrite decide_True in Eh by done.
    destruct Hc as [C1 (q & anc0 & k0 & l0 & [= <- <-] & Hq & Hpwd) Hpm Halt].
    rewrite Hx', Hm'. wp_step. wp_step; [exact Eh|]. wp_step. eapply wp_permission_exec; [exact N3|].
    change (search s x) with (search (after_alloc s) x). rewrite (search_node _ _ _ _ _ Hnode).
    change (current (held m x (after_alloc s))) with (current (after_alloc s)).
    destruct (may_exec_cases (current (after_alloc s)) i) as [He|He]; rewrite He; cbn [Z.eqb mwhen]; cbv iota.
    2: { change (- EACCES =? 0) with false. cbn [mwhen]. wp_run. unfold nd_path. rewrite Hx', Hm'.
      apply (wp_release _ _ _ _ _ _ _ Hwa _ _ _ Hx). wp_run. split; [done|]. apply after_alloc_settled, (ti_mem _ _ _ _ _ _ (wk_tree _ _ _ _ _ _ _ Hw)). }
    wp_step.
    eapply wp_set_fs_pwd; [exact Hwa|exact Hx|exact Hq|done|done|done|].
    assert (walkable (bump x 1 (bump p (-1) dext)) iext sb root A m (pwd_moved m p x (after_alloc s))) as Hwm.
    { destruct (walk_object _ _ _ _ _ _ _ Hwa _ _ Hq) as (dp & ip & [[P1 _ _ _ _ _] _ _ _ _ _ _ _]).
      pose proof (dc_ok _ _ (vi_dcache _ _ _ (ti_vfs _ _ _ _ _ _ (wk_tree _ _ _ _ _ _ _ Hwa))) _ _ P1) as Hok.
      eapply walkable_adj; [|exact Hx]. eapply walkable_recount; [by apply walkable_pwd|exact P1|lia|].
      rewrite (do_count _ _ _ _ Hok). lia. }
    wp_step. unfold nd_path. rewrite Hx', Hm'. apply (wp_release _ _ _ _ _ _ _ Hwm _ _ _ Hx). wp_run. split_and!.
    + done.
    + unfold pwd_moved. apply settled_adj, settled_adj.
      exists (SLAB_STEP + slab_next s), (dentry_hashtable s). split_and!; [simpl; unfold SLAB_STEP; lia|done|].
      unfold after_alloc. kstate_eq. by rewrite (ti_mem _ _ _ _ _ _ (wk_tree _ _ _ _ _ _ _ Hw)).
    + done.
    + exists anc'. split; [done| |done|done]. exists x, anc', k, l. done.
Qed.

(** C12: chdir refines the walk of the abstract tree to a directory that the task
    may search.  It returns the error of the walk, or -EACCES for a directory that
    it may not search, and changes nothing; or it returns 0 and the working
    directory is the directory that the path leads to, from where the next path
    starts; one reference moved from the old directory to the new one, the tree
    is the same and still walkable, and nothing else changed. *)
Theorem chdir_refines dext iext sb root A m s p anc name path :
  walkable dext iext sb root A m s → cwd_ok A root m (p :: anc) (current s) →
  slab_next s + SLAB_STEP ≤ u32 (-1000) →
  user_string (user_mem s) name path → path_ok path → 2 ≤ dext p →
  wp (sys_chdir name) (λ r t,
    match enter (search s) (reached (search s) root A (p :: anc) path true) with
    | inl e => r = - e ∧ settled s t
    | inr x => r = 0 ∧ settled (pwd_moved m p x s) t ∧
        walkable (bump x 1 (bump p (-1) dext)) iext sb root A m t ∧
        ∃ anc', cwd_ok A root m (x :: anc') (current t)
    end) s.
Proof. apply wp_sys_chdir. Qed.

(** ** access *)

(** An object of the tree as the attribute functions see it. *)
Record attr_object (x : ptr) (d : dentry) (i : inode) (b : super_block) (t : kstate) : Prop := mkAttrObject {
  ao_dentry : dentries t !! x = Some d;
  ao_inode : inodes t !! d_inode d = Some i;
  ao_null : d_inode d ≠ NULL;
  ao_super : supers t !! i_sb i = Some b
}.

Lemma wp_access_at x d i b mask t :
  attr_object x d i b t → 0 ≤ mask < 8 →
  wp (access_at x mask) (λ r t', (r = 0 ↔ granted (current t) i b mask) ∧ r ≤ 0 ∧ t' = t) t.
Proof.
  intros [H1 H2 H3 H4] Hm. destruct (check_mode_granted (current t) i mask Hm) as [Hg Hle].
  set (plain := S_ISREG (i_mode i) || S_ISDIR (i_mode i) || S_ISLNK (i_mode i)).
  set (ro := has_flag (s_flags b) MS_RDONLY).
  unfold access_at, IS_RDONLY. wp_step. wp_step; [exact H1|]. wp_step.
  apply (wp_permission_result _ i b); [exact H2|exact H4|done|]. unfold permission_result. fold plain ro. wp_go. fold ro. split; [|split; [|done]].
  - unfold granted. fold ro. change S_IWOTH with MAY_WRITE. rewrite <-Hg.
    pose proof (special_not_plain (i_mode i)) as Hsp. fold plain in Hsp.
    destruct (has_flag mask MAY_WRITE), ro, (IS_IMMUTABLE i), (special_file (i_mode i)); cbn [andb];
      try (rewrite Hsp by done); try (destruct plain); cbn [andb Z.eqb negb];
      destruct (Z.eqb_spec (check_mode (current t) i (class_bits (current t) i) mask) 0); cbn [andb];
      split; try (unfold EROFS, EACCES; lia); try naive_solver.
  - destruct (_ && _ && _ && _); [done|]. destruct (_ && _ && _); [done|]. by destruct (_ && _).
Qed.

Lemma restore_ids t : set_cap_effective (cap_effective t)
  ((real_ids t) <| fsuid := fsuid t |> <| fsgid := fsgid t |>) = t.
Proof. by destruct t. Qed.

Lemma wp_sys_access dext iext sb root A m s cwd name path mode :
  walkable dext iext sb root A m s → cwd_ok A root m cwd (current s) →
  slab_next s + SLAB_STEP ≤ u32 (-1000) →
  user_string (user_mem s) name path → path_ok path → 0 ≤ mode < 8 →
  wp (sys_access name mode) (λ r t, settled s t ∧
    match target (search (s <| current ::= real_ids |>)) root A cwd path with
    | inl e => r = - e
    | inr x => r ≤ 0 ∧ ∃ d i b, dentries s !! x = Some d ∧ inodes s !! d_inode d = Some i ∧ supers s !! i_sb i = Some b ∧
        (r = 0 ↔ granted (real_ids (current s)) i b mode)
    end) s.
Proof.
  intros Hws Hc Hr Hn Hp Hm. pose proof (walkable_creds _ _ _ _ _ _ _ (real_ids (current s)) Hws eq_refl) as Hw.
  change (s <| current := real_ids (current s) |>) with (s <| current ::= real_ids |>) in Hw.
  set (u := s <| current ::= real_ids |>) in *.
  pose proof (walkable_alloc _ _ _ _ _ _ _ Hw Hr) as Hwa.
  assert (cwd_ok A root m cwd (current u)) as Hcu by (by destruct Hc).
  assert (clear_flag mode S_IRWXO = 0) as Em.
  { unfold clear_flag. change S_IRWXO with (Z.ones 3). rewrite Z.ldiff_ones_r by lia. rewrite Z.shiftr_div_pow2 by lia.
    change (2 ^ 3) with 8. by rewrite Z.div_small. }
  assert (∀ t, settled u t → settled s (t <| current ::= λ c, set_cap_effective (cap_effective (current s))
    (c <| fsuid := fsuid (current s) |> <| fsgid := fsgid (current s) |>) |>)) as Hback.
  { intros t (n & h & Hn1 & Hh & ->). exists n, h. split_and!; [done|done|]. kstate_eq. apply restore_ids. }
  unfold sys_access. rewrite Em. cbn [Z.eqb negb]. wp_step. wp_step. wp_step. wp_step.
  match goal with |- wp _ _ ?v => change v with u end. wp_step.
  apply (wp_user_walk dext iext sb root A m u cwd Hw Hcu Hr name path Hn Hp); [done|..];
    change (has_flag (Z.lor LOOKUP_FOLLOW LOOKUP_ACCESS) LOOKUP_DIRECTORY) with false; rewrite reached_target.
  - intros e nd t -> He Hst. assert (- e ≠ 0) as E0 by (destruct (walk_error_neg _ He); lia).
    rewrite (proj2 (Z.eqb_neq _ _) E0). wp_run. split; [by apply Hback|done].
  - intros x n nd -> Hx _ Hnd. injection Hnd as Hm' Hx'. cbn [Z.eqb]. unfold nd_path. rewrite Hm', Hx'.
    destruct (walk_object _ _ _ _ _ _ _ Hw _ _ Hx) as (d & i & [[N1 _ N3 _ _ N6] _ _ _ _ _ _ Hi0]).
    destruct (wk_type _ _ _ _ _ _ _ Hw) as (b & ty & Hb & _). rewrite <-N6 in Hb.
    pose proof (held_lookup m x (after_alloc u) x d N1) as Eh. rewrite decide_True in Eh by done.
    wp_step. wp_step. eapply wp_mono; [apply (wp_access_at x (recount 1 d) i b); [by split|done]|].
    intros r t (Hg & Hr0 & ->). wp_step. apply (wp_release _ _ _ _ _ _ _ Hwa _ _ _ Hx). wp_run. split.
    + apply Hback, after_alloc_settled, (ti_mem _ _ _ _ _ _ (wk_tree _ _ _ _ _ _ _ Hw)).
    + split; [done|]. by exists d, i, b.
Qed.

(** C15: access answers for the real user and leaves no trace.  The call runs with
    the real ids and, for a real user other than root, without capabilities; on
    every path it gives the task its ids and capabilities back and gives back
    every reference.  It returns the error of the walk, in which the real user
    searches the directories, or 0 exactly if the
    permission bits of the real user's class or the capabilities of those
    credentials grant the mode, and a write is not asked of an immutable inode
    or of a file on a read-only file system. *)
Theorem access_real dext iext sb root A m s cwd name path mode :
  walkable dext iext sb root A m s → cwd_ok A root m cwd (current s) →
  slab_next s + SLAB_STEP ≤ u32 (-1000) →
  user_string (user_mem s) name path → path_ok path → 0 ≤ mode < 8 →
  wp (sys_access name mode) (λ r t, settled s t ∧
    match target (search (s <| current ::= real_ids |>)) root A cwd path with
    | inl e => r = - e
    | inr x => r ≤ 0 ∧ ∃ d i b, dentries s !! x = Some d ∧ inodes s !! d_inode d = Some i ∧ supers s !! i_sb i = Some b ∧
        (r = 0 ↔ granted (real_ids (current s)) i b mode)
    end) s.
Proof. apply wp_sys_access. Qed.
