(* ===== verification/AttrSpec.v ===== *)
(** * Who may change attributes, and how

    chmod, chown, lchown and utime on the mounted tree.  Each walks to an object,
    changes the record of its inode or refuses to, and lets the object go. *)

From S2P Require Import Prelude KString Kernel Links Inode InodeInv Dcache DcacheInv DcacheOps Walk.
From S2P Require Import Filesystems Super Mount SuperSpec Libfs LibfsSpec Groups Namei LookupSpec Attr Path Vfs Aufs.
From S2P Require Import Open Stat Calls AufsSpec AufsCreate AufsTree KernMount PathCount PathNames PathSpec VfsSpec.
From S2P Require Import PermSpec AufsFile OpenSpec CallSpec.

Inductive attr_call : Type :=
  | Chmod (name mode : Z)
  | Chown (name user group : Z)
  | Lchown (name user group : Z)
  | Utime (name times : Z).

Definition run_attr (c : attr_call) : KM Z :=
  match c with
  | Chmod name mode => sys_chmod name mode
  | Chown name user group => sys_chown name user group
  | Lchown name user group => sys_lchown name user group
  | Utime name times => sys_utime name times
  end.

Definition attr_name (c : attr_call) : Z :=
  match c with Chmod n _ | Chown n _ _ | Lchown n _ _ | Utime n _ => n end.

(** The call asks for a change: an id that is -1 stays, and without times utime
    takes the clock. *)
Definition asks (c : attr_call) : Prop :=
  match c with
  | Chmod _ _ => True
  | Chown _ user group | Lchown _ user group => user ≠ u32 (-1) ∨ group ≠ u32 (-1)
  | Utime _ times => times ≠ NULL
  end.

(** A task that neither owns the inode nor has the capabilities. *)
Definition stranger (t : task) (i : inode) : Prop :=
  fsuid t ≠ i_uid i ∧ cap_chown t = false ∧ cap_fowner t = false.

(** ** Another record for an inode *)

Definition set_ino (x : ptr) (i : inode) (s : kstate) : kstate := s <| inodes ::= <[x := i]> |>.

Lemma set_ino_id x i s : inodes s !! x = Some i → set_ino x i s = s.
Proof. intros H. unfold set_ino. kstate_eq. by apply insert_id. Qed.

Lemma set_ino_settled x i s : slab_fail s = [] → settled (set_ino x i s) (set_ino x i (after_alloc s)).
Proof.
  intros Hf. exists (SLAB_STEP + slab_next s), (dentry_hashtable s).
  split_and!; [simpl; unfold SLAB_STEP; lia|done|]. unfold set_ino, after_alloc. kstate_eq. by rewrite Hf.
Qed.

(** The type of an inode, in its mode. *)
Definition type_of (mode : Z) : Z := Z.land mode S_IFMT.

(** An inode changes in its attributes and keeps its place and its type. *)
Record same_inode (i i' : inode) : Prop := mkSameInode {
  si_hash : i_hash i' = i_hash i;
  si_list : i_list i' = i_list i;
  si_sb_list : i_sb_list i' = i_sb_list i;
  si_dentry : i_dentry i' = i_dentry i;
  si_count : i_count i' = i_count i;
  si_nlink : i_nlink i' = i_nlink i;
  si_sb : i_sb i' = i_sb i;
  si_op : i_op i' = i_op i;
  si_fop : i_fop i' = i_fop i;
  si_type : type_of (i_mode i') = type_of (i_mode i);
  si_state : has_flag (i_state i') I_BUSY = false;
  si_flags : i_flags i' = i_flags i;
  si_cdev : i_cdev i' = i_cdev i;
  si_writers : i_writecount i' = i_writecount i
}.

Lemma same_inode_refl i : has_flag (i_state i) I_BUSY = false → same_inode i i.
Proof. by split. Qed.

(** What the tree shows then. *)
Definition remode (mode : Z) (n : anode) : anode :=
  match n with ADir k l => ADir k l | AFile _ fops => AFile mode fops end.

Section set_inode.
Context (dext iext : refs) (sb root : ptr) (A : atree) (m : ptr) (s : kstate).
Context (x : ptr) (n : anode) (d : dentry) (i i' : inode).
Hypothesis Hw : walkable dext iext sb root A m s.
Hypothesis Hx : A !! x = Some n.
Hypothesis Hd : dentries s !! x = Some d.
Hypothesis Hi : inodes s !! d_inode d = Some i.
Hypothesis Hs : same_inode i i'.

Lemma remode_dir p k l : <[x := remode (i_mode i') n]> A !! p = Some (ADir k l) ↔ A !! p = Some (ADir k l).
Proof.
  destruct (decide (p = x)) as [->|Hne]; [|by rewrite lookup_insert_ne].
  rewrite lookup_insert_eq, Hx. by destruct n.
Qed.

Lemma set_inode_vfs : vfs_inv dext iext (set_ino (d_inode d) i' s).
Proof.
  destruct (ti_vfs _ _ _ _ _ _ (wk_tree _ _ _ _ _ _ _ Hw)) as [D I]. destruct Hs as [S1 S2 S3 S4 S5 S6 S7 S8 S9 S10 S11 _ _ _]. split.
  - apply (dcache_inv_ext _ _ _ _ D); try done. split; try done. intros y. unfold aliases. simpl.
    map_cases; [by rewrite Hi|done].
  - apply (inode_inv_set iext iext s _ (d_inode d) i i'); try done.
    destruct (ii_ok _ _ I _ _ Hi) as [O1 O2 O3 O4 O5 O6]. split; rewrite ?S1, ?S3, ?S4, ?S5, ?S7; done.
Qed.

Lemma set_inode_node y n' :
  <[x := remode (i_mode i') n]> A !! y = Some n' →
  ∃ e j, node_at (set_ino (d_inode d) i' s) sb y e j ∧ shows any_inode (set_ino (d_inode d) i' s) y e j n'.
Proof.
  pose proof (ti_node _ _ _ _ _ _ (wk_tree _ _ _ _ _ _ _ Hw)) as T5. destruct Hs as [S1 S2 S3 S4 S5 S6 S7 S8 S9 S10 S11 _ _ _].
  destruct (T5 _ _ Hx) as (e & j & [N1 N2 N3 N4 N5 N6] & Hsh).
  assert (e = d) as -> by congruence. assert (j = i) as -> by congruence. destruct (decide (y = x)) as [->|Hyx].
  - rewrite lookup_insert_eq. intros [= <-]. exists d, i'. split.
    { split; try done; simpl; [by rewrite lookup_insert_eq|congruence..]. }
    destruct n as [k l|md f]; simpl in *.
    + destruct Hsh as (E1 & [E2 E2m] & _ & E4 & E5 & E6). split_and!; try congruence; [|done..].
      unfold S_ISDIR, type_of in *. by rewrite S10.
    + destruct Hsh as (E1 & E2 & E3 & E4). split_and!; congruence.
  - rewrite lookup_insert_ne by done. intros Hy. destruct (T5 _ _ Hy) as (e & j & [M1 M2 M3 M4 M5 M6] & Hsy).
    assert (d_inode e ≠ d_inode d) as Hine.
    { intros E. rewrite E in M3. assert (j = i) as -> by congruence. rewrite N4 in M4. by injection M4. }
    exists e, j. split; [split; try done; simpl; by rewrite lookup_insert_ne|by destruct n'].
Qed.

Lemma walkable_set_inode :
  walkable dext iext sb root (<[x := remode (i_mode i') n]> A) m (set_ino (d_inode d) i' s).
Proof.
  pose proof Hw as [Ht Hl (kr & lr & Hr) Hdirs Hp Htp Hm0 Hm Hf Htop]. pose proof Ht as [_ T2 T3 T4 _]. split; try done.
  - split; try done; [exact set_inode_vfs|exact set_inode_node].
  - exists kr, lr. by apply remode_dir.
  - intros p k l Hpl%remode_dir. destruct (Hdirs _ _ _ Hpl) as [Hnd He]. split; [done|].
    intros nm y Hy. destruct (He _ _ Hy) as [Hsome Hyr]. split; [|done]. by apply lookup_insert_is_Some'; right.
  - intros y n' e. destruct (decide (y = x)) as [->|Hyx]; [intros _ He; exact (Hp _ _ _ Hx He)|].
    rewrite lookup_insert_ne by done. apply Hp.
Qed.
End set_inode.

(** ** The shape of the calls *)

Section walk_act.
Context (dext iext : refs) (sb root : ptr) (A : atree) (m : ptr) (s : kstate) (cwd : list ptr).
Hypothesis Hw : walkable dext iext sb root A m s.
Hypothesis Hcwd : cwd_ok A root m cwd (current s).
Hypothesis Hroom : slab_next s + SLAB_STEP ≤ u32 (-1000).
Context (name : Z) (path : bytes).
Hypothesis Hname : user_string (user_mem s) name path.
Hypothesis Hpath : path_ok path.

(** What [act] does to the object [x]: it leaves the record [i'] of the inode. *)
Definition acted (Q : Z → kstate → Prop) (x : ptr) (n : anode) (d : dentry) (i : inode) (r : Z) (t : kstate) : Prop :=
  ∃ i', same_inode i i' ∧ t = set_ino (d_inode d) i' (held m x (after_alloc s)) ∧
    (walkable dext iext sb root (<[x := remode (i_mode i') n]> A) m (set_ino (d_inode d) i' (after_alloc s)) →
     Q r (set_ino (d_inode d) i' (after_alloc s))).

Lemma wp_walk_act flags act (Q : Z → kstate → Prop) :
  has_flag flags LOOKUP_PARENT = false → has_flag flags LOOKUP_DIRECTORY = false →
  (∀ e t, target (search s) root A cwd path = inl e → walk_error e → settled s t → Q (- e) t) →
  (∀ x n d i b, target (search s) root A cwd path = inr x → A !! x = Some n →
     attr_object x d i b s → has_flag (i_state i) I_BUSY = false →
     attr_object x (recount 1 d) i b (held m x (after_alloc s)) →
     wp (act x) (acted Q x n d i) (held m x (after_alloc s))) →
  wp ('(error, nd) ← __user_walk name flags;
      if negb (error =? 0) then mret error
      else error ← act (nd_dentry nd); path_release (nd_path nd) ;; mret error) Q s.
Proof.
  intros F1 F2 Herr Hact. pose proof (walkable_alloc _ _ _ _ _ _ _ Hw Hroom) as Hwa.
  wp_step. apply (wp_user_walk dext iext sb root A m s cwd Hw Hcwd Hroom name path Hname Hpath); [done|..];
    rewrite F2, reached_target.
  - intros e nd t E He Hst. destruct (walk_error_neg _ He) as [E0 _].
    rewrite (proj2 (Z.eqb_neq _ _)) by lia. cbn [negb]. wp_run. by apply Herr.
  - intros x n nd E Hx _ Hnd. injection Hnd as Hm' Hx'. cbn [Z.eqb negb]. unfold nd_path. rewrite Hm', Hx'.
    destruct (walk_object _ _ _ _ _ _ _ Hw _ _ Hx) as (d & i & [[N1 _ N3 _ _ N6] _ _ _ _ _ _ Hi0]).
    destruct (wk_type _ _ _ _ _ _ _ Hw) as (b & ty & Hb & _). rewrite <-N6 in Hb.
    pose proof (held_lookup m x (after_alloc s) x d N1) as Eh. rewrite decide_True in Eh by done.
    pose proof (io_state _ _ _ (ii_ok _ _ (vi_inode _ _ _ (ti_vfs _ _ _ _ _ _ (wk_tree _ _ _ _ _ _ _ Hw))) _ _ N3)) as Hbusy.
    wp_step. eapply wp_mono; [by apply (Hact x n d i b)|]. intros r t (i' & Hs & -> & HQ).
    pose proof (walkable_set_inode _ _ _ _ _ _ _ _ _ _ _ _ Hwa Hx N1 N3 Hs) as Hw'. specialize (HQ Hw').
    change (set_ino (d_inode d) i' (held m x (after_alloc s))) with (held m x (set_ino (d_inode d) i' (after_alloc s))).
    wp_step. eapply (wp_release _ _ _ _ _ _ _ Hw'); [by rewrite lookup_insert_eq|]. by wp_run.
Qed.

(** A refusal. *)
Lemma acted_none (Q : Z → kstate → Prop) x n d i b r :
  attr_object x d i b s → has_flag (i_state i) I_BUSY = false → (∀ t, settled s t → Q r t) →
  acted Q x n d i r (held m x (after_alloc s)).
Proof.
  intros [H1 H2 H3 H4] Hb HQ. exists i. split; [by apply same_inode_refl|]. rewrite !set_ino_id by done. split; [done|].
  intros _. apply HQ, after_alloc_settled, (ti_mem _ _ _ _ _ _ (wk_tree _ _ _ _ _ _ _ Hw)).
Qed.

(** A change. *)
Lemma acted_some (Q : Z → kstate → Prop) x n d i i' r t :
  same_inode i i' → t = set_ino (d_inode d) i' (held m x (after_alloc s)) →
  (∀ t, settled (set_ino (d_inode d) i' s) t → walkable dext iext sb root (<[x := remode (i_mode i') n]> A) m t → Q r t) →
  acted Q x n d i r t.
Proof.
  intros Hs Et HQ. exists i'. split_and!; [done|done|]. intros Hw'. apply HQ; [|done].
  apply set_ino_settled, (ti_mem _ _ _ _ _ _ (wk_tree _ _ _ _ _ _ _ Hw)).
Qed.
End walk_act.

(** ** Flags and types *)

Lemma flag_lor_other v g f : Z.land g f = 0 → has_flag (Z.lor v g) f = has_flag v f.
Proof. intros H. unfold has_flag. by rewrite Z.land_lor_distr_l, H, Z.lor_0_r. Qed.

Lemma flag_clear_other v g f : Z.land g f = 0 → has_flag (clear_flag v g) f = has_flag v f.
Proof.
  intros H. unfold has_flag, clear_flag. do 2 f_equal. apply Z.bits_inj'. intros n Hn.
  apply (f_equal (λ z, Z.testbit z n)) in H. rewrite Z.land_spec, Z.bits_0 in H.
  rewrite !Z.land_spec, Z.ldiff_spec. by destruct (Z.testbit v n), (Z.testbit g n), (Z.testbit f n).
Qed.

Lemma lor_absorb a b : Z.land a b = b → Z.lor a b = a.
Proof.
  intros H. apply Z.bits_inj'. intros n Hn. apply (f_equal (λ z, Z.testbit z n)) in H.
  rewrite Z.land_spec in H. rewrite Z.lor_spec. by destruct (Z.testbit a n), (Z.testbit b n).
Qed.

Lemma busy_flag v f : has_flag v I_BUSY = false → Z.land f I_BUSY = f → has_flag v f = false.
Proof.
  unfold has_flag. rewrite !negb_false_iff, !Z.eqb_eq. intros H <-.
  by rewrite (Z.land_comm f), Z.land_assoc, H.
Qed.

Lemma type_bit n : Z.testbit S_IFMT n = bool_decide (12 ≤ n < 16).
Proof.
  change S_IFMT with (Z.shiftl (Z.ones 4) 12). destruct (decide (0 ≤ n)) as [Hn|Hn].
  - rewrite Z.shiftl_spec by done. destruct (decide (12 ≤ n)) as [H12|H12].
    + destruct (decide (n < 16)); [rewrite Z.ones_spec_low by lia|rewrite Z.ones_spec_high by lia].
      * symmetry. apply bool_decide_eq_true_2. lia.
      * symmetry. apply bool_decide_eq_false_2. lia.
    + rewrite Z.testbit_neg_r by lia. symmetry. apply bool_decide_eq_false_2. lia.
  - rewrite Z.testbit_neg_r by lia. symmetry. apply bool_decide_eq_false_2. lia.
Qed.

Lemma type_clear mode g : Z.land g S_IFMT = 0 → type_of (clear_flag mode g) = type_of mode.
Proof.
  intros H. unfold type_of, clear_flag. apply Z.bits_inj'. intros k Hk.
  apply (f_equal (λ z, Z.testbit z k)) in H. rewrite Z.land_spec, Z.bits_0 in H.
  rewrite !Z.land_spec, Z.ldiff_spec. by destruct (Z.testbit mode k), (Z.testbit g k), (Z.testbit S_IFMT k).
Qed.

Lemma type_u16 mode : type_of (u16 mode) = type_of mode.
Proof.
  apply Z.bits_inj'. intros k Hk. unfold type_of. rewrite !Z.land_spec, type_bit.
  case_bool_decide as Hr; [|by rewrite !andb_false_r]. unfold u16. change 65536 with (2 ^ 16).
  by rewrite Z.mod_pow2_bits_low by lia.
Qed.

(** A type with other permissions. *)
Lemma type_perms mode perms : type_of (Z.lor (Z.land perms S_IALLUGO) (clear_flag mode S_IALLUGO)) = type_of mode.
Proof.
  unfold type_of. rewrite Z.land_lor_distr_l, <-Z.land_assoc. change (Z.land S_IALLUGO S_IFMT) with 0.
  rewrite Z.land_0_r, Z.lor_0_l. by apply type_clear.
Qed.

(** ** notify_change *)

(** The attributes after [notify_change] filled in times and modes. *)
Definition prepared (now : Z) (i : inode) (attr : iattr) : iattr :=
  let attr := attr <| ia_ctime := now |> in
  let attr := if negb (has_flag (ia_valid attr) ATTR_ATIME_SET) then attr <| ia_atime := now |> else attr in
  let attr := if negb (has_flag (ia_valid attr) ATTR_MTIME_SET) then attr <| ia_mtime := now |> else attr in
  snd (kill_sgid (i_mode i) (kill_suid (i_mode i) (ia_valid attr, attr))).

Lemma wp_notify_change x d i b attr Q t :
  attr_object x d i b t →
  (let a := prepared (timespec_trunc (current_time t) (s_time_gran b)) i attr in
   if ia_valid a =? 0 then Q 0 t
   else let '(error, a) := inode_change_ok (current t) i a in
        if negb (error =? 0) then Q error t else wp (inode_setattr (d_inode d) a) Q t) →
  wp (notify_change x attr) Q t.
Proof.
  intros [H1 H2 H3 H4] HQ. unfold notify_change, current_fs_time, CURRENT_TIME. wp_go.
  wp_bug; [by apply Z.eqb_neq|]. wp_go. unfold prepared in HQ. cbv zeta in HQ.
  destruct (kill_sgid _ _) as [v a]. cbn [snd] in HQ. destruct (ia_valid a =? 0); [by wp_run|].
  cbn [iop_setattr]. wp_run. destruct (inode_change_ok (current t) i a) as [error a'].
  destruct (negb (error =? 0)); [by wp_run|done].
Qed.

Lemma stranger_mode t i a : stranger t i → ia_valid a = Z.lor ATTR_MODE ATTR_CTIME →
  fst (inode_change_ok t i a) = - EPERM.
Proof.
  intros (H1 & H2 & H3) E. unfold inode_change_ok. rewrite E, H3, (proj2 (Z.eqb_neq _ _) H1). done.
Qed.

Lemma stranger_times t i a : stranger t i →
  ia_valid a = Z.lor (Z.lor ATTR_CTIME (Z.lor ATTR_MTIME ATTR_ATIME)) (Z.lor ATTR_ATIME_SET ATTR_MTIME_SET) →
  fst (inode_change_ok t i a) = - EPERM.
Proof.
  intros (H1 & H2 & H3) E. unfold inode_change_ok. rewrite E, H3, (proj2 (Z.eqb_neq _ _) H1). done.
Qed.

Lemma stranger_ids t i a : stranger t i → has_flag (ia_valid a) ATTR_FORCE = false →
  has_flag (ia_valid a) ATTR_UID = true ∨ has_flag (ia_valid a) ATTR_GID = true →
  fst (inode_change_ok t i a) = - EPERM.
Proof.
  intros (H1 & H2 & H3) Ef E. unfold inode_change_ok. rewrite Ef, H2, (proj2 (Z.eqb_neq _ _) H1). cbn [negb orb].
  rewrite !andb_true_r. destruct (has_flag (ia_valid a) ATTR_UID); [done|]. destruct E as [E|E]; [done|]. by rewrite E.
Qed.

Lemma wp_notify_refused x d i b attr t :
  attr_object x d i b t →
  (∀ now, ia_valid (prepared now i attr) ≠ 0 ∧ fst (inode_change_ok (current t) i (prepared now i attr)) = - EPERM) →
  wp (notify_change x attr) (λ r t', r < 0 ∧ t' = t) t.
Proof.
  intros Ho Ha. eapply wp_notify_change; [exact Ho|]. cbv zeta.
  destruct (Ha (timespec_trunc (current_time t) (s_time_gran b))) as [H1 H2].
  rewrite (proj2 (Z.eqb_neq _ _) H1). destruct (inode_change_ok _ _ _) as [e a]. simpl in H2. by subst.
Qed.

Lemma kill_suid_flag f mode v a :
  Z.land ATTR_MODE f = 0 → Z.land ATTR_KILL_SUID f = 0 →
  has_flag (ia_valid (snd (kill_suid mode (v, a)))) f = has_flag (ia_valid a) f.
Proof.
  intros H1 H2. unfold kill_suid. destruct (has_flag v _); [|done]. destruct (has_flag mode _); [|by apply flag_clear_other].
  destruct (negb _); simpl; [|by apply flag_clear_other]. rewrite flag_lor_other by done. by apply flag_clear_other.
Qed.

Lemma kill_sgid_flag f mode v a :
  Z.land ATTR_MODE f = 0 → Z.land ATTR_KILL_SGID f = 0 →
  has_flag (ia_valid (snd (kill_sgid mode (v, a)))) f = has_flag (ia_valid a) f.
Proof.
  intros H1 H2. unfold kill_sgid. destruct (has_flag v _); [|done]. destruct (_ =? _); [|by apply flag_clear_other].
  destruct (negb _); simpl; [|by apply flag_clear_other]. rewrite flag_lor_other by done. by apply flag_clear_other.
Qed.

Lemma prepared_flag f now i attr :
  Z.land ATTR_MODE f = 0 → Z.land ATTR_KILL_SUID f = 0 → Z.land ATTR_KILL_SGID f = 0 →
  has_flag (ia_valid (prepared now i attr)) f = has_flag (ia_valid attr) f.
Proof.
  intros H1 H2 H3. unfold prepared. cbv zeta.
  match goal with |- context [kill_suid ?m ?p] => destruct (kill_suid m p) as [v a] eqn:E end.
  rewrite kill_sgid_flag by done. change a with (snd (v, a)). rewrite <-E, kill_suid_flag by done.
  f_equal. by repeat case_match.
Qed.

(** *** The change is made *)

Definition dirty (i : inode) : inode := i <| i_state ::= λ v, Z.lor v I_DIRTY |>.

Lemma not_busy_dirty v : has_flag v I_BUSY = false → has_flag (Z.lor v I_DIRTY) I_BUSY = false.
Proof. intros H. by rewrite flag_lor_other. Qed.

(** An inode that is not hashed stays on its list when it gets dirty. *)
Lemma wp_mark_dirty ino i b Q t :
  inodes t !! ino = Some i → supers t !! i_sb i = Some b → i_hash i = Unlinked →
  has_flag (i_state i) I_BUSY = false → S_ISBLK (i_mode i) = false →
  Q tt (t <| inodes ::= <[ino := i <| i_state ::= λ v, Z.lor v I_DIRTY |>]> |>) →
  wp (mark_inode_dirty ino) Q t.
Proof.
  intros Hi Hb Hh Hbusy Hblk HQ. unfold mark_inode_dirty, __mark_inode_dirty.
  change (has_flag I_DIRTY (Z.lor I_DIRTY_SYNC I_DIRTY_DATASYNC)) with true. cbv iota. wp_go. cbn [so_dirty_inode].
  destruct (Z.land (i_state i) I_DIRTY =? I_DIRTY) eqn:E; wp_go.
  - apply Z.eqb_eq, lor_absorb in E.
    assert (t <| inodes ::= <[ino := i <| i_state ::= λ v, Z.lor v I_DIRTY |>]> |> = t) as Et; [|by rewrite Et in HQ].
    kstate_eq. apply insert_id. rewrite Hi. f_equal. destruct i. unfold upd. simpl in *. by rewrite E.
  - assert (has_flag (Z.lor (i_state i) I_DIRTY) I_LOCK = false) as ->.
    { rewrite flag_lor_other by done. by apply busy_flag. }
    assert (i_unhashed i = true) as -> by (unfold i_unhashed; by rewrite Hh).
    rewrite Hblk. cbn [negb andb]. by wp_go.
Qed.

(** The clock of a file system. *)
Definition fs_now (s : kstate) (b : super_block) : Z := timespec_trunc (current_time s) (s_time_gran b).

Lemma trunc_trunc t g : timespec_trunc (timespec_trunc t g) g = timespec_trunc t g.
Proof.
  unfold timespec_trunc. destruct (Z.leb_spec g jiffy_ns) as [|Hg]; [done|]. unfold jiffy_ns in Hg.
  assert (0 < NSEC_PER_SEC) as HN by done. pose proof (Z.div_mod t NSEC_PER_SEC) as Ht.
  pose proof (Z.mod_pos_bound t NSEC_PER_SEC HN) as Hr. destruct (g =? NSEC_PER_SEC).
  - replace (t - t mod NSEC_PER_SEC) with (t / NSEC_PER_SEC * NSEC_PER_SEC) by lia. rewrite Z.mod_mul by lia. lia.
  - set (r := t mod NSEC_PER_SEC) in *. pose proof (Z.mod_pos_bound r g) as Hm. pose proof (Z.mod_le r g) as Hle.
    replace (t - r mod g) with (r - r mod g + t / NSEC_PER_SEC * NSEC_PER_SEC) at 2 by lia.
    rewrite Z.mod_add by lia. rewrite (Z.mod_small (r - r mod g)) by lia.
    replace ((r - r mod g) mod g) with 0; [lia|]. symmetry. rewrite Zminus_mod_idemp_r, Z.sub_diag. by apply Z.mod_0_l; lia.
Qed.

Lemma wp_inode_setattr ino i b a Q t :
  inodes t !! ino = Some i → supers t !! i_sb i = Some b → i_hash i = Unlinked →
  has_flag (i_state i) I_BUSY = false → has_flag (ia_valid a) ATTR_SIZE = false →
  let i' := setattr_fields (current t) (s_time_gran b) (ia_valid a) a i in
  S_ISBLK (i_mode i') = false → Q 0 (set_ino ino (dirty i') t) → wp (inode_setattr ino a) Q t.
Proof.
  intros H1 H2 Hh Hb Hsz i' Hblk HQ. unfold inode_setattr. wp_go. rewrite Hsz. wp_go. fold i'.
  assert (i_sb i' = i_sb i ∧ i_hash i' = i_hash i ∧ i_state i' = i_state i) as (E1 & E2 & E3).
  { unfold i', setattr_fields. by repeat case_match. }
  clearbody i'. eapply wp_mark_dirty; [simpl; by rewrite lookup_insert_eq|simpl; rewrite E1; exact H2|congruence|congruence|done|].
  wp_run. match goal with |- Q 0 ?v => assert (v = set_ino ino (dirty i') t) as ->; [|done] end.
  unfold set_ino. kstate_eq. by rewrite insert_insert_eq.
Qed.

(** What a change of attributes does to an inode. *)
Lemma setattr_same t g v a i :
  has_flag (i_state i) I_BUSY = false → (has_flag v ATTR_MODE = true → type_of (ia_mode a) = type_of (i_mode i)) →
  same_inode i (dirty (setattr_fields t g v a i)).
Proof.
  intros Hb Hm. pose proof (not_busy_dirty _ Hb) as Hd. unfold setattr_fields.
  destruct (has_flag v ATTR_MODE); [|repeat case_match; by split].
  specialize (Hm eq_refl). assert (∀ c : bool, type_of (u16 (if c then clear_flag (ia_mode a) S_ISGID else ia_mode a)) =
    type_of (i_mode i)) as Ht.
  { intros c. rewrite type_u16. destruct c; [|done]. by rewrite type_clear. }
  repeat case_match; (split; try done; apply (Ht true) || apply (Ht false)).
Qed.

Lemma wp_notify_done x d i b attr a Q t :
  attr_object x d i b t → i_hash i = Unlinked → has_flag (i_state i) I_BUSY = false → S_ISBLK (i_mode i) = false →
  ia_valid (prepared (fs_now t b) i attr) ≠ 0 →
  inode_change_ok (current t) i (prepared (fs_now t b) i attr) = (0, a) →
  has_flag (ia_valid a) ATTR_SIZE = false →
  (has_flag (ia_valid a) ATTR_MODE = true → type_of (ia_mode a) = type_of (i_mode i)) →
  Q 0 (set_ino (d_inode d) (dirty (setattr_fields (current t) (s_time_gran b) (ia_valid a) a i)) t) →
  wp (notify_change x attr) Q t.
Proof.
  intros Ho Hh Hb Hblk Hv Hok Hsz Hty HQ. pose proof Ho as [H1 H2 H3 H4]. eapply wp_notify_change; [exact Ho|].
  cbv zeta. fold (fs_now t b). rewrite (proj2 (Z.eqb_neq _ _) Hv), Hok. cbn [Z.eqb negb].
  eapply wp_inode_setattr; [exact H2|exact H4|done|done|done| |exact HQ].
  pose proof (si_type _ _ (setattr_same (current t) (s_time_gran b) (ia_valid a) a i Hb Hty)) as E.
  unfold S_ISBLK, type_of in *. simpl in E. by rewrite E.
Qed.

(** *** The owner changes the mode *)

(** The mode that chmod leaves: the type stays, and a task outside the group
    cannot set the setgid bit. *)
Definition chmod_mode (t : task) (i : inode) (mode : Z) : Z :=
  let mode := if mode =? u16 (-1) then i_mode i else mode in
  let mode := Z.lor (Z.land mode S_IALLUGO) (clear_flag (i_mode i) S_IALLUGO) in
  u16 (if negb (in_group_p t (i_gid i)) && negb (cap_fsetid t) then clear_flag mode S_ISGID else mode).

Definition chmod_inode (t : task) (now mode : Z) (i : inode) : inode :=
  dirty (i <| i_mode := chmod_mode t i mode |> <| i_ctime := now |>).

Lemma chmod_type t i mode : type_of (chmod_mode t i mode) = type_of (i_mode i).
Proof.
  unfold chmod_mode. rewrite type_u16. destruct (_ && _); [rewrite type_clear by done|]; apply type_perms.
Qed.

Lemma wp_chmod_at x d i b mode Q t :
  attr_object x d i b t → fsuid (current t) = i_uid i ∨ cap_fowner (current t) = true →
  has_flag (s_flags b) MS_RDONLY = false → IS_IMMUTABLE i || IS_APPEND i = false →
  i_hash i = Unlinked → has_flag (i_state i) I_BUSY = false → S_ISBLK (i_mode i) = false →
  Q 0 (set_ino (d_inode d) (chmod_inode (current t) (fs_now t b) mode i) t) →
  wp (chmod_at x mode) Q t.
Proof.
  intros Ho Hown Hro Hfl Hh Hb Hblk HQ. pose proof Ho as [H1 H2 H3 H4]. unfold chmod_at, IS_RDONLY. wp_go.
  rewrite Hro, Hfl. set (md := Z.lor (Z.land _ S_IALLUGO) _). set (now := fs_now t b) in *.
  set (in_g := negb (in_group_p (current t) (i_gid i)) && negb (cap_fsetid (current t))).
  assert (negb (fsuid (current t) =? i_uid i) && negb (cap_fowner (current t)) = false) as Hown'.
  { destruct Hown as [->| ->]; [by rewrite Z.eqb_refl|by rewrite andb_false_r]. }
  set (a := mkIattr 65 (if in_g then clear_flag md S_ISGID else md) 0 0 0 now now now).
  eapply (wp_notify_done x d i b _ a); [exact Ho|done|done|done| | |done| |]; fold now.
  - done.
  - change (prepared now i _) with (mkIattr 65 md 0 0 0 now now now). unfold inode_change_ok. cbn [ia_valid ia_gid ia_uid].
    change (has_flag 65 ATTR_FORCE) with false. change (has_flag 65 ATTR_UID) with false.
    change (has_flag 65 ATTR_GID) with false. change (has_flag 65 ATTR_MODE) with true.
    change (has_flag 65 (Z.lor ATTR_MTIME_SET ATTR_ATIME_SET)) with false. cbn [andb]. rewrite Hown'. fold in_g.
    unfold a. by destruct in_g.
  - intros _. unfold a. cbn [ia_mode]. destruct in_g; [rewrite type_clear by done|]; apply type_perms.
  - assert (setattr_fields (current t) (s_time_gran b) (ia_valid a) a i =
      i <| i_mode := chmod_mode (current t) i mode |> <| i_ctime := now |>) as ->; [|exact HQ].
    unfold setattr_fields, chmod_mode. fold md in_g. cbn [ia_valid a].
    change (has_flag 65 ATTR_UID) with false. change (has_flag 65 ATTR_GID) with false.
    change (has_flag 65 ATTR_ATIME) with false. change (has_flag 65 ATTR_MTIME) with false.
    change (has_flag 65 ATTR_CTIME) with true. change (has_flag 65 ATTR_MODE) with true. unfold a. cbn [ia_mode ia_ctime].
    assert (timespec_trunc now (s_time_gran b) = now) as -> by apply trunc_trunc.
    change (i_gid (i <| i_ctime := _ |>)) with (i_gid i).
    fold in_g. destruct in_g; [|done]. unfold clear_flag. by rewrite Z.ldiff_ldiff_l, Z.lor_diag.
Qed.

(** *** A stranger is refused *)

Lemma wp_chmod_refused x d i b mode t :
  attr_object x d i b t → stranger (current t) i → wp (chmod_at x mode) (λ r t', r < 0 ∧ t' = t) t.
Proof.
  intros Ho Hs. pose proof Ho as [H1 H2 H3 H4]. unfold chmod_at, IS_RDONLY. wp_go.
  destruct (has_flag (s_flags b) MS_RDONLY); [by wp_run|]. destruct (IS_IMMUTABLE i || IS_APPEND i); [by wp_run|].
  eapply wp_notify_refused; [exact Ho|]. intros now. split; [done|]. by apply stranger_mode.
Qed.

Lemma wp_chown_refused x d i b user group t :
  attr_object x d i b t → stranger (current t) i → user ≠ u32 (-1) ∨ group ≠ u32 (-1) →
  wp (chown_common x user group) (λ r t', r < 0 ∧ t' = t) t.
Proof.
  intros Ho Hs Hne. pose proof Ho as [H1 H2 H3 H4]. unfold chown_common, IS_RDONLY. wp_go.
  rewrite (proj2 (Z.eqb_neq _ _) H3). wp_go.
  destruct (has_flag (s_flags b) MS_RDONLY); [by wp_run|]. destruct (IS_IMMUTABLE i || IS_APPEND i); [by wp_run|].
  eapply wp_notify_refused; [exact Ho|]. intros now. set (a := if negb (S_ISDIR _) then _ else _).
  assert (has_flag (ia_valid a) ATTR_FORCE = false ∧
    (has_flag (ia_valid a) ATTR_UID = true ∨ has_flag (ia_valid a) ATTR_GID = true)) as [Ef Eg].
  { unfold a. clear -Hne. destruct (user =? u32 (-1)) eqn:Eu, (group =? u32 (-1)) eqn:Eg; cbn [negb];
      [apply Z.eqb_eq in Eu, Eg; naive_solver|..]; destruct (S_ISDIR (i_mode i)); cbn [negb]; split; first [done|by left|by right]. }
  clearbody a. split.
  - intros E0. destruct Eg as [Eg|Eg]; rewrite <-(prepared_flag _ now i) in Eg by done; by rewrite E0 in Eg.
  - apply stranger_ids; [done|by rewrite prepared_flag|]. destruct Eg as [Eg|Eg]; [left|right]; by rewrite prepared_flag.
Qed.

Lemma wp_utime_refused x d i b times t :
  attr_object x d i b t → stranger (current t) i → times ≠ NULL →
  wp (utime_at x times) (λ r t', r < 0 ∧ t' = t) t.
Proof.
  intros Ho Hs Hne. pose proof Ho as [H1 H2 H3 H4]. unfold utime_at, IS_RDONLY. wp_go.
  destruct (has_flag (s_flags b) MS_RDONLY); [by wp_run|]. rewrite (proj2 (Z.eqb_neq _ _) Hne). cbn [negb].
  unfold utime_times, get_user_long. destruct (IS_APPEND i || IS_IMMUTABLE i); [by wp_run|]. wp_go.
  destruct (copy_in (user_mem t) times 4) as [l1|]; cbn [Z.eqb]; wp_go; [|by cbn [Z.eqb negb]; wp_run].
  destruct (copy_in (user_mem t) (times + 4) 4) as [l2|]; cbn [Z.eqb negb]; wp_go; cbn [Z.eqb negb]; [|by wp_run].
  eapply wp_notify_refused; [exact Ho|]. intros now. split; [done|]. by apply stranger_times.
Qed.

(** *** What a stranger may do *)

(** The inode after a call that asks for nothing. *)
Definition touched (c : attr_call) (now : Z) (i : inode) : inode :=
  dirty (match c with
         | Utime _ _ => i <| i_atime := now |> <| i_mtime := now |> <| i_ctime := now |>
         | _ => i <| i_ctime := now |>
         end).

Lemma touched_same c now i : has_flag (i_state i) I_BUSY = false → same_inode i (touched c now i).
Proof. intros Hb. pose proof (not_busy_dirty _ Hb) as Hd. by destruct c. Qed.

(** chown without ids: it stamps the inode, unless it would have to clear a
    setuid or setgid bit. *)
Lemma wp_chown_none x d i b (Q : Z → kstate → Prop) t :
  attr_object x d i b t → stranger (current t) i → i_hash i = Unlinked → has_flag (i_state i) I_BUSY = false →
  S_ISBLK (i_mode i) = false → (∀ r, r < 0 → Q r t) →
  Q 0 (set_ino (d_inode d) (dirty (i <| i_ctime := fs_now t b |>)) t) →
  wp (chown_common x (u32 (-1)) (u32 (-1))) Q t.
Proof.
  intros Ho Hs Hh Hb Hblk Hneg HQ. pose proof Ho as [H1 H2 H3 H4]. unfold chown_common, IS_RDONLY. wp_go.
  rewrite (proj2 (Z.eqb_neq _ _) H3). wp_go.
  destruct (has_flag (s_flags b) MS_RDONLY); [wp_run; by apply Hneg|].
  destruct (IS_IMMUTABLE i || IS_APPEND i); [wp_run; by apply Hneg|].
  rewrite Z.eqb_refl. cbn [negb]. set (attr := if negb (S_ISDIR _) then _ else _). set (now := fs_now t b) in *.
  assert (prepared now i attr = mkIattr ATTR_CTIME 0 0 0 0 now now now ∨
    ∃ a, prepared now i attr = a ∧ has_flag (ia_valid a) ATTR_FORCE = false ∧ has_flag (ia_valid a) ATTR_MODE = true ∧
      has_flag (ia_valid a) ATTR_UID = false ∧ has_flag (ia_valid a) ATTR_GID = false) as [Ea|(a & Ea & F1 & F2 & F3 & F4)].
  { unfold attr. destruct (S_ISDIR (i_mode i)); cbn [negb]; [by left|]. unfold prepared, kill_suid, kill_sgid. cbv zeta.
    cbn -[has_flag Z.land S_ISGID S_IXGRP S_ISUID].
    destruct (has_flag (i_mode i) S_ISUID), (Z.land (i_mode i) (Z.lor S_ISGID S_IXGRP) =? Z.lor S_ISGID S_IXGRP);
      [right; eexists; split; [reflexivity|done]..|by left]. }
  - eapply (wp_notify_done x d i b _ (mkIattr ATTR_CTIME 0 0 0 0 now now now)); [exact Ho|done|done|done| | |done|done|];
      fold now; [by rewrite Ea| |].
    + by rewrite Ea.
    + assert (setattr_fields (current t) (s_time_gran b) ATTR_CTIME (mkIattr ATTR_CTIME 0 0 0 0 now now now) i =
        i <| i_ctime := now |>) as E; [|cbn [ia_valid]; by rewrite E].
      unfold setattr_fields. cbn -[timespec_trunc].
  assert (timespec_trunc now (s_time_gran b) = now) as -> by apply trunc_trunc. done.
  - destruct Hs as (S1 & S2 & S3). eapply wp_notify_change; [exact Ho|]. cbv zeta. fold (fs_now t b). fold now. rewrite Ea.
    assert (ia_valid a ≠ 0) as Hv by (intros E; by rewrite E in F2). rewrite (proj2 (Z.eqb_neq _ _) Hv).
    unfold inode_change_ok. rewrite F1, F2, F3, F4, S3, (proj2 (Z.eqb_neq _ _) S1). cbn [andb negb Z.eqb]. by apply Hneg.
Qed.

(** utime without times: it takes the permission to write. *)
Lemma wp_utime_none x d i b (Q : Z → kstate → Prop) t :
  attr_object x d i b t → stranger (current t) i → i_hash i = Unlinked → has_flag (i_state i) I_BUSY = false →
  S_ISBLK (i_mode i) = false → (∀ r, r < 0 → Q r t) →
  (granted (current t) i b MAY_WRITE → let now := fs_now t b in
     Q 0 (set_ino (d_inode d) (dirty (i <| i_atime := now |> <| i_mtime := now |> <| i_ctime := now |>)) t)) →
  wp (utime_at x NULL) Q t.
Proof.
  intros Ho (S1 & S2 & S3) Hh Hb Hblk Hneg HQ. pose proof Ho as [H1 H2 H3 H4]. unfold utime_at, IS_RDONLY. wp_go.
  destruct (has_flag (s_flags b) MS_RDONLY) eqn:Hro; [wp_run; by apply Hneg|]. cbn [NULL Z.eqb negb].
  destruct (IS_IMMUTABLE i) eqn:Him; [wp_run; by apply Hneg|]. wp_go. rewrite (proj2 (Z.eqb_neq _ _) S1). wp_go.
  apply (wp_permission_result _ i b); [exact H2|exact H4|done|].
  destruct (permission_writable (current t) i b MAY_WRITE) as [[Hg ->]|[Hg ->]]; [done..| |]; wp_go.
  2: { change (- EACCES =? 0) with false. cbn [negb]. wp_run. by apply Hneg. }
  cbn [Z.eqb negb]. set (now := fs_now t b) in *. set (a := mkIattr 112 0 0 0 0 now now now).
  eapply (wp_notify_done x d i b _ a); [exact Ho|done|done|done| | |done|done|]; fold now; [done|done|].
  assert (setattr_fields (current t) (s_time_gran b) (ia_valid a) a i =
    i <| i_atime := now |> <| i_mtime := now |> <| i_ctime := now |>) as ->; [|by apply HQ].
  unfold setattr_fields. cbn -[timespec_trunc].
  assert (timespec_trunc now (s_time_gran b) = now) as -> by apply trunc_trunc. done.
Qed.

(** *** Whoever calls *)

(** The mode to write has the type of the inode. *)
Definition typed_attr (mode : Z) (a : Z * iattr) : Prop :=
  has_flag (fst a) ATTR_MODE = has_flag (ia_valid (snd a)) ATTR_MODE ∧
  (has_flag (fst a) ATTR_MODE = true → type_of (ia_mode (snd a)) = type_of mode).

Lemma kill_suid_typed mode a : typed_attr mode a → typed_attr mode (kill_suid mode a).
Proof.
  destruct a as [v a]. intros [H1 H2]. unfold kill_suid, typed_attr in *. cbn [fst snd] in *.
  destruct (has_flag v ATTR_KILL_SUID); [|done].
  destruct (has_flag mode S_ISUID); [destruct (has_flag v ATTR_MODE) eqn:Em|]; cbn -[has_flag type_of clear_flag];
    rewrite ?flag_clear_other, ?Em by done; split; try done; intros _; rewrite type_clear by done; auto.
Qed.

Lemma kill_sgid_typed mode a : typed_attr mode a → typed_attr mode (kill_sgid mode a).
Proof.
  destruct a as [v a]. intros [H1 H2]. unfold kill_sgid, typed_attr in *. cbn [fst snd] in *.
  destruct (has_flag v ATTR_KILL_SGID); [|done].
  destruct (_ =? _); [destruct (has_flag v ATTR_MODE) eqn:Em|]; cbn -[has_flag type_of clear_flag];
    rewrite ?flag_clear_other, ?Em by done; split; try done; intros _; rewrite type_clear by done; auto.
Qed.

Lemma prepared_typed now i attr :
  (has_flag (ia_valid attr) ATTR_MODE = true → type_of (ia_mode attr) = type_of (i_mode i)) →
  has_flag (ia_valid (prepared now i attr)) ATTR_MODE = true →
  type_of (ia_mode (prepared now i attr)) = type_of (i_mode i).
Proof.
  intros Ht. unfold prepared. cbv zeta.
  match goal with |- context [kill_suid ?m ?p] => assert (typed_attr m p) as Hp by (split; [done|]; by repeat case_match) end.
  apply kill_suid_typed, kill_sgid_typed in Hp as [E1 E2]. rewrite <-E1. exact E2.
Qed.

Lemma change_ok_cases t i a :
  fst (inode_change_ok t i a) = - EPERM ∨
  fst (inode_change_ok t i a) = 0 ∧ ia_valid (snd (inode_change_ok t i a)) = ia_valid a ∧
    (ia_mode (snd (inode_change_ok t i a)) = ia_mode a ∨
     ia_mode (snd (inode_change_ok t i a)) = clear_flag (ia_mode a) S_ISGID).
Proof. unfold inode_change_ok. repeat case_match; simpl; auto. Qed.

(** An inode of a file system in memory: not hashed, and not a block device. *)
Record plain_inode (i : inode) : Prop := mkPlainInode {
  pl_hash : i_hash i = Unlinked;
  pl_kind : S_ISBLK (i_mode i) = false
}.

Definition kept_inode (d : dentry) (i : inode) (t : kstate) (r : Z) (t' : kstate) : Prop :=
  r ≤ 0 ∧ ∃ i', same_inode i i' ∧ t' = set_ino (d_inode d) i' t.

Section any_caller.
Context (x : ptr) (d : dentry) (i : inode) (b : super_block) (t : kstate).
Hypothesis Ho : attr_object x d i b t.
Hypothesis Hpl : plain_inode i.
Hypothesis Hb : has_flag (i_state i) I_BUSY = false.

Lemma kept_none r : r ≤ 0 → kept_inode d i t r t.
Proof.
  intros Hr. split; [done|]. exists i. split; [by apply same_inode_refl|]. symmetry. apply set_ino_id, (ao_inode _ _ _ _ _ Ho).
Qed.

Lemma wp_notify_safe attr :
  has_flag (ia_valid attr) ATTR_SIZE = false →
  (has_flag (ia_valid attr) ATTR_MODE = true → type_of (ia_mode attr) = type_of (i_mode i)) →
  wp (notify_change x attr) (kept_inode d i t) t.
Proof.
  intros Hsz Hty. pose proof Ho as [H1 H2 H3 H4]. destruct Hpl as [P1 P2]. eapply wp_notify_change; [exact Ho|]. cbv zeta.
  fold (fs_now t b). set (a := prepared (fs_now t b) i attr).
  assert (has_flag (ia_valid a) ATTR_SIZE = false) as Hsz' by (unfold a; by rewrite prepared_flag).
  pose proof (prepared_typed (fs_now t b) i attr Hty) as Hty'. fold a in Hty'. clearbody a.
  destruct (ia_valid a =? 0); [by apply kept_none|].
  destruct (change_ok_cases (current t) i a) as [E|(E & Ev & Em)];
    destruct (inode_change_ok (current t) i a) as [e a']; cbn [fst snd] in *; subst e; cbn [Z.eqb negb].
  - by apply kept_none.
  - assert (has_flag (ia_valid a') ATTR_MODE = true → type_of (ia_mode a') = type_of (i_mode i)) as Ht.
    { rewrite Ev. intros Hm. destruct Em as [-> | ->]; [|rewrite type_clear by done]; auto. }
    pose proof (setattr_same (current t) (s_time_gran b) (ia_valid a') a' i Hb Ht) as Hsame.
    eapply wp_inode_setattr; [exact H2|exact H4|done|done|by rewrite Ev| |by split; [|eexists]].
    pose proof (si_type _ _ Hsame) as E. unfold S_ISBLK, type_of in *. simpl in E. by rewrite E.
Qed.

Lemma wp_chmod_safe mode : wp (chmod_at x mode) (kept_inode d i t) t.
Proof.
  pose proof Ho as [H1 H2 H3 H4]. unfold chmod_at, IS_RDONLY. wp_go.
  destruct (has_flag (s_flags b) MS_RDONLY); [wp_run; by apply kept_none|].
  destruct (IS_IMMUTABLE i || IS_APPEND i); [wp_run; by apply kept_none|].
  apply wp_notify_safe; [done|]. intros _. apply type_perms.
Qed.

Lemma wp_chown_safe user group : wp (chown_common x user group) (kept_inode d i t) t.
Proof.
  pose proof Ho as [H1 H2 H3 H4]. unfold chown_common, IS_RDONLY. wp_go. rewrite (proj2 (Z.eqb_neq _ _) H3). wp_go.
  destruct (has_flag (s_flags b) MS_RDONLY); [wp_run; by apply kept_none|].
  destruct (IS_IMMUTABLE i || IS_APPEND i); [wp_run; by apply kept_none|].
  apply wp_notify_safe; by destruct (user =? _), (group =? _), (S_ISDIR (i_mode i)).
Qed.

Lemma wp_utime_safe times : wp (utime_at x times) (kept_inode d i t) t.
Proof.
  pose proof Ho as [H1 H2 H3 H4]. unfold utime_at, IS_RDONLY. wp_go.
  destruct (has_flag (s_flags b) MS_RDONLY); [wp_run; by apply kept_none|]. wp_step.
  apply (wp_mono _ (λ r t', t' = t ∧ fst r ≤ 0 ∧ has_flag (ia_valid (snd r)) ATTR_SIZE = false ∧
    has_flag (ia_valid (snd r)) ATTR_MODE = false)).
  - destruct (negb (times =? NULL)).
    + unfold utime_times, get_user_long. destruct (IS_APPEND i || IS_IMMUTABLE i); [by wp_run|]. wp_go.
      destruct (copy_in (user_mem t) times 4) as [l1|]; cbn [Z.eqb]; wp_go; [|by cbn [Z.eqb negb]; wp_run].
      destruct (copy_in (user_mem t) (times + 4) 4) as [l2|]; cbn [Z.eqb negb]; wp_go; cbn [Z.eqb negb]; by wp_run.
    + destruct (IS_IMMUTABLE i); [by wp_run|]. wp_go. destruct (fsuid (current t) =? i_uid i); [by wp_run|]. wp_step.
      eapply wp_mono; [by eapply wp_permission|]. intros r t' [Hr ->]. by wp_run.
  - intros [e a] t' (-> & He & E1 & E2). cbn [fst snd] in *. destruct (Z.eqb_spec e 0); cbn [negb].
    + apply wp_notify_safe; [done|]. by rewrite E2.
    + wp_run. by apply kept_none.
Qed.
End any_caller.

(** ** The calls *)

(** All four calls walk to an object and act on it. *)
Definition attr_act (c : attr_call) (x : ptr) : KM Z :=
  match c with
  | Chmod _ mode => chmod_at x mode
  | Chown _ user group | Lchown _ user group => chown_common x user group
  | Utime _ times => utime_at x times
  end.

Definition attr_flags (c : attr_call) : Z := match c with Lchown _ _ _ => 0 | _ => LOOKUP_FOLLOW end.

Lemma run_attr_eq c : run_attr c =
  ('(error, nd) ← __user_walk (attr_name c) (attr_flags c);
   if negb (error =? 0) then mret error
   else error ← attr_act c (nd_dentry nd); path_release (nd_path nd) ;; mret error).
Proof. by destruct c. Qed.

(** What a call may have left: the state before, or that with another record of
    one inode. *)
Definition attr_done (root : ptr) (A : atree) (cwd : list ptr) (path : bytes) (s : kstate)
    (P : ptr → inode → inode → Prop) (t : kstate) : Prop :=
  ∃ x d i i', target (search s) root A cwd path = inr x ∧ dentries s !! x = Some d ∧
    inodes s !! d_inode d = Some i ∧ P x i i' ∧ settled (set_ino (d_inode d) i' s) t.

Section attr_calls.
Context (dext iext : refs) (sb root : ptr) (A : atree) (m : ptr) (s : kstate) (cwd : list ptr) (path : bytes) (c : attr_call).
Hypothesis Hw : walkable dext iext sb root A m s.
Hypothesis Hcwd : cwd_ok A root m cwd (current s).
Hypothesis Hroom : slab_next s + SLAB_STEP ≤ u32 (-1000).
Hypothesis Hname : user_string (user_mem s) (attr_name c) path.
Hypothesis Hpath : path_ok path.

(** Whoever calls, the tree stays one that can be walked. *)
Lemma wp_run_attr :
  (∀ x d i, target (search s) root A cwd path = inr x → dentries s !! x = Some d → inodes s !! d_inode d = Some i →
     plain_inode i) →
  wp (run_attr c) (λ r t, r ≤ 0 ∧ (settled s t ∨
    ∃ x n i', A !! x = Some n ∧ walkable dext iext sb root (<[x := remode (i_mode i') n]> A) m t ∧
      attr_done root A cwd path s (λ y i j, y = x ∧ j = i' ∧ same_inode i i') t)) s.
Proof.
  intros Hpl. rewrite run_attr_eq.
  apply (wp_walk_act dext iext sb root A m s cwd Hw Hcwd Hroom (attr_name c) path Hname Hpath);
    [by destruct c|by destruct c|..].
  - intros e t _ He Hst. split; [destruct (walk_error_neg _ He); lia|by left].
  - intros x n d i b E Hx Ho Hb Ho'. pose proof (Hpl x d i E (ao_dentry _ _ _ _ _ Ho) (ao_inode _ _ _ _ _ Ho)) as Hpi.
    eapply wp_mono.
    { instantiate (1 := kept_inode (recount 1 d) i (held m x (after_alloc s))).
      destruct c; [by eapply wp_chmod_safe|by eapply wp_chown_safe|by eapply wp_chown_safe|by eapply wp_utime_safe]. }
    intros r t [Hr (i' & Hs & ->)]. eapply acted_some; [exact Hw|exact Hs|done|]. intros t Hst Hwt. split; [done|]. right.
    exists x, n, i'. split_and!; [done|done|]. destruct Ho. by exists x, d, i, i'.
Qed.
End attr_calls.

(** C13: attributes are guarded.  Let a task call chmod, chown, lchown or utime on
    the mounted tree on an object, not hashed and not a block device, that it does
    not own, without CAP_FOWNER and CAP_CHOWN.  The call ends without a fault and
    gives back every reference of the walk.  If it asks for a change (any mode, an
    owner or a group, given times), it returns an error and changes nothing.  If
    it asks for none (chown with -1 for both ids, or utime without times), it
    returns an error and changes nothing, or returns 0, stamps the inode with the
    time of the file system (chown the change time, utime, which takes the
    permission to write, all three) and changes nothing else: not the owner, not
    the group, not the mode. *)
Theorem attributes_guarded dext iext sb root A m s cwd path c :
  walkable dext iext sb root A m s → cwd_ok A root m cwd (current s) →
  slab_next s + SLAB_STEP ≤ u32 (-1000) →
  user_string (user_mem s) (attr_name c) path → path_ok path →
  (∀ x d i, target (search s) root A cwd path = inr x → dentries s !! x = Some d → inodes s !! d_inode d = Some i →
     stranger (current s) i ∧ plain_inode i) →
  wp (run_attr c) (λ r t,
    (r < 0 ∧ settled s t) ∨
    (r = 0 ∧ ¬ asks c ∧ attr_done root A cwd path s (λ x i i', ∃ b, supers s !! i_sb i = Some b ∧
       i' = touched c (fs_now s b) i ∧ (if c is Utime _ _ then granted (current s) i b MAY_WRITE else True)) t)) s.
Proof.
  intros Hw Hc Hr Hn Hp Hst. rewrite run_attr_eq.
  apply (wp_walk_act dext iext sb root A m s cwd Hw Hc Hr (attr_name c) path Hn Hp); [by destruct c|by destruct c|..].
  - intros e t _ He Hset. left. split; [apply walk_error_neg, He|done].
  - intros x n d i b E Hx Ho Hb Ho'. destruct (Hst x d i E (ao_dentry _ _ _ _ _ Ho) (ao_inode _ _ _ _ _ Ho)) as [Hs [P1 P2]].
    set (Q := λ r t, _ ∨ _).
    assert (∀ r, r < 0 → acted dext iext sb root A m s Q x n d i r (held m x (after_alloc s))) as Hno.
    { intros r Hr0. eapply acted_none; [exact Hw|exact Ho|done|]. intros t Ht. by left. }
    assert (¬ asks c → (if c is Utime _ _ then granted (current s) i b MAY_WRITE else True) →
      acted dext iext sb root A m s Q x n d i 0
        (set_ino (d_inode d) (touched c (fs_now s b) i) (held m x (after_alloc s)))) as Hyes.
    { intros Ha Hg. eapply acted_some; [exact Hw|by apply touched_same|done|]. intros t Ht _. right. split_and!; [done|done|].
      destruct Ho. exists x, d, i, (touched c (fs_now s b) i). split_and!; try done. by exists b. }
    assert (∀ act, wp act (λ r t', r < 0 ∧ t' = held m x (after_alloc s)) (held m x (after_alloc s)) →
      wp act (acted dext iext sb root A m s Q x n d i) (held m x (after_alloc s))) as Href.
    { intros act Hact. eapply wp_mono; [exact Hact|]. intros r t [Hr0 ->]. by apply Hno. }
    assert (∀ user group, ¬ (user ≠ u32 (-1) ∨ group ≠ u32 (-1)) → user = u32 (-1) ∧ group = u32 (-1)) as Hids by (intros; lia).
    destruct c as [name mode|name user group|name user group|name times]; cbn [attr_act asks] in *.
    + apply Href. by eapply wp_chmod_refused.
    + destruct (decide (user ≠ u32 (-1) ∨ group ≠ u32 (-1))) as [Ha|Ha]; [apply Href; by eapply wp_chown_refused|].
      destruct (Hids _ _ Ha) as [-> ->]. eapply wp_chown_none; [exact Ho'|done..|exact Hno|by apply Hyes].
    + destruct (decide (user ≠ u32 (-1) ∨ group ≠ u32 (-1))) as [Ha|Ha]; [apply Href; by eapply wp_chown_refused|].
      destruct (Hids _ _ Ha) as [-> ->]. eapply wp_chown_none; [exact Ho'|done..|exact Hno|by apply Hyes].
    + destruct (decide (times = NULL)) as [->|Ha]; [|apply Href; by eapply wp_utime_refused].
      eapply wp_utime_none; [exact Ho'|done..|exact Hno|]. intros Hg. apply Hyes; [naive_solver|exact Hg].
Qed.

(** What chmod needs of an object: it is not locked against changes, and the
    caller owns it or may act as its owner. *)
Record chmodable (x : ptr) (d : dentry) (i : inode) (b : super_block) (s : kstate) : Prop := mkChmodable {
  cm_dentry : dentries s !! x = Some d;
  cm_inode : inodes s !! d_inode d = Some i;
  cm_super : supers s !! i_sb i = Some b;
  cm_owner : fsuid (current s) = i_uid i ∨ cap_fowner (current s) = true;
  cm_rw : has_flag (s_flags b) MS_RDONLY = false;
  cm_flags : IS_IMMUTABLE i || IS_APPEND i = false;
  cm_plain : plain_inode i
}.

(** C14: chmod by the owner refines the change of a mode in the abstract tree.  It
    returns 0; the file or directory at the end of the path, not hashed and not a
    block device, on a file system mounted for writing, has the permission bits
    asked for (without the setgid bit if the caller is outside the group) and the
    type it had; its change time is the time of the file system and it is dirty;
    nothing else of the kernel changes, and the tree that it represents is the
    old one with this mode, still walkable. *)
Theorem chmod_refines dext iext sb root A m s cwd name path x n d i b mode :
  walkable dext iext sb root A m s → cwd_ok A root m cwd (current s) →
  slab_next s + SLAB_STEP ≤ u32 (-1000) →
  user_string (user_mem s) name path → path_ok path →
  target (search s) root A cwd path = inr x → A !! x = Some n → chmodable x d i b s →
  wp (sys_chmod name mode) (λ r t,
    let md' := chmod_mode (current s) i mode in
    r = 0 ∧ type_of md' = type_of (i_mode i) ∧
    settled (set_ino (d_inode d) (chmod_inode (current s) (fs_now s b) mode i) s) t ∧
    walkable dext iext sb root (<[x := remode md' n]> A) m t) s.
Proof.
  intros Hw Hc Hr Hn Hp Et HA [K1 K2 K3 K4 K5 K6 [K7 K8]]. change (sys_chmod name mode) with (run_attr (Chmod name mode)).
  rewrite run_attr_eq.
  apply (wp_walk_act dext iext sb root A m s cwd Hw Hc Hr name path Hn Hp); [done|done|congruence|].
  intros y n' d' i' b' Ey Hy [G1 G2 G3 G4] Hb Ho'. assert (y = x) as -> by congruence. assert (n' = n) as -> by congruence.
  assert (d' = d) as -> by congruence. assert (i' = i) as -> by congruence. assert (b' = b) as -> by congruence.
  eapply wp_chmod_at; [exact Ho'|done..|]. eapply acted_some; [exact Hw| |reflexivity|].
  - pose proof (not_busy_dirty _ Hb). split; try done. apply chmod_type.
  - intros t Hset Hwt. split_and!; [done|apply chmod_type|exact Hset|exact Hwt].
Qed.
