(* ===== verification/CwdSpec.v ===== *)
(** * The name of the working directory

    [__d_path] spells the way from a directory up to the root of the task, and
    [sys_getcwd] writes it into user memory.  The text is a path: its walk leads
    back to the directory. *)

From S2P Require Import Prelude KString Kernel Links Inode InodeInv Dcache DcacheInv DcacheOps Walk.
From S2P Require Import Filesystems Super Mount SuperSpec Libfs LibfsSpec Groups Namei LookupSpec Attr Path Vfs Aufs.
From S2P Require Import Open Stat Calls AufsSpec AufsCreate AufsTree KernMount PathCount PathNames PathSpec VfsSpec.
From S2P Require Import RenameSpec AufsFile OpenSpec CallSpec.

(** ** Spelling *)

(** The names along a stack of directories, from the root. *)
Inductive spelled (A : atree) (root : ptr) : list ptr → list bytes → Prop :=
  | spelled_root : spelled A root [root] []
  | spelled_entry x p st k l names name :
      spelled A root (p :: st) names → A !! p = Some (ADir k l) → (name, x) ∈ l →
      spelled A root (x :: p :: st) (names ++ [name]).

(** The name of an object in a directory. *)
Definition entry_name (A : atree) (p x : ptr) : bytes :=
  match A !! p with
  | Some (ADir _ l) => default [] (fst <$> List.find (λ e, snd e =? x) l)
  | _ => []
  end.

Lemma entry_name_in A p k l name x :
  A !! p = Some (ADir k l) → (name, x) ∈ l → (entry_name A p x, x) ∈ l.
Proof.
  intros Hp Hx. unfold entry_name. rewrite Hp. clear Hp.
  destruct (List.find (λ e, snd e =? x) l) as [[name' y]|] eqn:E; simpl.
  - apply List.find_some in E as [Hin Hy]. apply Z.eqb_eq in Hy. simpl in Hy. subst y. by apply list_elem_of_In.
  - apply list_elem_of_In in Hx. pose proof (List.find_none _ _ E _ Hx) as Hne. simpl in Hne. by rewrite Z.eqb_refl in Hne.
Qed.

Fixpoint names_up (A : atree) (st : list ptr) : list bytes :=
  match st with
  | x :: ((p :: _) as up) => names_up A up ++ [entry_name A p x]
  | _ => []
  end.

Lemma chained_spelled A root st : chained A root st → spelled A root st (names_up A st).
Proof.
  induction st as [|x st IH]; [done|]. destruct st as [|p st].
  - intros [-> _]. constructor.
  - intros (_ & (k & l & name & Hp & Hx) & Hch). econstructor; [by apply IH|exact Hp|by eapply entry_name_in].
Qed.

Definition spell (names : list bytes) : bytes := flat_map (cons 47) names.

(** The path name of a directory. *)
Definition path_text (names : list bytes) : bytes := if names is [] then [47] else spell names.

(** The path name of the working directory: the names of its ancestors and its
    own, each after a slash. *)
Definition cwd_text (A : atree) (cwd : list ptr) : bytes := path_text (names_up A cwd).

(** Every name of the tree can be walked. *)
Definition well_named (A : atree) : Prop :=
  ∀ p k l name x, A !! p = Some (ADir k l) → (name, x) ∈ l →
    component name ∧ short name ∧ name ≠ dot ∧ name ≠ dotdot.

Lemma spelled_names A root st names :
  well_named A → spelled A root st names → Forall (λ n, component n ∧ short n) names.
Proof.
  intros Hn. induction 1; [constructor|]. apply Forall_app. split; [done|].
  constructor; [|constructor]. by destruct (Hn _ _ _ _ _ H0 H1) as (? & ? & _).
Qed.

Lemma spell_app a b : spell (a ++ b) = spell a ++ spell b.
Proof. apply flat_map_app. Qed.

Lemma spell_snoc names name : spell (names ++ [name]) = spell names ++ 47 :: name.
Proof. rewrite spell_app. simpl. by rewrite app_nil_r. Qed.

Lemma names_of_spell names : Forall (λ n, component n ∧ short n) names → names_of (spell names) = names.
Proof.
  induction 1 as [|n names [Hc _] Hf IH]; [done|]. simpl. rewrite names_of_slash.
  rewrite names_of_component; [by rewrite IH|done|]. destruct names; [by left|by right].
Qed.

Lemma path_text_ok names : Forall (λ n, component n ∧ short n) names →
  path_ok (path_text names) ∧ names_of (path_text names) = names ∧ head_byte (path_text names) = 47.
Proof.
  intros Hf. assert (names_of (path_text names) = names) as E.
  { destruct names; [done|]. by apply names_of_spell. }
  split_and!; [|done|by destruct names]. split; [|rewrite E; eapply Forall_impl; [exact Hf|by intros ? []]].
  assert (∀ l, Forall (λ n, component n ∧ short n) l → cstring (spell l)) as Hsp.
  { clear. induction 1 as [|n l [(Hc & _ & _) _] Hf IH]; [constructor|]. constructor; [lia|]. by apply Forall_app. }
  destruct names as [|n names]; [repeat constructor; lia|]. by apply Hsp.
Qed.

(** ** The way up *)

Section up.
Context (dext iext : refs) (sb root : ptr) (A : atree) (m : ptr) (s : kstate).
Hypothesis Hw : walkable dext iext sb root A m s.
Hypothesis Hn : well_named A.

Lemma spelled_resolves may st names : spelled A root st names → Forall (λ y, may y = true) (tail st) →
  aresolve may A [root] names = inr st.
Proof.
  induction 1 as [|x p st k l names name Hs IH Hp Hx]; [done|]. intros [Hm Hms]%Forall_cons.
  rewrite aresolve_app, IH by done. simpl. unfold astep. rewrite Hp, Hm.
  destruct (Hn _ _ _ _ _ Hp Hx) as (_ & _ & N1 & N2).
  rewrite !bool_decide_eq_false_2 by done.
  destruct (wk_dirs _ _ _ _ _ _ _ Hw _ _ _ Hp) as [Hnd _]. by rewrite (entry_named_in _ _ _ Hnd Hx).
Qed.

(** An entry below a directory of the stack, as the cache has it. *)
Lemma entry_dentry x p k l name :
  A !! p = Some (ADir k l) → (name, x) ∈ l →
  ∃ d, dentries s !! x = Some d ∧ d_parent d = p ∧ x ≠ root ∧ x ≠ p ∧ d_unhashed d = false ∧
    d_name d = name ∧ d_name_len d = Z.of_nat (length name).
Proof.
  intros Hp Hx. destruct (walk_object _ _ _ _ _ _ _ Hw _ _ Hp) as (dp & ip & [_ (_ & _ & _ & _ & _ & Hent) _ _ _ _ _ _]).
  rewrite Forall_forall in Hent. destruct (Hent _ Hx) as (d & b & H1 & H2 & [H3 H4 H5 H6]). simpl in *.
  destruct (wk_dirs _ _ _ _ _ _ _ Hw _ _ _ Hp) as [_ He]. destruct (He _ _ Hx) as [_ Hr].
  pose proof (dc_ok _ _ (vi_dcache _ _ _ (ti_vfs _ _ _ _ _ _ (wk_tree _ _ _ _ _ _ _ Hw))) _ _ H1) as Hok.
  exists d. split_and!; try done.
  - intros ->. destruct (walk_object _ _ _ _ _ _ _ Hw _ _ Hp) as (d' & i' & [[N1 _ _ _ N5 _] _ _ _ _ _ _ _]).
    assert (d' = d) as -> by congruence. rewrite N5 in H2 by done. done.
  - rewrite (do_flag _ _ _ _ Hok). apply bool_decide_eq_false_2. by rewrite H2.
Qed.

Lemma wp_d_path_loop mm : mounts s !! m = Some mm → mnt_root mm = root →
  ∀ st names, spelled A root st names → ∀ x anc n buflen tail retval Q, st = x :: anc → (length anc < n)%nat →
  Q (if Z.of_nat (length (spell names)) <=? buflen
     then inr (if names is [] then retval else spell names ++ tail) else inl (- ENAMETOOLONG)) s →
  0 ≤ buflen →
  wp (loop n (λ '(dentry, vfsmnt, buflen, tail, retval),
      if (dentry =? root) && (vfsmnt =? m) then mret (inr (inr retval))
      else
        d ← get_dentry dentry;
        m ← get_mount vfsmnt;
        if (dentry =? mnt_root m) || IS_ROOT dentry d then
          if mnt_parent m =? vfsmnt then
            if buflen - d_name_len d <? 0 then mret (inr (inl (- ENAMETOOLONG)))
            else mret (inr (inr (take (Z.to_nat (d_name_len d)) (d_name d) ++ drop 1 retval)))
          else mret (inl (mnt_mountpoint m, mnt_parent m, buflen, tail, retval))
        else
          let buflen := buflen - (d_name_len d + 1) in
          if buflen <? 0 then mret (inr (inl (- ENAMETOOLONG)))
          else
            let tail := 47 :: take (Z.to_nat (d_name_len d)) (d_name d) ++ tail in
            mret (inl (d_parent d, vfsmnt, buflen, tail, tail))) (x, m, buflen, tail, retval)) Q s.
Proof.
  intros Hm Hmr. induction 1 as [|x p st k l names name Hs IH Hp Hx]; intros y anc n buflen tail retval Q [= <- <-] Hl HQ Hb;
    (destruct n as [|n]; [simpl in Hl; lia|]); cbn [loop]; wp_step.
  - rewrite !Z.eqb_refl. cbn [andb]. wp_run. change (Z.of_nat (length (spell []))) with 0 in HQ.
    by rewrite (proj2 (Z.leb_le _ _) Hb) in HQ.
  - destruct (entry_dentry _ _ _ _ _ Hp Hx) as (d & D1 & D2 & D3 & D4 & _ & D5 & D6).
    rewrite (proj2 (Z.eqb_neq _ _) D3). cbn [andb]. wp_go. rewrite Hmr, (proj2 (Z.eqb_neq _ _) D3).
    unfold IS_ROOT. rewrite D2, (proj2 (Z.eqb_neq x p)) by done. cbn [orb].
    rewrite D5, D6, Nat2Z.id, firstn_all.
    rewrite spell_snoc, length_app in HQ. cbn [length] in HQ.
    destruct (Z.ltb_spec (buflen - (Z.of_nat (length name) + 1)) 0) as [Hneg|Hpos].
    + wp_run. rewrite (proj2 (Z.leb_gt _ _)) in HQ by lia. done.
    + wp_step. eapply IH; [done|simpl in Hl; lia| |lia].
      destruct (Z.leb_spec (Z.of_nat (length (spell names) + S (length name))) buflen) as [Hle|Hgt].
      * rewrite (proj2 (Z.leb_le _ _)) by lia.
        assert ((if names is [] then 47 :: name ++ tail else spell names ++ 47 :: name ++ tail) =
          (if names ++ [name] is [] then retval else (spell names ++ 47 :: name) ++ tail)) as ->; [|done].
        rewrite <-app_assoc. by destruct names.
      * rewrite (proj2 (Z.leb_gt _ _)) by lia. done.
Qed.
End up.

(** A directory of the tree was not removed. *)
Lemma spelled_top dext iext sb root A m s p anc names :
  walkable dext iext sb root A m s → spelled A root (p :: anc) names →
  ∃ d, dentries s !! p = Some d ∧ (d_parent d = p ∨ d_unhashed d = false).
Proof.
  intros Hw Hs. inversion Hs as [|x q st k l names' name Hs' Hq Hx]; subst.
  - destruct (wk_root _ _ _ _ _ _ _ Hw) as (k & l & Hr).
    destruct (walk_object _ _ _ _ _ _ _ Hw _ _ Hr) as (d & i & [[N1 _ _ _ _ _] _ _ _ _ _ _ _]).
    exists d. split; [done|]. left. apply (wk_top _ _ _ _ _ _ _ Hw _ N1).
  - destruct (entry_dentry _ _ _ _ _ _ _ Hw _ _ _ _ _ Hq Hx) as (d & D1 & _ & _ & _ & D5 & _).
    exists d. split; [done|]. by right.
Qed.

Lemma wp_d_path dext iext sb root A m s p anc names buflen Q :
  walkable dext iext sb root A m s → well_named A →
  chained A root (p :: anc) → spelled A root (p :: anc) names → 2 ≤ buflen →
  Q (if Z.of_nat (length (spell names)) <=? buflen - 1 then inr (path_text names) else inl (- ENAMETOOLONG)) s →
  wp (__d_path p m root m buflen) Q s.
Proof.
  intros Hw Hn Hch Hs Hb HQ. destruct (wk_mnt _ _ _ _ _ _ _ Hw) as (mm & Hm & _ & _ & Hmr).
  destruct (spelled_top _ _ _ _ _ _ _ _ _ _ Hw Hs) as (d & Hd & Htop).
  assert (negb (IS_ROOT p d) && d_unhashed d = false) as Hdel.
  { unfold IS_ROOT. destruct Htop as [->| ->]; [by rewrite Z.eqb_refl|by rewrite andb_false_r]. }
  unfold __d_path. wp_step. wp_step; [exact Hd|]. rewrite Hdel. cbn [andb].
  rewrite (proj2 (Z.ltb_ge _ 1)) by lia. wp_step. wp_step.
  eapply (wp_d_path_loop _ _ _ _ _ _ _ Hw mm Hm Hmr _ _ Hs); [done| | |lia].
  - pose proof (chained_short _ _ _ _ _ _ _ Hw _ _ Hch). lia.
  - assert ((if names is [] then [47] else spell names ++ []) = path_text names) as ->; [|done].
    unfold path_text. rewrite app_nil_r. done.
Qed.

(** ** getcwd *)

Lemma wp_release_then {B} dext iext sb root A m s x n (k : KM B) Q :
  walkable dext iext sb root A m s → A !! x = Some n → wp k Q s →
  wp (dput x ;; mntput m ;; k) Q (held m x s).
Proof.
  intros Hw Hx Hk. assert (wp (path_release (m, x)) (λ _ t, t = s) (held m x s)) as Hrel.
  { by eapply wp_release. }
  apply wp_bind_inv in Hrel. wp_step. eapply wp_mono; [exact Hrel|]. intros [] t1 Hrel1. wp_step.
  eapply wp_mono; [exact Hrel1|]. by intros [] t2 ->.
Qed.

Lemma walkable_user dext iext sb root A m um s :
  walkable dext iext sb root A m s → walkable dext iext sb root A m (s <| user_mem := um |>).
Proof.
  intros [[T1 T2 T3 T4 T5] Hl Hr Hd Hp Htp Hm0 Hm Hf Htop]. split; try done. split; try done.
  - destruct T1 as [D I]. split; [by apply (dcache_inv_ext _ _ _ _ D)|by apply (inode_inv_ext _ _ _ _ I)].
  - intros y n Hy. destruct (T5 _ _ Hy) as (d & i & [N1 N2 N3 N4 N5 N6] & Hs). exists d, i.
    split; [by split|by destruct n].
Qed.

(** The text, with its NUL, in the buffer. *)
Lemma wp_copy_text um text buf Q s :
  user_mem s = um → mapped um buf (Z.of_nat (length text) + 1) →
  (∀ um', user_bytes um' buf (Z.of_nat (length text) + 1) = text ++ [0] →
     (∀ a, ¬ (buf ≤ a < buf + (Z.of_nat (length text) + 1)) → um' !! a = um !! a) →
     Q (Z.of_nat (length text) + 1) (s <| user_mem := um' |>)) →
  wp (rest ← copy_to_user buf (text ++ [0]);
      mret (if negb (rest =? 0) then - EFAULT else Z.of_nat (length text) + 1)) Q s.
Proof.
  intros Eu Hm HQ. assert (Z.of_nat (length (text ++ [0])) = Z.of_nat (length text) + 1) as El.
  { rewrite length_app. simpl. lia. }
  wp_step. unfold wp at 1, copy_to_user. rewrite Eu.
  destruct (copy_out_mapped um buf (text ++ [0])) as (um' & -> & Hwr); [by rewrite El|]. cbn [Z.eqb negb]. wp_run.
  pose proof (user_bytes_written _ _ _ _ Hwr) as Hub. rewrite El in Hub.
  apply HQ; [done|]. intros a Ha. by rewrite Hwr, El, decide_False.
Qed.

(** The references that getcwd takes and gives back. *)
Section refs.
Context (dext iext : refs) (sb root : ptr) (A : atree) (m : ptr) (s : kstate) (p : ptr) (n : anode).
Hypothesis Hw : walkable dext iext sb root A m s.
Hypothesis Hp : A !! p = Some n.

Lemma wp_take_refs {B} (k : ptr → ptr → ptr → ptr → KM B) Q :
  wp (k m p m root) Q (held m p (held m root s)) →
  wp (pwdmnt ← mntget m; pwd ← dget p; rootmnt ← mntget m; root ← dget root; k pwdmnt pwd rootmnt root) Q s.
Proof.
  intros Hk. destruct (wk_root _ _ _ _ _ _ _ Hw) as (kr & lr & Hroot). pose proof (wk_nonnull _ _ _ _ _ _ _ Hw) as Hm0.
  destruct (wk_mnt _ _ _ _ _ _ _ Hw) as (mm & Hm & _).
  destruct (walk_object _ _ _ _ _ _ _ Hw _ _ Hp) as (d & i & [[N1 N2 _ _ _ _] _ Hp0 _ Hc _ _ _]).
  destruct (walk_object _ _ _ _ _ _ _ Hw _ _ Hroot) as (dr & ir & [[R1 R2 _ _ _ _] _ Hr0 _ Hcr _ _ _]).
  wp_step. eapply (wp_mntget_adj m mm); [done|exact Hm|]. wp_step. eapply wp_dget_adj; [done|exact N1|done|].
  wp_step. eapply (wp_mntget_adj m (mnt_recount 1 mm)); [done|simpl; by rewrite lookup_alter_eq, Hm|].
  wp_step. apply (wp_dget_adj root (if decide (root = p) then recount 1 dr else dr)); [done| | |].
  - change (dentries (adj p 1 s) !! root = Some (if decide (root = p) then recount 1 dr else dr)).
    case_decide as E; [rewrite E, adj_lookup_eq, <-E; by rewrite R1|by rewrite adj_lookup_ne].
  - case_decide; simpl; lia.
  - match goal with |- wp _ _ ?u => change u with (held m root (held m p s)) end. by rewrite held_comm.
Qed.

Lemma wp_drop_refs r (Q : Z → kstate → Prop) :
  Q r s → wp (dput p ;; mntput m ;; dput root ;; mntput m ;; mret r) Q (held m p (held m root s)).
Proof.
  intros HQ. destruct (wk_root _ _ _ _ _ _ _ Hw) as (kr & lr & Hroot).
  eapply wp_release_then; [exact (walkable_held _ _ _ _ _ _ _ _ _ Hw Hroot)|exact Hp|].
  eapply wp_release_then; [exact Hw|exact Hroot|]. by wp_run.
Qed.
End refs.

(** The text of the working directory leads back to it, from anywhere. *)
Lemma spelled_target dext iext sb root A m s p anc names k l :
  walkable dext iext sb root A m s → well_named A → spelled A root (p :: anc) names → A !! p = Some (ADir k l) →
  ∀ may cwd, Forall (λ y, may y = true) anc → target may root A cwd (path_text names) = inr p.
Proof.
  intros Hw Hn Hs Hq may cwd Hmay. destruct (path_text_ok names) as (_ & En & Hh); [by eapply spelled_names|].
  unfold target, start. rewrite Hh, En. change (47 =? 47) with true. cbv iota.
  rewrite (spelled_resolves _ _ _ _ _ _ _ Hw Hn _ _ _ Hs) by done. simpl. rewrite Hq. simpl. by rewrite andb_false_r.
Qed.

Lemma alloc_settled_user dext iext sb root A m um s :
  walkable dext iext sb root A m s → settled (s <| user_mem := um |>) ((after_alloc s) <| user_mem := um |>).
Proof.
  intros Hw. exists (SLAB_STEP + slab_next s), (dentry_hashtable s).
  split_and!; [simpl; unfold SLAB_STEP; lia|done|]. unfold after_alloc. kstate_eq.
  by rewrite (ti_mem _ _ _ _ _ _ (wk_tree _ _ _ _ _ _ _ Hw)).
Qed.

Lemma wp_sys_getcwd dext iext sb root A m s p anc buf size :
  walkable dext iext sb root A m s → cwd_ok A root m (p :: anc) (current s) → well_named A →
  slab_next s + SLAB_STEP ≤ u32 (-1000) → mapped (user_mem s) buf size →
  let path := cwd_text A (p :: anc) in
  let len := Z.of_nat (length path) + 1 in
  (path_ok path ∧ head_byte path = 47 ∧
   ∀ may cwd, Forall (λ y, may y = true) anc → target may root A cwd path = inr p) ∧
  wp (sys_getcwd buf size) (λ r t, settled (s <| user_mem := user_mem t |>) t ∧
    if PAGE_SIZE <? len then r = - ENAMETOOLONG ∧ user_mem t = user_mem s
    else if size <? len then r = - ERANGE ∧ user_mem t = user_mem s
    else r = len ∧ user_bytes (user_mem t) buf len = path ++ [0] ∧
         ∀ a, ¬ (buf ≤ a < buf + len) → user_mem t !! a = user_mem s !! a) s.
Proof.
  intros Hw [C1 (q & anc0 & k0 & l0 & [= <- <-] & Hq & Hpwd) Hpm _] Hn Hr Hmap path len.
  pose proof (walkable_alloc _ _ _ _ _ _ _ Hw Hr) as Hwa. set (s1 := after_alloc s) in *.
  pose proof (chained_spelled _ _ _ C1) as Hs. unfold path, cwd_text in *. set (names := names_up A (p :: anc)) in *.
  destruct (wk_root _ _ _ _ _ _ _ Hw) as (kr & lr & Hroot).
  pose proof (walkable_held _ _ _ _ _ _ _ _ _ (walkable_held _ _ _ _ _ _ _ _ _ Hwa Hroot) Hq) as Hw2.
  destruct (path_text_ok names) as (Hok & En & Hh); [by eapply spelled_names|].
  pose proof (spelled_target _ _ _ _ _ _ _ _ _ _ _ _ Hw Hn Hs Hq) as Htarget.
  assert (∀ um, settled (s <| user_mem := um |>) (s1 <| user_mem := um |>)) as Hset by (intros um; by eapply alloc_settled_user).
  destruct (wk_fs _ _ _ _ _ _ _ Hw) as [F1 F2]. split; [done|].
  unfold sys_getcwd. wp_step. apply wp_alloc; [apply (ti_mem _ _ _ _ _ _ (wk_tree _ _ _ _ _ _ _ Hw))|]. fold s1.
  pose proof (ii_next _ _ (vi_inode _ _ _ (ti_vfs _ _ _ _ _ _ (wk_tree _ _ _ _ _ _ _ Hw)))) as Hpos.
  rewrite (proj2 (Z.eqb_neq (slab_next s) NULL)) by (unfold NULL; lia). wp_step. wp_step.
  change (task_fs (current s1)) with (task_fs (current s)). rewrite Hpwd, Hpm, F1, F2.
  eapply wp_take_refs; [exact Hwa|exact Hq|].
  destruct (spelled_top _ _ _ _ _ _ _ _ _ _ Hw2 Hs) as (d2 & P1 & Htop).
  wp_step. wp_step; [exact P1|].
  assert ((d_parent d2 =? p) || negb (d_unhashed d2) = true) as ->.
  { destruct Htop as [->| ->]; [by rewrite Z.eqb_refl|by rewrite orb_true_r]. }
  assert (s1 = s1 <| user_mem := user_mem s |>) as Es by (unfold s1, after_alloc; kstate_eq).
  assert (Z.of_nat (length (spell names)) ≤ PAGE_SIZE - 1 ↔ Z.of_nat (length (path_text names)) + 1 ≤ PAGE_SIZE) as Hlen.
  { destruct names; [done|]. unfold path_text. lia. }
  wp_step. wp_step. eapply wp_d_path; [exact Hw2|done|done|exact Hs|done|].
  destruct (Z.leb_spec (Z.of_nat (length (spell names))) (PAGE_SIZE - 1)) as [Hle|Hgt];
    [destruct (Z.leb_spec (Z.of_nat (length (path_text names)) + 1) size) as [Hsz|Hsz]|].
  - eapply wp_copy_text; [done|intros a Ha; apply Hmap; lia|]. intros um Hub Hother.
    match goal with |- wp _ _ ?u => change u with (held m p (held m root (s1 <| user_mem := um |>))) end.
    eapply wp_drop_refs; [exact (walkable_user _ _ _ _ _ _ um _ Hwa)|exact Hq|].
    split; [apply Hset|]. unfold len.
    by rewrite (proj2 (Z.ltb_ge _ _)), (proj2 (Z.ltb_ge _ _)) by lia.
  - wp_step. eapply wp_drop_refs; [exact Hwa|exact Hq|]. rewrite Es.
    split; [apply Hset|]. unfold len.
    rewrite (proj2 (Z.ltb_ge _ _)) by lia. by rewrite (proj2 (Z.ltb_lt _ _)) by lia.
  - wp_step. eapply wp_drop_refs; [exact Hwa|exact Hq|]. rewrite Es.
    split; [apply Hset|]. unfold len.
    by rewrite (proj2 (Z.ltb_lt _ _)) by lia.
Qed.

(** C11: getcwd and the walk of a path are inverse to each other.  The text of a
    working directory is made of the names along its chain of ancestors, each
    after a slash.  It is an absolute path of proper names, and its walk leads
    back to the directory, from anywhere and for whoever may search the
    ancestors.  [sys_getcwd] ends without a fault, gives back every reference and
    returns that text: its length with the NUL, and the text in the buffer; it
    returns -ENAMETOOLONG exactly for a text beyond a page, and otherwise -ERANGE
    exactly for a buffer that is too short, and then user memory is as it was. *)
Theorem getcwd_roundtrip dext iext sb root A m s p anc buf size :
  walkable dext iext sb root A m s → cwd_ok A root m (p :: anc) (current s) → well_named A →
  slab_next s + SLAB_STEP ≤ u32 (-1000) → mapped (user_mem s) buf size →
  let path := cwd_text A (p :: anc) in
  let len := Z.of_nat (length path) + 1 in
  (path_ok path ∧ head_byte path = 47 ∧
   ∀ may cwd, Forall (λ y, may y = true) anc → target may root A cwd path = inr p) ∧
  wp (sys_getcwd buf size) (λ r t, settled (s <| user_mem := user_mem t |>) t ∧
    if PAGE_SIZE <? len then r = - ENAMETOOLONG ∧ user_mem t = user_mem s
    else if size <? len then r = - ERANGE ∧ user_mem t = user_mem s
    else r = len ∧ user_bytes (user_mem t) buf len = path ++ [0] ∧
         ∀ a, ¬ (buf ≤ a < buf + len) → user_mem t !! a = user_mem s !! a) s.
Proof. apply wp_sys_getcwd. Qed.
