(* ===== verification/Process.v ===== *)
(** * User programs

    A machine whose steps are the system calls of user programs on the mounted
    tree, and what happens between them: a program writes to its memory, the
    clock goes on, another user logs in.  Whatever the programs do, the kernel
    never follows a wild pointer and the tree keeps its shape. *)

From S2P Require Import Prelude KString Kernel Links Inode InodeInv Dcache DcacheInv DcacheOps Walk.
From S2P Require Import Filesystems Super Mount SuperSpec Libfs LibfsSpec Groups Namei LookupSpec Attr Path Vfs Aufs.
From S2P Require Import Open Stat Calls PermSpec StatSpec AufsSpec AufsCreate AufsTree KernMount PathCount PathNames.
From S2P Require Import PathSpec VfsSpec RenameSpec Typed AufsFile OpenSpec CallSpec AttrSpec CwdSpec.

(** ** States of the machine *)

(** What a file of the tree is for open. *)
Record file_inode (i : inode) : Prop := mkFileInode {
  fi_fop : i_fop i = aufs_file_operations;
  fi_regular : S_ISREG (i_mode i) = true;
  fi_flags : i_flags i = 0;
  fi_cdev : i_cdev i = NULL;
  fi_writers : 0 ≤ i_writecount i
}.

Lemma same_file_inode i i' : same_inode i i' → file_inode i → file_inode i'.
Proof.
  intros [S1 S2 S3 S4 S5 S6 S7 S8 S9 S10 S11 S12 S13 S14] [F1 F2 F3 F4 F5]. split; try congruence.
  unfold S_ISREG, type_of in *. by rewrite S10.
Qed.

Lemma same_plain_inode i i' : same_inode i i' → plain_inode i → plain_inode i'.
Proof.
  intros [S1 S2 S3 S4 S5 S6 S7 S8 S9 S10 S11 S12 S13 S14] [P1 P2]. split; [congruence|].
  unfold S_ISBLK, type_of in *. by rewrite S10.
Qed.

(** What programs may change without a call, and what calls change besides the
    caches: the switch of aufs, user memory, the clock and the task. *)
Definition environ (e : Z) (um : gmap Z Z) (now : Z) (c : task) (s : kstate) : kstate :=
  s <| enabled := e |> <| user_mem := um |> <| current_time := now |> <| current := c |>.

Lemma adj_inode x n s z d : dentries (adj x n s) !! z = Some d → ∃ d0, dentries s !! z = Some d0 ∧ d_inode d0 = d_inode d.
Proof.
  destruct (decide (z = x)) as [->|Hne]; [|rewrite adj_lookup_ne by done; by eauto].
  rewrite adj_lookup_eq, fmap_Some. intros (d0 & Hd0 & ->). by exists d0.
Qed.

Lemma wp_ok {S B} (k : M S B) Q s : wp k Q s → ∃ r t, k s = Ok r t ∧ Q r t.
Proof. unfold wp. destruct (k s) as [r t|]; [by eauto|done]. Qed.

Lemma target_walk may root A cwd path :
  walk_target may A LOOKUP_FOLLOW (start root cwd path) path = target may root A cwd path.
Proof.
  unfold walk_target, target. change (has_flag LOOKUP_FOLLOW LOOKUP_PARENT) with false.
  change (has_flag LOOKUP_FOLLOW LOOKUP_DIRECTORY) with false. by rewrite orb_false_r.
Qed.

Section machine.
Context (special : file_operations → fop_methods) (cdev_put : ptr → KM unit) (iext : refs) (sb root m : ptr).

(** The tree is mounted and walkable; each object has the reference of its
    creation and the working directory one more; the inodes are those of
    directories and files that aufs makes; no file is open at an address that is
    still free. *)
Record running (dext : refs) (A : atree) (cwd : list ptr) (s : kstate) : Prop := mkRunning {
  rn_walk : walkable dext iext sb root A m s;
  rn_cwd : cwd_ok A root m cwd (current s);
  rn_named : well_named A;
  rn_refs x : is_Some (A !! x) → 1 ≤ dext x;
  rn_pwd : 2 ≤ dext (fs_pwd (task_fs (current s)));
  rn_plain x n d i : A !! x = Some n → dentries s !! x = Some d → inodes s !! d_inode d = Some i →
    plain_inode i ∧ (is_adir n = false → file_inode i);
  rn_super b : supers s !! sb = Some b → has_flag (s_flags b) MS_RDONLY = false ∧ Forall (λ f, f < slab_next s) (s_files b);
  rn_files f : is_Some (files s !! f) → f < slab_next s
}.

Lemma walkable_settled dext A s t :
  walkable dext iext sb root A m s → settled s t → slab_next t ≤ u32 (-1000) → walkable dext iext sb root A m t.
Proof.
  intros [Ht Hl Hr Hd Hp Htp Hm0 Hm Hf Htop] Hst Hlow. pose proof (settled_tree _ _ _ _ _ _ _ Ht Hst) as Ht'.
  destruct Hst as (n & h & _ & _ & ->). by split.
Qed.

Lemma running_settled dext A cwd s t :
  running dext A cwd s → settled s t → slab_next t ≤ u32 (-1000) → running dext A cwd t.
Proof.
  intros [R1 R2 R3 R4 R5 R6 R7 R8] Hst Hlow. pose proof (walkable_settled _ _ _ _ R1 Hst Hlow) as Hw.
  destruct Hst as (n & h & Hn & _ & ->). split; try done; simpl.
  - intros b Hb. destruct (R7 b Hb) as [? Hl]. split; [done|]. eapply Forall_impl; [exact Hl|]. simpl. lia.
  - intros f Hf. specialize (R8 f Hf). lia.
Qed.

Lemma walkable_environ dext A e um now c s :
  walkable dext iext sb root A m s → task_fs c = task_fs (current s) →
  walkable dext iext sb root A m (environ e um now c s).
Proof.
  intros [[T1 T2 T3 T4 T5] Hl Hr Hd Hp Htp Hm0 Hm Hf Htop] Ec. split; try done; [|by simpl; rewrite Ec]. split; try done.
  - destruct T1 as [D I]. split; [by apply (dcache_inv_ext _ _ _ _ D)|by apply (inode_inv_ext _ _ _ _ I)].
  - intros y n Hy. destruct (T5 _ _ Hy) as (d & i & [N1 N2 N3 N4 N5 N6] & Hs). exists d, i.
    split; [by split|by destruct n].
Qed.

Lemma running_environ dext A cwd e um now c s :
  running dext A cwd s → task_fs c = task_fs (current s) → running dext A cwd (environ e um now c s).
Proof.
  intros [R1 R2 R3 R4 R5 R6 R7 R8] Ec. split; try done; simpl; [by apply walkable_environ| |by rewrite Ec].
  destruct R2 as [C1 C2 C3 C4]. by split; rewrite ?Ec.
Qed.

(** ** System calls *)

Inductive user_call : Type :=
  | OnName (c : name_call)
  | OnAttr (c : attr_call)
  | Stat64 (name buf : Z)
  | Chdir (name : Z)
  | Getcwd (buf size : Z)
  | Access (name mode : Z)
  | OpenClose (path : bytes) (flags mode : Z)
  | Switch (path : bytes) (mode wbuf count rbuf n : Z).

Definition run_user (c : user_call) : KM Z :=
  match c with
  | OnName c => run_call c
  | OnAttr c => run_attr c
  | Stat64 name buf => sys_stat64 name buf
  | Chdir name => sys_chdir name
  | Getcwd buf size => sys_getcwd buf size
  | Access name mode => sys_access name mode
  | OpenClose path flags mode =>
      f ← filp_open special cdev_put vendored_iop path flags mode;
      if IS_ERR f then mret (PTR_ERR f) else filp_close special cdev_put f
  | Switch path mode wbuf count rbuf n =>
      f ← filp_open special cdev_put vendored_iop path 2 mode;
      if IS_ERR f then mret (PTR_ERR f)
      else
        vfs_write special f wbuf count 0 ;; vfs_read special f rbuf n 0 ;;
        filp_close special cdev_put f
  end.

(** The name of a call is a string in user memory. *)
Definition name_at (name : Z) (s : kstate) : Prop := ∃ path, user_string (user_mem s) name path ∧ path_ok path.

(** The path does not lead to a directory, and the table of files is not full. *)
Definition may_open_path (path : bytes) (s : kstate) : Prop :=
  path_ok path ∧ (nr_files (files_stat s) < max_files (files_stat s) ∨ cap_sys_admin (current s) = true) ∧
  ∀ nd t d i, path_lookup path LOOKUP_FOLLOW nd_init s = Ok (0, nd) t →
    dentries t !! nd_dentry nd = Some d → inodes t !! d_inode d = Some i → S_ISDIR (i_mode i) = false.

(** What the machine asks of a call: paths of bounded components in mapped memory,
    mapped buffers, and addresses left for what the call allocates. *)
Definition call_ok (c : user_call) (s : kstate) : Prop :=
  slab_next s + SLAB_STEP ≤ u32 (-1000) ∧
  match c with
  | OnName c => Forall path_ok (call_paths c)
  | OnAttr c => name_at (attr_name c) s
  | Stat64 name buf => name_at name s ∧ mapped (user_mem s) buf 96
  | Chdir name => name_at name s
  | Getcwd buf size => mapped (user_mem s) buf size
  | Access name mode => name_at name s ∧ 0 ≤ mode < 8
  | OpenClose path flags _ => may_open_path path s ∧ access_flags flags
  | Switch path _ wbuf count rbuf n => may_open_path path s ∧
      area_ok wbuf count 0 ∧ (∃ ch, user_mem s !! wbuf = Some ch ∧ is_byte ch) ∧
      area_ok rbuf n 0 ∧ 20 ≤ n ∧ mapped (user_mem s) rbuf 20
  end.

(** A step is a call that the machine has room for, or something outside the
    kernel: a program writes to its memory, time passes, the task gets other
    identities and capabilities. *)
Inductive step : kstate → kstate → Prop :=
  | step_call c s r s' :
      call_ok c s → run_user c s = Ok r s' → slab_next s' ≤ u32 (-1000) → step s s'
  | step_user um now c s :
      task_fs c = task_fs (current s) → step s (environ (enabled s) um now c s).

(** The tree without the modes of its files. *)
Definition shape (A : atree) : atree := remode 0 <$> A.

Lemma shape_remode A x n md : A !! x = Some n → shape (<[x := remode md n]> A) = shape A.
Proof.
  intros Hx. unfold shape. rewrite fmap_insert. apply insert_id. rewrite lookup_fmap, Hx. by destruct n.
Qed.

(** What a call leaves: a running machine with a tree of the same shape, unless
    addresses ran out. *)
Definition call_post (A : atree) (t : kstate) : Prop :=
  slab_next t ≤ u32 (-1000) → ∃ dext' A' cwd', running dext' A' cwd' t ∧ shape A' = shape A.

Section one_call.
Context (dext : refs) (A : atree) (cwd : list ptr) (s : kstate).
Hypothesis Hrun : running dext A cwd s.
Let Hw := rn_walk _ _ _ _ Hrun.
Let Hcwd := rn_cwd _ _ _ _ Hrun.

Lemma post_settled t : settled s t → call_post A t.
Proof. intros Hst Hlow. exists dext, A, cwd. split; [by eapply running_settled|done]. Qed.

Lemma post_environ e um c t :
  task_fs c = task_fs (current s) → settled (environ e um (current_time s) c s) t → call_post A t.
Proof.
  intros Ec Hst Hlow. exists dext, A, cwd. split; [|done].
  eapply running_settled; [by eapply running_environ|exact Hst|done].
Qed.

Lemma post_user um t : settled (s <| user_mem := um |>) t → call_post A t.
Proof.
  intros Hst. apply (post_environ (enabled s) um (current s)); [done|].
  assert (environ (enabled s) um (current_time s) (current s) s = s <| user_mem := um |>) as -> by (unfold environ; kstate_eq).
  exact Hst.
Qed.

Lemma chained_remode x n md st :
  A !! x = Some n → chained A root st → chained (<[x := remode md n]> A) root st.
Proof.
  intros Hx. assert (∀ p k l, A !! p = Some (ADir k l) → <[x := remode md n]> A !! p = Some (ADir k l)) as Hdir.
  { intros p k l Hp. destruct (decide (p = x)) as [->|]; [|by rewrite lookup_insert_ne].
    rewrite lookup_insert_eq. assert (n = ADir k l) as -> by congruence. done. }
  induction st as [|y st IH]; [done|]. destruct st as [|p st].
  - intros [-> (k & l & Hr)]. split; [done|]. exists k, l. by apply Hdir.
  - intros ((n' & Hy) & (k & l & name & Hp & Hin) & Hch). split_and!; [|exists k, l, name; split; [by apply Hdir|done]|by apply IH].
    destruct (decide (y = x)) as [->|]; [rewrite lookup_insert_eq|rewrite lookup_insert_ne by done]; by eauto.
Qed.

(** Another record of one inode. *)
Lemma post_attr x n i' path t :
  A !! x = Some n → walkable dext iext sb root (<[x := remode (i_mode i') n]> A) m t →
  attr_done root A cwd path s (λ y i j, y = x ∧ j = i' ∧ same_inode i i') t → call_post A t.
Proof.
  intros Hx Hwt (y & d & i & j & _ & Hd & Hi & (-> & -> & Hsame) & (k & h & Hk & _ & ->)) _.
  exists dext, (<[x := remode (i_mode i') n]> A), cwd. split; [|by apply shape_remode].
  pose proof Hrun as [_ [C1 (p & anc & kp & lp & Ec & Hp & Hpwd) C3 C4] R3 R4 R5 R6 R7 R8].
  assert (∀ p k l, <[x := remode (i_mode i') n]> A !! p = Some (ADir k l) ↔ A !! p = Some (ADir k l)) as Hdir.
  { intros. by apply remode_dir. }
  split; [exact Hwt|..]; try done; simpl.
  - split; [by apply chained_remode| |done|done]. exists p, anc, kp, lp. split_and!; [done|by apply Hdir|done].
  - intros q k' l nm z Hq%Hdir. by apply (R3 q k' l).
  - intros z Hz. apply R4. apply lookup_insert_is_Some' in Hz as [->|]; [by eauto|done].
  - intros z n' e i0 Hz He Hi0. simpl in He, Hi0.
    assert (∃ n0, A !! z = Some n0 ∧ is_adir n0 = is_adir n') as (n0 & Hz0 & <-).
    { destruct (decide (z = x)) as [->|Hne]; [|rewrite lookup_insert_ne in Hz by done; by eauto].
      rewrite lookup_insert_eq in Hz. injection Hz as <-. exists n. split; [done|by destruct n]. }
    destruct (decide (d_inode d = d_inode e)) as [E|Hne]; [rewrite <-E, lookup_insert_eq in Hi0|rewrite lookup_insert_ne in Hi0 by done; by eauto].
    injection Hi0 as <-. rewrite E in Hi. destruct (R6 _ _ _ _ Hz0 He Hi) as [P1 P2].
    split; [by eapply same_plain_inode|]. intros Hfile. by eapply same_file_inode, P2.
  - intros b Hb. destruct (R7 b Hb) as [? Hl]. split; [done|]. eapply Forall_impl; [exact Hl|]. simpl in *. lia.
  - intros f Hf. specialize (R8 f Hf). simpl in Hk. lia.
Qed.

(** The working directory moves. *)
Lemma post_pwd p x anc' t :
  fs_pwd (task_fs (current s)) = p → is_Some (A !! x) → settled (pwd_moved m p x s) t →
  walkable (bump x 1 (bump p (-1) dext)) iext sb root A m t → cwd_ok A root m (x :: anc') (current t) → call_post A t.
Proof.
  intros Ep Hx (k & h & Hk & _ & ->) Hwt Hct _. change (slab_next s ≤ k) in Hk. pose proof Hrun as [_ _ R3 R4 R5 R6 R7 R8].
  exists (bump x 1 (bump p (-1) dext)), A, (x :: anc'). split; [|done].
  pose proof Hct as [_ (? & ? & ? & ? & [= <- <-] & _ & Hpwd) _ _].
  assert (∀ z, bump x 1 (bump p (-1) dext) z = dext z + (if decide (z = x) then 1 else 0) + (if decide (z = p) then -1 else 0)) as Eb.
  { intros z. unfold bump. destruct (Z.eqb_spec z x), (Z.eqb_spec z p); repeat case_decide; done || lia. }
  split; [exact Hwt|exact Hct|done|..].
  - intros z Hz. rewrite Eb. specialize (R4 z Hz). rewrite Ep in R5. repeat case_decide; subst; lia.
  - rewrite Hpwd, Eb. rewrite Ep in R5. specialize (R4 x Hx). rewrite decide_True by done. case_decide; subst; lia.
  - intros z n d i Hz Hd Hi. destruct (adj_inode x 1 (adj p (-1) (s <| current ::= with_pwd m x |>)) z d Hd) as (d1 & Hd1 & E1).
    destruct (adj_inode p (-1) (s <| current ::= with_pwd m x |>) z d1 Hd1) as (d0 & Hd0 & E0).
    apply (R6 z n d0); [done|exact Hd0|]. by rewrite E0, E1.
  - intros b Hb. destruct (R7 b Hb) as [? Hl]. split; [done|]. eapply Forall_impl; [exact Hl|]. simpl in *. lia.
  - intros f Hf. specialize (R8 f Hf). simpl. lia.
Qed.

(** A path that a program may open leads to a file of aufs, if to anything. *)
Lemma open_target path :
  may_open_path path s → slab_next s + SLAB_STEP ≤ u32 (-1000) →
  file_room sb s ∧ ∀ x, target (search s) root A cwd path = inr x → ∃ d i b, file_at sb A s x d i b.
Proof.
  intros ([Hp1 Hp2] & Hmax & Hdir) Hroom. pose proof Hrun as [_ _ _ _ _ R6 R7 R8]. split.
  - split; [done|done| |].
    + apply eq_None_not_Some. intros Hf. specialize (R8 _ Hf). lia.
    + intros b Hb Hf. destruct (R7 b Hb) as [_ Hl]. rewrite Forall_forall in Hl. specialize (Hl _ Hf). lia.
  - intros x Ex. rewrite <-target_walk in Ex.
    destruct (walk_target_some _ _ _ _ _ _ _ _ _ _ _ Hw (start_chained _ _ _ _ _ _ _ _ Hw Hcwd path) Ex) as [n Hx].
    destruct (walk_object _ _ _ _ _ _ _ Hw _ _ Hx) as (d & i & [[N1 N2 N3 N4 N5 N6] Hsh _ _ _ _ _ Hi0]).
    pose proof (wp_path_lookup _ _ _ _ _ _ _ _ path LOOKUP_FOLLOW nd_init Hw Hcwd Hp1 Hp2) as Hl.
    apply wp_ok in Hl as ([r nd] & t & El & [Hpost _]). rewrite Ex in Hpost. destruct Hpost as (E0 & Hnd & ->). simpl in E0, Hnd. subst r.
    injection Hnd as _ Hnd. pose proof (held_lookup m x s x d N1) as Eh. rewrite decide_True in Eh by done.
    assert (S_ISDIR (i_mode i) = false) as Hnd' by (eapply Hdir; [exact El|by rewrite Hnd|exact N3]).
    destruct n as [k l|md fops]; [destruct Hsh as (_ & [_ Hd] & _); congruence|]. destruct Hsh as (E1 & E2 & _ & E4).
    destruct (R6 _ _ _ _ Hx N1 N3) as [_ Hfi]. destruct (Hfi eq_refl) as [F1 F2 F3 F4 F5].
    destruct (wk_type _ _ _ _ _ _ _ Hw) as (b & ty & Hb & _). destruct (R7 b Hb) as [Hrw _].
    pose proof (io_sb_nonnull _ _ _ (ii_ok _ _ (vi_inode _ _ _ (ti_vfs _ _ _ _ _ _ (wk_tree _ _ _ _ _ _ _ Hw))) _ _ N3)) as Hsb.
    exists d, i, b, md. split; [congruence|]. split; congruence || done.
Qed.

Lemma attr_plain path x d i :
  target (search s) root A cwd path = inr x → dentries s !! x = Some d → inodes s !! d_inode d = Some i → plain_inode i.
Proof.
  rewrite <-target_walk. intros Ex Hd Hi.
  destruct (walk_target_some _ _ _ _ _ _ _ _ _ _ _ Hw (start_chained _ _ _ _ _ _ _ _ Hw Hcwd path) Ex) as [n Hx].
  by destruct (rn_plain _ _ _ _ Hrun _ _ _ _ Hx Hd Hi).
Qed.

(** A session with a file: it is opened, used and closed. *)
Lemma wp_session path flags mode (act : ptr → KM Z) :
  may_open_path path s → slab_next s + SLAB_STEP ≤ u32 (-1000) → access_flags flags →
  (∀ x d i b, file_at sb A s x d i b → wp (act (slab_next s)) (λ _ t, call_post A t) (open_state sb m s flags x d)) →
  wp (f ← filp_open special cdev_put vendored_iop path flags mode;
      if IS_ERR f then mret (PTR_ERR f) else act f) (λ _ t, call_post A t) s.
Proof.
  intros Hmay Hroom Hfl Hact. destruct (open_target path Hmay Hroom) as [Hfr Hfile]. destruct Hmay as [Hpath _].
  assert (∀ e (t : kstate), (e = ENOENT ∨ e = ENOTDIR ∨ e = EACCES) → settled s t →
    wp (if IS_ERR (ERR_PTR (- e)) then mret (PTR_ERR (ERR_PTR (- e))) else act (ERR_PTR (- e))) (λ _ t, call_post A t) t) as Herr.
  { intros e t He Hst. assert (IS_ERR (ERR_PTR (- e)) = true) as -> by (by destruct He as [->|[->| ->]]).
    wp_run. by apply post_settled. }
  wp_step. apply (wp_filp_open _ _ dext iext sb root A m s cwd Hw Hcwd Hfr path flags Hpath Hfl); [done|..].
  - intros e t Ee Hst. apply Herr; [|done]. exact (atop_error _ _ _ _ _ _ Ee).
  - intros x d i b _ Hat _. rewrite not_err by apply (wk_low _ _ _ _ _ _ _ Hw). by eapply Hact.
  - intros x d i b t _ _ _ Hst. apply Herr; [auto|done].
Qed.

Lemma wp_close_session flags x d i b e um c :
  file_at sb A s x d i b → file_room sb s → task_fs c = task_fs (current s) →
  wp (filp_close special cdev_put (slab_next s)) (λ _ t, call_post A t) (user_change e um c (open_state sb m s flags x d)).
Proof.
  intros Hat Hfr Ec. eapply (wp_close_path _ _ dext iext sb root A m s Hw Hfr); [exact Hat|].
  intros t Hst. apply (post_environ e um c); [done|].
  assert (environ e um (current_time s) c s = user_change e um c s) as -> by (unfold environ, user_change; kstate_eq). done.
Qed.

Lemma same_task_fs c c' : same_task c c' → task_fs c' = task_fs c.
Proof. by intros (? & ? & ? & ? & ->). Qed.

Lemma wp_use_switch x d i b wbuf count ch rbuf n :
  file_at sb A s x d i b → file_room sb s →
  area_ok wbuf count 0 → user_mem s !! wbuf = Some ch → is_byte ch →
  area_ok rbuf n 0 → 20 ≤ n → mapped (user_mem s) rbuf 20 →
  wp (vfs_write special (slab_next s) wbuf count 0 ;; vfs_read special (slab_next s) rbuf n 0 ;;
      filp_close special cdev_put (slab_next s)) (λ _ t, call_post A t) (open_state sb m s 2 x d).
Proof.
  intros Hat Hfr Ha1 Hch Hb Ha2 Hn Hm. destruct (open_state_on sb A m s 2 x d i b Hat) as (fl & i0 & Hon & _ & _ & Hmode & _).
  assert (user_mem (open_state sb m s 2 x d) = user_mem s ∧ current (open_state sb m s 2 x d) = current s)
    as (E2 & E3) by (split; reflexivity).
  pose proof (λ e um c, wp_close_session 2 x d i b e um c Hat Hfr) as Hclose.
  generalize dependent (open_state sb m s 2 x d). intros u Hon E2 E3 Hclose. set (on := if ch =? 48 then 0 else 1).
  wp_step. eapply wp_vfs_write; [exact Hon|exact Ha1|by rewrite Hmode|by rewrite E2|done|]. intros c1 Hc1. fold on.
  wp_step. eapply wp_vfs_read; [apply open_on_change; exact Hon|exact Ha2|by rewrite Hmode|simpl; by rewrite E2|done|].
  intros um c2 Hc2 _. change (current (user_change on (user_mem u) c1 u)) with c1 in Hc2.
  change (user_change (enabled (user_change on (user_mem u) c1 u)) um c2 (user_change on (user_mem u) c1 u))
    with (user_change on um c2 u).
  apply same_task_fs in Hc1, Hc2. apply Hclose. by rewrite Hc2, Hc1, E3.
Qed.

(** Every call ends without a fault, and the machine runs on. *)
Lemma wp_run_user c : call_ok c s → wp (run_user c) (λ _ t, call_post A t) s.
Proof.
  intros [Hroom Hok]. pose proof Hcwd as [_ (p & anc & kp & lp & Ec & Hp & Hpwd) _ _].
  pose proof Hcwd as Hc. rewrite Ec in Hc.
  destruct c as [c|c|name buf|name|buf size|name mode|path flags mode|path mode wbuf count rbuf n]; simpl in Hok |- *.
  - eapply wp_mono; [by eapply wp_run_call|]. intros r t [_ Hst]. by apply post_settled.
  - destruct Hok as (path & Hn & Hpath). eapply wp_mono.
    + eapply (wp_run_attr dext iext sb root A m s cwd); try done. intros x d i. apply attr_plain.
    + intros r t [_ [Hst|(x & n & i' & Hx & Hwt & Hd)]]; [by apply post_settled|by eapply post_attr].
  - destruct Hok as [(path & Hn & Hpath) Hm]. eapply wp_mono; [by eapply wp_sys_stat64|]. intros r t.
    destruct (target _ _ _ _ _); [intros [_ Hst]; by apply post_settled|]. intros (_ & Hst & _). by eapply post_user.
  - destruct Hok as (path & Hn & Hpath). eapply wp_mono; [eapply (wp_sys_chdir _ _ _ _ _ _ _ p anc); try done; rewrite <-Hpwd; apply (rn_pwd _ _ _ _ Hrun)|].
    intros r t. destruct (enter _ _) as [e|x]; [intros [_ Hst]; by apply post_settled|]. intros (_ & Hst & Hwt & anc' & Hct).
    pose proof Hct as [_ (? & ? & k & l & [= <- <-] & Hx & _) _ _]. by eapply post_pwd.
  - eapply wp_mono; [eapply (wp_sys_getcwd _ _ _ _ _ _ _ p anc); try done; apply (rn_named _ _ _ _ Hrun)|]. intros r t [Hst _]. by eapply post_user.
  - destruct Hok as [(path & Hn & Hpath) Hm]. eapply wp_mono; [by eapply wp_sys_access|]. intros r t [Hst _]. by apply post_settled.
  - destruct Hok as [Hmay Hfl]. apply wp_session; [done..|]. intros x d i b Hat. destruct (open_target path Hmay Hroom) as [Hfr _].
    rewrite <-(user_change_id (enabled s) (user_mem s) (current s) (open_state _ _ _ _ _ _)) by reflexivity.
    by eapply wp_close_session.
  - destruct Hok as (Hmay & Ha1 & (ch & Hch & Hb) & Ha2 & Hn & Hm). apply wp_session; [done|done|by right; right|].
    intros x d i b Hat. destruct (open_target path Hmay Hroom) as [Hfr _]. by eapply wp_use_switch.
Qed.
End one_call.

Lemma step_running dext A cwd s t :
  running dext A cwd s → step s t → ∃ dext' A' cwd', running dext' A' cwd' t ∧ shape A' = shape A.
Proof.
  intros Hr Hs. destruct Hs as [c s r t Hok Hrun Hlow|um now c s Ec].
  - pose proof (wp_run_user _ _ _ _ Hr c Hok) as Hwp. unfold wp in Hwp. rewrite Hrun in Hwp. by apply Hwp.
  - exists dext, A, cwd. split; [by apply running_environ|done].
Qed.

Lemma steps_running dext A cwd s t :
  running dext A cwd s → rtc step s t → ∃ dext' A' cwd', running dext' A' cwd' t ∧ shape A' = shape A.
Proof.
  intros Hr Hs. revert dext A cwd Hr. induction Hs as [s|s s1 t H1 _ IH]; intros dext A cwd Hr; [by exists dext, A, cwd|].
  destruct (step_running _ _ _ _ _ Hr H1) as (dext1 & A1 & cwd1 & Hr1 & E1).
  destruct (IH _ _ _ Hr1) as (dext2 & A2 & cwd2 & Hr2 & E2). exists dext2, A2, cwd2. split; [done|congruence].
Qed.

End machine.
