(* ===== verification/Boot.v ===== *)
(** * A concrete kernel

    A small booted machine on which the whole program runs inside the kernel's
    reduction. *)

From S2P Require Import Prelude KString Kernel Filesystems Inode Dcache Super Mount Libfs Namei Aufs.
From S2P Require Import KernMount.

(** ** The machine *)

(** An inode fresh from the slab cache holds what its last user left. *)
Definition stale_inode : inode := {|
  i_hash := Unlinked; i_list := OnNone; i_sb_list := NULL; i_dentry := [];
  i_ino := 77; i_count := 0; i_mode := 33188; i_nlink := 0; i_uid := 1000;
  i_gid := 1000; i_rdev := 0; i_size := 4242; i_atime := 11; i_mtime := 12;
  i_ctime := 13; i_blkbits := 12; i_blksize := 4096; i_blocks := 8; i_bytes := 0;
  i_op := empty_iops; i_fop := empty_fops; i_sb := NULL; i_nrpages := 0;
  i_bdev := NULL; i_cdev := NULL; i_generation := 0; i_state := I_CLEAR;
  i_flags := 0; i_writecount := 0; i_private := 0
|}.

Definition root_task : task := {|
  uid := 0; gid := 0; cap_permitted := mkCaps true true true true true true true true;
  fsuid := 0; fsgid := 0; groups := []; cap_dac_override := true;
  cap_dac_read_search := true; cap_fowner := true; cap_chown := true; cap_fsetid := true;
  cap_mknod := true; cap_sys_admin := true; cap_sys_chroot := true; rlim_fsize := None;
  rchar := 0; wchar := 0; syscr := 0; syscw := 0; task_fds := replicate 4 NULL;
  task_fs := mkFs 18 NULL NULL NULL NULL NULL NULL
|}.

Definition boot_state : kstate := {|
  inodes := ∅; dentries := ∅; supers := ∅; mounts := ∅;
  fstypes := {[ aufs_type := aufs_type_init ]};
  files := ∅; modules := ∅; user_mem := ∅;
  slab_next := 3238002688; (* 0xC1000000 *)
  slab_fail := []; slab_inode := stale_inode; slab_iname := [];
  file_systems := NULL;
  dentry_hashtable := ∅; d_hash_shift := 10; d_hash_mask := 1023;
  dentry_unused := []; nr_dentry := 0; nr_unused_dentry := 0;
  inode_in_use := []; inode_unused := []; inode_hashtable := ∅;
  i_hash_shift := 10; i_hash_mask := 1023; nr_inodes := 0; nr_unused_inode := 0;
  last_ino := 0; iunique_counter := 0;
  mount_hashtable := ∅; mnt_hash_bits := 9; mnt_hash_mask := 511;
  super_blocks := []; unnamed_dev_idr := ∅;
  current := root_task; current_time := 1000; resched := []; klog := [];
  aufs_mount := NULL; enabled := 1; files_stat := mkFilesStat 0 8192 0
|}.

(** ** The module on this machine *)

(** The paths below a dentry, by a walk over its children. *)
Fixpoint paths (depth : nat) (s : kstate) (prefix : bytes) (x : ptr) : list bytes :=
  match depth, dentries s !! x with
  | S n, Some d =>
      mjoin ((λ c, match dentries s !! c with
                   | Some cd => let p := prefix ++ cstr "/" ++ d_name cd in p :: paths n s p c
                   | None => []
                   end) <$> d_subdirs d)
  | _, _ => []
  end.

(** What the mount of the module shows. *)
Definition mounted_paths (s : kstate) : list bytes :=
  match mounts s !! aufs_mount s with
  | Some m => paths 3 s [] (mnt_root m)
  | None => []
  end.

Definition run {A} (m : KM A) (s : kstate) : kstate :=
  match m s with Ok _ s' => s' | Fault _ => s end.

(** The machine after the module was mounted and before it created anything,
    and after it was loaded. *)
Definition mounted : kstate :=
  run (m ← (register_filesystem aufs_type ;; kern_mount_v aufs_type);
       modify (λ s, s <| aufs_mount := m |>)) boot_state.
Definition loaded : kstate := run aufs_init_v boot_state.

(** On the booted machine loading the module returns 0 and shows the two
    directories with their three files each, most recent first. *)
Lemma boot_load :
  aufs_init_v boot_state = Ok 0 loaded ∧
  mounted_paths loaded = cstr <$>
    ["/man_star"; "/man_star/jw"; "/man_star/lcw"; "/man_star/ldh";
     "/woman_star"; "/woman_star/lj1"; "/woman_star/fbb"; "/woman_star/lbb"]%string.
Proof. split; vm_compute; reflexivity. Qed.
