(* ===== verification/Witnesses.v ===== *)
(** * The theorems at work

    Every theorem with hypotheses, applied to the machine of Boot.v: each
    hypothesis holds there, by evaluation. *)

From stdpp Require Import relations.
From S2P Require Import Prelude KString Kernel Links Inode InodeInv Dcache DcacheInv DcacheOps Prune Walk Shrink.
From S2P Require Import VfsCheck Filesystems Super Mount Libfs LibfsSpec Groups Namei LookupSpec.
From S2P Require Import Aufs AufsSpec AufsCreate AufsTree FillSuper KernMount Unmount TreeCheck AufsInit Unload.
From S2P Require Import AufsFile Boot.

(** ** Concrete objects *)

Definition dentry_at (s : kstate) (x : ptr) : dentry :=
  default (child_dentry (key []) [] NULL NULL) (dentries s !! x).
Definition inode_at (s : kstate) (x : ptr) : inode := default stale_inode (inodes s !! x).
Definition child_of (s : kstate) (p : ptr) (n : nat) : ptr :=
  default NULL (d_subdirs (dentry_at s p) !! n).
Definition sb_of (s : kstate) : ptr :=
  match mounts s !! aufs_mount s with Some m => mnt_sb m | None => NULL end.
Definition root_of (s : kstate) : ptr :=
  match mounts s !! aufs_mount s with Some m => mnt_root m | None => NULL end.

Definition root : ptr := Eval vm_compute in root_of mounted.
Definition sb : ptr := Eval vm_compute in sb_of mounted.
Definition man_star : ptr := Eval vm_compute in child_of loaded root 0.
Definition woman_star : ptr := Eval vm_compute in child_of loaded root 1.
Definition jw : ptr := Eval vm_compute in child_of loaded man_star 0.
Definition root_inode : ptr := Eval vm_compute in d_inode (dentry_at loaded root).
Definition jw_inode : ptr := Eval vm_compute in d_inode (dentry_at loaded jw).

(** The trees of the two machines. *)
Definition mounted_tree : atree := {[root := ADir 1 []]}.
Definition dir_entries (x : ptr) : list (bytes * ptr) :=
  (λ c, (d_name (dentry_at loaded c), c)) <$> d_subdirs (dentry_at loaded x).
Definition loaded_tree : atree :=
  {[root := ADir 3 (dir_entries root); man_star := ADir 2 (dir_entries man_star);
    woman_star := ADir 2 (dir_entries woman_star)]} ∪
  list_to_map ((λ e, (e.2, star_file)) <$> (dir_entries man_star ++ dir_entries woman_star)).

Lemma mounted_vfs : vfs_inv (dext_of mounted) (iext_of mounted) mounted.
Proof. apply vfs_check_sound. vm_compute. reflexivity. Qed.
Lemma loaded_vfs : vfs_inv (dext_of loaded) (iext_of loaded) loaded.
Proof. apply vfs_check_sound. vm_compute. reflexivity. Qed.
Lemma mounted_holds_tree :
  tree_inv (dext_of mounted) (iext_of mounted) sb root mounted_tree mounted.
Proof. apply (tree_check_sound (λ t i, may_exec t i =? 0) _ search_sound). vm_compute. reflexivity. Qed.
Lemma loaded_holds_tree :
  tree_inv (dext_of loaded) (iext_of loaded) sb root loaded_tree loaded.
Proof. apply (tree_check_sound (λ t i, may_exec t i =? 0) _ search_sound). vm_compute. reflexivity. Qed.

(** Decide a closed proposition by evaluation. *)
Ltac evaluate :=
  lazymatch goal with
  | |- ?P => refine (bool_decide_eq_true_1 P _); vm_compute; reflexivity
  end.
Ltac compute_refl := vm_compute; reflexivity.

(** ** The table of file systems *)

Definition registered : kstate := run (register_filesystem aufs_type) boot_state.

Lemma aufs_cstring : cstring (cstr "aufs").
Proof. vm_compute. repeat constructor; done. Qed.

Lemma boot_table : fs_table boot_state [].
Proof. split; [constructor|constructor|constructor|constructor]. Qed.

Lemma registered_type : fstypes registered !! aufs_type = Some aufs_type_init.
Proof. compute_refl. Qed.

Lemma registered_table : fs_table registered [aufs_type].
Proof.
  split.
  - split; [compute_refl|]. split; [done|]. exists aufs_type_init. split; [exact registered_type|done].
  - apply NoDup_singleton.
  - constructor; [|constructor]. unfold name_of. rewrite registered_type. exact aufs_cstring.
  - apply NoDup_singleton.
Qed.

Lemma register_filesystem_witness :
  wp (register_filesystem aufs_type) (λ r s', r = 0 ∧ fs_table s' [aufs_type]) boot_state.
Proof.
  eapply wp_mono.
  - apply (register_filesystem_spec boot_state [] aufs_type aufs_type_init);
      [exact boot_table|done|compute_refl|done|exact aufs_cstring].
  - intros r s'. rewrite bool_decide_false by apply not_elem_of_nil.
    intros (-> & Ht & _). by split.
Defined.

Lemma unregister_filesystem_witness :
  wp (unregister_filesystem aufs_type) (λ r s', r = 0 ∧ fs_table s' []) registered.
Proof.
  eapply wp_mono.
  - apply (unregister_filesystem_spec registered [aufs_type] aufs_type). exact registered_table.
  - intros r s'. rewrite bool_decide_true by (by apply list_elem_of_singleton).
    intros (-> & Ht & _). by split.
Defined.

Lemma register_unregister_witness :
  wp (r1 ← register_filesystem aufs_type; r2 ← unregister_filesystem aufs_type; mret (r1, r2))
     (λ r s', r = (0, 0) ∧ fs_table s' [] ∧ fs_next <$> fstypes s' !! aufs_type = Some NULL)
     boot_state.
Proof.
  apply (register_unregister boot_state [] aufs_type aufs_type_init);
    [exact boot_table|done|compute_refl|done|exact aufs_cstring|apply not_elem_of_nil].
Defined.

(** ** The caches *)

(** An inode that only the caller of [new_inode] references. *)
Definition one_inode : kstate := run (new_inode sb) mounted.
Definition lone : ptr := Eval vm_compute in slab_next mounted.

Lemma one_inode_vfs : vfs_inv (dext_of one_inode) (iext_of one_inode) one_inode.
Proof. apply vfs_check_sound. vm_compute. reflexivity. Qed.

Lemma iput_witness :
  wp (iput lone) (λ _ s', inode_inv (bump lone (-1) (iext_of one_inode)) s' ∧
    inodes s' = inodes mounted) one_inode.
Proof.
  eapply wp_mono.
  - apply (iput_correct (iext_of one_inode) lone (inode_at one_inode lone) one_inode);
      [apply one_inode_vfs|compute_refl|compute_refl].
  - intros r s' (Hi & _ & E). split; [exact Hi|].
    replace (i_count (inode_at one_inode lone) =? 1) with true in E by compute_refl.
    replace (drop_frees one_inode (inode_at one_inode lone)) with true in E by compute_refl.
    rewrite E. compute_refl.
Defined.

Definition sb_spec : { b | supers mounted !! sb = Some b }.
Proof. eexists. vm_compute. reflexivity. Defined.
Definition the_sb : super_block := proj1_sig sb_spec.

Lemma new_inode_witness :
  wp (new_inode sb) (λ x s', x = lone ∧ inode_inv (first_ref x (iext_of mounted)) s') mounted.
Proof.
  eapply wp_mono.
  - apply (new_inode_correct (iext_of mounted) sb the_sb mounted);
      [apply mounted_vfs|compute_refl|done].
  - intros x s'. replace (alloc_fails mounted) with false by compute_refl.
    intros (-> & Hi & _). by split.
Defined.

Lemma dput_witness :
  wp (dput jw) (λ _ s', vfs_inv (bump jw (-1) (dext_of loaded)) (iext_of loaded) s' ∧
    ∃ d', dentries s' = <[jw := d']> (dentries loaded) ∧ d_count d' = 1) loaded.
Proof.
  eapply wp_mono.
  - apply (dput_correct (dext_of loaded) (iext_of loaded) jw (dentry_at loaded jw) loaded);
      [exact loaded_vfs|compute_refl|compute_refl].
  - intros _ s' (Hv & _ & _ & _ & E). split; [exact Hv|].
    replace (d_count (dentry_at loaded jw)) with 2 in E by compute_refl. exact E.
Defined.

(** A hashed dentry without methods and without references waits on the LRU
    list. *)
Definition idle : kstate :=
  run (x ← d_alloc root (key (cstr "x")); d_rehash x ;; dput x) loaded.

Lemma idle_vfs : vfs_inv (dext_of idle) (iext_of idle) idle.
Proof. apply vfs_check_sound. compute_refl. Qed.

Lemma prune_dcache_witness :
  length (dentry_unused idle) = 1%nat ∧
  wp (prune_dcache 2) (λ _ s', vfs_inv (dext_of idle) (iext_of idle) s' ∧
    is_Some (dentries s' !! jw)) idle.
Proof.
  split; [compute_refl|]. eapply wp_mono.
  - apply (prune_dcache_correct (dext_of idle) (iext_of idle) 2 idle); exact idle_vfs.
  - intros _ s' (Hv & _ & _ & Hs). split; [exact Hv|].
    apply Hs; [compute_refl|]. exists (dentry_at idle jw). compute_refl.
Defined.

Lemma shrink_dcache_sb_witness :
  length (dentry_unused idle) = 1%nat ∧
  wp (shrink_dcache_sb sb) (λ _ s',
    ∀ x d, x ∈ dentry_unused s' → dentries s' !! x = Some d → d_sb d ≠ sb) idle.
Proof.
  split; [compute_refl|]. eapply wp_mono.
  - apply (shrink_dcache_sb_correct (dext_of idle) (iext_of idle) sb idle); exact idle_vfs.
  - intros _ s' (_ & _ & _ & Hs). exact Hs.
Defined.

(** A check of all dentries but one. *)
Definition below_all (s : kstate) (r : ptr) (p : ptr → bool) : bool :=
  forallb (λ zd, (zd.1 =? r) || p zd.1) (map_to_list (dentries s)).

Lemma below_all_sound dext iext s r p z :
  vfs_inv dext iext s → is_root s r → below_all s r p = true → tc (child s) r z → p z = true.
Proof.
  intros [Hd _] Hr Hall Hz. assert (z ≠ r) as Hne by (intros ->; by eapply below_acyclic).
  apply tc_last in Hz as (y & _ & Hc). destruct (child_dentry_facts _ _ _ _ Hd Hc) as (d & Hz & _).
  unfold below_all in Hall. rewrite forallb_forall in Hall.
  specialize (Hall (z, d)). rewrite <-list_elem_of_In, elem_of_map_to_list in Hall.
  specialize (Hall Hz). simpl in Hall. apply orb_true_iff in Hall as [E|E]; [|done].
  by apply Z.eqb_eq in E.
Qed.

Lemma idle_root : dentries idle !! root = Some (dentry_at idle root) ∧ d_parent (dentry_at idle root) = root.
Proof. split; compute_refl. Qed.

Lemma shrink_parent_witness :
  length (dentry_unused idle) = 1%nat ∧
  wp (shrink_dcache_parent root) (λ _ s', is_Some (dentries s' !! jw)) idle.
Proof.
  split; [compute_refl|]. eapply wp_mono.
  - apply (shrink_dcache_parent_correct (dext_of idle) (iext_of idle) root (dentry_at idle root) idle);
      [exact idle_vfs|apply idle_root|apply idle_root|compute_refl].
  - intros _ s' (_ & _ & Hs & _). apply Hs; [compute_refl|]. exists (dentry_at idle jw). compute_refl.
Defined.

(** The loaded machine, had each creation given up the reference of its lookup. *)
Definition tidied : kstate :=
  run (mfor (filter (λ z, z ≠ root) (map_to_list (dentries loaded)).*1) dput) loaded.

Lemma tidied_vfs : vfs_inv (dext_of tidied) (iext_of tidied) tidied.
Proof. apply vfs_check_sound. compute_refl. Qed.

Lemma tidied_root :
  dentries tidied !! root = Some (dentry_at tidied root) ∧ d_parent (dentry_at tidied root) = root.
Proof. split; compute_refl. Qed.

Lemma tidied_below z :
  tc (child tidied) root z → live tidied z = true ∧ dext_of tidied z = 1.
Proof.
  assert (is_root tidied root) as Hr by (exists (dentry_at tidied root); apply tidied_root).
  intros Hz. split.
  - apply (below_all_sound _ _ tidied root (live tidied) z tidied_vfs Hr); [compute_refl|done].
  - apply Z.eqb_eq. apply (below_all_sound _ _ tidied root (λ z, dext_of tidied z =? 1) z tidied_vfs Hr);
      [compute_refl|done].
Qed.

Lemma jw_below : tc (child tidied) root jw.
Proof.
  apply tc_l with man_star; [|apply tc_once]; apply list_elem_of_lookup_2 with 0%nat; compute_refl.
Qed.

(** Then killing the litter would free it. *)
Lemma litter_tree_witness :
  wp (d_genocide root ;; shrink_dcache_parent root) (λ _ s', dentries s' !! jw = None) tidied.
Proof.
  eapply wp_mono.
  - apply (litter_tree (dext_of tidied) (iext_of tidied) root (dentry_at tidied root) tidied);
      [exact tidied_vfs|apply tidied_root|apply tidied_root|compute_refl|].
    intros z Hz. destruct (tidied_below z Hz) as [Hlive Hone]. split; [exact Hlive|]. rewrite Hone. lia.
  - intros _ s' (l & Hl & _ & _ & _ & _ & Hone). apply Hone.
    + intros z Hz. exact (proj2 (tidied_below z (proj1 (Hl z) Hz))).
    + exact (proj2 (Hl jw) jw_below).
Defined.

Lemma d_alloc_witness :
  wp (d_alloc root (key (cstr "x"))) (λ x s', x = slab_next loaded ∧
    vfs_inv (first_ref x (dext_of loaded)) (iext_of loaded) s') loaded.
Proof.
  eapply wp_mono.
  - apply (d_alloc_correct (dext_of loaded) (iext_of loaded) root (dentry_at loaded root)
             (key (cstr "x")) loaded); [exact loaded_vfs|compute_refl|evaluate].
  - intros x s'. replace (d_alloc_ok (key (cstr "x")) loaded) with true by compute_refl.
    intros (-> & Hv & _). by split.
Defined.

Lemma d_lookup_witness :
  wp (d_lookup root (key (cstr "man_star"))) (λ r s',
    r = NULL ∨ r ≠ NULL ∧ vfs_inv (bump r 1 (dext_of loaded)) (iext_of loaded) s') loaded.
Proof.
  eapply wp_mono.
  - apply (d_lookup_correct (dext_of loaded) (iext_of loaded) root (dentry_at loaded root)
             (key (cstr "man_star")) loaded); [exact loaded_vfs|compute_refl].
  - intros r s' [(-> & _)|(Hr & d & b & _ & _ & _ & Hv & _)]; [by left|by right].
Defined.

(** No hashed dentry has the name: a test. *)
Definition absent_check (s : kstate) (p : ptr) (name : qstr) : bool :=
  all_check (λ _ d, negb (named p name d) || bool_decide (d_hash_node d = Unlinked)) (dentries s).

Lemma absent_check_sound s p name :
  absent_check s p name = true → lookup_spec s p name NULL.
Proof.
  intros Hc. unfold lookup_spec. rewrite decide_True by done. intros x d b Hx Hb.
  pose proof (all_check_sound _ _ _ _ Hc Hx) as Hd. simpl in Hd. rewrite Hb in Hd.
  by destruct (named p name d).
Qed.

(** A dentry that is not hashed yet. *)
Definition named_x : kstate := run (d_alloc root (key (cstr "x"))) loaded.
Definition dentry_x : ptr := Eval vm_compute in slab_next loaded.

Lemma named_x_vfs : vfs_inv (dext_of named_x) (iext_of named_x) named_x.
Proof. apply vfs_check_sound. vm_compute. reflexivity. Qed.

Lemma d_rehash_lookup_witness :
  wp (d_rehash dentry_x ;; d_lookup root (key (cstr "x"))) (λ r s',
    r = dentry_x ∧ vfs_inv (bump dentry_x 1 (dext_of named_x)) (iext_of named_x) s') named_x.
Proof.
  apply (d_rehash_lookup (dext_of named_x) (iext_of named_x) dentry_x (dentry_at named_x dentry_x)
           root (dentry_at named_x root) (key (cstr "x")) named_x);
    [exact named_x_vfs|compute_refl..|]. apply absent_check_sound. compute_refl.
Defined.

Lemma d_drop_hides_witness :
  wp (__d_drop jw ;; d_lookup man_star (key (cstr "jw"))) (λ r s', r ≠ jw ∧
    ∃ dext', vfs_inv dext' (iext_of loaded) s') loaded.
Proof.
  apply (d_drop_hides (dext_of loaded) (iext_of loaded) jw (dentry_at loaded jw) man_star
           (dentry_at loaded man_star) (key (cstr "jw")) loaded); [exact loaded_vfs|compute_refl..].
Defined.

(** ** Lookup *)

Lemma proper_x : proper (cstr "x").
Proof. split; [split_and!|]; [vm_compute; repeat constructor; done|done|evaluate|done]. Qed.
Lemma proper_man_star : proper (cstr "man_star").
Proof. split; [split_and!|]; [vm_compute; repeat constructor; done|done|evaluate|done]. Qed.

Lemma component_hash_witness :
  end_name_hash (name_hash_loop (cstr "man_star") 8 init_name_hash) =
    full_name_hash (cstr "man_star") 8.
Proof. apply (component_hash_full (cstr "man_star")). apply proper_man_star. Defined.

Lemma root_dir_ok : dir_ok loaded root (dentry_at loaded root) (inode_at loaded root_inode).
Proof. split; [compute_refl|evaluate|compute_refl|compute_refl]. Qed.

Lemma lookup_one_len_witness :
  wp (lookup_one_len (cstr "x") root 1) (λ r s', may_exec (current loaded)
        (inode_at loaded root_inode) = 0 ∧ ∃ dext', vfs_inv dext' (iext_of loaded) s') loaded.
Proof.
  eapply wp_mono.
  - apply (lookup_one_len_correct (dext_of loaded) (iext_of loaded) (cstr "x") root
      (dentry_at loaded root) (inode_at loaded root_inode) loaded);
      [exact loaded_vfs|exact root_dir_ok|apply proper_x..].
  - intros r s' [(Hno & _)|[He [(d & b & _ & _ & _ & Hv & _)|[_ [(_ & _ & Hv & _)|(_ & _ & Hv & _)]]]]];
      [destruct Hno; compute_refl|(split; [exact He|eexists; exact Hv])..].
Defined.

(** ** Directories and buffers *)

(** The root opened for reading, by a caller that collects names. *)
Definition a_file : ptr := 4096.
Definition opened : kstate :=
  run (dcache_dir_open root_inode a_file)
    (loaded <| files := {[ a_file := mkFile NULL root NULL (Some simple_dir_operations) 1 0 1 0 0 0 0 0 ]} |>).
Definition file_spec : { f | files opened !! a_file = Some f }.
Proof. eexists. vm_compute. reflexivity. Defined.
Definition collect (l : list bytes) (name : bytes) (len off ino t : Z) : list bytes * Z :=
  (l ++ [name], 0).

Lemma readdir_witness :
  wp (dcache_readdir collect a_file []) (λ names _,
    names = cstr <$> ["."; ".."; "man_star"; "woman_star"]%string) opened.
Proof.
  eapply wp_mono.
  - apply (dcache_readdir_lists collect (λ _ _ _ _ _ _, Z.le_refl 0) opened a_file
      (proj1_sig file_spec) root (dentry_at opened root) (inode_at opened root_inode)
      (dentry_at opened root) (inode_at opened root_inode) dentry_x []);
      [compute_refl..|evaluate|evaluate|].
    apply Forall_forall. intros x Hx. exists (dentry_at opened x).
    replace (list_del dentry_x (d_subdirs (dentry_at opened root))) with [man_star; woman_star]
      in Hx by compute_refl.
    rewrite !elem_of_cons, elem_of_nil in Hx.
    destruct Hx as [->|[->|[]]]; (split; [compute_refl|right; evaluate]).
  - intros names s' (-> & _). compute_refl.
Defined.

(** Memory of a task: 32 bytes, the first of which is the digit 0. *)
Definition user_page : gmap Z Z := list_to_map ((λ i, (Z.of_nat i, 48)) <$> seq 4096 32).
Definition with_user (s : kstate) : kstate := s <| user_mem := user_page |>.

Lemma user_mapped to n : 4096 ≤ to → to + n ≤ 4128 → mapped user_page to n.
Proof.
  intros H1 H2 a Ha. assert (Z.of_nat (Z.to_nat a) = a) as E by lia. exists 48. rewrite <-E.
  apply elem_of_list_to_map.
  - rewrite <-list_fmap_compose. apply NoDup_fmap; [intros ??; simpl; lia|apply NoDup_seq].
  - apply list_elem_of_fmap. exists (Z.to_nat a). split; [done|]. apply elem_of_seq. lia.
Qed.

Lemma read_from_buffer_witness :
  wp (simple_read_from_buffer 4100 8 2 (cstr "aufs read enabled") 17)
    (λ r _, r = (8, 10)) (with_user loaded).
Proof.
  eapply wp_mono.
  - apply (read_from_buffer_correct 4100 8 2 (cstr "aufs read enabled") (with_user loaded)); done.
  - intros r s' (_ & _ & _ & H). destruct H as [-> _]; [done|apply user_mapped; done|done].
Defined.

Lemma read_in_chunks_witness :
  wp (read_all (λ pos, simple_read_from_buffer 4100 5 pos (cstr "aufs read enabled") 17) 4100 18 0)
    (λ r _, r = Some (cstr "aufs read enabled")) (with_user loaded).
Proof.
  eapply wp_mono.
  - apply (read_in_chunks 4100 5 (cstr "aufs read enabled") (with_user loaded));
      [done..|by apply user_mapped].
  - by intros r s' [-> _].
Defined.

Lemma write_then_read_witness :
  wp (aufs_file_write a_file 4096 1 0 ;; read_all (aufs_file_read a_file 4100 7) 4100 21 0)
    (λ r s', r = Some (cstr "aufs read disabled\n") ∧ enabled s' = 0) (with_user loaded).
Proof.
  apply (write_then_read a_file a_file 4096 48 1 0 4100 7 21 (with_user loaded));
    [compute_refl|done|done|by apply user_mapped|lia].
Defined.

(** ** Groups *)

Lemma groups_search_witness : groups_search (groups_sort [30; 10; 20; 7; 1000]) 20 = true.
Proof.
  rewrite (groups_search_correct [30; 10; 20; 7; 1000] 20); [evaluate|].
  repeat constructor; done.
Defined.

(** ** Creation *)

Lemma aufs_get_inode_witness :
  wp (aufs_get_inode fsuid fsgid sb 33060 0) (λ x s', x = lone ∧
    ∃ i, inodes s' = <[x := i]> (inodes mounted) ∧ i_mode i = 33060 ∧ i_ctime i = 13) mounted.
Proof.
  eapply wp_mono.
  - apply (aufs_get_inode_correct fsuid fsgid (dext_of mounted) (iext_of mounted) sb the_sb 33060 0
      mounted); [exact mounted_vfs|compute_refl|done].
  - intros x s'. replace (alloc_fails mounted) with false by compute_refl.
    intros (-> & _ & i & E & Em & _ & _ & _ & _ & _ & Ec & _). split; [done|]. exists i.
    split; [exact E|]. rewrite Em, Ec. split; compute_refl.
Defined.

(** A negative dentry in the root of the loaded module. *)
Lemma aufs_mknod_witness :
  wp (aufs_mknod fsuid fsgid root_inode dentry_x 33060 0) (λ r s', r = 0 ∧
    i_dentry <$> inodes s' !! slab_next named_x = Some [dentry_x]) named_x.
Proof.
  eapply wp_mono.
  - apply (aufs_mknod_correct fsuid fsgid (dext_of named_x) (iext_of named_x) root_inode
      (inode_at named_x root_inode) (default the_sb (supers named_x !! sb)) dentry_x
      (dentry_at named_x dentry_x) 33060 0 named_x);
      [exact named_x_vfs|compute_refl..|evaluate].
  - intros r s'. replace (d_inode (dentry_at named_x dentry_x) =? NULL) with true by compute_refl.
    replace (alloc_fails named_x) with false by compute_refl. intros (-> & _ & _ & E). by split.
Defined.

Lemma aufs_mkdir_witness :
  wp (aufs_mkdir fsuid fsgid root_inode dentry_x 511) (λ r s', r = 0 ∧
    i_nlink <$> inodes s' !! root_inode = Some 4) named_x.
Proof.
  eapply wp_mono.
  - apply (aufs_mkdir_correct fsuid fsgid (dext_of named_x) (iext_of named_x) root_inode
      (inode_at named_x root_inode) (default the_sb (supers named_x !! sb)) dentry_x
      (dentry_at named_x dentry_x) 511 named_x);
      [exact named_x_vfs|compute_refl..|evaluate].
  - intros r s' ([_ Hr] & _ & E). assert (r = 0) as -> by (apply Hr; split; compute_refl).
    split; [done|]. rewrite E. compute_refl.
Defined.

Lemma null_resolves s : root_check root s = true → resolves s NULL root.
Proof. apply root_check_sound. Qed.

(** Memory for one dentry and not for an inode; no memory at all. *)
Definition scarce : kstate := loaded <| slab_fail := [false; true] |>.
Definition exhausted : kstate := loaded <| slab_fail := [true] |>.

Lemma scarce_vfs : vfs_inv (dext_of scarce) (iext_of scarce) scarce.
Proof. apply vfs_check_sound. vm_compute. reflexivity. Qed.
Lemma exhausted_vfs : vfs_inv (dext_of exhausted) (iext_of exhausted) exhausted.
Proof. apply vfs_check_sound. vm_compute. reflexivity. Qed.

Lemma scarce_can_create :
  can_create (cstr "x") root (dentry_at scarce root) (inode_at scarce root_inode)
    (default the_sb (supers scarce !! sb)) scarce.
Proof.
  split; [split; [compute_refl|evaluate|compute_refl..]|compute_refl|apply proper_x..|
    compute_refl| |compute_refl].
  apply absent_check_sound. compute_refl.
Qed.

Lemma create_nomem_witness :
  wp (aufs_create_by_name fsuid fsgid (cstr "x") 420 NULL 4096 0) (λ '(error, x) s',
    error = - EPERM ∧ vfs_inv (first_ref x (dext_of scarce)) (iext_of scarce) s') scarce.
Proof.
  eapply wp_mono.
  - apply (create_by_name_nomem fsuid fsgid (dext_of scarce) (iext_of scarce) (cstr "x") 420 NULL root
      (dentry_at scarce root) (inode_at scarce root_inode) (default the_sb (supers scarce !! sb))
      4096 0 scarce);
      [exact scarce_vfs|apply null_resolves; compute_refl|exact scarce_can_create|done|compute_refl].
  - by intros [e x] s' (-> & -> & Hv & _).
Defined.

Lemma create_exists_witness :
  wp (aufs_create_by_name fsuid fsgid (cstr "man_star") 420 NULL 4096 0) (λ '(error, x) s',
    error = - EEXIST ∧ vfs_inv (bump x 1 (dext_of loaded)) (iext_of loaded) s') loaded.
Proof.
  eapply wp_mono.
  - apply (create_by_name_exists fsuid fsgid (dext_of loaded) (iext_of loaded) (cstr "man_star") 420
      NULL root (dentry_at loaded root) (inode_at loaded root_inode)
      (default the_sb (supers loaded !! sb)) 4096 0 loaded) with
      (r0 := man_star) (d0 := dentry_at loaded man_star)
      (b0 := home_bucket loaded (dentry_at loaded man_star));
      [exact loaded_vfs|apply null_resolves; compute_refl|exact root_dir_ok|apply proper_man_star|
       apply proper_man_star|compute_refl..|].
    intros r d b Hr _ _.
    assert (all_check (λ _ d, negb (d_inode d =? NULL)) (dentries loaded) = true) as Hc by compute_refl.
    apply (all_check_sound _ _ _ _ Hc) in Hr. cbv beta in Hr.
    apply negb_true_iff, Z.eqb_neq in Hr. exact Hr.
  - intros [e x] s' (-> & d & _ & _ & Hv & _). by split.
Defined.

Lemma create_fault_witness :
  aufs_create_by_name fsuid fsgid (cstr "x") 420 NULL 4096 0 exhausted =
    Fault (BadPtr (ERR_PTR (- ENOMEM))).
Proof.
  apply (create_by_name_fault fsuid fsgid (dext_of exhausted) (iext_of exhausted) (cstr "x") 420 NULL
    root (dentry_at exhausted root) (inode_at exhausted root_inode) 4096 0 exhausted);
    [exact exhausted_vfs|apply null_resolves; compute_refl| |apply proper_x..|done|evaluate|done|].
  - split; [compute_refl|evaluate|compute_refl..].
  - right. split; [compute_refl|]. split; [|split; [compute_refl|done]].
    apply absent_check_sound. compute_refl.
Defined.

Lemma create_no_parent_witness :
  aufs_create_by_name fsuid fsgid (cstr "x") 420 NULL 4096 7 boot_state =
    Ok (- EFAULT, 7) (boot_state <| klog := [cstr "Ah! can not find a parent!\n"] |>).
Proof.
  rewrite (create_by_name_no_parent fsuid fsgid (cstr "x") 420 4096 7 boot_state); [done|compute_refl].
Defined.

(** ** The tree *)

Lemma lookup_refines_witness :
  wp (lookup_one_len (cstr "man_star") root 8) (λ r s', r = man_star ∧
    tree_inv (bump man_star 1 (dext_of loaded)) (iext_of loaded) sb root loaded_tree s') loaded.
Proof.
  apply (lookup_refines (dext_of loaded) (iext_of loaded) sb root loaded_tree loaded root 3
    (dir_entries root) (cstr "man_star") man_star);
    [exact loaded_holds_tree|compute_refl|exact proper_man_star|evaluate|evaluate].
Defined.

Lemma create_dir_refines_witness :
  wp (aufs_create_dir fsuid fsgid (cstr "x") man_star) (λ x s', loaded_tree !! x = None) loaded.
Proof.
  eapply wp_mono.
  - apply (aufs_create_dir_refines fsuid fsgid (dext_of loaded) (iext_of loaded) sb root loaded_tree
      loaded man_star man_star 2 (dir_entries man_star) (cstr "x"));
      [done|exact loaded_holds_tree|by left|compute_refl|exact proper_x|evaluate].
  - by intros x s' [Hx _].
Defined.

Lemma create_file_refines_witness :
  wp (aufs_create_file fsuid fsgid (cstr "x") 420 NULL 0 (Some aufs_file_operations))
    (λ x s', loaded_tree !! x = None) loaded.
Proof.
  eapply wp_mono.
  - apply (aufs_create_file_refines fsuid fsgid (dext_of loaded) (iext_of loaded) sb root loaded_tree
      loaded NULL root 3 (dir_entries root) (cstr "x") 420 0 aufs_file_operations);
      [done|exact loaded_holds_tree|by right|compute_refl|exact proper_x|evaluate|done].
  - by intros x s' [Hx _].
Defined.

Lemma populate_witness :
  wp (aufs_populate fsuid fsgid) (λ _ s', ∃ dext iext A k l,
    tree_inv dext iext sb root A s' ∧ A !! root = Some (ADir k l) ∧
    l.*1 = [cstr "man_star"; cstr "woman_star"]) mounted.
Proof.
  eapply wp_mono.
  - apply (aufs_populate_tree fsuid fsgid (dext_of mounted) (iext_of mounted) sb root mounted_tree
      mounted 1 []); [done|exact mounted_holds_tree|compute_refl|apply not_elem_of_nil..].
  - intros _ s' (w & w1 & w2 & w3 & m & m1 & m2 & m3 & dext & iext & A & Ht & _ & E & _).
    exists dext, iext, A. do 2 eexists. split; [exact Ht|]. split; [exact E|done].
Defined.

Lemma fill_super_witness :
  wp (aufs_fill_super sb 0 0) (fill_result (dext_of mounted) (iext_of mounted) sb the_sb mounted)
    mounted.
Proof.
  apply (aufs_fill_super_correct (dext_of mounted) (iext_of mounted) sb the_sb 0 0 mounted);
    [exact mounted_vfs|compute_refl|done].
Defined.

(** ** Unloading *)

Lemma loaded_aufs_tree : aufs_tree root 3 loaded_tree.
Proof.
  exists woman_star, man_star. split; [compute_refl|]. split.
  - exists (child_of loaded woman_star 2), (child_of loaded woman_star 1), (child_of loaded woman_star 0).
    split_and!; compute_refl.
  - exists (child_of loaded man_star 2), (child_of loaded man_star 1), (child_of loaded man_star 0).
    split_and!; compute_refl.
Qed.

Lemma loaded_refs x : x ≠ root → is_Some (loaded_tree !! x) → dext_of loaded x = 2.
Proof.
  intros Hx [n Hn]. apply Z.eqb_eq.
  assert (forallb (λ zn, (zn.1 =? root) || (dext_of loaded zn.1 =? 2)) (map_to_list loaded_tree) = true)
    as Hall by compute_refl.
  rewrite forallb_forall in Hall. specialize (Hall (x, n)).
  rewrite <-list_elem_of_In, elem_of_map_to_list in Hall. specialize (Hall Hn).
  apply orb_true_iff in Hall as [E|E]; [|exact E]. apply Z.eqb_eq in E. destruct (Hx E).
Qed.

Lemma unload_witness :
  wp (d_genocide root ;; shrink_dcache_parent root)
    (λ _ s', is_Some (dentries s' !! root)) loaded.
Proof.
  eapply wp_mono.
  - apply (unload_frees_nothing (dext_of loaded) (iext_of loaded) sb root 3 loaded_tree loaded);
      [exact loaded_holds_tree|exact loaded_aufs_tree| |compute_refl|exact loaded_refs].
    exists (dentry_at loaded root). split; compute_refl.
  - intros _ s' (l & _ & _ & Hs). apply Hs. constructor.
Defined.

(** ** Loading *)

Lemma boot_loadable : loadable (dext_of boot_state) (iext_of boot_state) [] aufs_type_init boot_state.
Proof.
  split; try done.
  - apply vfs_check_sound. compute_refl.
  - exact boot_table.
  - intros x [b Hb]. done.
Qed.

Lemma registered_mountable :
  mountable (dext_of registered) (iext_of registered) [aufs_type] aufs_type_init registered.
Proof.
  split; [|exact registered_table|evaluate|exact registered_type|done|done|done|done|compute_refl|
    evaluate|evaluate| |].
  - apply vfs_check_sound. compute_refl.
  - intros x [b Hb]. done.
  - done.
Qed.

Lemma init_builds_witness :
  wp (aufs_init fsuid fsgid kern_mount_v) aufs_loaded boot_state.
Proof.
  apply (init_builds fsuid fsgid kern_mount_v (λ t, eq_refl) (dext_of boot_state)
    (iext_of boot_state) [] aufs_type_init); [exact boot_loadable|apply not_elem_of_nil].
Defined.

Lemma kern_mount_witness : wp (kern_mount_v aufs_type) mounts_empty registered.
Proof.
  apply (kern_mount_correct (dext_of registered) (iext_of registered) [aufs_type] aufs_type_init).
  exact registered_mountable.
Defined.

Lemma mount_unmount_witness :
  wp (m ← kern_mount_v aufs_type; mntput m)
    (λ _ s', restored (dext_of registered) (iext_of registered) registered s') registered.
Proof.
  apply (mount_unmount (dext_of registered) (iext_of registered) [aufs_type] aufs_type_init);
    [exact registered_mountable|compute_refl|].
  intros x Hx. by apply not_elem_of_nil in Hx.
Defined.

Lemma aufs_loads_witness : wp aufs_init_v aufs_loaded boot_state.
Proof.
  apply (aufs_loads (dext_of boot_state) (iext_of boot_state) [] aufs_type_init);
    [exact boot_loadable|apply not_elem_of_nil].
Defined.

Lemma init_busy_witness :
  wp (aufs_init fsuid fsgid kern_mount_v) (λ r s', r = - EBUSY ∧ fs_table s' [aufs_type]) registered.
Proof.
  apply (init_busy fsuid fsgid kern_mount_v registered [aufs_type] aufs_type_init);
    [exact registered_table|exact registered_type|done|done|evaluate].
Defined.

(** A mount that finds no memory. *)
Lemma init_mount_fails_witness :
  wp (aufs_init fsuid fsgid (λ _, mret (ERR_PTR (- ENOMEM)))) (λ r s', r = 0 ∧ fs_table s' [])
    boot_state.
Proof.
  apply (init_mount_fails fsuid fsgid (λ _, mret (ERR_PTR (- ENOMEM))) boot_state [] aufs_type_init);
    [exact boot_table|compute_refl|done|done|apply not_elem_of_nil|].
  intros s1 _ Ht. split; [done|exact Ht].
Defined.
