(* ===== verification/UserMachine.v ===== *)
(** * A user on the loaded machine

    A task whose root and working directory are the root of the mounted aufs:
    the theorems about path names, calls on names and open files, at work. *)

From S2P Require Import Prelude KString Kernel Links Inode InodeInv Dcache DcacheInv DcacheOps VfsCheck.
From S2P Require Import Filesystems Super Mount Libfs LibfsSpec Groups Namei LookupSpec Attr Path Vfs Aufs Open.
From S2P Require Import AufsSpec AufsCreate AufsTree TreeCheck PathCount PathNames PathSpec VfsSpec RenameSpec.
From S2P Require Import Calls PermSpec AufsFile OpenSpec Boot Witnesses.

Definition aufs_mnt : ptr := Eval vm_compute in aufs_mount loaded.

Definition user_state : kstate :=
  loaded <| current ::= λ t, t <| task_fs := mkFs 18 root aufs_mnt root aufs_mnt NULL NULL |> |>
         <| user_mem := user_page |>.

Lemma user_walkable :
  walkable (dext_of user_state) (iext_of user_state) sb root loaded_tree aufs_mnt user_state.
Proof. apply walk_check_sound. compute_refl. Qed.

Lemma user_cwd : cwd_ok loaded_tree root aufs_mnt [root] (current user_state).
Proof.
  assert (loaded_tree !! root = Some (ADir 3 (dir_entries root))) as Hr by compute_refl.
  split; [|exists root, [], 3, (dir_entries root)|compute_refl|compute_refl].
  - split; [done|]. by exists 3, (dir_entries root).
  - split; [done|]. split; [exact Hr|compute_refl].
Qed.

Lemma call_cwd (t : task) : task_fs t = task_fs (current user_state) → cwd_ok loaded_tree root aufs_mnt [root] t.
Proof. intros E. destruct user_cwd as [C1 C2 C3 C4]. by split; rewrite ?E. Qed.

Definition jw_path : bytes := cstr "/man_star/./jw".
Definition lost_path : bytes := cstr "man_star/../lost/x".

Lemma jw_path_ok : path_ok jw_path.
Proof. split; [vm_compute; repeat constructor; done|vm_compute; repeat constructor; done]. Qed.

Lemma lost_path_ok : path_ok lost_path.
Proof. split; [vm_compute; repeat constructor; done|vm_compute; repeat constructor; done]. Qed.

Lemma path_lookup_witness :
  wp (path_lookup jw_path 0 nd_init) (λ res s', fst res = 0 ∧ nd_path (snd res) = (aufs_mnt, jw)) user_state ∧
  wp (path_lookup lost_path 0 nd_init) (λ res _, fst res = - ENOENT) user_state.
Proof.
  split; (eapply wp_mono;
    [apply (path_lookup_refines (dext_of user_state) (iext_of user_state) sb root loaded_tree aufs_mnt user_state [root]);
       [exact user_walkable|exact user_cwd|apply jw_path_ok || apply lost_path_ok|apply jw_path_ok || apply lost_path_ok|done]|]).
  - intros res s'. match goal with |- context [atop ?a ?b ?c] => replace (atop a b c) with (@inr Z Z jw) by compute_refl end.
    by intros (H1 & H2 & _).
  - intros res s'. match goal with |- context [atop ?a ?b ?c] => replace (atop a b c) with (@inl Z Z ENOENT) by compute_refl end.
    by intros (H1 & _).
Defined.

Lemma path_parent_witness :
  wp (path_lookup jw_path LOOKUP_PARENT nd_init) (λ res s', fst res = 0 ∧
    nd_path (snd res) = (aufs_mnt, man_star) ∧ nd_last_type (snd res) = LAST_NORM) user_state.
Proof.
  eapply wp_mono.
  - apply (path_parent_refines (dext_of user_state) (iext_of user_state) sb root loaded_tree aufs_mnt user_state [root]
      jw_path [cstr "man_star"; cstr "."] (cstr "jw"));
      [exact user_walkable|exact user_cwd|apply jw_path_ok|apply jw_path_ok|done|compute_refl].
  - intros res s'. match goal with |- context [enter ?a ?b] => replace (enter a b) with (@inr Z Z man_star) by compute_refl end.
    intros (H1 & H2 & H3 & _). split; [exact H1|]. split; [exact H2|]. rewrite H3. compute_refl.
Defined.

Lemma tree_readonly_witness :
  wp (sys_unlink vendored_iop jw_path) (λ r s', r < 0 ∧ settled user_state s') user_state ∧
  wp (do_rename vendored_iop jw_path lost_path) (λ r s', r ≤ 0 ∧ settled user_state s') user_state.
Proof.
  split; eapply wp_mono.
  - apply (tree_readonly (dext_of user_state) (iext_of user_state) sb root loaded_tree aufs_mnt user_state [root] (Unlink jw_path));
      [exact user_walkable|exact user_cwd|]. constructor; [exact jw_path_ok|constructor].
  - intros r s' ([Hr|[_ Hr]] & Hs & _); [by split|destruct Hr].
  - apply (tree_readonly (dext_of user_state) (iext_of user_state) sb root loaded_tree aufs_mnt user_state [root] (Rename jw_path lost_path));
      [exact user_walkable|exact user_cwd|]. constructor; [exact jw_path_ok|constructor; [exact lost_path_ok|constructor]].
  - intros r s' ([Hr|[-> _]] & Hs & _); split; try exact Hs; lia.
Defined.

(** ** Open files *)

Definition no_special (t : file_operations) : fop_methods := no_fops.
Definition no_cdev (c : ptr) : KM unit := mret tt.

Definition loaded_sb_spec : { b | supers loaded !! sb = Some b }.
Proof. eexists. vm_compute. reflexivity. Defined.

Lemma user_sb : supers user_state !! sb = Some (proj1_sig loaded_sb_spec).
Proof. compute_refl. Qed.

Lemma user_room : file_room sb user_state.
Proof.
  split; [left; evaluate|evaluate|compute_refl|]. intros b Hb. pose proof user_sb as E.
  assert (b = proj1_sig loaded_sb_spec) as -> by congruence. evaluate.
Qed.

Lemma jw_file :
  file_at sb loaded_tree user_state jw (dentry_at user_state jw) (inode_at loaded jw_inode) (proj1_sig loaded_sb_spec).
Proof.
  exists (i_mode (inode_at loaded jw_inode)). split; [compute_refl|]. split; first [compute_refl|evaluate].
Qed.

Lemma jw_target : target (search user_state) root loaded_tree [root] jw_path = inr jw.
Proof. compute_refl. Qed.

Lemma jw_granted mask : 0 ≤ mask < 8 → has_flag mask MAY_EXEC = false →
  granted (current user_state) (inode_at loaded jw_inode) (proj1_sig loaded_sb_spec) mask.
Proof.
  intros H1 H2. assert (mask = 0 ∨ mask = 2 ∨ mask = 4 ∨ mask = 6) as Hm.
  { unfold has_flag, MAY_EXEC in H2. assert (mask = 0 ∨ mask = 1 ∨ mask = 2 ∨ mask = 3 ∨ mask = 4 ∨ mask = 5 ∨ mask = 6 ∨ mask = 7) by lia.
    naive_solver. }
  destruct Hm as [->|[->|[->| ->]]]; unfold granted; evaluate.
Qed.

Lemma open_close_witness :
  wp (filp_open no_special no_cdev vendored_iop jw_path 0 0) (λ f t,
    wp (filp_close no_special no_cdev f) (λ r t', r = 0 ∧ settled user_state t') t) user_state.
Proof.
  eapply wp_mono.
  - apply (open_close no_special no_cdev (dext_of user_state) (iext_of user_state) sb root loaded_tree aufs_mnt
      user_state [root] jw_path 0 0);
      [exact user_walkable|exact user_cwd|exact user_room|exact jw_path_ok|by left|].
    intros x Hx. rewrite jw_target in Hx. injection Hx as <-. do 3 eexists. exact jw_file.
  - intros f t. rewrite jw_target. intros (d & i & b & Hat & [(_ & _ & _ & H)|(Hno & _)]); [exact H|exfalso].
    destruct (file_at_det _ _ _ _ _ _ _ _ _ _ jw_file Hat) as (<- & <- & <-). by apply Hno, jw_granted.
Defined.

Lemma switch_session_witness :
  wp (f ← filp_open no_special no_cdev vendored_iop jw_path 2 0;
      '(w, _) ← vfs_write no_special f 4096 1 0;
      '(r, _) ← vfs_read no_special f 4100 20 0;
      e ← filp_close no_special no_cdev f;
      mret (w, r, e)) (λ res t, res = (1, 20, 0) ∧
    user_bytes (user_mem t) 4100 20 = switch_text 0) user_state.
Proof.
  eapply wp_mono.
  - apply (switch_session no_special no_cdev (dext_of user_state) (iext_of user_state) sb root loaded_tree aufs_mnt
      user_state [root] jw_path jw (dentry_at user_state jw) (inode_at loaded jw_inode) (proj1_sig loaded_sb_spec)
      0 4096 1 48 4100 20);
      [exact user_walkable|exact user_cwd|exact user_room|exact jw_path_ok|exact jw_target|exact jw_file|by apply jw_granted|..].
    + unfold area_ok. evaluate.
    + compute_refl.
    + unfold is_byte. lia.
    + unfold area_ok. evaluate.
    + lia.
    + apply user_mapped; lia.
  - intros res t. change (if 48 =? 48 then 0 else 1) with 0. cbv zeta.
    replace (Z.of_nat (length (switch_text 0))) with 20 by compute_refl. intros (H1 & H2 & _). by split.
Defined.

(** ** Another user *)

(** A user without capabilities who does not own the module's inodes. *)
Definition other_state : kstate :=
  user_state <| current ::= λ t, set_cap_effective cap_clear (t <| fsuid := 1000 |> <| fsgid := 1000 |>) |>.

Lemma other_walkable :
  walkable (dext_of other_state) (iext_of other_state) sb root loaded_tree aufs_mnt other_state.
Proof. apply walk_check_sound. compute_refl. Qed.

Lemma other_room : file_room sb other_state.
Proof.
  split; [left; evaluate|evaluate|compute_refl|]. intros b Hb.
  assert (supers other_state !! sb = Some (proj1_sig loaded_sb_spec)) as E by compute_refl.
  rewrite E in Hb. apply (inj Some) in Hb as <-. evaluate.
Qed.

(** The directories of the tree that have the object as an entry. *)
Definition closed_check (A : atree) (s : kstate) (x : ptr) : bool :=
  all_check (λ p n,
    match n with
    | ADir _ l => negb (bool_decide (x ∈ l.*2)) ||
        match dentries s !! p with
        | Some d => match inodes s !! d_inode d with
                    | Some i => bool_decide (closed_to (current s) i)
                    | None => true
                    end
        | None => true
        end
    | AFile _ _ => true
    end) A.

Lemma closed_check_sound A s x : closed_check A s x = true → closed_above A s x.
Proof.
  intros Hc p k l name d i Hp Hin Hd Hi. pose proof (all_check_sound _ _ _ _ Hc Hp) as H. simpl in H.
  rewrite Hd, Hi in H. rewrite bool_decide_true in H; [|apply list_elem_of_fmap; by exists (name, x)].
  by apply bool_decide_eq_true in H.
Qed.

Lemma files_unreachable_witness :
  wp (filp_open no_special no_cdev vendored_iop jw_path 0 0) (λ f t, f = ERR_PTR (- EACCES) ∧ settled other_state t) other_state.
Proof.
  apply (files_unreachable no_special no_cdev (dext_of other_state) (iext_of other_state) sb root loaded_tree aufs_mnt other_state
    [root] jw_path jw (i_mode (inode_at loaded jw_inode)) aufs_file_operations 0 0 0 nd_init);
    [exact other_walkable|apply call_cwd; compute_refl|exact other_room|exact jw_path_ok|compute_refl|apply closed_check_sound; compute_refl|
     compute_refl|by left|reflexivity|reflexivity].
Defined.
