(* ===== verification/CallMachine.v ===== *)
(** * System calls on the loaded machine

    The machine of UserMachine with path names and buffers in user memory: the
    theorems about stat, chdir, getcwd, access, chmod, the guarded attribute calls
    and whole programs, at work. *)

From S2P Require Import Prelude KString Kernel Links Inode InodeInv Dcache DcacheInv DcacheOps VfsCheck.
From S2P Require Import Filesystems Super Mount Libfs LibfsSpec Groups Namei LookupSpec Attr Path Vfs Aufs Open.
From S2P Require Import Stat Calls StatSpec AufsSpec AufsCreate AufsTree TreeCheck PathCount PathNames PathSpec VfsSpec.
From S2P Require Import RenameSpec Typed PermSpec AufsFile OpenSpec CallSpec AttrSpec CwdSpec Process Boot Witnesses UserMachine.

Definition dir_path : bytes := cstr "man_star".

(** The two names at 5000 and 5100, a buffer of 128 bytes at 6000. *)
Definition call_mem : gmap Z Z :=
  list_to_map (imap (λ i c, (5000 + Z.of_nat i, c)) (jw_path ++ [0]) ++
               imap (λ i c, (5100 + Z.of_nat i, c)) (dir_path ++ [0]) ++
               ((λ i, (6000 + Z.of_nat i, 0)) <$> seq 0 128)).

Definition call_state : kstate := user_state <| user_mem := call_mem |>.

(** A user other than the owner, who may pass every directory. *)
Definition guest (t : task) : task :=
  t <| fsuid := 1000 |> <| cap_chown := false |> <| cap_fowner := false |>.
Definition guest_state : kstate := call_state <| current ::= guest |>.

Lemma call_walkable : walkable (dext_of call_state) (iext_of call_state) sb root loaded_tree aufs_mnt call_state.
Proof. apply walk_check_sound. compute_refl. Qed.

Lemma guest_walkable : walkable (dext_of guest_state) (iext_of guest_state) sb root loaded_tree aufs_mnt guest_state.
Proof. apply walk_check_sound. compute_refl. Qed.

Definition string_check (um : gmap Z Z) (a : Z) (path : bytes) : bool :=
  forallb (λ e, bool_decide (um !! fst e = Some (snd e))) (imap (λ i c, (a + Z.of_nat i, c)) (path ++ [0])) &&
  bool_decide (path ≠ []) && (Z.of_nat (length path) <? PATH_MAX) && (a + Z.of_nat (length path) <? TASK_SIZE).

Lemma string_check_sound um a path : string_check um a path = true → user_string um a path.
Proof.
  unfold string_check. rewrite !andb_true_iff, !Z.ltb_lt. intros [[[H1 H2] H3] H4]. split; [|by apply bool_decide_eq_true in H2|done..].
  intros k c Hk. rewrite forallb_forall in H1. specialize (H1 (a + Z.of_nat k, c)).
  apply bool_decide_eq_true in H1; [done|]. apply list_elem_of_In, elem_of_lookup_imap. eauto.
Qed.

Lemma jw_string : user_string (user_mem call_state) 5000 jw_path.
Proof. apply string_check_sound. compute_refl. Qed.

Lemma dir_string : user_string (user_mem call_state) 5100 dir_path.
Proof. apply string_check_sound. compute_refl. Qed.

Lemma dir_path_ok : path_ok dir_path.
Proof. split; [vm_compute; repeat constructor; done|vm_compute; repeat constructor; done]. Qed.

Lemma call_room : slab_next call_state + SLAB_STEP ≤ u32 (-1000).
Proof. evaluate. Qed.

Lemma guest_room : slab_next guest_state + SLAB_STEP ≤ u32 (-1000).
Proof. evaluate. Qed.

Lemma guest_string : user_string (user_mem guest_state) 5000 jw_path.
Proof. apply string_check_sound. compute_refl. Qed.

Lemma call_mapped n : n ≤ 128 → mapped (user_mem call_state) 6000 n.
Proof.
  intros Hn a Ha. assert (Forall (λ i, is_Some (call_mem !! (6000 + Z.of_nat i))) (seq 0 128)) as Hf by evaluate.
  rewrite Forall_forall in Hf. replace a with (6000 + Z.of_nat (Z.to_nat (a - 6000))) by lia.
  apply Hf, elem_of_seq. lia.
Qed.

Definition named_check (A : atree) : bool :=
  forallb (λ e, match snd e with
    | ADir _ l => forallb (λ e, bool_decide (component (fst e) ∧ short (fst e) ∧ fst e ≠ dot ∧ fst e ≠ dotdot)) l
    | AFile _ _ => true
    end) (map_to_list A).

Lemma named_check_sound A : named_check A = true → well_named A.
Proof.
  unfold named_check. rewrite forallb_forall. intros H p k l name x Hp Hx.
  specialize (H (p, ADir k l)). rewrite <-list_elem_of_In, elem_of_map_to_list in H. specialize (H Hp). simpl in H.
  rewrite forallb_forall in H. specialize (H (name, x)). rewrite <-list_elem_of_In in H. specialize (H Hx).
  by apply bool_decide_eq_true in H.
Qed.

Lemma loaded_named : well_named loaded_tree.
Proof. apply named_check_sound. compute_refl. Qed.

(** ** The theorems *)

Lemma call_target : target (search call_state) root loaded_tree [root] jw_path = inr jw.
Proof. compute_refl. Qed.

Lemma guest_target : target (search guest_state) root loaded_tree [root] jw_path = inr jw.
Proof. compute_refl. Qed.

Lemma stat_witness :
  wp (sys_stat64 5000 6000) (λ r t, r = 0 ∧ user_field (user_mem t) 6016 4 = i_mode (inode_at loaded jw_inode)) call_state.
Proof.
  eapply wp_mono.
  - apply (stat_refines (dext_of call_state) (iext_of call_state) sb root loaded_tree aufs_mnt call_state [root] 5000 jw_path 6000);
      [exact call_walkable|apply call_cwd; compute_refl|exact call_room|exact jw_string|exact jw_path_ok|apply call_mapped; lia].
  - intros r t. rewrite call_target. intros (H1 & _ & _ & n & d & i & b & HA & Hs & _). split; [exact H1|].
    assert (loaded_tree !! jw = Some (AFile (i_mode (inode_at loaded jw_inode)) aufs_file_operations)) as E by compute_refl.
    rewrite E in HA. apply (inj Some) in HA as <-. exact Hs.
Defined.

Lemma chdir_witness :
  wp (sys_chdir 5100) (λ r t, r = 0 ∧ fs_pwd (task_fs (current t)) = man_star) call_state.
Proof.
  eapply wp_mono.
  - apply (chdir_refines (dext_of call_state) (iext_of call_state) sb root loaded_tree aufs_mnt call_state root [] 5100 dir_path);
      [exact call_walkable|apply call_cwd; compute_refl|exact call_room|exact dir_string|exact dir_path_ok|evaluate].
  - intros r t. match goal with |- context [enter ?a ?b] => replace (enter a b) with (@inr Z Z man_star) by compute_refl end.
    intros (H1 & _ & _ & anc & [_ (p & anc' & k & l & E & _ & Hp) _ _]). split; [exact H1|]. injection E as <- _. exact Hp.
Defined.

(** In a directory below the root. *)
Definition man_state : kstate :=
  call_state <| current ::= λ t, t <| task_fs := mkFs 18 root aufs_mnt man_star aufs_mnt NULL NULL |> |>.

Lemma man_walkable : walkable (dext_of man_state) (iext_of man_state) sb root loaded_tree aufs_mnt man_state.
Proof. apply walk_check_sound. compute_refl. Qed.

Lemma man_cwd : cwd_ok loaded_tree root aufs_mnt [man_star; root] (current man_state).
Proof.
  assert (loaded_tree !! root = Some (ADir 3 (dir_entries root))) as Hr by compute_refl.
  assert (loaded_tree !! man_star = Some (ADir 2 (dir_entries man_star))) as Hm by compute_refl.
  split; [|exists man_star, [root], 2, (dir_entries man_star)|compute_refl|compute_refl].
  - split_and!; [by eauto|exists 3, (dir_entries root), (cstr "man_star"); split; [exact Hr|]|split; [done|by exists 3, (dir_entries root)]].
    assert (bool_decide ((cstr "man_star", man_star) ∈ dir_entries root) = true) as E by compute_refl.
    by apply bool_decide_eq_true in E.
  - split; [done|]. split; [exact Hm|compute_refl].
Qed.

Lemma man_room : slab_next man_state + SLAB_STEP ≤ u32 (-1000).
Proof. evaluate. Qed.

Lemma man_mapped : mapped (user_mem man_state) 6000 128.
Proof. assert (user_mem man_state = user_mem call_state) as -> by compute_refl. by apply call_mapped. Qed.

Lemma getcwd_witness :
  cwd_text loaded_tree [man_star; root] = cstr "/man_star" ∧
  wp (sys_getcwd 6000 128) (λ r t, r = 10 ∧ user_bytes (user_mem t) 6000 10 = cstr "/man_star" ++ [0]) man_state.
Proof.
  assert (cwd_text loaded_tree [man_star; root] = cstr "/man_star") as E by compute_refl. split; [exact E|].
  destruct (getcwd_roundtrip (dext_of man_state) (iext_of man_state) sb root loaded_tree aufs_mnt man_state man_star [root] 6000 128
    man_walkable man_cwd loaded_named man_room man_mapped) as [_ Hwp].
  eapply wp_mono; [exact Hwp|]. rewrite E. intros r t [_ H].
  replace (Z.of_nat (length (cstr "/man_star")) + 1) with 10 in H by compute_refl.
  change (PAGE_SIZE <? 10) with false in H. change (128 <? 10) with false in H. cbv iota in H.
  destruct H as (H1 & H2 & _). by split.
Defined.

Lemma jw_unique (s : kstate) d i :
  dentries s !! jw = Some (dentry_at user_state jw) →
  inodes s !! d_inode (dentry_at user_state jw) = Some (inode_at loaded jw_inode) →
  dentries s !! jw = Some d → inodes s !! d_inode d = Some i → d = dentry_at user_state jw ∧ i = inode_at loaded jw_inode.
Proof. intros E1 E2 Hd Hi. rewrite E1 in Hd. apply (inj Some) in Hd as <-. rewrite E2 in Hi. by apply (inj Some) in Hi as <-. Qed.

Lemma guest_stranger x d i :
  target (search guest_state) root loaded_tree [root] jw_path = inr x → dentries guest_state !! x = Some d →
  inodes guest_state !! d_inode d = Some i → stranger (current guest_state) i ∧ plain_inode i.
Proof.
  intros Hx Hd Hi. rewrite guest_target in Hx. injection Hx as <-.
  destruct (jw_unique guest_state d i) as [-> ->]; [compute_refl|compute_refl|done|done|].
  split; [unfold stranger; evaluate|split; compute_refl].
Qed.

Lemma guarded_witness :
  wp (sys_chmod 5000 511) (λ r t, r < 0 ∧ settled guest_state t) guest_state ∧
  wp (sys_chown 5000 1000 1000) (λ r t, r < 0 ∧ settled guest_state t) guest_state.
Proof.
  split; eapply wp_mono.
  - apply (attributes_guarded (dext_of guest_state) (iext_of guest_state) sb root loaded_tree aufs_mnt guest_state [root]
      jw_path (Chmod 5000 511));
      [exact guest_walkable|apply call_cwd; compute_refl|exact guest_room|exact guest_string|exact jw_path_ok|exact guest_stranger].
  - intros r t [H|(_ & H & _)]; [exact H|destruct H; exact I].
  - apply (attributes_guarded (dext_of guest_state) (iext_of guest_state) sb root loaded_tree aufs_mnt guest_state [root]
      jw_path (Chown 5000 1000 1000));
      [exact guest_walkable|apply call_cwd; compute_refl|exact guest_room|exact guest_string|exact jw_path_ok|exact guest_stranger].
  - intros r t [H|(_ & H & _)]; [exact H|destruct H; by left].
Defined.

Lemma jw_chmodable :
  chmodable jw (dentry_at user_state jw) (inode_at loaded jw_inode) (proj1_sig loaded_sb_spec) call_state.
Proof. split; [compute_refl|compute_refl|compute_refl|left; compute_refl|compute_refl|compute_refl|split; compute_refl]. Qed.

Lemma chmod_witness :
  wp (sys_chmod 5000 384) (λ r t, r = 0 ∧
    ∃ A, A !! jw = Some (AFile (Z.lor S_IFREG 384) aufs_file_operations) ∧
      tree_shape (dext_of call_state) (iext_of call_state) sb root A t) call_state.
Proof.
  eapply wp_mono.
  - apply (chmod_refines (dext_of call_state) (iext_of call_state) sb root loaded_tree aufs_mnt call_state [root] 5000 jw_path
      jw (AFile (i_mode (inode_at loaded jw_inode)) aufs_file_operations) (dentry_at user_state jw) (inode_at loaded jw_inode)
      (proj1_sig loaded_sb_spec) 384);
      [exact call_walkable|apply call_cwd; compute_refl|exact call_room|exact jw_string|exact jw_path_ok|exact call_target|compute_refl|exact jw_chmodable].
  - cbv zeta. intros r t (H1 & _ & _ & H2). split; [exact H1|].
    replace (chmod_mode (current call_state) (inode_at loaded jw_inode) 384) with (Z.lor S_IFREG 384) in H2 by compute_refl.
    eexists. split; [|exact (wk_tree _ _ _ _ _ _ _ H2)]. apply lookup_insert_eq.
Defined.

Lemma access_witness :
  wp (sys_access 5000 4) (λ r t, r = 0 ∧ settled call_state t) call_state.
Proof.
  eapply wp_mono.
  - apply (access_real (dext_of call_state) (iext_of call_state) sb root loaded_tree aufs_mnt call_state [root] 5000 jw_path 4);
      [exact call_walkable|apply call_cwd; compute_refl|exact call_room|exact jw_string|exact jw_path_ok|lia].
  - intros r t. assert (target (search (call_state <| current ::= real_ids |>)) root loaded_tree [root] jw_path = inr jw) as E by compute_refl.
    rewrite E. intros (Hs & _ & d & i & b & Hd & Hi & Hb & Hg). split; [|exact Hs]. apply Hg.
    destruct (jw_unique call_state d i) as [-> ->]; [compute_refl|compute_refl|done|done|].
    split; [left; compute_refl|]. intros H. discriminate H.
Defined.

(** ** Programs *)

Definition plain_check (s : kstate) (x : ptr) (n : anode) : bool :=
  match dentries s !! x with
  | Some d => match inodes s !! d_inode d with
      | Some i => bool_decide (i_hash i = Unlinked) && negb (S_ISBLK (i_mode i)) &&
          (is_adir n || (bool_decide (i_fop i = aufs_file_operations) && S_ISREG (i_mode i) && (i_flags i =? 0) &&
                         (i_cdev i =? NULL) && (0 <=? i_writecount i)))
      | None => true
      end
  | None => true
  end.

Lemma plain_check_sound s x n d i :
  plain_check s x n = true → dentries s !! x = Some d → inodes s !! d_inode d = Some i →
  plain_inode i ∧ (is_adir n = false → file_inode i).
Proof.
  unfold plain_check. intros Hc Hd Hi. rewrite Hd, Hi in Hc. bool_to_prop. split; [by split|].
  intros E. rewrite E in *. simpl in *. bool_to_prop. by split.
Qed.

Lemma call_running : running (iext_of call_state) sb root aufs_mnt (dext_of call_state) loaded_tree [root] call_state.
Proof.
  split; [exact call_walkable|apply call_cwd; compute_refl|exact loaded_named|..].
  - intros x [n Hx]. assert (all_check (λ x _, 1 <=? dext_of call_state x) loaded_tree = true) as Hc by compute_refl.
    apply Z.leb_le. exact (all_check_sound _ _ _ _ Hc Hx).
  - evaluate.
  - intros x n d i Hx. apply plain_check_sound. assert (all_check (plain_check call_state) loaded_tree = true) as Hc by compute_refl.
    exact (all_check_sound _ _ _ _ Hc Hx).
  - intros b Hb. assert (supers call_state !! sb = Some (proj1_sig loaded_sb_spec)) as E by compute_refl.
    rewrite E in Hb. apply (inj Some) in Hb as <-. split; [compute_refl|evaluate].
  - intros f Hf. assert (files call_state = ∅) as E by compute_refl. rewrite E, lookup_empty in Hf. exfalso. destruct Hf as [? Hf]. discriminate Hf.
Qed.

(** The program goes to a directory. *)
Definition chdir_state : kstate := run (sys_chdir 5100) call_state.


Lemma space_witness :
  wp (inode_add_bytes jw_inode 1000 ;; n ← inode_get_bytes jw_inode; j ← get_inode jw_inode;
      inode_sub_bytes jw_inode 1000 ;; mret (n, j)) (λ '(n, j) t, n = 1000 ∧ t = loaded) loaded.
Proof.
  eapply wp_mono.
  - apply (space_accounting jw_inode (inode_at loaded jw_inode) 1000 loaded); [compute_refl|unfold space_ok; evaluate|lia|evaluate].
  - intros [n j] t. replace (used (inode_at loaded jw_inode)) with 0 by compute_refl. intros (H1 & _ & H3). by split.
Defined.
